(* ===== verification/_CoqProject ===== *)
-Q . S2P
Prelude.v
JsString.v
BigNumber.v
Constants.v
MathUtils.v
SolMath.v
Script.v
FeeUtils.v
NavUtils.v
UnitsUtils.v
UniswapUtils.v
Dependencies.v
Deployer.v
Constructors.v
DeployCoreContracts.v
DeployModules.v
DeployLibraries.v
DeployMocks.v
DeployExternalContracts.v
DeployAdapters.v
DeployViewers.v
DeployProduct.v
DeployOracles.v
DeployHelper.v
AddressArrayUtils.v
Controller.v
Blockchain.v
Sandbox.v
AdapterUtils.v
BuildTasks.v
HardhatConfig.v
Accounts.v
Ledger.v
SystemFixture.v
PerpV2Fixture.v
PerpUtils.v
Erc20.v
SetToken.v
IntegrationRegistry.v
World.v
SetTokenCreator.v
Position.v
Tokens.v
Holdings.v
Exchange.v
StreamingFee.v
AuctionPrice.v
AuctionRebalance.v
AuctionSample.v
AuctionTheorems.v
AuctionState.v
AuctionTargets.v
BasicIssuance.v
DebtIssuance.v
DebtUnits.v
DebtSettings.v
DebtHooks.v
DebtIssuanceV2.v
PriceOracle.v
SetValuer.v
NavIssuance.v
NavTheorems.v
NavSettings.v
NavSample.v
Trade.v
Airdrop.v
Wrap.v
GeneralIndex.v
IndexTheorems.v
IndexState.v
IndexSample.v
