(* ===== verification/Prelude.v ===== *)
(** * Index Protocol: a verification of its contracts and its tool chain

    The repository ([src/index-protocol/]) holds the contracts of a protocol for
    tokenised baskets and the TypeScript code that deploys, drives and predicts
    them.  This library models the core of the contracts, the auctions through
    which a basket is rebalanced above all, and the TypeScript code, and proves
    what makes them correct.

    ** The system

    A set is a token ([SetToken.sol]) that holds components.  Its positions are
    virtual units, which the position multiplier turns into the real units held per
    token.  The manager of the set adds modules that the controller
    ([Controller.sol]) has enabled; modules change the positions, mint and burn,
    lock the set, and call other contracts on its behalf.  The controller also
    keeps the factories, the sets, the resources and the fees.  Modules share the
    libraries of [protocol/lib]: guards ([ModuleBase.sol]), calls from the set
    ([Invoke.sol]) and edits of positions ([Position.sol]).  The auction module
    ([AuctionRebalanceModuleV1.sol]) sells components for a quote asset or buys
    them with it, at a price an adapter gives, until the units meet their targets.
    Issuance modules mint tokens against the components and burn them for what they
    stand for ([BasicIssuanceModule.sol]), with fees, debts and the hooks of other
    modules ([DebtIssuanceModule.sol], [DebtIssuanceModuleV2.sol]), or against one
    reserve asset at the net asset value ([CustomOracleNAVIssuanceModule.sol]), which
    [SetValuer.sol] computes from the prices of [PriceOracle.sol].  Components are
    traded ([TradeModule.sol], and [GeneralIndexModule.sol] towards the targets of a
    rebalance) and wrapped ([WrapModuleV2.sol]) through adapters, and
    what a set was sent becomes a position ([AirdropModule.sol]).

    ** Files

    Shared: this file has the results of fallible code, integer and list lemmas;
    JsString the strings, digits and objects of the language; BigNumber the integers
    of the big number library; Constants the constants and types
    ([utils/constants.ts], [utils/types.ts]); Script asynchronous programs against a
    chain.

    Contracts:
    - SolMath: [lib/PreciseUnitMath.sol] on 256-bit words, SafeMath written out,
      SignedSafeMath and SafeCast by the interface [SignedLib];
    - AddressArrayUtils: [lib/AddressArrayUtils.sol];
    - Controller: [protocol/Controller.sol], one operation per function;
    - Erc20: the inherited token with its transactions, by the interface [ERC20];
    - SetToken: [protocol/SetToken.sol]: [State], one definition per function,
      [operation] and [execute] for a transaction; [transition] steps a set and the
      calls it waits for, so that others act on it between the checks of an invocation
      or a removal and its effects;
    - IntegrationRegistry: [protocol/IntegrationRegistry.sol];
    - World: the controller, the sets, the registries, the time and an environment;
      transactions [tx] that read and change them and revert as a whole; the calls of
      other contracts by the interface [External]; [Invoke.sol], [ModuleBase.sol],
      [ResourceIdentifier.sol], [ExplicitERC20.sol]; the reentrancy guard;
    - SetTokenCreator: [protocol/SetTokenCreator.sol];
    - Position: [protocol/lib/Position.sol];
    - StreamingFee (and the computations in FeeUtils):
      [modules/v1/StreamingFeeModule.sol];
    - AuctionPrice: the four adapters of [integration/auction-price/];
    - AuctionRebalance: [modules/v1/AuctionRebalanceModuleV1.sol]; AuctionSample has
      a concrete rebalance, AuctionTheorems the bids, AuctionState the invariant of
      the storage, AuctionTargets the targets, the lock and the start;
    - Tokens: what the modules share about the token of a set: balances of bearers,
      mints, burns, and when a set is collateralized;
    - Holdings: the balances of an account other than the set, through transfers;
    - BasicIssuance: [modules/v1/BasicIssuanceModule.sol];
    - DebtIssuance: [modules/v1/DebtIssuanceModule.sol]; DebtUnits has the amounts and
      the fees, DebtSettings the invariant of its storage; DebtIssuanceV2:
      [modules/v1/DebtIssuanceModuleV2.sol] and [IssuanceValidationUtils.sol];
      DebtHooks: what the module relies on of the hooks of external positions;
    - PriceOracle and SetValuer: [protocol/PriceOracle.sol], [protocol/SetValuer.sol];
    - NavIssuance: [modules/v1/CustomOracleNAVIssuanceModule.sol], whose computations
      are in NavUtils; NavTheorems has the exchanges and the views, NavSettings the
      invariant of the storage, NavSample a concrete set with the deployed valuer;
    - Exchange: what the modules share that exchange holdings of a set: calls that
      spare its other tokens, sets that cover their claims, edits of two positions;
    - Trade: [modules/v1/TradeModule.sol]; Wrap: [modules/v1/WrapModuleV2.sol];
      Airdrop: [modules/v1/AirdropModule.sol];
    - GeneralIndex: [modules/v1/GeneralIndexModule.sol]; IndexTheorems has the trades,
      IndexState the invariant of the storage, IndexSample a concrete rebalance.

    TypeScript ([utils/] and [tasks/]): MathUtils, FeeUtils, NavUtils, UnitsUtils,
    UniswapUtils, AdapterUtils, Blockchain and PerpUtils for [utils/common]; Dependencies, Deployer,
    Constructors, DeployCoreContracts, DeployModules, DeployLibraries, DeployMocks,
    DeployExternalContracts, DeployAdapters, DeployViewers, DeployProduct,
    DeployOracles and DeployHelper for [utils/deploys]; Accounts and Sandbox for
    [utils/test]; Ledger, SystemFixture and PerpV2Fixture for [utils/fixtures];
    BuildTasks and HardhatConfig for the build.

    ** Interfaces

    Code outside the repository is the argument of what uses it: [ERC20],
    [SignedLib], [FixedPointMath] (the exponential and the logarithm), [External]
    (tokens and other targets), [ReentrancyGuard], [Keccak], [IModule], [Ethers],
    the owner check, the price adapters that are deployed, the addresses of new
    contracts.  Their laws are documented behaviour of that code, and each has a
    concrete instance with which the witnesses compute: [ERC20_book],
    [SignedLib_Z], [External_bank], [toy_keccak], [FixedPointMath_tangent].
    [FeeStorage], [AuctionStorage], [IssuanceStorage], [DebtStorage], [NavStorage],
    [AirdropStorage] and [IndexStorage]
    say where the environment keeps the storage of a module; [Isolated] says that a
    transfer of a token leaves the set and its other holdings alone, [Accounting] that
    it changes the balance of an account by the quantity moved.  [External] and
    [IModule] let a call, and a module that is being removed, change the sets in any
    way that transactions on them can ([sets_evolve]).  The hooks of the issuance
    modules are [IManagerIssuanceHook], [IModuleIssuanceHook] and [INAVIssuanceHook];
    [LendingHooks] says that the hook of an external position moves its component only
    and takes no more of it than the position accounts for, [Unbilled] that it leaves
    the holdings of an account alone, and a pool that lends is an instance of both;
    [Payable] is what the NAV module does in ether.  Price feeds are [PriceSources];
    the valuer is proved against [IPriceOracle] and [Decimals], and the NAV module
    against [ISetValuer]: the deployed oracle and valuer are instances
    ([DeployedOracle], [DeployedValuer]).  Exchanges and wrappers are called with what
    their adapters encode ([IExchangeAdapter], [IWrapV2Adapter],
    [IIndexExchangeAdapter]); that such a call touches the tokens it is for only is
    [Exchanging], [Wrapping] and [IndexExchanging], [Approving] says it of approvals,
    [IndexApart] that no balance is kept in the storage of the index module, [Ether] is the ether of an account.

    ** What is shown

    - Sets: every state that transactions reach is consistent, those made by the
      targets of invocations and by modules under removal included; units are read back within a bound
      and never lost; a new multiplier leaves no position at zero; [getPositions] fills
      its array exactly; the factory registers a consistent set.
    - Positions: the array of components lists exactly those with a position; after
      an edit the units claim no more than the balance, and what was untracked stays so.
    - Auctions: a bid moves the quantities of the auction, within the bidder's limit,
      between the balances of the set and the bidder, and keeps the set collateralized
      and consistent, for tokens that do not call back into the set;
      no bid passes a target; the start records what it was given; targets only
      rise; the set is released under the stated conditions only, and when the time
      is up unless the evaluation of the early conditions reverts, a case that is
      characterised; the history of bidders lists exactly the permitted ones.
    - Prices: configurations are validated as they are encoded, prices stay within
      their bounds and move one way.
    - Issuance: exchanges against components keep a set collateralized in any sequence
      and can be undone; with external positions and debts too an issuance and a
      redemption leave it collateralized whatever the transfers moved; fees and amounts,
      and what an issuance takes against its preview; who is registered as a hook.
    - Issuance at net asset value: the set stays backed in any sequence of exchanges,
      neither side is paid more than the valuation says, in the balances of the set,
      the payer and the recipient; the views announce what the exchanges do, the
      settings stay valid.
    - Trades, wraps and airdrops: in any sequence a set goes on covering what its tokens
      claim; a trade keeps to its terms; an absorption leaves nothing untracked but
      rounding.
    - Index trades: they keep a set covered too; who may trade what and when, how much
      of it; the ether left is spent within the targets; the history of traders lists
      exactly the permitted ones.
    - Prices of assets: which price is found, that no round trip through the oracle
      gains, what is listed; a valuation is the sum of what the positions are worth.
    - Streaming fees: an accrual mints what the tool chain predicts, to the two
      recipients, and never increases what the holders can claim; the parameters stay
      valid.
    - Controller and arrays: what is flagged is listed in every reachable state, and
      arrays and flags agree when it is initialized without duplicates; registration
      can be undone, the two removals agree.
    - Arithmetic: the functions of the contracts and of the tool chain agree on words
      and differ where stated; powers, rounding and overflow.
    - Tool chain: predictions of fees and of issuance against the contracts,
      constructors against deployments, test isolation, the initialised system,
      encodings, build tasks.

    ** Bounds and fuel

    Solidity integers are integers with their range: [is_uint] and [is_int] are
    hypotheses on inputs, arithmetic wraps ([wrap_uint]) or reverts as the source
    does.  Loops of contracts recurse on the array they run over.  [digits] has the
    bit length as fuel, which bounds the number of digits ([digits_fuel_ok]); [sqrt]
    has its argument plus two as fuel, and its candidate falls at every step; the search for a token
    address in the perpetual fixture takes the number of deployments it may make and
    says when it ran out.

    ** Not modelled

    Gas, events as such (a transaction returns the payload where a theorem needs
    it), and the storage layout.  The other modules (leverage,
    staking, governance, claim), which share the set, the
    libraries and the guards modelled here.  The adapters that encode calls
    of external protocols, and the external protocols and mocks themselves.  Fixtures
    of external protocols, which are sequences of their deployments.  Files that only
    re-export or name types, templates and configuration of the linter. *)
From Stdlib Require Export ZArith Lia.
From stdpp Require Export base tactics numbers option list strings gmap.
#[export] Set Default Goal Selector "!".
Open Scope Z_scope.

(** ** Results of fallible code *)

(** What a TypeScript expression can throw: a numeric fault of the big number
    library, a [TypeError] of the language, an [Error] constructed by the
    program, or a transaction the chain reverts. *)
Inductive jserror :=
| NumericFault (fault operation : string)
| TypeError (what : string)
| Error (message : string)
| Revert (reason : string).

#[export] Instance jserror_eq_dec : EqDecision jserror.
Proof. solve_decision. Defined.

Inductive result (A : Type) :=
| Ok (a : A)
| Throw (e : jserror).
Arguments Ok {A} a.
Arguments Throw {A} e.

#[export] Instance result_ret : MRet result := fun A a => Ok a.
#[export] Instance result_bind : MBind result := fun A B f r =>
  match r with Ok a => f a | Throw e => Throw e end.
#[export] Instance result_fmap : FMap result := fun A B f r =>
  match r with Ok a => Ok (f a) | Throw e => Throw e end.

#[export] Instance result_eq_dec {A} `{EqDecision A} : EqDecision (result A).
Proof. solve_decision. Defined.

(** [require(b, reason)] of Solidity. *)
Definition require (b : bool) (reason : string) : result () :=
  if b then Ok () else Throw (Revert reason).

Definition is_ok {A} (r : result A) : bool :=
  match r with Ok _ => true | Throw _ => false end.

Definition thrown {A} (r : result A) : option jserror :=
  match r with Ok _ => None | Throw e => Some e end.

(** ** Automation *)

Create Rewrite HintDb bn.
Create Rewrite HintDb sol.
Create HintDb uint discriminated.

Lemma result_bind_ok {A B} (f : A → result B) (r : result A) (b : B) :
  (r ≫= f) = Ok b ↔ ∃ a, r = Ok a ∧ f a = Ok b.
Proof.
  destruct r; unfold mbind, result_bind; split.
  - eauto.
  - by intros (? & [= ->] & H).
  - done.
  - by intros (? & ? & _).
Qed.

Lemma result_bind_throw {A B} (f : A → result B) (r : result A) (e : jserror) :
  (r ≫= f) = Throw e ↔ r = Throw e ∨ ∃ a, r = Ok a ∧ f a = Throw e.
Proof.
  destruct r; unfold mbind, result_bind; split.
  - intros H. right. eauto.
  - by intros [?|(? & [= ->] & H)].
  - intros [= ->]. by left.
  - by intros [[= ->]|(? & ? & _)].
Qed.

Lemma require_ok (b : bool) (reason : string) (u : ()) :
  require b reason = Ok u ↔ b = true.
Proof. by destruct b, u. Qed.

Lemma require_true (b : bool) (reason : string) : b = true → require b reason = Ok ().
Proof. by intros ->. Qed.

(** Splits a successful run of the result monad into its steps. *)
Ltac result_inv :=
  repeat match goal with
  | H : (?r ≫= _) = Ok _ |- _ =>
      apply result_bind_ok in H; destruct H as (? & ? & H); cbn beta in H
  | H : Ok _ = Ok _ |- _ => injection H as H; subst
  | H : mret _ = Ok _ |- _ => unfold mret, result_ret in H
  | H : require _ _ = Ok _ |- _ => apply require_ok in H
  | H : Throw _ = Ok _ |- _ => discriminate H
  end.

(** Closes a conjunction of closed equations by evaluation. *)
Ltac computed := repeat split; vm_compute; reflexivity.

(** ** Integer division *)

(** [Forall2_impl] where the elements of the first list are known. *)
Lemma Forall2_impl_in {A B} (P Q : A → B → Prop) (l : list A) (k : list B) :
  Forall2 P l k → (∀ x y, x ∈ l → P x y → Q x y) → Forall2 Q l k.
Proof.
  induction 1 as [|x y l k Hxy _ IH]; intros HQ; constructor.
  - apply HQ; [apply list_elem_of_here|done].
  - apply IH. intros a b Ha. apply HQ. by apply list_elem_of_further.
Qed.

(** The smallest integer not below [a / b]. *)
Definition ceil_div (a b : Z) : Z := - ((- a) / b).

(** Division rounded away from zero. *)
Definition away_div (a b : Z) : Z := Z.sgn a * Z.sgn b * ceil_div (Z.abs a) (Z.abs b).

(** The truncated quotient moved one step away from zero unless it is exact. *)
Definition step_away (p b : Z) : Z :=
  if Z.quot p b * b =? p then Z.quot p b
  else if (0 <? p) && (0 <? b) || (p <? 0) && (b <? 0) then Z.quot p b + 1
  else Z.quot p b - 1.

Lemma ceil_div_unique (a b q : Z) : 0 < b → (q - 1) * b < a ≤ q * b → q = ceil_div a b.
Proof.
  intros Hb Hq. unfold ceil_div.
  pose proof (Z.div_unique (- a) b (- q) (q * b - a)). lia.
Qed.

Lemma ceil_div_bounds (a b : Z) : 0 < b → (ceil_div a b - 1) * b < a ≤ ceil_div a b * b.
Proof.
  intros Hb. unfold ceil_div.
  pose proof (Z.div_mod (- a) b). pose proof (Z.mod_pos_bound (- a) b). nia.
Qed.

(** The idiom [(a - 1) / b + 1] of the sources is the ceiling for positive [a]. *)
Lemma ceil_div_pred (a b : Z) : 0 < a → 0 < b → Z.quot (a - 1) b + 1 = ceil_div a b.
Proof.
  intros Ha Hb. apply ceil_div_unique; [done|].
  rewrite Z.quot_div_nonneg by lia.
  pose proof (Z.div_mod (a - 1) b). pose proof (Z.mod_pos_bound (a - 1) b). nia.
Qed.

Lemma ceil_div_mono (a a' b : Z) : 0 < b → a ≤ a' → ceil_div a b ≤ ceil_div a' b.
Proof. intros Hb Ha. unfold ceil_div. pose proof (Z.div_le_mono (- a') (- a) b Hb). lia. Qed.

Lemma ceil_div_0 (b : Z) : ceil_div 0 b = 0.
Proof. by destruct b. Qed.

Lemma quot_opp_l_away (a b : Z) : 0 < a → 0 < b → Z.quot (- a + 1) b - 1 = - ceil_div a b.
Proof.
  intros Ha Hb. replace (- a + 1) with (- (a - 1)) by lia.
  rewrite Z.quot_opp_l by lia. pose proof (ceil_div_pred a b). lia.
Qed.

(** Truncation brackets: [Z.quot] by a positive divisor stays within one of the
    quotient and never exceeds the dividend in magnitude. *)
Lemma quot_bounds (a b : Z) : 0 ≤ a → 0 < b → Z.quot a b * b ≤ a < (Z.quot a b + 1) * b.
Proof.
  intros Ha Hb. rewrite Z.quot_div_nonneg by lia.
  pose proof (Z.div_mod a b). pose proof (Z.mod_pos_bound a b). nia.
Qed.

Lemma quot_floor (a b : Z) : 0 ≤ a → 0 < b → Z.quot a b = a / b.
Proof. intros. apply Z.quot_div_nonneg; lia. Qed.

Lemma quot_abs_le (a b : Z) : 0 < b → Z.abs (Z.quot a b) ≤ Z.abs a.
Proof.
  intros Hb. rewrite <- Z.quot_abs by lia. rewrite (Z.abs_eq b) by lia.
  apply Z.quot_le_upper_bound; nia.
Qed.

Lemma quot_away_same_sign (p b : Z) :
  p ≠ 0 → 0 < b → (if 0 <? p then Z.quot (p - 1) b + 1 else Z.quot (p + 1) b - 1)
    = Z.sgn p * ceil_div (Z.abs p) b.
Proof.
  intros Hp Hb. destruct (Z.ltb_spec 0 p).
  - rewrite Z.sgn_pos, Z.abs_eq, ceil_div_pred by lia. lia.
  - rewrite Z.sgn_neg, Z.abs_neq by lia.
    replace (p + 1) with (- (- p) + 1) by lia. rewrite quot_opp_l_away by lia. lia.
Qed.

Lemma quot_step_nonneg (p b : Z) :
  0 ≤ p → 0 < b →
  Z.quot p b + (if Z.quot p b * b =? p then 0 else 1) = ceil_div p b.
Proof.
  intros Hp Hb. apply ceil_div_unique; [done|]. pose proof (quot_bounds p b Hp Hb).
  destruct (Z.eqb_spec (Z.quot p b * b) p); nia.
Qed.

Lemma step_away_opp_l (p b : Z) : b ≠ 0 → step_away (- p) b = - step_away p b.
Proof.
  intros Hb. unfold step_away. rewrite Z.quot_opp_l by done.
  destruct (Z.eqb_spec (- Z.quot p b * b) (- p)), (Z.eqb_spec (Z.quot p b * b) p); try lia.
  assert (p ≠ 0) by (intros ->; rewrite Z.quot_0_l in * by done; lia).
  destruct (Z.ltb_spec 0 p), (Z.ltb_spec 0 b), (Z.ltb_spec p 0), (Z.ltb_spec b 0),
    (Z.ltb_spec 0 (- p)), (Z.ltb_spec (- p) 0); cbn; lia.
Qed.

Lemma step_away_opp_r (p b : Z) : b ≠ 0 → step_away p (- b) = - step_away p b.
Proof.
  intros Hb. unfold step_away. rewrite Z.quot_opp_r by done.
  destruct (Z.eqb_spec (- Z.quot p b * - b) p), (Z.eqb_spec (Z.quot p b * b) p); try lia.
  assert (p ≠ 0) by (intros ->; rewrite Z.quot_0_l in * by done; lia).
  destruct (Z.ltb_spec 0 p), (Z.ltb_spec 0 b), (Z.ltb_spec p 0), (Z.ltb_spec b 0),
    (Z.ltb_spec 0 (- b)), (Z.ltb_spec (- b) 0); cbn; lia.
Qed.

Lemma step_away_nonneg (p b : Z) : 0 ≤ p → 0 < b → step_away p b = away_div p b.
Proof.
  intros Hp Hb. unfold step_away, away_div. pose proof (quot_step_nonneg p b Hp Hb) as Q.
  rewrite (Z.sgn_pos b), !Z.abs_eq by lia.
  destruct (decide (p = 0)) as [->|]; [by rewrite Z.quot_0_l by lia|].
  rewrite (Z.sgn_pos p) by lia.
  destruct (Z.quot p b * b =? p), (Z.ltb_spec 0 p), (Z.ltb_spec 0 b); cbn; lia.
Qed.

(** One step away from zero after an inexact truncated division. *)
Lemma quot_step_away (p b : Z) : b ≠ 0 → step_away p b = away_div p b.
Proof.
  intros Hb. destruct (Z.le_gt_cases 0 p), (Z.le_gt_cases 0 b).
  - apply step_away_nonneg; lia.
  - rewrite <- (Z.opp_involutive b), step_away_opp_r, step_away_nonneg by lia.
    unfold away_div. rewrite !Z.sgn_opp, !Z.abs_opp. lia.
  - rewrite <- (Z.opp_involutive p), step_away_opp_l, step_away_nonneg by lia.
    unfold away_div. rewrite !Z.sgn_opp, !Z.abs_opp. lia.
  - rewrite <- (Z.opp_involutive p), <- (Z.opp_involutive b), step_away_opp_l,
      step_away_opp_r, step_away_nonneg by lia.
    unfold away_div. rewrite !Z.sgn_opp, !Z.abs_opp. lia.
Qed.

(** Floor and truncation agree except on inexact quotients of mixed sign. *)
Lemma div_quot_pos (a b : Z) :
  0 < b → a / b = if (a <? 0) && negb (a mod b =? 0) then Z.quot a b - 1 else Z.quot a b.
Proof.
  intros Hb. destruct (Z.ltb_spec a 0); cbn [andb].
  - replace (Z.quot a b) with (- ((- a) / b))
      by (rewrite <- Z.quot_div_nonneg, Z.quot_opp_l by lia; lia).
    destruct (Z.eqb_spec (a mod b) 0); cbn [negb].
    + rewrite Z.div_opp_l_z by lia. lia.
    + rewrite Z.div_opp_l_nz by lia. lia.
  - by rewrite Z.quot_div_nonneg by lia.
Qed.

Lemma div_quot_neg (a b : Z) :
  b < 0 → a / b = if (0 <? a) && negb (a mod - b =? 0) then Z.quot a b - 1 else Z.quot a b.
Proof.
  intros Hb. rewrite <- (Z.div_opp_opp a b) by lia. rewrite (div_quot_pos (- a) (- b)) by lia.
  rewrite Z.quot_opp_opp by lia.
  assert ((- a <? 0) = (0 <? a)) as -> by lia.
  assert (((- a) mod - b =? 0) = (a mod - b =? 0)) as ->; [|done].
  destruct (Z.eqb_spec (a mod - b) 0) as [E|E].
  - by rewrite Z.mod_opp_l_z by lia.
  - rewrite Z.mod_opp_l_nz by lia. pose proof (Z.mod_pos_bound a (- b)).
    destruct (Z.eqb_spec (- b - a mod - b) 0); lia.
Qed.
