(* ===== verification/JsString.v ===== *)
(** * JavaScript strings

    The string operations of the language that the sources use: the relational
    operators (lexicographic order of code units), decimal and hexadecimal
    digits, [replace] of the first occurrence, [padStart], [slice], [includes]
    and [toLowerCase].  Strings are [String.string]; the sources compare and cut
    ASCII strings only (addresses, decimal numbers, ABI data, contract names). *)
From Stdlib Require Import Ascii String.
From Stdlib Require Import OrderedTypeEx.
From S2P Require Import Prelude.
Local Open Scope Z_scope.


(** ** Order *)

(** [a < b] on two strings: the first differing code unit decides, and a proper
    prefix is smaller. *)
Definition js_lt (a b : string) : bool := String.ltb a b.
Definition js_gt (a b : string) : bool := js_lt b a.

Lemma js_lt_spec (a b : string) : js_lt a b = true ↔ String.compare a b = Lt.
Proof. unfold js_lt, String.ltb. by destruct (String.compare a b). Qed.

Lemma js_lt_irrefl (a : string) : js_lt a a = false.
Proof.
  unfold js_lt, String.ltb. destruct (String.compare a a) eqn:E; [done| |done].
  apply String_as_OT.cmp_lt in E. by apply String_as_OT.lt_not_eq in E.
Qed.

Lemma js_lt_trans (a b c : string) :
  js_lt a b = true → js_lt b c = true → js_lt a c = true.
Proof.
  rewrite !js_lt_spec. intros Hab%String_as_OT.cmp_lt Hbc%String_as_OT.cmp_lt.
  apply String_as_OT.cmp_lt. by eapply String_as_OT.lt_trans.
Qed.

Lemma js_lt_asym (a b : string) : js_lt a b = true → js_lt b a = false.
Proof.
  intros Hab. apply not_true_iff_false. intros Hba.
  pose proof (js_lt_trans _ _ _ Hab Hba) as H. by rewrite js_lt_irrefl in H.
Qed.

(** ** Digits *)

Section Digits.
Context (base : Z).

(** Most significant digit first. *)
Fixpoint digits_fuel (fuel : nat) (n : Z) : list Z :=
  match fuel with
  | O => []
  | S fuel' => if n <? base then [n] else digits_fuel fuel' (n / base) ++ [n mod base]
  end.

Definition digits (n : Z) : list Z := digits_fuel (S (Z.to_nat (Z.log2 n))) n.

Definition undigits (l : list Z) : Z := foldl (λ acc d, acc * base + d) 0 l.

Definition is_digit (d : Z) : Prop := 0 ≤ d < base.

Context (Hbase : 2 ≤ base).

Lemma undigits_snoc (l : list Z) (d : Z) : undigits (l ++ [d]) = undigits l * base + d.
Proof. unfold undigits. by rewrite foldl_app. Qed.

(** The number of digits never exceeds the fuel [digits] provides. *)
Lemma digits_fuel_ok (fuel : nat) (n : Z) :
  0 ≤ n < 2 ^ Z.of_nat fuel →
  undigits (digits_fuel fuel n) = n ∧ Forall is_digit (digits_fuel fuel n).
Proof.
  revert n. induction fuel as [|fuel IH]; intros n Hn.
  { change (2 ^ Z.of_nat 0) with 1 in Hn. replace n with 0 by lia. split; [done|constructor]. }
  rewrite Nat2Z.inj_succ, Z.pow_succ_r in Hn by lia. cbn [digits_fuel].
  destruct (Z.ltb_spec n base).
  { split; [cbn; lia|]. repeat constructor; unfold is_digit; lia. }
  pose proof (Z.div_mod n base). pose proof (Z.mod_pos_bound n base).
  assert (0 ≤ n / base < 2 ^ Z.of_nat fuel) as Hq by nia.
  destruct (IH _ Hq) as [Hv Hd]. rewrite undigits_snoc, Hv. split; [lia|].
  apply Forall_app; split; [done|]. repeat constructor; unfold is_digit; lia.
Qed.

Lemma digits_ok (n : Z) : 0 ≤ n → undigits (digits n) = n ∧ Forall is_digit (digits n).
Proof.
  intros Hn. apply digits_fuel_ok. split; [done|].
  pose proof (Z.log2_nonneg n). rewrite Nat2Z.inj_succ, Z2Nat.id by done.
  destruct (decide (n = 0)) as [->|]; [done|]. apply Z.log2_spec. lia.
Qed.

Lemma digits_undigits (n : Z) : 0 ≤ n → undigits (digits n) = n.
Proof. intros. by apply digits_ok. Qed.

Lemma digits_range (n : Z) : 0 ≤ n → Forall is_digit (digits n).
Proof. intros. by apply digits_ok. Qed.

Lemma digits_fuel_head (fuel : nat) (n : Z) :
  0 < n < 2 ^ Z.of_nat fuel → ∃ d l, digits_fuel fuel n = d :: l ∧ 0 < d.
Proof.
  revert n. induction fuel as [|fuel IH]; intros n Hn.
  { change (2 ^ Z.of_nat 0) with 1 in Hn. lia. }
  rewrite Nat2Z.inj_succ, Z.pow_succ_r in Hn by lia. cbn [digits_fuel].
  destruct (Z.ltb_spec n base); [exists n, []; split; [done|lia]|].
  assert (0 < n / base) by (apply Z.div_str_pos; lia).
  pose proof (Z.div_mod n base). pose proof (Z.mod_pos_bound n base).
  destruct (IH (n / base)) as (d & l & -> & Hd); [nia|].
  by exists d, (l ++ [n mod base]).
Qed.

(** A positive number is written without leading zeros. *)
Lemma digits_head (n : Z) : 0 < n → ∃ d l, digits n = d :: l ∧ 0 < d.
Proof.
  intros Hn. apply digits_fuel_head. split; [done|].
  pose proof (Z.log2_nonneg n). rewrite Nat2Z.inj_succ, Z2Nat.id by done.
  by apply Z.log2_spec.
Qed.

Lemma undigits_acc (l : list Z) (acc : Z) :
  foldl (λ acc d, acc * base + d) acc l = acc * base ^ Z.of_nat (length l) + undigits l.
Proof.
  revert acc. induction l as [|d l IH] using rev_ind; intros acc; [cbn; lia|].
  rewrite foldl_app, undigits_snoc, IH, length_app. cbn [foldl length].
  rewrite Nat.add_1_r, Nat2Z.inj_succ, Z.pow_succ_r by lia. lia.
Qed.

Lemma undigits_cons (d : Z) (l : list Z) :
  undigits (d :: l) = d * base ^ Z.of_nat (length l) + undigits l.
Proof. unfold undigits at 1. cbn [foldl]. rewrite undigits_acc. lia. Qed.

Lemma undigits_bound (l : list Z) :
  Forall is_digit l → 0 ≤ undigits l < base ^ Z.of_nat (length l).
Proof.
  induction 1 as [|d l Hd Hl IH]; [by cbn|].
  rewrite undigits_cons. cbn [length]. rewrite Nat2Z.inj_succ, Z.pow_succ_r by lia.
  unfold is_digit in Hd. nia.
Qed.
End Digits.

(** The character of a digit, lower case as [toString(16)] writes it. *)
Definition digit_char (d : Z) : ascii :=
  ascii_of_N (Z.to_N (if d <? 10 then 48 + d else 87 + d)).

Definition string_of_digits (l : list Z) : string := string_of_list_ascii (digit_char <$> l).

Lemma digit_char_code (d : Z) :
  0 ≤ d < 16 → N_of_ascii (digit_char d) = Z.to_N (if d <? 10 then 48 + d else 87 + d).
Proof. intros Hd. unfold digit_char. apply N_ascii_embedding. destruct (Z.ltb_spec d 10); lia. Qed.

Lemma digit_char_compare (d e : Z) :
  0 ≤ d < 16 → 0 ≤ e < 16 → Ascii.compare (digit_char d) (digit_char e) = Z.compare d e.
Proof.
  intros Hd He. unfold Ascii.compare. rewrite !digit_char_code by lia.
  rewrite Z2N.inj_compare by (case_match; lia).
  destruct (Z.ltb_spec d 10), (Z.ltb_spec e 10), (Z.compare_spec d e); subst;
    rewrite ?Z.compare_refl; try done; try lia;
    (apply Z.compare_lt_iff || apply Z.compare_gt_iff); lia.
Qed.

Lemma string_compare_cons (c c' : ascii) (s s' : string) :
  String.compare (String c s) (String c' s') =
    match Ascii.compare c c' with Eq => String.compare s s' | r => r end.
Proof. done. Qed.

Lemma string_of_digits_cons (d : Z) (l : list Z) :
  string_of_digits (d :: l) = String (digit_char d) (string_of_digits l).
Proof. done. Qed.

(** Digit strings of equal length compare as the numbers they write. *)
Lemma string_of_digits_compare (base : Z) (l k : list Z) :
  2 ≤ base ≤ 16 → length l = length k →
  Forall (is_digit base) l → Forall (is_digit base) k →
  String.compare (string_of_digits l) (string_of_digits k)
    = Z.compare (undigits base l) (undigits base k).
Proof.
  intros Hb Hlen Hl. revert k Hlen.
  induction Hl as [|d l Hd Hl IH]; intros [|e k] Hlen Hk; try discriminate; [done|].
  inversion Hk as [|?? He Hk']; subst. injection Hlen as Hlen.
  unfold is_digit in Hd, He.
  rewrite !string_of_digits_cons, string_compare_cons, digit_char_compare by lia.
  rewrite !undigits_cons by lia. rewrite Hlen, IH by done.
  pose proof (undigits_bound base ltac:(lia) l Hl) as Bl.
  pose proof (undigits_bound base ltac:(lia) k Hk') as Bk. rewrite Hlen in Bl.
  destruct (Z.compare_spec d e) as [->|Hlt|Hgt]; symmetry.
  - apply Zcompare_plus_compat.
  - apply Z.compare_lt_iff. nia.
  - apply Z.compare_gt_iff. nia.
Qed.

(** ** Decimal and hexadecimal notation *)

(** [String(n)] of an integer. *)
Definition dec_string (n : Z) : string :=
  if n <? 0 then String "-"%char (string_of_digits (digits 10 (- n)))
  else string_of_digits (digits 10 n).

Definition dec_length (n : Z) : nat := length (digits 10 n).

Lemma dec_lt_same_length (a b : Z) :
  0 ≤ a → 0 ≤ b → dec_length a = dec_length b →
  js_lt (dec_string a) (dec_string b) = (a <? b).
Proof.
  intros Ha Hb Hlen. unfold js_lt, String.ltb, dec_string.
  destruct (Z.ltb_spec a 0), (Z.ltb_spec b 0); try lia.
  rewrite (string_of_digits_compare 10) by (done || lia || (apply digits_range; lia)).
  rewrite !digits_undigits by lia. unfold Z.ltb. by destruct (a ?= b).
Qed.

(** A decimal string exceeds [`0`] lexicographically exactly when the number is
    positive: no leading zero, and the sign sorts below the digits. *)
Lemma dec_gt_zero (n : Z) : js_gt (dec_string n) (dec_string 0) = (0 <? n).
Proof.
  unfold js_gt. change (dec_string 0) with ("0"%string). unfold dec_string.
  destruct (Z.ltb_spec n 0), (Z.ltb_spec 0 n); try lia; [done| |].
  - destruct (digits_head 10 ltac:(lia) n) as (d & l & E & Hd); [lia|].
    assert (Forall (is_digit 10) (digits 10 n)) as F by (apply digits_range; lia).
    rewrite E in F |- *. inversion F as [|?? Hd10]; subst. unfold is_digit in Hd10.
    unfold js_lt, String.ltb. cbn. change "0"%char with (digit_char 0).
    rewrite digit_char_compare by lia. by destruct (Z.compare_spec 0 d); try lia.
  - by replace n with 0 by lia.
Qed.

(** [toHexString] without its prefix: an even number of digits. *)
Definition hex_digits_even (n : Z) : list Z :=
  let l := digits 16 n in if Nat.even (length l) then l else 0 :: l.

Lemma undigits_hex_even (n : Z) : 0 ≤ n → undigits 16 (hex_digits_even n) = n.
Proof.
  intros Hn. unfold hex_digits_even. cbv zeta. case_match.
  - by apply digits_undigits.
  - rewrite undigits_cons by lia. rewrite digits_undigits by lia. lia.
Qed.

Lemma hex_even_range (n : Z) : 0 ≤ n → Forall (is_digit 16) (hex_digits_even n).
Proof.
  intros Hn. pose proof (digits_range 16 ltac:(lia) n Hn). unfold hex_digits_even. cbv zeta.
  case_match; [done|]. constructor; [|done]. unfold is_digit; lia.
Qed.

(** The value of a hexadecimal digit of either case. *)
Definition hex_char_value (c : ascii) : option Z :=
  let n := Z.of_N (N_of_ascii c) in
  if (48 <=? n) && (n <=? 57) then Some (n - 48)
  else if (97 <=? n) && (n <=? 102) then Some (n - 87)
  else if (65 <=? n) && (n <=? 70) then Some (n - 55)
  else None.

Definition hex_values (s : string) : option (list Z) := mapM hex_char_value (list_ascii_of_string s).

Definition hex_value (s : string) : option Z := undigits 16 <$> hex_values s.

Definition lower_char (c : ascii) : ascii :=
  let n := N_of_ascii c in
  if (65 <=? n)%N && (n <=? 90)%N then ascii_of_N (n + 32) else c.

(** [toLowerCase], on ASCII. *)
Definition toLowerCase (s : string) : string :=
  string_of_list_ascii (lower_char <$> list_ascii_of_string s).

(** ** Cutting and replacing *)

(** [s.includes(sub)]. *)
Definition includes (sub s : string) : bool :=
  match String.index 0 sub s with Some _ => true | None => false end.

(** [s.slice(n)] for a non-negative [n]. *)
Definition slice_from (n : nat) (s : string) : string :=
  String.substring n (String.length s - n) s.

(** [s.slice(0, n)] for a non-negative [n]. *)
Definition slice_to (n : nat) (s : string) : string := String.substring 0 n s.

(** [s.replace(sub, rep)] with a string pattern: the first occurrence only. *)
Definition replace_first (sub rep s : string) : string :=
  match String.index 0 sub s with
  | Some i => String.append (slice_to i s) (String.append rep (slice_from (i + String.length sub) s))
  | None => s
  end.

(** [s.padStart(n, c)] for a one-character pad. *)
Definition padStart (n : nat) (c : ascii) (s : string) : string :=
  String.append (string_of_list_ascii (replicate (n - String.length s) c)) s.

Lemma lower_digit (c : ascii) (d : Z) :
  hex_char_value c = Some d → lower_char c = digit_char d ∧ is_digit 16 d.
Proof.
  intros H. destruct c as [[] [] [] [] [] [] [] []]; try discriminate H;
    vm_compute in H; injection H as <-; (split; [vm_compute; reflexivity|unfold is_digit; lia]).
Qed.

Lemma hex_char_value_digit (d : Z) : is_digit 16 d → hex_char_value (digit_char d) = Some d.
Proof.
  intros Hd. unfold is_digit in Hd.
  assert (d = 0 ∨ d = 1 ∨ d = 2 ∨ d = 3 ∨ d = 4 ∨ d = 5 ∨ d = 6 ∨ d = 7 ∨ d = 8 ∨ d = 9 ∨
    d = 10 ∨ d = 11 ∨ d = 12 ∨ d = 13 ∨ d = 14 ∨ d = 15) as Hc by lia.
  by destruct_or! Hc; subst.
Qed.

Lemma list_ascii_of_string_of_digits (l : list Z) :
  list_ascii_of_string (string_of_digits l) = digit_char <$> l.
Proof. apply list_ascii_of_string_of_list_ascii. Qed.

Lemma hex_values_of_digits (l : list Z) :
  Forall (is_digit 16) l → hex_values (string_of_digits l) = Some l.
Proof.
  intros Hl. unfold hex_values. rewrite list_ascii_of_string_of_digits.
  apply mapM_Some. induction Hl as [|d l Hd Hl IH]; [constructor|].
  rewrite fmap_cons. constructor; [by apply hex_char_value_digit|done].
Qed.

Lemma toLowerCase_hex (s : string) (l : list Z) :
  hex_values s = Some l → toLowerCase s = string_of_digits l ∧ Forall (is_digit 16) l.
Proof.
  unfold hex_values, toLowerCase, string_of_digits. intros H.
  apply mapM_Some in H. induction H as [|c d s' l' Hc Hl IH]; [done|].
  apply lower_digit in Hc as [Hc Hd]. destruct IH as [IH1 IH2].
  split; [|by constructor]. cbn. rewrite Hc. f_equal. exact IH1.
Qed.

(** Lower-cased hexadecimal strings of equal length compare as the numbers they
    write, whatever the case of their letters. *)
Lemma lower_hex_lt (s t : string) (l k : list Z) :
  hex_values s = Some l → hex_values t = Some k → length l = length k →
  js_lt (toLowerCase s) (toLowerCase t) = (undigits 16 l <? undigits 16 k).
Proof.
  intros [-> Hl]%toLowerCase_hex [-> Hk]%toLowerCase_hex Hlen.
  unfold js_lt, String.ltb. rewrite (string_of_digits_compare 16) by (done || lia).
  unfold Z.ltb. by destruct (_ ?= _).
Qed.
