(* ===== verification/BigNumber.v ===== *)
(** * The big number library

    The sources compute with [BigNumber] and [parseEther] of the ethers package,
    which is not part of the repository.  It enters the development as a class:
    the operations the sources call, and the documented behaviour they rely on.
    Big numbers are represented by their value in [Z]; [Ethers_Z] is a concrete
    implementation. *)
From Stdlib Require Import Ascii String.
From Stdlib Require Import SpecFloat.
From S2P Require Import Prelude JsString.

(** ** JavaScript numbers *)

(** A [number] is an IEEE 754 binary64 value; its arithmetic is that of
    [SpecFloat] at precision 53. *)
Definition js_number := spec_float.
Definition js_mul (a b : js_number) : js_number := SFmul 53 1024 a b.
Definition js_of_Z (z : Z) : js_number := binary_normalize 53 1024 z 0 false.

(** The integer a number denotes, when it is one. *)
Definition js_integer (f : js_number) : option Z :=
  match f with
  | S754_zero _ => Some 0
  | S754_finite s m e =>
      let v := if s then Z.neg m else Z.pos m in
      if 0 <=? e then Some (v * 2 ^ e)
      else if v mod 2 ^ (- e) =? 0 then Some (v / 2 ^ (- e)) else None
  | _ => None
  end.

Definition js_finite (f : js_number) : bool :=
  match f with S754_zero _ | S754_finite _ _ _ => true | _ => false end.

(** [Number.MAX_SAFE_INTEGER]. *)
Definition MAX_SAFE : Z := 2 ^ 53 - 1.

(** ** The library *)

Class Ethers := {
  bn_add : Z → Z → Z;
  bn_sub : Z → Z → Z;
  bn_mul : Z → Z → Z;
  bn_div : Z → Z → result Z;
  bn_mod : Z → Z → result Z;
  bn_pow : Z → Z → result Z;
  bn_abs : Z → Z;
  bn_eq : Z → Z → bool;
  bn_lt : Z → Z → bool;
  bn_lte : Z → Z → bool;
  bn_gt : Z → Z → bool;
  bn_gte : Z → Z → bool;
  bn_isZero : Z → bool;
  bn_toString : Z → string;
  bn_toHexString : Z → string;
  bn_from_number : js_number → result Z;
  parseEther : string → result Z;

  (** The exported constants. *)
  AddressZero : string;
  MaxUint256 : Z;
  One : Z;
  Two : Z;
  Zero : Z;
  WeiPerEther : Z;

  AddressZero_spec : AddressZero = "0x0000000000000000000000000000000000000000"%string;
  MaxUint256_spec : MaxUint256 = 2 ^ 256 - 1;
  One_spec : One = 1;
  Two_spec : Two = 2;
  Zero_spec : Zero = 0;
  WeiPerEther_spec : WeiPerEther = 10 ^ 18;

  (** Integer arithmetic; division truncates and both division and remainder
      throw on what the documentation excludes. *)
  bn_add_spec a b : bn_add a b = a + b;
  bn_sub_spec a b : bn_sub a b = a - b;
  bn_mul_spec a b : bn_mul a b = a * b;
  bn_div_spec a b : b ≠ 0 → bn_div a b = Ok (Z.quot a b);
  bn_div_zero a : bn_div a 0 = Throw (NumericFault "division-by-zero" "div");
  bn_mod_spec a b : 0 < b → bn_mod a b = Ok (a mod b);
  bn_pow_spec a b : 0 ≤ b → bn_pow a b = Ok (a ^ b);
  bn_abs_spec a : bn_abs a = Z.abs a;
  bn_eq_spec a b : bn_eq a b = (a =? b);
  bn_lt_spec a b : bn_lt a b = (a <? b);
  bn_lte_spec a b : bn_lte a b = (a <=? b);
  bn_gt_spec a b : bn_gt a b = (b <? a);
  bn_gte_spec a b : bn_gte a b = (b <=? a);
  bn_isZero_spec a : bn_isZero a = (a =? 0);

  (** [toString] is decimal notation; [toHexString] is an even number of
      hexadecimal digits after [0x]. *)
  bn_toString_spec a : bn_toString a = dec_string a;
  bn_toHexString_spec a : 0 ≤ a →
    bn_toHexString a = String.append "0x" (string_of_digits (hex_digits_even a));

  (** [BigNumber.from] of a number accepts safe integers only. *)
  bn_from_number_safe f z : js_integer f = Some z → Z.abs z < MAX_SAFE → bn_from_number f = Ok z;
  bn_from_number_fraction f : js_finite f = true → js_integer f = None →
    bn_from_number f = Throw (NumericFault "underflow" "BigNumber.from");
  bn_from_number_unsafe f z : js_integer f = Some z → MAX_SAFE ≤ Z.abs z →
    bn_from_number f = Throw (NumericFault "overflow" "BigNumber.from");

  (** [parseEther] reads a decimal number of at most 18 fractional digits in
      units of [10 ^ 18]. *)
  parseEther_integer n : 0 ≤ n → parseEther (dec_string n) = Ok (n * 10 ^ 18);
  parseEther_fraction n l : 0 ≤ n → (0 < length l ≤ 18)%nat → Forall (is_digit 10) l →
    parseEther (String.append (dec_string n) (String "."%char (string_of_digits l)))
      = Ok (n * 10 ^ 18 + undigits 10 l * 10 ^ (18 - Z.of_nat (length l)));
}.

#[export] Hint Rewrite @bn_add_spec @bn_sub_spec @bn_mul_spec @bn_abs_spec @bn_eq_spec
  @bn_lt_spec @bn_lte_spec @bn_gt_spec @bn_gte_spec @bn_isZero_spec @bn_toString_spec
  @MaxUint256_spec @One_spec @Two_spec @Zero_spec @WeiPerEther_spec : bn.
#[export] Hint Rewrite @bn_div_spec @bn_mod_spec @bn_pow_spec using lia : bn.

(** Rewrites every library operation whose side condition [lia] proves. *)
Ltac bn_simpl := repeat progress (autorewrite with bn; cbn [mbind result_bind fmap result_fmap]).
Ltac bn_simpl_in H :=
  repeat progress (autorewrite with bn in H; cbn [mbind result_bind fmap result_fmap] in H).

(** [a > b] and [a < b] between two big number _objects_: the operators convert
    objects with [toString], since the class defines no [valueOf], and then
    compare the two strings. *)
Section ObjectOperators.
Context `{Ethers}.
Definition bn_obj_lt (a b : Z) : bool := js_lt (bn_toString a) (bn_toString b).
Definition bn_obj_gt (a b : Z) : bool := js_gt (bn_toString a) (bn_toString b).
End ObjectOperators.

(** ** A concrete library *)

Definition dec_char_value (c : ascii) : option Z :=
  let n := Z.of_N (N_of_ascii c) in
  if (48 <=? n) && (n <=? 57) then Some (n - 48) else None.

(** Reads decimal digits with at most one point; counts the digits after it. *)
Fixpoint read_decimal (l : list ascii) (acc : Z) (frac : option nat) : option (Z * nat) :=
  match l with
  | [] => Some (acc, default 0%nat frac)
  | c :: l' =>
      if Ascii.eqb c "."%char then
        match frac with None => read_decimal l' acc (Some 0%nat) | Some _ => None end
      else
        match dec_char_value c with
        | Some d => read_decimal l' (acc * 10 + d) (S <$> frac)
        | None => None
        end
  end.

Definition parseEther_Z (s : string) : result Z :=
  match read_decimal (list_ascii_of_string s) 0 None with
  | Some (v, k) =>
      if (k <=? 18)%nat then Ok (v * 10 ^ (18 - Z.of_nat k))
      else Throw (NumericFault "underflow" "parseFixed")
  | None => Throw (Error "invalid decimal value")
  end.

Definition bn_from_number_Z (f : js_number) : result Z :=
  match js_integer f with
  | Some z => if MAX_SAFE <=? Z.abs z then Throw (NumericFault "overflow" "BigNumber.from") else Ok z
  | None => if js_finite f then Throw (NumericFault "underflow" "BigNumber.from")
            else Throw (NumericFault "overflow" "BigNumber.from")
  end.

Lemma dec_char_value_digit (d : Z) :
  is_digit 10 d → Ascii.eqb (digit_char d) "."%char = false ∧ dec_char_value (digit_char d) = Some d.
Proof.
  intros Hd. unfold is_digit in Hd.
  assert (d = 0 ∨ d = 1 ∨ d = 2 ∨ d = 3 ∨ d = 4 ∨ d = 5 ∨ d = 6 ∨ d = 7 ∨ d = 8 ∨ d = 9)
    as Hc by lia.
  by destruct_or! Hc; subst.
Qed.

Lemma read_decimal_digits (l : list Z) (rest : list ascii) (acc : Z) (frac : option nat) :
  Forall (is_digit 10) l →
  read_decimal ((digit_char <$> l) ++ rest) acc frac =
    read_decimal rest (acc * 10 ^ Z.of_nat (length l) + undigits 10 l)
      ((λ k, k + length l)%nat <$> frac).
Proof.
  intros Hl. revert acc frac. induction Hl as [|d l Hd Hl IH]; intros acc frac.
  - cbn. rewrite Z.mul_1_r, Z.add_0_r. destruct frac; cbn; [by rewrite Nat.add_0_r|done].
  - rewrite fmap_cons. cbn [app read_decimal]. apply dec_char_value_digit in Hd as [-> ->].
    rewrite IH, undigits_cons by lia. cbn [length]. f_equal.
    + rewrite Nat2Z.inj_succ, Z.pow_succ_r by lia. lia.
    + destruct frac; cbn; [|done]. f_equal. lia.
Qed.

Lemma dec_string_nonneg (n : Z) : 0 ≤ n → dec_string n = string_of_digits (digits 10 n).
Proof. intros. unfold dec_string. by destruct (Z.ltb_spec n 0); [lia|]. Qed.

Lemma list_ascii_append (s t : string) :
  list_ascii_of_string (String.append s t) = list_ascii_of_string s ++ list_ascii_of_string t.
Proof.
  induction s as [|c s IH]; [done|].
  change (String.append (String c s) t) with (String c (String.append s t)).
  cbn [list_ascii_of_string app]. by rewrite IH.
Qed.

Lemma parseEther_Z_integer (n : Z) : 0 ≤ n → parseEther_Z (dec_string n) = Ok (n * 10 ^ 18).
Proof.
  intros Hn. unfold parseEther_Z. rewrite dec_string_nonneg, list_ascii_of_string_of_digits by done.
  rewrite <- (app_nil_r (digit_char <$> _)), read_decimal_digits by (apply digits_range; lia).
  cbn [read_decimal fmap option_fmap option_map default]. by rewrite digits_undigits by lia.
Qed.

Lemma parseEther_Z_fraction (n : Z) (l : list Z) :
  0 ≤ n → (0 < length l ≤ 18)%nat → Forall (is_digit 10) l →
  parseEther_Z (String.append (dec_string n) (String "."%char (string_of_digits l)))
    = Ok (n * 10 ^ 18 + undigits 10 l * 10 ^ (18 - Z.of_nat (length l))).
Proof.
  intros Hn Hlen Hl. unfold parseEther_Z.
  rewrite dec_string_nonneg, list_ascii_append by done. cbn [list_ascii_of_string].
  rewrite !list_ascii_of_string_of_digits, read_decimal_digits by (apply digits_range; lia).
  cbn [fmap option_fmap option_map]. cbn [read_decimal].
  change (Ascii.eqb "." ".") with true. cbv iota.
  rewrite <- (app_nil_r (digit_char <$> l)), read_decimal_digits by done.
  cbn [read_decimal fmap option_fmap option_map default]. rewrite digits_undigits by lia.
  unfold id. rewrite Nat.add_0_l.
  destruct (Nat.leb_spec (length l) 18); [|lia]. f_equal.
  assert (10 ^ 18 = 10 ^ Z.of_nat (length l) * 10 ^ (18 - Z.of_nat (length l))) as ->.
  { rewrite <- Z.pow_add_r by lia. f_equal. lia. }
  ring.
Qed.

#[local] Obligation Tactic := try done; cbv beta.

#[export] Program Instance Ethers_Z : Ethers := {|
  bn_add := Z.add; bn_sub := Z.sub; bn_mul := Z.mul;
  bn_div a b := if b =? 0 then Throw (NumericFault "division-by-zero" "div") else Ok (Z.quot a b);
  bn_mod a b := if b <=? 0 then Throw (NumericFault "division-by-zero" "mod") else Ok (a mod b);
  bn_pow a b := if b <? 0 then Throw (NumericFault "negative-power" "pow") else Ok (a ^ b);
  bn_abs := Z.abs; bn_eq := Z.eqb; bn_lt := Z.ltb; bn_lte := Z.leb;
  bn_gt a b := b <? a; bn_gte a b := b <=? a; bn_isZero a := a =? 0;
  bn_toString := dec_string;
  bn_toHexString a :=
    if a <? 0 then String.append "-0x" (string_of_digits (hex_digits_even (- a)))
    else String.append "0x" (string_of_digits (hex_digits_even a));
  bn_from_number := bn_from_number_Z;
  parseEther := parseEther_Z;
  AddressZero := "0x0000000000000000000000000000000000000000"%string;
  MaxUint256 := 2 ^ 256 - 1; One := 1; Two := 2; Zero := 0; WeiPerEther := 10 ^ 18;
  parseEther_integer := parseEther_Z_integer;
  parseEther_fraction := parseEther_Z_fraction;
|}.
Next Obligation. intros a b Hb. by destruct (Z.eqb_spec b 0). Qed.
Next Obligation. intros a b Hb. destruct (Z.leb_spec b 0); [lia|done]. Qed.
Next Obligation. intros a b Hb. destruct (Z.ltb_spec b 0); [lia|done]. Qed.
Next Obligation. intros a Ha. destruct (Z.ltb_spec a 0); [lia|done]. Qed.
Next Obligation.
  intros f z Hf Hz. unfold bn_from_number_Z. rewrite Hf.
  destruct (Z.leb_spec MAX_SAFE (Z.abs z)); [lia|done].
Qed.
Next Obligation. intros f Hf Hi. unfold bn_from_number_Z. by rewrite Hi, Hf. Qed.
Next Obligation.
  intros f z Hf Hz. unfold bn_from_number_Z. rewrite Hf.
  destruct (Z.leb_spec MAX_SAFE (Z.abs z)); [done|lia].
Qed.
