(* ===== verification/Constants.v ===== *)
(** * Shared constants and types

    [utils/constants.ts] and [utils/types.ts]: the constants every other part
    computes with, and the data types exchanged with the contracts. *)
From Stdlib Require Import String.
From S2P Require Import Prelude JsString BigNumber.

(** [export type Address = string], [export type Bytes = string]. *)
Definition Address := string.
Definition Bytes := string.

Section Constants.
Context `{Ethers}.

Definition ADDRESS_ZERO : Address := AddressZero.
Definition EMPTY_BYTES : Bytes := "0x"%string.
Definition ZERO_BYTES : Bytes :=
  "0x0000000000000000000000000000000000000000000000000000000000000000"%string.
Definition MAX_UINT_256 : Z := MaxUint256.
Definition ONE : Z := One.
Definition TWO : Z := Two.
Definition THREE : Z := 3.
Definition ZERO : Z := Zero.
Definition MAX_INT_256 : string :=
  "0x7fffffffffffffffffffffffffffffffffffffffffffffffffffffffffffffff"%string.
Definition MIN_INT_256 : string :=
  "-0x8000000000000000000000000000000000000000000000000000000000000000"%string.
Definition ONE_DAY_IN_SECONDS : Z := 60 * 60 * 24.
Definition ONE_HOUR_IN_SECONDS : Z := 60 * 60.
Definition ONE_YEAR_IN_SECONDS : Z := 31557600.
Definition PRECISE_UNIT : Z := WeiPerEther.
Definition ETH_ADDRESS : Address := "0xEeeeeEeeeEeEeeEeEeEeeEEEeeeeEeeeeeeeEEeE"%string.

Lemma PRECISE_UNIT_spec : PRECISE_UNIT = 10 ^ 18.
Proof. apply WeiPerEther_spec. Qed.
Lemma ZERO_spec : ZERO = 0.
Proof. apply Zero_spec. Qed.
Lemma ONE_spec : ONE = 1.
Proof. apply One_spec. Qed.
Lemma TWO_spec : TWO = 2.
Proof. apply Two_spec. Qed.
Lemma MAX_UINT_256_spec : MAX_UINT_256 = 2 ^ 256 - 1.
Proof. apply MaxUint256_spec. Qed.
End Constants.

#[export] Hint Rewrite @PRECISE_UNIT_spec @ZERO_spec @ONE_spec @TWO_spec @MAX_UINT_256_spec : bn.

(** [MODULE_STATE] and [POSITION_STATE]: the numbering of the contract enums. *)
Inductive module_state := NONE | PENDING | INITIALIZED.
Definition MODULE_STATE (s : module_state) : Z :=
  match s with NONE => 0 | PENDING => 1 | INITIALIZED => 2 end.

Inductive position_state := DEFAULT | EXTERNAL.
Definition POSITION_STATE (s : position_state) : Z :=
  match s with DEFAULT => 0 | EXTERNAL => 1 end.

Record Position := {
  component : Address;
  module : Address;
  unit_ : Z;
  positionState : Z;
  data : Bytes;
}.

Record StreamingFeeState := {
  feeRecipient : Address;
  streamingFeePercentage : Z;
  maxStreamingFeePercentage : Z;
  lastStreamingFeeTimestamp : Z;
}.

Record AirdropSettings := {
  airdrops : list Address;
  airdrop_feeRecipient : Address;
  airdropFee : Z;
  anyoneAbsorb : bool;
}.

Record CustomOracleNAVIssuanceSettings := {
  managerIssuanceHook : Address;
  managerRedemptionHook : Address;
  setValuer : Address;
  reserveAssets : list Address;
  nav_feeRecipient : Address;
  managerFees : Z * Z;
  maxManagerFee : Z;
  premiumPercentage : Z;
  maxPremiumPercentage : Z;
  minSetTokenSupply : Z;
}.

Record AuctionExecutionParams := {
  targetUnit : Z;
  priceAdapterName : string;
  priceAdapterConfigData : Bytes;
}.
