(* ===== verification/MathUtils.v ===== *)
(** * Fixed-point arithmetic of the tool chain

    [utils/common/mathUtils.ts]: 18-decimal multiplication and division in the
    rounding modes the contracts use, on big numbers of either sign. *)
From S2P Require Import Prelude JsString BigNumber Constants.

Section MathUtils.
Context `{Ethers}.

Definition preciseMul (a b : Z) : result Z := bn_div (bn_mul a b) PRECISE_UNIT.

Definition preciseMulCeil (a b : Z) : result Z :=
  if bn_eq a 0 || bn_eq b 0 then Ok ZERO
  else q ← bn_div (bn_sub (bn_mul a b) 1) PRECISE_UNIT; Ok (bn_add q 1).

Definition preciseMulCeilInt (a b : Z) : result Z :=
  if bn_eq a 0 || bn_eq b 0 then Ok ZERO
  else if (bn_gt a 0 && bn_gt b 0) || (bn_lt a 0 && bn_lt b 0) then
    q ← bn_div (bn_sub (bn_mul a b) 1) PRECISE_UNIT; Ok (bn_add q 1)
  else
    q ← bn_div (bn_add (bn_mul a b) 1) PRECISE_UNIT; Ok (bn_sub q 1).

Definition preciseDiv (a b : Z) : result Z := bn_div (bn_mul a PRECISE_UNIT) b.

Definition preciseDivCeil (a b : Z) : result Z :=
  if bn_eq a 0 || bn_eq b 0 then Ok ZERO
  else q ← bn_div (bn_sub (bn_mul a PRECISE_UNIT) 1) b; Ok (bn_add q 1).

Definition preciseDivCeilInt (a b : Z) : result Z :=
  result ← bn_div (bn_mul a PRECISE_UNIT) b;
  if bn_eq (bn_mul result b) (bn_mul a PRECISE_UNIT) then Ok result
  else if (bn_gt a 0 && bn_gt b 0) || (bn_lt a 0 && bn_lt b 0) then Ok (bn_add result 1)
  else Ok (bn_sub result 1).

Definition divDown (a b : Z) : result Z :=
  result ← bn_div a b;
  r1 ← (if bn_lt a 0 && bn_gt b 0 then m ← bn_mod a b; Ok (negb (bn_isZero m)) else Ok false);
  if r1 : bool then Ok (bn_sub result 1)
  else
    r2 ← (if bn_gt a 0 && bn_lt b 0 then m ← bn_mod a (bn_mul b (-1)); Ok (negb (bn_isZero m))
          else Ok false);
    if r2 : bool then Ok (bn_sub result 1) else Ok result.

Definition min (valueOne valueTwo : Z) : Z :=
  if bn_lt valueOne valueTwo then valueOne else valueTwo.
End MathUtils.

(** ** Values of the operations

    The closed forms other components rewrite with. *)
Section Values.
Context `{Ethers}.

Lemma preciseMul_eq (a b : Z) : preciseMul a b = Ok (Z.quot (a * b) (10 ^ 18)).
Proof. unfold preciseMul. by bn_simpl. Qed.

Lemma preciseDiv_eq (a b : Z) : b ≠ 0 → preciseDiv a b = Ok (Z.quot (a * 10 ^ 18) b).
Proof. intros. unfold preciseDiv. by bn_simpl. Qed.

Lemma preciseDiv_zero (a : Z) : preciseDiv a 0 = Throw (NumericFault "division-by-zero" "div").
Proof. apply bn_div_zero. Qed.

Lemma preciseMulCeil_eq (a b : Z) :
  0 ≤ a * b → preciseMulCeil a b = Ok (ceil_div (a * b) (10 ^ 18)).
Proof.
  intros Hab. unfold preciseMulCeil. bn_simpl.
  destruct (Z.eqb_spec a 0) as [->|Ha]; [done|].
  destruct (Z.eqb_spec b 0) as [->|Hb]; [by rewrite Z.mul_0_r|]. cbn [orb].
  rewrite ceil_div_pred by nia. done.
Qed.

Lemma preciseDivCeil_eq (a b : Z) :
  0 ≤ a → 0 < b → preciseDivCeil a b = Ok (ceil_div (a * 10 ^ 18) b).
Proof.
  intros Ha Hb. unfold preciseDivCeil. bn_simpl.
  destruct (Z.eqb_spec a 0) as [->|Ha']; [by rewrite Z.mul_0_l, ceil_div_0|].
  destruct (Z.eqb_spec b 0); [lia|]. cbn [orb]. rewrite ceil_div_pred by lia. done.
Qed.

Lemma preciseMulCeilInt_eq (a b : Z) :
  preciseMulCeilInt a b =
    Ok (if a * b =? 0 then 0 else if 0 <? a * b then Z.quot (a * b - 1) (10 ^ 18) + 1
        else Z.quot (a * b + 1) (10 ^ 18) - 1).
Proof.
  unfold preciseMulCeilInt. bn_simpl.
  destruct (Z.eqb_spec a 0) as [->|Ha]; [done|].
  destruct (Z.eqb_spec b 0) as [->|Hb]; [by rewrite Z.mul_0_r|]. cbn [orb].
  destruct (Z.eqb_spec (a * b) 0); [nia|].
  assert ((0 <? a) && (0 <? b) || (a <? 0) && (b <? 0) = (0 <? a * b)) as ->.
  { destruct (Z.ltb_spec 0 a), (Z.ltb_spec 0 b), (Z.ltb_spec a 0), (Z.ltb_spec b 0),
      (Z.ltb_spec 0 (a * b)); try done; nia. }
  by destruct (0 <? a * b).
Qed.

Lemma preciseDivCeilInt_eq (a b : Z) :
  b ≠ 0 → preciseDivCeilInt a b = Ok (step_away (a * 10 ^ 18) b).
Proof.
  intros Hb. unfold preciseDivCeilInt. bn_simpl. unfold step_away. set (p := a * 10 ^ 18).
  assert ((0 <? a) = (0 <? p)) as -> by (unfold p; lia).
  assert ((a <? 0) = (p <? 0)) as -> by (unfold p; lia).
  by destruct (Z.quot p b * b =? p), ((0 <? p) && (0 <? b) || (p <? 0) && (b <? 0)).
Qed.

Lemma divDown_eq (a b : Z) : b ≠ 0 → divDown a b = Ok (a / b).
Proof.
  intros Hb. unfold divDown. bn_simpl. destruct (Z.ltb_spec 0 b) as [Hpos|Hneg].
  - rewrite div_quot_pos by done. destruct (Z.ltb_spec b 0); [lia|].
    rewrite andb_true_r, andb_false_r. destruct (a <? 0); bn_simpl; [|done].
    by destruct (a mod b =? 0).
  - rewrite div_quot_neg by lia. destruct (Z.ltb_spec b 0); [|lia].
    rewrite andb_true_r, andb_false_r. bn_simpl. destruct (0 <? a); bn_simpl; [|done].
    replace (b * -1) with (- b) by lia. by destruct (a mod - b =? 0).
Qed.

Lemma min_eq (a b : Z) : min a b = Z.min a b.
Proof. unfold min. bn_simpl. destruct (Z.ltb_spec a b); lia. Qed.
End Values.

#[export] Hint Rewrite @preciseMul_eq @preciseMulCeilInt_eq @min_eq : bn.
#[export] Hint Rewrite @preciseDiv_eq @preciseMulCeil_eq @preciseDivCeil_eq @preciseDivCeilInt_eq @divDown_eq
  using lia : bn.

(** ** Rounding *)
Section Rounding.
Context `{Ethers}.

(** [preciseMul] never throws and truncates [a * b / 10^18] toward zero:
    the result has the sign of the product and is the largest magnitude not
    above it. *)
Theorem preciseMul_truncates (a b : Z) :
  ∃ q, preciseMul a b = Ok q ∧ 0 ≤ q * (a * b) ∧
    Z.abs q * 10 ^ 18 ≤ Z.abs (a * b) < (Z.abs q + 1) * 10 ^ 18.
Proof.
  eexists; split; [apply preciseMul_eq|]. set (p := a * b).
  rewrite <- Z.quot_abs by lia. change (Z.abs (10 ^ 18)) with (10 ^ 18).
  pose proof (quot_bounds (Z.abs p) (10 ^ 18)).
  pose proof (Z.quot_rem' p (10 ^ 18)). pose proof (Z.rem_sign_nz p (10 ^ 18)).
  split; [|lia].
  destruct (Z.le_ge_cases 0 p).
  - pose proof (Z.quot_pos p (10 ^ 18)). nia.
  - pose proof (Z.quot_pos (- p) (10 ^ 18)). rewrite Z.quot_opp_l in * by lia. nia.
Qed.

(** [preciseMulCeilInt] never throws and rounds away from zero for every
    combination of signs. *)
Theorem preciseMulCeilInt_away (a b : Z) :
  preciseMulCeilInt a b = Ok (away_div (a * b) (10 ^ 18)).
Proof.
  rewrite preciseMulCeilInt_eq. unfold away_div.
  change (Z.sgn (10 ^ 18)) with 1. change (Z.abs (10 ^ 18)) with (10 ^ 18). rewrite Z.mul_1_r.
  destruct (Z.eqb_spec (a * b) 0) as [->|Hp]; [done|].
  by rewrite quot_away_same_sign.
Qed.

(** [preciseDivCeilInt] rounds away from zero for every combination of
    signs, and throws exactly when the divisor is zero. *)
Theorem preciseDivCeilInt_away (a b : Z) :
  preciseDivCeilInt a b =
    if b =? 0 then Throw (NumericFault "division-by-zero" "div")
    else Ok (away_div (a * 10 ^ 18) b).
Proof.
  destruct (Z.eqb_spec b 0) as [->|Hb].
  - unfold preciseDivCeilInt. by rewrite bn_div_zero.
  - by rewrite preciseDivCeilInt_eq, quot_step_away.
Qed.

(** [divDown] is floor division for every combination of signs, and throws
    exactly when the divisor is zero. *)
Theorem divDown_floor (a b : Z) :
  divDown a b =
    if b =? 0 then Throw (NumericFault "division-by-zero" "div") else Ok (a / b).
Proof.
  destruct (Z.eqb_spec b 0) as [->|Hb].
  - unfold divDown. by rewrite bn_div_zero.
  - by rewrite divDown_eq.
Qed.
End Rounding.
