(* ===== verification/SolMath.v ===== *)
(** * Machine integers and fixed-point arithmetic of the contracts

    [contracts/lib/PreciseUnitMath.sol] over 256-bit words: unchecked EVM
    arithmetic wraps, the checked operations revert.  [SafeMath] is the copy in
    [external/contracts/aave/v1/AaveTokenV2Mintable.sol]; the signed library and
    the casts are not in the repository and enter as the class [SignedLib]. *)
From S2P Require Import Prelude JsString BigNumber Constants MathUtils.

Definition UINT_MAX : Z := 2 ^ 256 - 1.
Definition INT_MAX : Z := 2 ^ 255 - 1.
Definition INT_MIN : Z := - 2 ^ 255.

Definition is_uint (z : Z) : Prop := 0 ≤ z ≤ UINT_MAX.
Definition is_int (z : Z) : Prop := INT_MIN ≤ z ≤ INT_MAX.

(** Unchecked results are reduced modulo [2 ^ 256]. *)
Definition wrap_uint (z : Z) : Z := z mod 2 ^ 256.
Definition wrap_int (z : Z) : Z := (z + 2 ^ 255) mod 2 ^ 256 - 2 ^ 255.

Module SafeMath.
Definition add (a b : Z) : result Z :=
  let c := wrap_uint (a + b) in
  require (a <=? c) "SafeMath: addition overflow";; Ok c.

Definition sub (a b : Z) : result Z :=
  require (b <=? a) "SafeMath: subtraction overflow";;
  let c := wrap_uint (a - b) in Ok c.

Definition mul (a b : Z) : result Z :=
  if a =? 0 then Ok 0
  else
    let c := wrap_uint (a * b) in
    require (c / a =? b) "SafeMath: multiplication overflow";; Ok c.

Definition div (a b : Z) : result Z :=
  require (0 <? b) "SafeMath: division by zero";;
  let c := a / b in Ok c.
End SafeMath.

(** [SignedSafeMath] and [SafeCast] of the contracts package. *)
Class SignedLib := {
  int_add : Z → Z → result Z;
  int_mul : Z → Z → result Z;
  int_div : Z → Z → result Z;
  toUint256 : Z → result Z;
  toInt256 : Z → result Z;
  int_mul_fits a b : is_int a → is_int b → is_int (a * b) → int_mul a b = Ok (a * b);
  int_mul_overflow a b : is_int a → is_int b → ¬ is_int (a * b) →
    int_mul a b = Throw (Revert "SignedSafeMath: multiplication overflow");
  int_div_zero a : is_int a → int_div a 0 = Throw (Revert "SignedSafeMath: division by zero");
  int_div_fits a b : is_int a → is_int b → b ≠ 0 → is_int (Z.quot a b) →
    int_div a b = Ok (Z.quot a b);
  toUint256_nonneg a : is_int a → 0 ≤ a → toUint256 a = Ok a;
  toUint256_neg a : is_int a → a < 0 → toUint256 a = Throw (Revert "SafeCast: value must be positive");
  toInt256_fits a : is_uint a → a ≤ INT_MAX → toInt256 a = Ok a;
  int_add_fits a b : is_int a → is_int b → is_int (a + b) → int_add a b = Ok (a + b);
  int_add_overflow a b : is_int a → is_int b → ¬ is_int (a + b) →
    int_add a b = Throw (Revert "SignedSafeMath: addition overflow");
  toInt256_big a : is_uint a → INT_MAX < a →
    toInt256 a = Throw (Revert "SafeCast: value doesn't fit in an int256");
}.

Module PreciseUnitMath.
Definition PRECISE_UNIT : Z := 10 ^ 18.
Definition PRECISE_UNIT_INT : Z := 10 ^ 18.

Definition preciseUnit : Z := PRECISE_UNIT.

(** The overloads on [uint256] and [int256] carry the suffixes [_u] and [_i]. *)
Definition preciseMul_u (a b : Z) : result Z :=
  p ← SafeMath.mul a b; SafeMath.div p PRECISE_UNIT.

Definition preciseMulCeil_u (a b : Z) : result Z :=
  if (a =? 0) || (b =? 0) then Ok 0
  else p ← SafeMath.mul a b; s ← SafeMath.sub p 1; q ← SafeMath.div s PRECISE_UNIT;
       SafeMath.add q 1.

Definition preciseDiv_u (a b : Z) : result Z :=
  p ← SafeMath.mul a PRECISE_UNIT; SafeMath.div p b.

Definition preciseDivCeil_u (a b : Z) : result Z :=
  require (negb (b =? 0)) "Cant divide by 0";;
  if 0 <? a then
    p ← SafeMath.mul a PRECISE_UNIT; s ← SafeMath.sub p 1; q ← SafeMath.div s b;
    SafeMath.add q 1
  else Ok 0.

Definition approximatelyEquals (a b range : Z) : result bool :=
  hi ← SafeMath.add b range;
  if a <=? hi then lo ← SafeMath.sub b range; Ok (lo <=? a) else Ok false.

Fixpoint safePower_loop (n : nat) (a result : Z) : Prelude.result Z :=
  match n with
  | O => Ok result
  | S n' => r ← SafeMath.mul result a; safePower_loop n' a r
  end.

Definition safePower (a pow : Z) : result Z :=
  require (0 <? a) "Value must be positive";;
  safePower_loop (Z.to_nat pow) a 1.

Section Signed.
Context `{SignedLib}.

Definition preciseMul_i (a b : Z) : result Z := p ← int_mul a b; int_div p PRECISE_UNIT_INT.

Definition preciseDiv_i (a b : Z) : result Z := p ← int_mul a PRECISE_UNIT_INT; int_div p b.

Definition preciseDivCeil_i (a b : Z) : result Z :=
  require (negb (b =? 0)) "Cant divide by 0";;
  a' ← int_mul a PRECISE_UNIT_INT;
  c ← int_div a' b;
  if negb (Z.rem a' b =? 0) then
    Ok (if 0 <? Z.lxor a' b then wrap_int (c + 1) else wrap_int (c - 1))
  else Ok c.

Definition divDown (a b : Z) : result Z :=
  require (negb (b =? 0)) "Cant divide by 0";;
  require (negb (a =? INT_MIN) || negb (b =? -1)) "Invalid input";;
  result ← int_div a b;
  if (Z.lxor a b <? 0) && negb (Z.rem a b =? 0) then Ok (wrap_int (result - 1)) else Ok result.

Definition conservativePreciseMul (a b : Z) : result Z :=
  p ← int_mul a b; divDown p PRECISE_UNIT_INT.

Definition conservativePreciseDiv (a b : Z) : result Z :=
  p ← int_mul a PRECISE_UNIT_INT; divDown p b.

Definition abs (a : Z) : result Z :=
  if 0 <=? a then toUint256 a else n ← int_mul a (-1); toUint256 n.

Definition neg (a : Z) : result Z :=
  require (INT_MIN <? a) "Inversion overflow";; Ok (wrap_int (- a)).
End Signed.
End PreciseUnitMath.

(** A concrete signed library, as the package documents it. *)
Definition checked_int (z : Z) (reason : string) : result Z :=
  if (INT_MIN <=? z) && (z <=? INT_MAX) then Ok z else Throw (Revert reason).

Lemma checked_int_fits (z : Z) (reason : string) : is_int z → checked_int z reason = Ok z.
Proof.
  intros [??]. unfold checked_int.
  by destruct (Z.leb_spec INT_MIN z), (Z.leb_spec z INT_MAX); try lia.
Qed.

Lemma checked_int_overflow (z : Z) (reason : string) :
  ¬ is_int z → checked_int z reason = Throw (Revert reason).
Proof.
  intros Hz. unfold checked_int, is_int in *.
  destruct (Z.leb_spec INT_MIN z), (Z.leb_spec z INT_MAX); try done. lia.
Qed.

#[local] Obligation Tactic := try done; cbv beta.

#[export] Program Instance SignedLib_Z : SignedLib := {|
  int_add a b := checked_int (a + b) "SignedSafeMath: addition overflow";
  int_mul a b := checked_int (a * b) "SignedSafeMath: multiplication overflow";
  int_div a b :=
    if b =? 0 then Throw (Revert "SignedSafeMath: division by zero")
    else checked_int (Z.quot a b) "SignedSafeMath: division overflow";
  toUint256 a := if a <? 0 then Throw (Revert "SafeCast: value must be positive") else Ok a;
  toInt256 a :=
    if a <=? INT_MAX then Ok a else Throw (Revert "SafeCast: value doesn't fit in an int256");
|}.
Next Obligation. intros. by apply checked_int_fits. Qed.
Next Obligation. intros. by apply checked_int_overflow. Qed.
Next Obligation. intros. destruct (Z.eqb_spec b 0); [lia|by apply checked_int_fits]. Qed.
Next Obligation. intros. by destruct (Z.ltb_spec a 0); [lia|]. Qed.
Next Obligation. intros. by destruct (Z.ltb_spec a 0); [|lia]. Qed.
Next Obligation. intros. by destruct (Z.leb_spec a INT_MAX); [|lia]. Qed.
Next Obligation. intros. by apply checked_int_fits. Qed.
Next Obligation. intros. by apply checked_int_overflow. Qed.
Next Obligation. intros. by destruct (Z.leb_spec a INT_MAX); [lia|]. Qed.

(** ** The checked operations *)

Definition fits (z : Z) : bool := z <=? UINT_MAX.

Lemma wrap_uint_small (z : Z) : is_uint z → wrap_uint z = z.
Proof. unfold is_uint, UINT_MAX. intros. apply Z.mod_small. lia. Qed.

Lemma wrap_int_small (z : Z) : is_int z → wrap_int z = z.
Proof.
  unfold is_int, INT_MIN, INT_MAX, wrap_int. intros.
  rewrite Z.mod_small; [lia|]. change (2 ^ 256) with (2 * 2 ^ 255). lia.
Qed.

Lemma safe_mul_spec (a b : Z) :
  is_uint a → is_uint b →
  SafeMath.mul a b =
    if fits (a * b) then Ok (a * b) else Throw (Revert "SafeMath: multiplication overflow").
Proof.
  intros [Ha _] [Hb _]. unfold SafeMath.mul, fits.
  destruct (Z.eqb_spec a 0) as [->|Hne]; [done|]. cbv zeta.
  destruct (Z.leb_spec (a * b) UINT_MAX).
  - rewrite wrap_uint_small by (unfold is_uint; nia).
    by rewrite (Z.mul_comm a b), Z.div_mul, Z.eqb_refl by done.
  - assert ((wrap_uint (a * b) / a =? b) = false) as ->; [|done].
    apply Z.eqb_neq. unfold wrap_uint, UINT_MAX in *. intros E.
    pose proof (Z.mod_pos_bound (a * b) (2 ^ 256)).
    pose proof (Z.mul_div_le ((a * b) mod 2 ^ 256) a). rewrite E in *. lia.
Qed.

Lemma safe_add_spec (a b : Z) :
  is_uint a → is_uint b →
  SafeMath.add a b =
    if fits (a + b) then Ok (a + b) else Throw (Revert "SafeMath: addition overflow").
Proof.
  intros [Ha ?] [Hb ?]. unfold SafeMath.add, fits. cbv zeta.
  destruct (Z.leb_spec (a + b) UINT_MAX).
  - rewrite wrap_uint_small by (unfold is_uint; lia). by destruct (Z.leb_spec a (a + b)); [|lia].
  - unfold wrap_uint, UINT_MAX in *.
    assert ((a + b) mod 2 ^ 256 = a + b - 2 ^ 256) as ->.
    { symmetry. apply (Z.mod_unique _ _ 1); lia. }
    by destruct (Z.leb_spec a (a + b - 2 ^ 256)); [lia|].
Qed.

Lemma safe_sub_ok (a b : Z) : is_uint a → 0 ≤ b ≤ a → SafeMath.sub a b = Ok (a - b).
Proof.
  intros [Ha ?] [Hb ?]. unfold SafeMath.sub. cbv zeta.
  destruct (Z.leb_spec b a); [|lia]. cbn. by rewrite wrap_uint_small by (unfold is_uint; lia).
Qed.

Lemma safe_sub_underflow (a b : Z) :
  a < b → SafeMath.sub a b = Throw (Revert "SafeMath: subtraction overflow").
Proof. intros Hab. unfold SafeMath.sub. by destruct (Z.leb_spec b a); [lia|]. Qed.

Lemma safe_div_ok (a b : Z) : 0 ≤ a → 0 < b → SafeMath.div a b = Ok (Z.quot a b).
Proof.
  intros Ha Hb. unfold SafeMath.div. cbv zeta.
  destruct (Z.ltb_spec 0 b); [|lia]. cbn. by rewrite quot_floor.
Qed.

#[export] Hint Rewrite safe_sub_ok safe_div_ok using (unfold is_uint in *; lia) : sol.

(** The ceiling idiom of the contracts never over- or underflows once the
    product fits. *)
Lemma safe_ceil (p b : Z) :
  0 < p ≤ UINT_MAX → 0 < b →
  (s ← SafeMath.sub p 1; q ← SafeMath.div s b; SafeMath.add q 1) = Ok (ceil_div p b).
Proof.
  intros Hp Hb. rewrite safe_sub_ok by (unfold is_uint; lia). cbn.
  rewrite safe_div_ok by lia. cbn.
  assert (0 ≤ Z.quot (p - 1) b ≤ p - 1).
  { pose proof (quot_bounds (p - 1) b). pose proof (Z.quot_pos (p - 1) b). nia. }
  rewrite safe_add_spec by (unfold is_uint, UINT_MAX in *; lia). unfold fits.
  destruct (Z.leb_spec (Z.quot (p - 1) b + 1) UINT_MAX); [|lia].
  by rewrite ceil_div_pred by lia.
Qed.

(** ** Agreement of the contracts with the tool chain *)
Section Agreement.
Context `{Ethers} `{SignedLib}.

Definition mul_overflow : result Z := Throw (Revert "SafeMath: multiplication overflow").

Lemma precise_unit_uint : is_uint PreciseUnitMath.PRECISE_UNIT.
Proof. unfold is_uint, PreciseUnitMath.PRECISE_UNIT, UINT_MAX. lia. Qed.

(** C35. On 256-bit unsigned arguments each fixed-point function of the
    contracts returns what the tool chain computes, and reverts exactly when
    the scaled product leaves the word or the divisor is zero. *)
Theorem uint_functions_agree (a b : Z) (Ha : is_uint a) (Hb : is_uint b) :
  PreciseUnitMath.preciseMul_u a b
    = (if fits (a * b) then preciseMul a b else mul_overflow) ∧
  PreciseUnitMath.preciseMulCeil_u a b
    = (if fits (a * b) then preciseMulCeil a b else mul_overflow) ∧
  PreciseUnitMath.preciseDiv_u a b
    = (if fits (a * 10 ^ 18) then
         if b =? 0 then Throw (Revert "SafeMath: division by zero") else preciseDiv a b
       else mul_overflow) ∧
  PreciseUnitMath.preciseDivCeil_u a b
    = (if b =? 0 then Throw (Revert "Cant divide by 0")
       else if fits (a * 10 ^ 18) then preciseDivCeil a b else mul_overflow).
Proof.
  pose proof precise_unit_uint as HU. pose proof Ha as [Ha0 _]. pose proof Hb as [Hb0 _].
  unfold PreciseUnitMath.preciseMul_u, PreciseUnitMath.preciseMulCeil_u,
    PreciseUnitMath.preciseDiv_u, PreciseUnitMath.preciseDivCeil_u.
  rewrite !safe_mul_spec by done. change PreciseUnitMath.PRECISE_UNIT with (10 ^ 18).
  split; [|split; [|split]].
  - destruct (fits (a * b)) eqn:F; [|done]. cbn. rewrite safe_div_ok by nia. by bn_simpl.
  - destruct (Z.eqb_spec a 0) as [->|Hane]; [cbn; bn_simpl; done|].
    destruct (Z.eqb_spec b 0) as [->|Hbne]; [rewrite Z.mul_0_r; cbn; unfold preciseMulCeil; bn_simpl; by rewrite orb_true_r|].
    cbn [orb]. destruct (fits (a * b)) eqn:F; [|done]. cbn [mbind result_bind].
    apply Z.leb_le in F. rewrite safe_ceil by nia. by rewrite preciseMulCeil_eq by nia.
  - destruct (fits (a * 10 ^ 18)) eqn:F; [|done]. cbn [mbind result_bind].
    destruct (Z.eqb_spec b 0) as [->|]; [done|]. rewrite safe_div_ok by lia. by bn_simpl.
  - destruct (Z.eqb_spec b 0) as [->|Hbne]; [done|]. cbn [negb require mbind result_bind].
    destruct (Z.ltb_spec 0 a).
    + destruct (fits (a * 10 ^ 18)) eqn:F; [|done]. cbn [mbind result_bind].
      apply Z.leb_le in F. rewrite safe_ceil by lia. by bn_simpl.
    + replace a with 0 by lia. cbn. by bn_simpl.
Qed.

Lemma ceil_div_abs_le (p b : Z) : 0 ≤ p → 0 < b → 0 ≤ ceil_div p b ≤ p.
Proof. intros Hp Hb. pose proof (ceil_div_bounds p b Hb). nia. Qed.

Lemma scaled_not_min (a : Z) : a * 10 ^ 18 ≠ INT_MIN.
Proof.
  intros E. apply (f_equal (λ z, z mod 10 ^ 18)) in E.
  rewrite Z.mod_mul in E by done. vm_compute in E. discriminate E.
Qed.

Lemma away_div_int (a b : Z) :
  is_int (a * 10 ^ 18) → b ≠ 0 → is_int (away_div (a * 10 ^ 18) b).
Proof.
  intros Ha Hb. set (p := a * 10 ^ 18).
  assert (p ≠ INT_MIN).
  { apply scaled_not_min. }
  pose proof (ceil_div_abs_le (Z.abs p) (Z.abs b)).
  unfold away_div, is_int, INT_MIN, INT_MAX in *. unfold p in *.
  destruct (Z.sgn_spec (a * 10 ^ 18)) as [[? ->]|[[? ->]|[? ->]]], (Z.sgn_spec b) as [[? ->]|[[? ->]|[? ->]]]; lia.
Qed.

Lemma xor_pos_same_sign (p b : Z) :
  p ≠ b → (0 <? Z.lxor p b) = Bool.eqb (0 <=? p) (0 <=? b).
Proof.
  intros Hne. pose proof (Z.lxor_nonneg p b) as S. pose proof (Z.lxor_eq_0_iff p b) as Z0.
  destruct (Z.ltb_spec 0 (Z.lxor p b)), (Z.leb_spec 0 p), (Z.leb_spec 0 b); cbn; try done; lia.
Qed.

(** A divisor of magnitude above one at least halves. *)
Lemma quot_halves (a b : Z) : 1 < Z.abs b → 2 * Z.abs (Z.quot a b) ≤ Z.abs a.
Proof.
  intros Hb. rewrite <- Z.quot_abs by lia. pose proof (quot_bounds (Z.abs a) (Z.abs b)).
  pose proof (Z.quot_pos (Z.abs a) (Z.abs b)). nia.
Qed.

Lemma int_div_in_range (a b : Z) :
  is_int a → is_int b → b ≠ 0 → (a ≠ INT_MIN ∨ b ≠ -1) → is_int (Z.quot a b).
Proof.
  intros Ha Hbi Hb Hex. destruct (decide (1 < Z.abs b)) as [Hb1|Hb1].
  - pose proof (quot_halves a b Hb1). unfold is_int, INT_MIN, INT_MAX in *. lia.
  - assert (b = 1 ∨ b = - (1)) as [-> | ->] by lia.
    + by rewrite Z.quot_1_r.
    + rewrite Z.quot_opp_r, Z.quot_1_r by lia. unfold is_int, INT_MIN, INT_MAX in *. lia.
Qed.

Lemma int_unit : is_int (10 ^ 18).
Proof. unfold is_int, INT_MIN, INT_MAX. lia. Qed.

Lemma quot_unit_int (p : Z) : is_int p → is_int (Z.quot p (10 ^ 18)).
Proof. intros Hp. apply int_div_in_range; [done|apply int_unit|done|by right]. Qed.

(** The contracts decide the direction of the step by the sign of [a ^ b]. *)
Lemma xor_step_away (p b : Z) :
  b ≠ 0 → (if negb (Z.rem p b =? 0) then if 0 <? Z.lxor p b then Z.quot p b + 1
           else Z.quot p b - 1 else Z.quot p b) = step_away p b.
Proof.
  intros Hb. unfold step_away. pose proof (Z.quot_rem' p b) as Q.
  destruct (Z.eqb_spec (Z.rem p b) 0) as [E|E], (Z.eqb_spec (Z.quot p b * b) p); cbn [negb]; try lia.
  assert (p ≠ b) by (intros ->; rewrite Z.rem_same in E; done).
  assert (p ≠ 0) by (intros ->; rewrite Z.rem_0_l in E; done).
  rewrite xor_pos_same_sign by done.
  destruct (Z.leb_spec 0 p), (Z.leb_spec 0 b), (Z.ltb_spec 0 p), (Z.ltb_spec 0 b),
    (Z.ltb_spec p 0), (Z.ltb_spec b 0); cbn; lia.
Qed.

Lemma xor_floor (a b : Z) :
  b ≠ 0 → (if (Z.lxor a b <? 0) && negb (Z.rem a b =? 0) then Z.quot a b - 1
           else Z.quot a b) = a / b.
Proof.
  intros Hb. pose proof (Z.lxor_nonneg a b) as S.
  destruct (Z.ltb_spec 0 b) as [Hp|Hn].
  - rewrite div_quot_pos by done.
    assert ((a mod b =? 0) = (Z.rem a b =? 0)) as ->.
    { destruct (Z.eqb_spec (a mod b) 0) as [E|E], (Z.eqb_spec (Z.rem a b) 0) as [E'|E']; try done;
        rewrite Z.rem_divide, <- Z.mod_divide in E' by done; lia. }
    assert ((Z.lxor a b <? 0) = (a <? 0)) as -> by lia. done.
  - rewrite div_quot_neg by lia.
    assert ((a mod - b =? 0) = (Z.rem a b =? 0)) as ->.
    { destruct (Z.eqb_spec (a mod - b) 0) as [E|E], (Z.eqb_spec (Z.rem a b) 0) as [E'|E']; try done;
        rewrite Z.rem_divide, <- Z.divide_opp_l, <- Z.mod_divide in E' by lia; lia. }
    destruct (Z.ltb_spec 0 a), (Z.ltb_spec (Z.lxor a b) 0); try done; try lia.
    replace a with 0 by lia. by rewrite Z.rem_0_l.
Qed.

(** On 256-bit signed arguments whose scaled values stay in the word, the
    signed multiplication truncates and the signed ceiling division rounds
    away from zero exactly as the tool chain computes them; a zero divisor
    reverts where the tool chain throws. *)
Theorem int_functions_agree (a b : Z) (Ha : is_int a) (Hb : is_int b)
    (Hab : is_int (a * b)) (Hau : is_int (a * 10 ^ 18)) :
  PreciseUnitMath.preciseMul_i a b = preciseMul a b ∧
  PreciseUnitMath.preciseDivCeil_i a b
    = (if b =? 0 then Throw (Revert "Cant divide by 0") else preciseDivCeilInt a b) ∧
  PreciseUnitMath.conservativePreciseMul a b = divDown (a * b) (10 ^ 18).
Proof.
  pose proof int_unit as HU.
  unfold PreciseUnitMath.preciseMul_i, PreciseUnitMath.preciseDivCeil_i,
    PreciseUnitMath.conservativePreciseMul, PreciseUnitMath.divDown,
    PreciseUnitMath.PRECISE_UNIT_INT.
  rewrite !int_mul_fits by done. cbn [mbind result_bind].
  split; [|split].
  - rewrite int_div_fits by (done || by apply quot_unit_int). by bn_simpl.
  - destruct (Z.eqb_spec b 0) as [->|Hbne]; [done|]. cbn [negb require mbind result_bind].
    rewrite preciseDivCeilInt_eq by done.
    pose proof (away_div_int a b Hau Hbne) as Hr. rewrite <- quot_step_away in Hr by done.
    assert (is_int (Z.quot (a * 10 ^ 18) b)) as Hq.
    { apply int_div_in_range; [done..|]. left. apply scaled_not_min. }
    rewrite int_div_fits by done. cbn [mbind result_bind].
    rewrite <- xor_step_away in Hr |- * by done.
    destruct (negb _); [|done]. destruct (0 <? _); by rewrite wrap_int_small.
  - cbn [negb Z.eqb require mbind result_bind]. rewrite orb_true_r. cbn [require mbind result_bind].
    rewrite int_div_fits by (done || by apply quot_unit_int). cbn [mbind result_bind].
    rewrite divDown_eq, <- xor_floor by done.
    destruct (_ && _); [|done]. rewrite wrap_int_small; [done|].
    pose proof (Z.quot_abs (a * b) (10 ^ 18)) as Q.
    pose proof (quot_bounds (Z.abs (a * b)) (10 ^ 18)) as B.
    unfold is_int, INT_MIN, INT_MAX in *. change (Z.abs (10 ^ 18)) with (10 ^ 18) in Q.
    rewrite Q in B by done. lia.
Qed.

Lemma floor_div_int (a b : Z) :
  is_int a → is_int b → b ≠ 0 → (a ≠ INT_MIN ∨ b ≠ -1) → is_int (a / b).
Proof.
  intros Ha Hb Hb0 Hex. pose proof (int_div_in_range a b Ha Hb Hb0 Hex) as Hq.
  rewrite <- xor_floor by done.
  destruct ((Z.lxor a b <? 0) && negb (Z.rem a b =? 0)) eqn:F; [|done].
  assert (Z.rem a b ≠ 0) by lia.
  assert (b ≠ 1 ∧ b ≠ -1) as [??].
  { split; intros ->; [by rewrite Z.rem_1_r in *|].
    change (-1) with (- (1)) in *. by rewrite Z.rem_opp_r, Z.rem_1_r in * by lia. }
  pose proof (quot_halves a b ltac:(lia)).
  unfold is_int, INT_MIN, INT_MAX in *. lia.
Qed.

Lemma divDown_ok (a b : Z) :
  is_int a → is_int b → b ≠ 0 → (a ≠ INT_MIN ∨ b ≠ -1) →
  PreciseUnitMath.divDown a b = Ok (a / b).
Proof.
  intros Ha Hb Hb0 Hex. pose proof (floor_div_int a b Ha Hb Hb0 Hex) as Hf.
  unfold PreciseUnitMath.divDown. destruct (Z.eqb_spec b 0); [done|].
  cbn [negb require mbind result_bind].
  assert (negb (a =? INT_MIN) || negb (b =? -1) = true) as -> by lia.
  cbn [require mbind result_bind]. rewrite int_div_fits by (done || by apply int_div_in_range).
  cbn [mbind result_bind]. rewrite <- xor_floor in Hf |- * by done.
  destruct (_ && _); [|done]. by rewrite wrap_int_small.
Qed.

(** On 256-bit signed arguments [divDown] of the contracts is floor
    division, as in the tool chain, and reverts exactly on a zero divisor and
    on the one quotient that leaves the word. *)
Theorem sol_divDown_agrees (a b : Z) (Ha : is_int a) (Hb : is_int b) :
  PreciseUnitMath.divDown a b =
    if b =? 0 then Throw (Revert "Cant divide by 0")
    else if (a =? INT_MIN) && (b =? -1) then Throw (Revert "Invalid input")
    else divDown a b.
Proof.
  destruct (Z.eqb_spec b 0) as [->|Hb0]; [done|].
  destruct ((a =? INT_MIN) && (b =? -1)) eqn:E.
  - unfold PreciseUnitMath.divDown. destruct (Z.eqb_spec b 0); [done|].
    by rewrite <- negb_andb, E.
  - rewrite divDown_ok by (done || lia). by rewrite divDown_eq.
Qed.

Lemma safePower_loop_spec (n : nat) (a r : Z) :
  1 ≤ a → 1 ≤ r ≤ UINT_MAX → is_uint a →
  PreciseUnitMath.safePower_loop n a r =
    if fits (r * a ^ Z.of_nat n) then Ok (r * a ^ Z.of_nat n) else mul_overflow.
Proof.
  intros Ha. revert r. induction n as [|n IH]; intros r Hr Hua; cbn [PreciseUnitMath.safePower_loop].
  { rewrite Z.pow_0_r, Z.mul_1_r. unfold fits. by destruct (Z.leb_spec r UINT_MAX); [|lia]. }
  rewrite safe_mul_spec by (unfold is_uint in *; lia).
  rewrite Nat2Z.inj_succ, Z.pow_succ_r, Z.mul_assoc by lia.
  pose proof (Z.pow_pos_nonneg a (Z.of_nat n)).
  destruct (fits (r * a)) eqn:F; cbn [mbind result_bind].
  - apply Z.leb_le in F. apply IH; [nia|done].
  - unfold fits in *. apply Z.leb_gt in F.
    destruct (Z.leb_spec (r * a * a ^ Z.of_nat n) UINT_MAX); [nia|done].
Qed.

(** [safePower] computes the power and reverts exactly when the base is
    zero or the power leaves the word, never on an intermediate product. *)
Theorem safePower_power (a pow : Z) (Ha : is_uint a) (Hp : is_uint pow) :
  PreciseUnitMath.safePower a pow =
    if a =? 0 then Throw (Revert "Value must be positive")
    else if fits (a ^ pow) then Ok (a ^ pow) else mul_overflow.
Proof.
  unfold PreciseUnitMath.safePower. pose proof Ha as [Ha0 _]. pose proof Hp as [Hp0 _].
  destruct (Z.eqb_spec a 0) as [->|Hne]; [done|].
  destruct (Z.ltb_spec 0 a); [|lia]. cbn [require mbind result_bind].
  rewrite safePower_loop_spec by (done || unfold UINT_MAX; lia).
  by rewrite Z2Nat.id, Z.mul_1_l by lia.
Qed.
End Agreement.

(** ** Concrete instances *)

Ltac word := unfold is_uint, is_int, UINT_MAX, INT_MIN, INT_MAX; lia.

Lemma uint_functions_agree_witness :
  PreciseUnitMath.preciseDivCeil_u 7 (2 * 10 ^ 18) = Ok 4 ∧
  PreciseUnitMath.preciseDivCeil_u 7 0 = Throw (Revert "Cant divide by 0") ∧
  preciseDivCeil 7 0 = Ok 0.
Proof.
  destruct (uint_functions_agree 7 (2 * 10 ^ 18) ltac:(word) ltac:(word)) as (_ & _ & _ & E).
  destruct (uint_functions_agree 7 0 ltac:(word) ltac:(word)) as (_ & _ & _ & E0).
  rewrite E, E0. computed.
Defined.

Lemma int_functions_agree_witness :
  PreciseUnitMath.preciseDivCeil_i (-7) (2 * 10 ^ 18) = Ok (-4).
Proof.
  destruct (int_functions_agree (-7) (2 * 10 ^ 18) ltac:(word) ltac:(word) ltac:(word) ltac:(word))
    as (_ & E & _).
  rewrite E. computed.
Defined.

Lemma sol_divDown_agrees_witness :
  PreciseUnitMath.divDown (-7) 2 = Ok (-4) ∧
  PreciseUnitMath.divDown INT_MIN (-1) = Throw (Revert "Invalid input").
Proof.
  rewrite (sol_divDown_agrees (-7) 2 ltac:(word) ltac:(word)).
  rewrite (sol_divDown_agrees INT_MIN (-1) ltac:(word) ltac:(word)).
  computed.
Defined.

Lemma safePower_power_witness :
  PreciseUnitMath.safePower 10 77 = Ok (10 ^ 77) ∧
  PreciseUnitMath.safePower 10 78 = Throw (Revert "SafeMath: multiplication overflow").
Proof.
  rewrite (safePower_power 10 77 ltac:(word) ltac:(word)).
  rewrite (safePower_power 10 78 ltac:(word) ltac:(word)).
  computed.
Defined.

(** ** Successful checked computations *)
Section Checked.
Lemma safe_mul_inv (a b c : Z) :
  is_uint a → is_uint b → SafeMath.mul a b = Ok c → c = a * b ∧ is_uint c.
Proof.
  intros Ha Hb. rewrite safe_mul_spec by done. unfold fits, is_uint in *.
  destruct (Z.leb_spec (a * b) UINT_MAX); [|discriminate]. intros [= <-]. nia.
Qed.

Lemma safe_add_inv (a b c : Z) :
  is_uint a → is_uint b → SafeMath.add a b = Ok c → c = a + b ∧ is_uint c.
Proof.
  intros Ha Hb. rewrite safe_add_spec by done. unfold fits, is_uint in *.
  destruct (Z.leb_spec (a + b) UINT_MAX); [|discriminate]. intros [= <-]. lia.
Qed.

Lemma safe_sub_inv (a b c : Z) :
  is_uint a → is_uint b → SafeMath.sub a b = Ok c → c = a - b ∧ b ≤ a ∧ is_uint c.
Proof.
  intros Ha Hb. destruct (Z.le_gt_cases b a).
  - unfold is_uint in *. rewrite safe_sub_ok by (unfold is_uint; lia). intros [= <-]. lia.
  - by rewrite safe_sub_underflow.
Qed.

Lemma safe_div_inv (a b c : Z) :
  is_uint a → is_uint b → SafeMath.div a b = Ok c → c = Z.quot a b ∧ 0 < b ∧ is_uint c.
Proof.
  intros [Ha ?] [Hb ?]. destruct (decide (0 < b)).
  - rewrite safe_div_ok by lia. intros [= <-]. unfold is_uint.
    pose proof (quot_abs_le a b). pose proof (Z.quot_pos a b). lia.
  - unfold SafeMath.div. by destruct (Z.ltb_spec 0 b); [lia|].
Qed.

Lemma preciseMul_u_inv (a b c : Z) :
  is_uint a → is_uint b → PreciseUnitMath.preciseMul_u a b = Ok c →
  c = Z.quot (a * b) (10 ^ 18) ∧ is_uint c.
Proof.
  intros Ha Hb H. unfold PreciseUnitMath.preciseMul_u in H. result_inv.
  destruct (safe_mul_inv a b x) as [-> ?]; [done..|].
  apply safe_div_inv in H as (-> & _ & ?); [done|done|apply precise_unit_uint].
Qed.

Lemma preciseDiv_u_inv (a b c : Z) :
  is_uint a → is_uint b → PreciseUnitMath.preciseDiv_u a b = Ok c →
  c = Z.quot (a * 10 ^ 18) b ∧ 0 < b ∧ is_uint c.
Proof.
  intros Ha Hb H. unfold PreciseUnitMath.preciseDiv_u in H. result_inv.
  destruct (safe_mul_inv a PreciseUnitMath.PRECISE_UNIT x) as [-> ?];
    [done|apply precise_unit_uint|done|].
  apply safe_div_inv in H; done.
Qed.

Lemma preciseDiv_u_iff (a b c : Z) :
  is_uint a → is_uint b →
  PreciseUnitMath.preciseDiv_u a b = Ok c ↔ 0 < b ∧ a * 10 ^ 18 ≤ UINT_MAX ∧ c = a * 10 ^ 18 / b.
Proof.
  intros Ha Hb. unfold PreciseUnitMath.preciseDiv_u.
  rewrite (safe_mul_spec a PreciseUnitMath.PRECISE_UNIT Ha precise_unit_uint).
  change PreciseUnitMath.PRECISE_UNIT with (10 ^ 18).
  unfold fits, is_uint in *. destruct (Z.leb_spec (a * 10 ^ 18) UINT_MAX); [|split; [done|lia]].
  cbn [mbind result_bind]. destruct (decide (0 < b)).
  - rewrite safe_div_ok, quot_floor by lia. split; [by intros [= <-]|by intros (_ & _ & ->)].
  - unfold SafeMath.div. destruct (Z.ltb_spec 0 b); [lia|]. split; [done|lia].
Qed.

Lemma preciseMulCeil_u_inv (a b c : Z) :
  is_uint a → is_uint b → PreciseUnitMath.preciseMulCeil_u a b = Ok c →
  c = ceil_div (a * b) (10 ^ 18) ∧ is_uint c.
Proof.
  intros [Ha Ha2] [Hb Hb2] H. unfold PreciseUnitMath.preciseMulCeil_u in H.
  destruct (Z.eqb_spec a 0) as [->|]; [injection H as <-; unfold is_uint, UINT_MAX; by split|].
  destruct (Z.eqb_spec b 0) as [->|].
  { injection H as <-. rewrite Z.mul_0_r. unfold is_uint, UINT_MAX. by split. }
  cbn [orb] in H. apply result_bind_ok in H as (p & Hp & H).
  apply safe_mul_inv in Hp as [-> Hp]; [|by split..]. unfold is_uint in Hp.
  change PreciseUnitMath.PRECISE_UNIT with (10 ^ 18) in H.
  assert (0 < a * b) by nia. rewrite safe_ceil in H by lia. injection H as <-.
  split; [done|]. unfold is_uint. pose proof (ceil_div_abs_le (a * b) (10 ^ 18)). lia.
Qed.

Lemma wrap_uint_uint (z : Z) : is_uint (wrap_uint z).
Proof. unfold is_uint, wrap_uint, UINT_MAX. pose proof (Z.mod_pos_bound z (2 ^ 256)). lia. Qed.

Lemma wrap_int_int (z : Z) : is_int (wrap_int z).
Proof.
  unfold is_int, wrap_int, INT_MIN, INT_MAX. pose proof (Z.mod_pos_bound (z + 2 ^ 255) (2 ^ 256)).
  change (2 ^ 256) with (2 * 2 ^ 255) in *. lia.
Qed.

Lemma int_0 : is_int 0.
Proof. unfold is_int, INT_MAX, INT_MIN. lia. Qed.

Lemma uint_of_int (z : Z) : 0 ≤ z ≤ INT_MAX → is_uint z ∧ is_int z.
Proof. unfold is_uint, is_int, INT_MIN, INT_MAX, UINT_MAX. lia. Qed.

Lemma uint_0 : is_uint 0.
Proof. unfold is_uint, UINT_MAX. lia. Qed.
End Checked.

#[export] Hint Resolve precise_unit_uint wrap_uint_uint uint_0 : uint.

(** ** Successful signed computations *)
Section SignedChecked.
Context `{SignedLib}.

Lemma divDown_inv (a b c : Z) :
  is_int a → is_int b → PreciseUnitMath.divDown a b = Ok c → b ≠ 0 ∧ c = a / b ∧ is_int c.
Proof.
  intros Ha Hb E. pose proof E as E'. unfold PreciseUnitMath.divDown in E'.
  destruct (Z.eqb_spec b 0); [discriminate|]. cbn [negb require mbind result_bind] in E'.
  destruct (negb (a =? INT_MIN) || negb (b =? -1)) eqn:F; [|discriminate].
  rewrite divDown_ok in E by (done || lia). injection E as <-.
  split; [done|]. split; [done|]. apply floor_div_int; (done || lia).
Qed.

Lemma int_mul_inv (a b c : Z) :
  is_int a → is_int b → int_mul a b = Ok c → c = a * b ∧ is_int c.
Proof.
  intros Ha Hb E.
  destruct (decide (INT_MIN ≤ a * b ∧ a * b ≤ INT_MAX)) as [Hab|Hab].
  - rewrite int_mul_fits in E by done. by injection E as <-.
  - by rewrite int_mul_overflow in E.
Qed.

Lemma int_add_inv (a b c : Z) :
  is_int a → is_int b → int_add a b = Ok c → c = a + b ∧ is_int c.
Proof.
  intros Ha Hb E.
  destruct (decide (INT_MIN ≤ a + b ∧ a + b ≤ INT_MAX)) as [Hab|Hab].
  - rewrite int_add_fits in E by done. by injection E as <-.
  - by rewrite int_add_overflow in E.
Qed.

Lemma toUint256_inv (a c : Z) : is_int a → toUint256 a = Ok c → c = a ∧ 0 ≤ a ∧ is_uint c.
Proof.
  intros Ha E. destruct (Z.le_gt_cases 0 a).
  - rewrite toUint256_nonneg in E by done. injection E as <-.
    unfold is_int, is_uint, INT_MAX, UINT_MAX in *. lia.
  - by rewrite toUint256_neg in E.
Qed.

Lemma toInt256_inv (a c : Z) : is_uint a → toInt256 a = Ok c → c = a ∧ a ≤ INT_MAX ∧ is_int c.
Proof.
  intros Ha E. destruct (Z.le_gt_cases a INT_MAX).
  - rewrite toInt256_fits in E by done. injection E as <-.
    unfold is_int, is_uint, INT_MIN in *. lia.
  - by rewrite toInt256_big in E.
Qed.

Lemma conservativePreciseMul_ok (a b : Z) :
  is_int a → is_int b → is_int (a * b) →
  PreciseUnitMath.conservativePreciseMul a b = Ok (a * b / 10 ^ 18).
Proof.
  intros Ha Hb Hab. unfold PreciseUnitMath.conservativePreciseMul.
  rewrite int_mul_fits by done. cbn [mbind result_bind].
  apply divDown_ok; [done|apply int_unit|done|by right].
Qed.

Lemma conservativePreciseMul_inv (a b c : Z) :
  is_int a → is_int b → PreciseUnitMath.conservativePreciseMul a b = Ok c →
  c = a * b / 10 ^ 18 ∧ is_int (a * b) ∧ is_int c.
Proof.
  intros Ha Hb E. unfold PreciseUnitMath.conservativePreciseMul in E. result_inv.
  destruct (int_mul_inv a b x) as [-> ?]; [done..|].
  apply divDown_inv in E as (_ & -> & ?); [done|done|apply int_unit].
Qed.

Lemma conservativePreciseDiv_inv (a b c : Z) :
  is_int a → is_int b → PreciseUnitMath.conservativePreciseDiv a b = Ok c →
  b ≠ 0 ∧ c = a * 10 ^ 18 / b ∧ is_int c ∧ is_int (a * 10 ^ 18).
Proof.
  intros Ha Hb E. unfold PreciseUnitMath.conservativePreciseDiv in E.
  apply result_bind_ok in E as (p & Ep & E). apply int_mul_inv in Ep as [-> ?]; [|done|apply int_unit].
  apply divDown_inv in E as (? & ? & ?); done.
Qed.

Lemma preciseMul_i_inv (a b c : Z) :
  is_int a → is_int b → PreciseUnitMath.preciseMul_i a b = Ok c →
  c = Z.quot (a * b) (10 ^ 18) ∧ is_int c.
Proof.
  intros Ha Hb E. unfold PreciseUnitMath.preciseMul_i in E. result_inv.
  destruct (int_mul_inv a b x) as [-> ?]; [done..|].
  assert (is_int (Z.quot (a * b) PreciseUnitMath.PRECISE_UNIT_INT)) as Hq by (by apply quot_unit_int).
  rewrite int_div_fits in E; [|done|apply int_unit|discriminate|done].
  injection E as <-. split; [done|done].
Qed.
End SignedChecked.

(** Results of the unsigned functions are words, whatever their arguments are. *)
Section Words.
Implicit Types (a b c : Z).

Lemma safe_mul_word a b c : SafeMath.mul a b = Ok c → is_uint c.
Proof.
  unfold SafeMath.mul. cbv zeta. destruct (a =? 0); [intros [= <-]; apply uint_0|].
  intros (? & _ & [= <-])%result_bind_ok. apply wrap_uint_uint.
Qed.

Lemma safe_add_word a b c : SafeMath.add a b = Ok c → is_uint c.
Proof. unfold SafeMath.add. intros (? & _ & [= <-])%result_bind_ok. apply wrap_uint_uint. Qed.

Lemma preciseMul_u_word a b c : PreciseUnitMath.preciseMul_u a b = Ok c → is_uint c.
Proof.
  unfold PreciseUnitMath.preciseMul_u. intros (p & Hp & Hc)%result_bind_ok.
  apply safe_mul_word in Hp. by apply safe_div_inv in Hc as (_ & _ & ?); [|done|apply precise_unit_uint].
Qed.

Lemma preciseMulCeil_u_word a b c : PreciseUnitMath.preciseMulCeil_u a b = Ok c → is_uint c.
Proof.
  unfold PreciseUnitMath.preciseMulCeil_u. destruct (_ || _); [intros [= <-]; apply uint_0|].
  intros (? & _ & (? & _ & (? & _ & Hc)%result_bind_ok)%result_bind_ok)%result_bind_ok.
  by eapply safe_add_word.
Qed.

Lemma preciseMul_u_floor a b c :
  is_uint a → is_uint b → PreciseUnitMath.preciseMul_u a b = Ok c → c = a * b / 10 ^ 18 ∧ is_uint c.
Proof.
  intros [Ha Ha'] [Hb Hb'] Hc. apply preciseMul_u_inv in Hc as [-> Hc]; [|by split..].
  split; [|done]. apply quot_floor; [nia|lia].
Qed.

Lemma preciseDiv_u_floor a b c :
  is_uint a → is_uint b → PreciseUnitMath.preciseDiv_u a b = Ok c →
  0 < b ∧ c = a * 10 ^ 18 / b ∧ is_uint c.
Proof.
  intros Ha Hb Hc. pose proof (preciseDiv_u_inv a b c Ha Hb Hc) as (_ & _ & Hw).
  by apply preciseDiv_u_iff in Hc as (? & _ & ->).
Qed.
End Words.
