(* ===== verification/Script.v ===== *)
(** * Asynchronous programs

    The tool chain is made of asynchronous functions that talk to a chain: they
    deploy contracts, call them and send RPC requests, and go on with the answer.
    A [script] is such a program; a chain is a transition function on events, and
    [run] plays a script against it.  A rejected promise ends the script: no
    modelled function catches one. *)
From Stdlib Require Import String.
From S2P Require Import Prelude JsString BigNumber Constants.

(** ** Values exchanged with contracts *)

Inductive value :=
| VUndefined
| VBool (b : bool)
| VNum (z : Z)
| VAddr (a : Address)
| VStr (s : string)
| VBytes (b : Bytes)
| VList (l : list value)
| VObj (fields : list (string * value)).

(** Result objects carry their fields by name. *)
Fixpoint assoc (k : string) (l : list (string * value)) : option value :=
  match l with
  | [] => None
  | (k', v) :: l' => if String.eqb k k' then Some v else assoc k l'
  end.

Definition prop (k : string) (v : value) : option value :=
  match v with VObj fs => assoc k fs | _ => None end.

(** The typed reading of an answer, as the generated bindings declare it. *)
Class FromValue (A : Type) := from_value : value → option A.

#[export] Instance value_from_value : FromValue value := Some.
#[export] Instance unit_from_value : FromValue () := λ _, Some ().
#[export] Instance Z_from_value : FromValue Z := λ v, match v with VNum z => Some z | _ => None end.
#[export] Instance bool_from_value : FromValue bool :=
  λ v, match v with VBool b => Some b | _ => None end.
(** An address is a string. *)
#[export] Instance Address_from_value : FromValue Address :=
  λ v, match v with VAddr a | VStr a => Some a | _ => None end.
#[export] Instance list_from_value `{FromValue A} : FromValue (list A) :=
  λ v, match v with VList l => mapM from_value l | _ => None end.
#[export] Instance pair_from_value `{FromValue A} `{FromValue B} : FromValue (A * B) :=
  λ v, match v with
       | VList [x; y] => a ← from_value x; b ← from_value y; Some (a, b)
       | _ => None
       end.

Definition get_field {A} `{FromValue A} (k : string) (v : value) : option A :=
  x ← prop k v; from_value x.

(** ** Contract instances *)

Record contract := {
  factory : string;
  address : Address;
  signer : Address;
}.

(** [instance.connect(wallet)]. *)
Definition connect (c : contract) (wallet : Address) : contract :=
  {| factory := factory c; address := address c; signer := wallet |}.

(** ** Events *)

Inductive event :=
| EvDeploy (from : Address) (name : string) (links : list (string * Address)) (args : list value)
| EvCall (from target : Address) (method : string) (args : list value)
| EvRpc (method : string) (params : list value).

Inductive script (A : Type) :=
| SRet (a : A)
| SThrow (e : jserror)
| SVis (ev : event) (k : value → script A).
Arguments SRet {A} a.
Arguments SThrow {A} e.
Arguments SVis {A} ev k.

#[export] Instance script_ret : MRet script := @SRet.
#[export] Instance script_bind : MBind script := λ A B f,
  fix go (p : script A) : script B :=
    match p with
    | SRet a => f a
    | SThrow e => SThrow e
    | SVis ev k => SVis ev (λ v, go (k v))
    end.

Definition lift_result {A} (r : result A) : script A :=
  match r with Ok a => SRet a | Throw e => SThrow e end.

(** An answer of the wrong shape is a decoding error of the bindings. *)
Definition decode_answer {A} `{FromValue A} (what : string) (v : value) : script A :=
  match from_value v with Some a => SRet a | None => SThrow (TypeError what) end.

(** [new F__factory(links, signer).deploy(...args)]. *)
Definition deploy (from : Address) (name : string) (links : list (string * Address))
    (args : list value) : script contract :=
  SVis (EvDeploy from name links args) (λ v,
    a ← decode_answer name v; SRet {| factory := name; address := a; signer := from |}).

(** [new F__factory(signer).attach(a)] and [F__factory.connect(a, signer)]. *)
Definition attach (from : Address) (name : string) (a : Address) : contract :=
  {| factory := name; address := a; signer := from |}.

(** [await c.method(...args)]. *)
Definition call {A} `{FromValue A} (c : contract) (method : string) (args : list value) : script A :=
  SVis (EvCall (signer c) (address c) method args) (decode_answer method).

(** A transaction whose answer the program discards. *)
Definition send (c : contract) (method : string) (args : list value) : script () :=
  call c method args.

Definition rpc {A} `{FromValue A} (method : string) (params : list value) : script A :=
  SVis (EvRpc method params) (decode_answer method).

(** A loop over the elements of an array. *)
Fixpoint for_each {A S} (body : A → S → script S) (l : list A) (s : S) : script S :=
  match l with
  | [] => SRet s
  | x :: l' => s' ← body x s; for_each body l' s'
  end.

(** ** Runs *)
Section Run.
Context {S : Type} (step : S → event → S * result value).

(** The final state, the events performed and the outcome. *)
Fixpoint run {A} (p : script A) (s : S) : S * list event * result A :=
  match p with
  | SRet a => (s, [], Ok a)
  | SThrow e => (s, [], Throw e)
  | SVis ev k =>
      match step s ev with
      | (s', Ok v) => let '(s'', t, r) := run (k v) s' in (s'', ev :: t, r)
      | (s', Throw e) => (s', [ev], Throw e)
      end
  end.

Definition outcome {A} (p : script A) (s : S) : result A := (run p s).2.
Definition trace {A} (p : script A) (s : S) : list event := (run p s).1.2.
Definition final {A} (p : script A) (s : S) : S := (run p s).1.1.

Lemma run_bind {A B} (p : script A) (f : A → script B) (s : S) :
  run (p ≫= f) s =
    match run p s with
    | (s', t, Ok a) => let '(s'', t', r) := run (f a) s' in (s'', t ++ t', r)
    | (s', t, Throw e) => (s', t, Throw e)
    end.
Proof.
  revert s. induction p as [a|e|ev k IH]; intros s; cbn; [|done|].
  - by destruct (run (f a) s) as [[s' t] r].
  - destruct (step s ev) as [s' [v|e]]; [|done].
    change (script_bind A B f (k v)) with (k v ≫= f). rewrite IH.
    destruct (run (k v) s') as [[s'' t] [a|e]]; [|done].
    by destruct (run (f a) s'') as [[s3 t'] r].
Qed.

Lemma run_lift_result {A} (r : result A) (s : S) : run (lift_result r) s = (s, [], r).
Proof. by destruct r. Qed.
End Run.

(** ** Scripts with a [this] object *)

(** The fields of a class instance; reading an unset one yields [undefined],
    whose properties cannot be read. *)
Inductive field :=
| FContract (c : contract)
| FValue (v : value).

Abbreviation jsobj := (gmap string field).

Definition method (A : Type) : Type := jsobj → script (A * jsobj).

#[export] Instance method_ret : MRet method := λ A a this, SRet (a, this).
#[export] Instance method_bind : MBind method := λ A B f p this,
  '(a, this') ← p this; f a this'.

Definition await {A} (p : script A) : method A := λ this, a ← p; SRet (a, this).

Definition set_contract (k : string) (c : contract) : method () :=
  λ this, SRet ((), <[k := FContract c]> this).
Definition set_value (k : string) (v : value) : method () :=
  λ this, SRet ((), <[k := FValue v]> this).

(** [this.k], used as a contract instance. *)
Definition this_contract (k : string) : method contract := λ this,
  match this !! k with
  | Some (FContract c) => SRet (c, this)
  | _ => SThrow (TypeError k)
  end.

(** [this.k], used as a value. *)
Definition this_value {A} `{FromValue A} (k : string) : method A := λ this,
  match this !! k with
  | Some (FValue v) =>
      match from_value v with Some a => SRet (a, this) | None => SThrow (TypeError k) end
  | _ => SThrow (TypeError k)
  end.

(** [this.k.address]. *)
Definition this_address (k : string) : method Address :=
  c ← this_contract k; mret (address c).

(** [this.k = await p]. *)
Definition assign (k : string) (p : script contract) : method () :=
  c ← await p; set_contract k c.

(** [await this.k.m(...args)]. *)
Definition send_to (k m : string) (args : list value) : method () :=
  c ← this_contract k; await (send c m args).

Definition address_args (ks : list string) : method (list value) := λ this,
  foldr (λ k rest, '(a, _) ← this_address k this; '(vs, _) ← rest; SRet (VAddr a :: vs, this))
    (SRet ([], this)) ks.

(** [await this.k.m(this.k1.address, ...)]. *)
Definition wire (k m : string) (ks : list string) : method () :=
  args ← address_args ks; send_to k m args.

(** ** Successful runs *)
Section Yields.
Context {S : Type} (step : S → event → S * result value).

(** The script succeeds with [a], taking the chain from [s] to [s']. *)
Definition yields {A} (p : script A) (s s' : S) (a : A) : Prop :=
  ∃ t, run step p s = (s', t, Ok a).

Lemma yields_ret {A} (a : A) (s : S) : yields (mret a) s s a.
Proof. by exists []. Qed.

Lemma yields_bind {A B} (p : script A) (f : A → script B) (s s1 s2 : S) (a : A) (b : B) :
  yields p s s1 a → yields (f a) s1 s2 b → yields (p ≫= f) s s2 b.
Proof.
  intros [t Hp] [t' Hf]. exists (t ++ t'). by rewrite run_bind, Hp, Hf.
Qed.

Lemma yields_rpc {A} `{FromValue A} (m : string) (ps : list value) (s s' : S) (v : value) (a : A) :
  step s (EvRpc m ps) = (s', Ok v) → from_value v = Some a → yields (rpc m ps) s s' a.
Proof.
  intros Hs Hv. exists [EvRpc m ps]. cbn. rewrite Hs. unfold decode_answer. by rewrite Hv.
Qed.

Lemma yields_call {A} `{FromValue A} (c : contract) (m : string) (args : list value)
    (s s' : S) (v : value) (a : A) :
  step s (EvCall (signer c) (address c) m args) = (s', Ok v) → from_value v = Some a →
  yields (call c m args) s s' a.
Proof.
  intros Hs Hv. eexists. cbn. rewrite Hs. unfold decode_answer. by rewrite Hv.
Qed.

Lemma yields_lift {A} (r : result A) (s : S) (a : A) : r = Ok a → yields (lift_result r) s s a.
Proof. intros ->. by exists []. Qed.

Lemma yields_outcome {A} (p : script A) (s s' : S) (a : A) :
  yields p s s' a → outcome step p s = Ok a ∧ final step p s = s'.
Proof. intros [t E]. unfold outcome, final. by rewrite E. Qed.
End Yields.
