(* ===== verification/FeeUtils.v ===== *)
(** * Streaming fees

    [utils/common/feeModuleUtils.ts] and the computations of
    [contracts/protocol/modules/v1/StreamingFeeModule.sol] it predicts. *)
From Stdlib Require Import String.
From S2P Require Import Prelude JsString BigNumber Constants MathUtils SolMath Script.

(** ** The tool chain *)

(** The answer of [feeModule.feeStates(setToken)]. *)
Definition encode_fee_state (s : StreamingFeeState) : value :=
  VObj [("feeRecipient", VAddr (feeRecipient s));
        ("maxStreamingFeePercentage", VNum (maxStreamingFeePercentage s));
        ("streamingFeePercentage", VNum (streamingFeePercentage s));
        ("lastStreamingFeeTimestamp", VNum (lastStreamingFeeTimestamp s))]%string.

#[export] Instance fee_state_from_value : FromValue StreamingFeeState := λ v,
  r ← get_field "feeRecipient" v;
  m ← get_field "maxStreamingFeePercentage" v;
  f ← get_field "streamingFeePercentage" v;
  t ← get_field "lastStreamingFeeTimestamp" v;
  Some {| feeRecipient := r; streamingFeePercentage := f; maxStreamingFeePercentage := m;
          lastStreamingFeeTimestamp := t |}.

Section FeeUtils.
Context `{Ethers}.

Definition getStreamingFee (feeModule : contract) (setToken : Address)
    (previousAccrueTimestamp recentAccrueTimestamp : Z) (streamingFee : option Z) : script Z :=
  feeState ← call (A := StreamingFeeState) feeModule "feeStates" [VAddr setToken];
  let accrualRate :=
    match streamingFee with Some f => f | None => streamingFeePercentage feeState end in
  let timeElapsed := bn_sub recentAccrueTimestamp previousAccrueTimestamp in
  lift_result (bn_div (bn_mul timeElapsed accrualRate) ONE_YEAR_IN_SECONDS).

Definition getStreamingFeeInflationAmount (inflationPercent totalSupply : Z) : result Z :=
  let a := bn_mul inflationPercent totalSupply in
  let b := bn_sub PRECISE_UNIT inflationPercent in
  bn_div a b.

Fixpoint getPostFeePositionUnits (preFeeUnits : list Z) (inflationPercent : Z)
    : result (list Z) :=
  match preFeeUnits with
  | [] => Ok []
  | u :: us =>
      n ← (if bn_gte u 0 then preciseMul u (bn_sub PRECISE_UNIT inflationPercent)
           else preciseMulCeilInt u (bn_sub PRECISE_UNIT inflationPercent));
      ns ← getPostFeePositionUnits us inflationPercent;
      Ok (n :: ns)
  end.
End FeeUtils.

(** ** The contract *)

Module StreamingFeeModule.
(** [365.25 days]. *)
Definition ONE_YEAR_IN_SECONDS : Z := 36525 * 24 * 60 * 60 / 100.

Definition _calculateStreamingFee (block_timestamp : Z) (feeState : StreamingFeeState)
    : result Z :=
  timeSinceLastFee ← SafeMath.sub block_timestamp (lastStreamingFeeTimestamp feeState);
  p ← SafeMath.mul timeSinceLastFee (streamingFeePercentage feeState);
  SafeMath.div p ONE_YEAR_IN_SECONDS.

Definition _calculateStreamingFeeInflation (totalSupply _feePercentage : Z) : result Z :=
  a ← SafeMath.mul _feePercentage totalSupply;
  b ← SafeMath.sub PreciseUnitMath.preciseUnit _feePercentage;
  SafeMath.div a b.

(** The multiplier [_editPositionMultiplier] stores. *)
Definition newMultiplier `{SignedLib} (currentMultipler _inflationFee : Z) : result Z :=
  d ← SafeMath.sub PreciseUnitMath.preciseUnit _inflationFee;
  i ← toInt256 d;
  PreciseUnitMath.preciseMul_i currentMultipler i.
End StreamingFeeModule.

(** ** Properties *)
Section Properties.
Context `{Ethers}.

Lemma decode_fee_state (what : string) (s : StreamingFeeState) :
  decode_answer what (encode_fee_state s) = SRet s.
Proof. by destruct s. Qed.

Lemma outcome_getStreamingFee {S} (step : S → event → S * result value) (s s' : S)
    (m : contract) (setToken : Address) (t0 t1 : Z) (fee : option Z) (fs : StreamingFeeState) :
  step s (EvCall (signer m) (address m) "feeStates" [VAddr setToken])
    = (s', Ok (encode_fee_state fs)) →
  outcome step (getStreamingFee m setToken t0 t1 fee) s =
    Ok (Z.quot ((t1 - t0) * default (streamingFeePercentage fs) fee) 31557600).
Proof.
  intros Hs. unfold outcome, getStreamingFee, call. cbn [mbind script_bind run].
  rewrite Hs, decode_fee_state. cbn [mbind script_bind]. rewrite run_lift_result.
  unfold ONE_YEAR_IN_SECONDS. bn_simpl. by destruct fee.
Qed.

(** C36. The fee the tool chain predicts between the last accrual and the
    current block is the fee the contract computes from the same stored state,
    whenever that computation does not revert. *)
Theorem getStreamingFee_predicts {S} (step : S → event → S * result value) (s s' : S)
    (m : contract) (setToken : Address) (fs : StreamingFeeState) (now fee : Z)
    (Hnow : is_uint now) (Hlast : is_uint (lastStreamingFeeTimestamp fs))
    (Hrate : is_uint (streamingFeePercentage fs))
    (Hstep : step s (EvCall (signer m) (address m) "feeStates" [VAddr setToken])
               = (s', Ok (encode_fee_state fs)))
    (Hfee : StreamingFeeModule._calculateStreamingFee now fs = Ok fee) :
  outcome step (getStreamingFee m setToken (lastStreamingFeeTimestamp fs) now None) s = Ok fee.
Proof.
  rewrite (outcome_getStreamingFee _ _ _ _ _ _ _ _ _ Hstep). cbn [default].
  unfold StreamingFeeModule._calculateStreamingFee in Hfee.
  destruct (decide (lastStreamingFeeTimestamp fs ≤ now)) as [Hle|].
  2: { rewrite safe_sub_underflow in Hfee by lia. discriminate. }
  unfold is_uint in Hlast. rewrite safe_sub_ok in Hfee by (done || lia).
  cbn [mbind result_bind] in Hfee.
  rewrite safe_mul_spec in Hfee by (unfold is_uint in *; lia).
  destruct (fits _); [|discriminate]. cbn [mbind result_bind] in Hfee.
  change StreamingFeeModule.ONE_YEAR_IN_SECONDS with 31557600 in Hfee.
  rewrite safe_div_ok in Hfee by (unfold is_uint in *; nia). done.
Qed.

(** The inflation amount is the largest number of new tokens whose share of
    the inflated supply does not exceed the fee, and it is what the contract
    mints when the product fits the word. *)
Theorem inflation_amount_maximal (inflation supply : Z)
    (Hi : 0 ≤ inflation < 10 ^ 18) (Hs : is_uint supply) :
  ∃ n, getStreamingFeeInflationAmount inflation supply = Ok n ∧
    (∀ k, 0 ≤ k → k * 10 ^ 18 ≤ inflation * (supply + k) ↔ k ≤ n) ∧
    StreamingFeeModule._calculateStreamingFeeInflation supply inflation =
      if fits (inflation * supply) then Ok n
      else Throw (Revert "SafeMath: multiplication overflow").
Proof.
  pose proof Hs as [Hs0 _]. unfold getStreamingFeeInflationAmount. bn_simpl.
  eexists; split; [done|]. split.
  - intros k Hk. pose proof (quot_bounds (inflation * supply) (10 ^ 18 - inflation)). nia.
  - unfold StreamingFeeModule._calculateStreamingFeeInflation.
    rewrite safe_mul_spec by (done || unfold is_uint, UINT_MAX; lia).
    destruct (fits _); [|done]. cbn [mbind result_bind].
    change PreciseUnitMath.preciseUnit with (10 ^ 18).
    rewrite safe_sub_ok by (unfold is_uint, UINT_MAX; lia). cbn [mbind result_bind].
    by rewrite safe_div_ok by nia.
Qed.

(** Post-fee units never throw, keep the number of positions and round
    every unit down: equity toward zero, debt away from it. *)
Theorem getPostFeePositionUnits_floor (units : list Z) (inflation : Z)
    (Hi : inflation ≤ 10 ^ 18) :
  getPostFeePositionUnits units inflation =
    Ok ((λ u, u * (10 ^ 18 - inflation) / 10 ^ 18) <$> units).
Proof.
  induction units as [|u us IH]; [done|]. cbn [getPostFeePositionUnits]. rewrite IH.
  autorewrite with bn. rewrite fmap_cons. set (d := 10 ^ 18 - inflation).
  assert (0 ≤ d) by lia.
  destruct (Z.leb_spec 0 u); cbn [mbind result_bind].
  - by rewrite quot_floor by nia.
  - destruct (Z.eqb_spec (u * d) 0) as [->|]; [done|].
    destruct (Z.ltb_spec 0 (u * d)); [nia|].
    pose proof (quot_opp_l_away (- (u * d)) (10 ^ 18)) as Q.
    rewrite Z.opp_involutive in Q. rewrite Q by nia. unfold ceil_div.
    by rewrite !Z.opp_involutive.
Qed.
End Properties.

(** ** Concrete instances *)

Definition sample_fee_state : StreamingFeeState :=
  {| feeRecipient := "0x01"%string; streamingFeePercentage := 2 * 10 ^ 16;
     maxStreamingFeePercentage := 10 ^ 17; lastStreamingFeeTimestamp := 1000 |}.

Definition sample_chain (s : ()) (ev : event) : () * result value :=
  (s, Ok (encode_fee_state sample_fee_state)).

Lemma getStreamingFee_predicts_witness :
  outcome sample_chain
    (getStreamingFee (attach "o" "StreamingFeeModule" "m") "set" 1000 31558600 None) ()
    = Ok (2 * 10 ^ 16).
Proof.
  apply (getStreamingFee_predicts sample_chain () () (attach "o" "StreamingFeeModule" "m") "set"
           sample_fee_state 31558600 (2 * 10 ^ 16));
    [unfold is_uint, UINT_MAX; lia|unfold is_uint, UINT_MAX; cbn; lia|
     unfold is_uint, UINT_MAX; cbn; lia|reflexivity|vm_compute; reflexivity].
Defined.

Lemma inflation_amount_maximal_witness :
  ∃ n, getStreamingFeeInflationAmount (2 * 10 ^ 16) (98 * 10 ^ 18) = Ok n ∧ n = 2 * 10 ^ 18.
Proof.
  destruct (inflation_amount_maximal (2 * 10 ^ 16) (98 * 10 ^ 18)) as (n & E & _);
    [lia|unfold is_uint, UINT_MAX; lia|].
  exists n. split; [exact E|]. vm_compute in E. injection E as <-. reflexivity.
Defined.

Lemma getPostFeePositionUnits_floor_witness :
  getPostFeePositionUnits [3; -3] (5 * 10 ^ 17) = Ok [1; -2].
Proof. rewrite getPostFeePositionUnits_floor by lia. vm_compute. reflexivity. Defined.
