(* ===== verification/NavUtils.v ===== *)
(** * NAV issuance

    [utils/common/navIssuanceModuleUtils.ts] and the computations of
    [contracts/protocol/modules/v1/CustomOracleNAVIssuanceModule.sol] it
    predicts: fees, minted and redeemed quantities, position multipliers. *)
From Stdlib Require Import String.
From S2P Require Import Prelude JsString BigNumber Constants MathUtils SolMath Script.

(** ** The tool chain *)
Section NavUtils.
Context `{Ethers}.

Definition getExpectedIssuePositionMultiplier
    (previousPositionMultiplier previousSupply currentSupply : Z) : result Z :=
  inflation ← preciseDivCeil (bn_sub currentSupply previousSupply) currentSupply;
  preciseMul previousPositionMultiplier (bn_sub PRECISE_UNIT inflation).

Definition getExpectedPostFeeQuantity
    (quantity managerFeePercentage protocolDirectFeePercentage : Z) : result Z :=
  managerFees ← preciseMul quantity managerFeePercentage;
  protocolDirectFees ← preciseMul quantity protocolDirectFeePercentage;
  Ok (bn_sub (bn_sub quantity managerFees) protocolDirectFees).

Definition getExpectedSetTokenIssueQuantity (setToken setValuer : contract)
    (reserveAsset : Address)
    (reserveAssetBaseUnits reserveAssetQuantity managerFeePercentage
     protocolDirectFeePercentage premiumPercentage : Z) : script Z :=
  setTokenValuation ← call (A := Z) setValuer "calculateSetTokenValuation"
                        [VAddr (address setToken); VAddr reserveAsset];
  setTokenSupply ← call (A := Z) setToken "totalSupply" [];
  lift_result (
    reserveQuantitySubFees ← getExpectedPostFeeQuantity reserveAssetQuantity
                               managerFeePercentage protocolDirectFeePercentage;
    premium ← preciseMul reserveQuantitySubFees premiumPercentage;
    let reserveQuantitySubFeesAndPremium := bn_sub reserveQuantitySubFees premium in
    normalizedReserveQuantitySubFees ←
      preciseDiv reserveQuantitySubFees reserveAssetBaseUnits;
    normalizedReserveQuantitySubFeesAndPremium ←
      preciseDiv reserveQuantitySubFeesAndPremium reserveAssetBaseUnits;
    value ← preciseMul setTokenSupply setTokenValuation;
    let denominator :=
      bn_sub (bn_add value normalizedReserveQuantitySubFees)
             normalizedReserveQuantitySubFeesAndPremium in
    numerator ← preciseMul normalizedReserveQuantitySubFeesAndPremium setTokenSupply;
    preciseDiv numerator denominator).

Definition getExpectedIssuePositionUnit
    (previousUnits issueQuantity previousSupply currentSupply newPositionMultiplier
     managerFeePercentage protocolDirectFeePercentage : Z) : result Z :=
  issueQuantitySubFees ← getExpectedPostFeeQuantity issueQuantity
                           managerFeePercentage protocolDirectFeePercentage;
  previous ← preciseMul previousSupply previousUnits;
  let numerator := bn_add previous issueQuantitySubFees in
  newPositionUnit ← preciseDiv numerator currentSupply;
  roundDownPositionUnit ← preciseMul newPositionUnit newPositionMultiplier;
  preciseDiv roundDownPositionUnit newPositionMultiplier.

Definition getExpectedReserveRedeemQuantity
    (setTokenQuantityToRedeem setTokenValuation reserveAssetBaseUnits managerFeePercentage
     protocolDirectFeePercentage premiumPercentage : Z) : result Z :=
  totalNotionalReserveQuantity ← preciseMul setTokenValuation setTokenQuantityToRedeem;
  totalPremium ← preciseMulCeil totalNotionalReserveQuantity premiumPercentage;
  totalNotionalReserveQuantitySubFees ←
    getExpectedPostFeeQuantity (bn_sub totalNotionalReserveQuantity totalPremium)
      managerFeePercentage protocolDirectFeePercentage;
  preciseMul totalNotionalReserveQuantitySubFees reserveAssetBaseUnits.

Definition getExpectedRedeemPositionMultiplier
    (previousPositionMultiplier previousSupply currentSupply : Z) : result Z :=
  deflation ← preciseDiv (bn_sub previousSupply currentSupply) currentSupply;
  preciseMul previousPositionMultiplier (bn_add PRECISE_UNIT deflation).

Definition getExpectedRedeemPositionUnit
    (previousUnits setTokenQuantityToRedeem setTokenValuation reserveAssetBaseUnits
     previousSupply currentSupply newPositionMultiplier managerFeePercentage
     protocolDirectFeePercentage premiumPercentage : Z) : result Z :=
  totalNotionalReserveQuantity ← preciseMul setTokenValuation setTokenQuantityToRedeem;
  totalPremium ← preciseMulCeil totalNotionalReserveQuantity premiumPercentage;
  totalReserveBalance ←
    preciseMul (bn_sub totalNotionalReserveQuantity totalPremium) reserveAssetBaseUnits;
  previous ← preciseMul previousSupply previousUnits;
  let numerator := bn_sub previous totalReserveBalance in
  newPositionUnit ← preciseDiv numerator currentSupply;
  roundDownPositionUnit ← preciseMul newPositionUnit newPositionMultiplier;
  preciseDiv roundDownPositionUnit newPositionMultiplier.
End NavUtils.

(** ** The contract

    The internal functions as functions of the values they read: the module fees
    of the controller, the manager fees and premium of the settings, the
    valuation, the token's decimals, supply and multiplier. *)
Module CustomOracleNAVIssuanceModule.
Import PreciseUnitMath.

Definition _getProtocolAndManagerFeePercentages
    (protocolDirectFeePercent protocolManagerShareFeePercent managerFeePercent : Z)
    : result (Z * Z) :=
  protocolRevenueSharePercentage ← preciseMul_u protocolManagerShareFeePercent managerFeePercent;
  managerRevenueSharePercentage ← SafeMath.sub managerFeePercent protocolRevenueSharePercentage;
  totalProtocolFeePercentage ←
    SafeMath.add protocolRevenueSharePercentage protocolDirectFeePercent;
  Ok (totalProtocolFeePercentage, managerRevenueSharePercentage).

Definition _getFees (direct share managerPercent _reserveAssetQuantity : Z)
    : result (Z * Z * Z) :=
  '(protocolFeePercentage, managerFeePercentage) ←
    _getProtocolAndManagerFeePercentages direct share managerPercent;
  protocolFees ← preciseMul_u protocolFeePercentage _reserveAssetQuantity;
  managerFee ← preciseMul_u managerFeePercentage _reserveAssetQuantity;
  n ← SafeMath.sub _reserveAssetQuantity protocolFees;
  netReserveFlow ← SafeMath.sub n managerFee;
  Ok (protocolFees, managerFee, netReserveFlow).

(** [10 ** decimals], unchecked. *)
Definition base_units (decimals : Z) : Z := wrap_uint (10 ^ decimals).

Definition _getSetTokenMintQuantity
    (premiumPercentage setTokenValuation reserveAssetDecimals _netReserveFlows _setTotalSupply : Z)
    : result Z :=
  premiumValue ← preciseMul_u _netReserveFlows premiumPercentage;
  normalizedTotalReserveQuantityNetFees ←
    preciseDiv_u _netReserveFlows (base_units reserveAssetDecimals);
  d ← SafeMath.sub _netReserveFlows premiumValue;
  normalizedTotalReserveQuantityNetFeesAndPremium ←
    preciseDiv_u d (base_units reserveAssetDecimals);
  v ← preciseMul_u _setTotalSupply setTokenValuation;
  s ← SafeMath.add v normalizedTotalReserveQuantityNetFees;
  denominator ← SafeMath.sub s normalizedTotalReserveQuantityNetFeesAndPremium;
  n ← preciseMul_u normalizedTotalReserveQuantityNetFeesAndPremium _setTotalSupply;
  preciseDiv_u n denominator.

Definition _getRedeemReserveQuantity
    (premiumPercentage setTokenValuation reserveAssetDecimals _setTokenQuantity : Z) : result Z :=
  totalRedeemValueInPreciseUnits ← preciseMul_u _setTokenQuantity setTokenValuation;
  prePremiumReserveQuantity ←
    preciseMul_u totalRedeemValueInPreciseUnits (base_units reserveAssetDecimals);
  premiumQuantity ← preciseMulCeil_u prePremiumReserveQuantity premiumPercentage;
  SafeMath.sub prePremiumReserveQuantity premiumQuantity.

Section Multipliers.
Context `{SignedLib}.

Definition _getIssuePositionMultiplier
    (positionMultiplier setTokenQuantity previousSetTokenSupply : Z) : result (Z * Z) :=
  newTotalSupply ← SafeMath.add setTokenQuantity previousSetTokenSupply;
  p ← toInt256 previousSetTokenSupply;
  m ← int_mul positionMultiplier p;
  n ← toInt256 newTotalSupply;
  newPositionMultiplier ← int_div m n;
  Ok (newTotalSupply, newPositionMultiplier).

Definition _getRedeemPositionMultiplier
    (positionMultiplier _setTokenQuantity previousSetTokenSupply : Z) : result (Z * Z) :=
  newTotalSupply ← SafeMath.sub previousSetTokenSupply _setTokenQuantity;
  p ← toInt256 previousSetTokenSupply;
  m ← int_mul positionMultiplier p;
  n ← toInt256 newTotalSupply;
  newPositionMultiplier ← int_div m n;
  Ok (newTotalSupply, newPositionMultiplier).
End Multipliers.

Definition _getIssuePositionUnit
    (existingUnit previousSetTokenSupply netFlowQuantity newSetTokenSupply : Z) : result Z :=
  t ← preciseMul_u existingUnit previousSetTokenSupply;
  totalReserve ← SafeMath.add t netFlowQuantity;
  preciseDiv_u totalReserve newSetTokenSupply.

Definition _getRedeemPositionUnit
    (existingUnit previousSetTokenSupply netFlowQuantity protocolFees managerFee
     newSetTokenSupply : Z) : result Z :=
  totalExistingUnits ← preciseMul_u existingUnit previousSetTokenSupply;
  o ← SafeMath.add netFlowQuantity protocolFees;
  outflow ← SafeMath.add o managerFee;
  require (outflow <=? totalExistingUnits) "Must be greater than total available collateral";;
  r ← SafeMath.sub totalExistingUnits outflow;
  preciseDiv_u r newSetTokenSupply.
End CustomOracleNAVIssuanceModule.

(** ** Predictions *)
Section Predictions.
Context `{Ethers} `{SignedLib}.
Import CustomOracleNAVIssuanceModule.

Lemma getExpectedPostFeeQuantity_eq (q mf pf : Z) :
  getExpectedPostFeeQuantity q mf pf =
    Ok (q - Z.quot (q * mf) (10 ^ 18) - Z.quot (q * pf) (10 ^ 18)).
Proof. unfold getExpectedPostFeeQuantity. by bn_simpl. Qed.

(** Without a revenue share the contract charges the two fees separately. *)
Lemma getFees_inv (direct manager q p m n : Z) :
  is_uint direct → is_uint manager → is_uint q →
  _getFees direct 0 manager q = Ok (p, m, n) →
  p = Z.quot (direct * q) (10 ^ 18) ∧ m = Z.quot (manager * q) (10 ^ 18) ∧
    n = q - p - m ∧ is_uint n.
Proof.
  intros Hd Hm Hq E. unfold _getFees, _getProtocolAndManagerFeePercentages in E.
  apply result_bind_ok in E as ([a b] & E1 & E).
  apply result_bind_ok in E1 as (x & Hx & E1).
  apply result_bind_ok in E1 as (y & Hy & E1).
  apply result_bind_ok in E1 as (z & Hz & [= <- <-]).
  apply result_bind_ok in E as (f & Hf & E).
  apply result_bind_ok in E as (g & Hg & E).
  apply result_bind_ok in E as (h & Hh & E).
  apply result_bind_ok in E as (i & Hi & [= <- <- <-]).
  apply preciseMul_u_inv in Hx as [-> _]; [|auto with uint..].
  change (Z.quot (0 * manager) (10 ^ 18)) with 0 in *.
  apply safe_sub_inv in Hy as (-> & _ & Hb); [|auto with uint..].
  apply safe_add_inv in Hz as [-> Ha]; [|auto with uint..].
  rewrite Z.add_0_l, Z.sub_0_r in *.
  apply preciseMul_u_inv in Hf as [-> ?]; [|done..].
  apply preciseMul_u_inv in Hg as [-> ?]; [|done..].
  apply safe_sub_inv in Hh as (-> & _ & ?); [|done..].
  apply safe_sub_inv in Hi as (-> & _ & ?); [|done..]. done.
Qed.

(** Both sides of the multiplier predictions, as one scaled ratio. *)
Lemma ratio_prediction (m p n : Z) :
  0 ≤ m → 0 ≤ p → 0 < n →
  let t := Z.quot (m * (p * 10 ^ 18 / n)) (10 ^ 18) in
  t ≤ Z.quot (m * p) n ≤ t + m / 10 ^ 18 + 1.
Proof.
  intros Hm Hp Hn t. subst t. rewrite !quot_floor by (try apply Z.mul_nonneg_nonneg; try apply Z.div_pos; lia).
  set (r := p * 10 ^ 18 / n). set (u := 10 ^ 18) in *.
  assert (Hu : 0 < u) by done.
  assert (r * n ≤ p * u < (r + 1) * n).
  { subst r. pose proof (Z.div_mod (p * u) n). pose proof (Z.mod_pos_bound (p * u) n). nia. }
  split.
  - apply Z.div_le_lower_bound; [done|].
    pose proof (Z.mul_div_le (m * r) u Hu). nia.
  - assert (m * p / n < m * r / u + m / u + 2); [|lia].
    apply Z.div_lt_upper_bound; [done|].
    pose proof (Z.mul_succ_div_gt (m * r) u Hu). pose proof (Z.mul_succ_div_gt m u Hu).
    apply (Z.mul_lt_mono_pos_r u); [done|].
    assert (m * p * u ≤ m * (r + 1) * n) by nia.
    assert (m * (r + 1) < u * (m * r / u + m / u + 2)) by lia. nia.
Qed.

(** For every successful mint the contract computes, with no revenue share
    on the manager fee, the tool chain predicts the same number of tokens. *)
Theorem issue_quantity_predicts {S} (step : S → event → S * Prelude.result value) (s s1 s2 : S)
    (setToken setValuer : contract) (reserve : Address)
    (direct manager premium valuation supply decimals q p m net minted : Z)
    (Hdirect : is_uint direct) (Hmanager : is_uint manager) (Hpremium : is_uint premium)
    (Hval : is_uint valuation) (Hsupply : is_uint supply) (Hq : is_uint q)
    (Hstep1 : step s (EvCall (signer setValuer) (address setValuer) "calculateSetTokenValuation"
                        [VAddr (address setToken); VAddr reserve]) = (s1, Ok (VNum valuation)))
    (Hstep2 : step s1 (EvCall (signer setToken) (address setToken) "totalSupply" [])
                = (s2, Ok (VNum supply)))
    (Hfees : _getFees direct 0 manager q = Ok (p, m, net))
    (Hmint : _getSetTokenMintQuantity premium valuation decimals net supply = Ok minted) :
  outcome step (getExpectedSetTokenIssueQuantity setToken setValuer reserve
                  (base_units decimals) q manager direct premium) s = Ok minted.
Proof.
  apply getFees_inv in Hfees as (-> & -> & Hnet & Hn); [|done..].
  unfold outcome, getExpectedSetTokenIssueQuantity, call. cbn [mbind script_bind run].
  rewrite Hstep1. cbn. rewrite Hstep2. cbn. rewrite run_lift_result.
  rewrite getExpectedPostFeeQuantity_eq. cbn [mbind result_bind snd].
  replace (q - _ - _) with net by (rewrite Hnet, (Z.mul_comm manager), (Z.mul_comm direct); lia).
  unfold _getSetTokenMintQuantity in Hmint. clear Hnet.
  pose proof (wrap_uint_uint (10 ^ decimals)) as Hb. fold (base_units decimals) in Hb.
  result_inv. apply preciseMul_u_inv in H1 as [-> ?]; [|done..].
  apply preciseDiv_u_inv in H2 as (-> & ? & ?); [|done..].
  apply safe_sub_inv in H3 as (-> & ? & ?); [|done..].
  apply preciseDiv_u_inv in H4 as (-> & _ & ?); [|done..].
  apply preciseMul_u_inv in H5 as [-> ?]; [|done..].
  apply safe_add_inv in H6 as [-> ?]; [|done..].
  apply safe_sub_inv in H7 as (-> & ? & ?); [|done..].
  apply preciseMul_u_inv in H8 as [-> ?]; [|done..].
  apply preciseDiv_u_inv in Hmint as (-> & ? & ?); [|done..].
  bn_simpl. done.
Qed.

(** The scaled ratio the contract stores. *)
Lemma signed_ratio (m p n r : Z) :
  0 ≤ m ≤ INT_MAX → 0 ≤ p ≤ INT_MAX → 0 < n ≤ INT_MAX →
  (x ← toInt256 p; y ← int_mul m x; z ← toInt256 n; int_div y z) = Ok r →
  r = Z.quot (m * p) n.
Proof.
  intros Hm Hp Hn E.
  destruct (uint_of_int m Hm), (uint_of_int p Hp), (uint_of_int n) as [? ?]; [lia|].
  rewrite (toInt256_fits p) in E by (done || lia). cbn [mbind result_bind] in E.
  destruct (decide (is_int (m * p))) as [Hi|Hi].
  - rewrite int_mul_fits in E by done. cbn [mbind result_bind] in E.
    rewrite (toInt256_fits n) in E by (done || lia). cbn [mbind result_bind] in E.
    rewrite int_div_fits in E; [congruence|done|done|lia|].
    apply int_div_in_range; [done..|lia|]. right. lia.
  - rewrite int_mul_overflow in E by done. discriminate E.
Qed.

(** After an issue and after a redemption the multiplier the tool chain
    predicts never exceeds the one the contract stores, and falls short of it by
    at most one unit plus one part in 10^18. *)
Theorem multiplier_prediction (m prev quantity : Z)
    (Hm : 0 ≤ m ≤ INT_MAX) (Hp : 0 < prev ≤ INT_MAX) (Hq : 0 ≤ quantity ≤ INT_MAX)
    (close := λ t c, t ≤ c ≤ t + m / 10 ^ 18 + 1) :
  (∀ supply c, prev + quantity ≤ INT_MAX →
     _getIssuePositionMultiplier m quantity prev = Ok (supply, c) →
     supply = prev + quantity ∧
     ∃ t, getExpectedIssuePositionMultiplier m prev supply = Ok t ∧ close t c) ∧
  (∀ supply c, quantity < prev →
     _getRedeemPositionMultiplier m quantity prev = Ok (supply, c) →
     supply = prev - quantity ∧
     ∃ t, getExpectedRedeemPositionMultiplier m prev supply = Ok t ∧ close t c).
Proof.
  destruct (uint_of_int prev) as [Up Ip]; [lia|]. destruct (uint_of_int quantity Hq) as [Uq Iq].
  split; intros supply c Hlt E.
  - unfold _getIssuePositionMultiplier in E. result_inv.
    apply safe_add_inv in H1 as [-> _]; [|done..]. split; [lia|].
    assert (c = Z.quot (m * prev) (quantity + prev)) as ->.
    { apply signed_ratio; [lia..|]. by rewrite H2; cbn; rewrite H3; cbn; rewrite H4. }
    unfold getExpectedIssuePositionMultiplier. bn_simpl. eexists; split; [done|].
    replace (quantity + prev - prev) with quantity by lia.
    assert (10 ^ 18 - ceil_div (quantity * 10 ^ 18) (quantity + prev)
              = prev * 10 ^ 18 / (quantity + prev)) as ->; [|apply ratio_prediction; lia].
    unfold ceil_div.
    replace (- (quantity * 10 ^ 18)) with (prev * 10 ^ 18 + (- 10 ^ 18) * (quantity + prev)) by lia.
    rewrite Z.div_add by lia. lia.
  - unfold _getRedeemPositionMultiplier in E. result_inv.
    apply safe_sub_inv in H1 as (-> & _ & _); [|done..]. split; [lia|].
    assert (c = Z.quot (m * prev) (prev - quantity)) as ->.
    { apply signed_ratio; [lia..|]. by rewrite H2; cbn; rewrite H3; cbn; rewrite H4. }
    unfold getExpectedRedeemPositionMultiplier. bn_simpl. eexists; split; [done|].
    rewrite (quot_floor ((prev - (prev - quantity)) * 10 ^ 18)) by lia.
    assert (10 ^ 18 + (prev - (prev - quantity)) * 10 ^ 18 / (prev - quantity)
              = prev * 10 ^ 18 / (prev - quantity)) as ->; [|apply ratio_prediction; lia].
    replace (prev * 10 ^ 18)
      with ((prev - (prev - quantity)) * 10 ^ 18 + 10 ^ 18 * (prev - quantity)) by lia.
    rewrite Z.div_add by lia. lia.
Qed.

(** Whatever the fees, as long as they total at most the whole amount, what
    is left lies between zero and the amount and exceeds the exact remainder by
    less than two base units: rounding favours the depositor. *)
Theorem post_fee_quantity_bounds (quantity mf pf : Z)
    (Hq : 0 ≤ quantity) (Hm : 0 ≤ mf) (Hp : 0 ≤ pf) (Htotal : mf + pf ≤ 10 ^ 18) :
  ∃ n, getExpectedPostFeeQuantity quantity mf pf = Ok n ∧ 0 ≤ n ≤ quantity ∧
    quantity * (10 ^ 18 - mf - pf) ≤ n * 10 ^ 18
      < quantity * (10 ^ 18 - mf - pf) + 2 * 10 ^ 18.
Proof.
  rewrite getExpectedPostFeeQuantity_eq. eexists; split; [done|].
  pose proof (quot_bounds (quantity * mf) (10 ^ 18)).
  pose proof (quot_bounds (quantity * pf) (10 ^ 18)).
  pose proof (Z.quot_pos (quantity * mf) (10 ^ 18)).
  pose proof (Z.quot_pos (quantity * pf) (10 ^ 18)). nia.
Qed.

(** For a reserve asset of 18 decimals, and no revenue share, the redeemed
    amount the tool chain predicts is the net flow of the contract. *)
Theorem redeem_quantity_predicts
    (direct manager premium valuation quantity gross p m net : Z)
    (Hdirect : is_uint direct) (Hmanager : is_uint manager) (Hpremium : is_uint premium)
    (Hval : is_uint valuation) (Hq : is_uint quantity)
    (Hredeem : _getRedeemReserveQuantity premium valuation 18 quantity = Ok gross)
    (Hfees : _getFees direct 0 manager gross = Ok (p, m, net)) :
  getExpectedReserveRedeemQuantity quantity valuation (10 ^ 18) manager direct premium = Ok net.
Proof.
  unfold _getRedeemReserveQuantity in Hredeem. change (base_units 18) with (10 ^ 18) in Hredeem.
  result_inv. apply preciseMul_u_inv in H1 as [-> ?]; [|done..].
  apply preciseMul_u_inv in H2 as [E ?]; [|done|apply precise_unit_uint].
  rewrite Z.quot_mul in E by done. subst x0.
  apply preciseMulCeil_u_inv in H3 as [-> ?]; [|done..].
  apply safe_sub_inv in Hredeem as (-> & _ & ?); [|done..].
  apply getFees_inv in Hfees as (-> & -> & -> & _); [|done..].
  unfold getExpectedReserveRedeemQuantity. rewrite preciseMul_eq, (Z.mul_comm valuation).
  cbn [mbind result_bind]. unfold is_uint in *. rewrite preciseMulCeil_eq by nia.
  cbn [mbind result_bind]. autorewrite with bn. rewrite getExpectedPostFeeQuantity_eq.
  cbn [mbind result_bind]. rewrite preciseMul_eq, Z.quot_mul by done. f_equal.
  rewrite (Z.mul_comm _ manager), (Z.mul_comm _ direct). lia.
Qed.
End Predictions.

(** ** Concrete instances *)

Definition nav_chain (s : ()) (ev : event) : () * result value :=
  (s, match ev with
      | EvCall _ _ "calculateSetTokenValuation" _ => Ok (VNum (2 * 10 ^ 18))
      | EvCall _ _ "totalSupply" _ => Ok (VNum (100 * 10 ^ 18))
      | _ => Throw (Revert "unknown")
      end%string).

(** 10 units of a 6-decimal reserve, 1% direct fee, 2% manager fee, 5% premium. *)
Lemma issue_quantity_predicts_witness :
  outcome nav_chain
    (getExpectedSetTokenIssueQuantity (attach "o" "SetToken" "set") (attach "o" "SetValuer" "val")
       "usdc" (10 ^ 6) (10 * 10 ^ 6) (2 * 10 ^ 16) (10 ^ 16) (5 * 10 ^ 16)) ()
    = Ok 4596353841933311719.
Proof.
  apply (issue_quantity_predicts nav_chain () () () (attach "o" "SetToken" "set")
           (attach "o" "SetValuer" "val") "usdc" (10 ^ 16) (2 * 10 ^ 16) (5 * 10 ^ 16)
           (2 * 10 ^ 18) (100 * 10 ^ 18) 6 (10 * 10 ^ 6) (10 ^ 5) (2 * 10 ^ 5) 9700000);
    try (unfold is_uint, UINT_MAX; lia); vm_compute; reflexivity.
Defined.

Lemma multiplier_prediction_witness :
  ∃ t, getExpectedIssuePositionMultiplier (10 ^ 18) (2 * 10 ^ 18) (3 * 10 ^ 18) = Ok t ∧
    t ≤ 666666666666666666 ≤ t + 10 ^ 18 / 10 ^ 18 + 1.
Proof.
  destruct (multiplier_prediction (10 ^ 18) (2 * 10 ^ 18) (10 ^ 18)) as [Hissue _];
    try (unfold INT_MAX; lia).
  destruct (Hissue (3 * 10 ^ 18) 666666666666666666) as [_ H];
    [unfold INT_MAX; lia|vm_compute; reflexivity|exact H].
Defined.

Lemma post_fee_quantity_bounds_witness :
  ∃ n, getExpectedPostFeeQuantity 99 (10 ^ 16) (10 ^ 16) = Ok n ∧ n = 99.
Proof.
  destruct (post_fee_quantity_bounds 99 (10 ^ 16) (10 ^ 16)) as (n & E & _); [lia..|].
  exists n. split; [exact E|]. vm_compute in E. congruence.
Defined.

Lemma redeem_quantity_predicts_witness :
  getExpectedReserveRedeemQuantity (5 * 10 ^ 18) (2 * 10 ^ 18) (10 ^ 18) (2 * 10 ^ 16) (10 ^ 16)
    (5 * 10 ^ 16) = Ok (9215 * 10 ^ 15).
Proof.
  apply (redeem_quantity_predicts (10 ^ 16) (2 * 10 ^ 16) (5 * 10 ^ 16) (2 * 10 ^ 18) (5 * 10 ^ 18)
           (95 * 10 ^ 17) (95 * 10 ^ 15) (19 * 10 ^ 16));
    try (unfold is_uint, UINT_MAX; lia); vm_compute; reflexivity.
Defined.
