(* ===== verification/UnitsUtils.v ===== *)
(** * Units

    [utils/common/unitsUtils.ts]: amounts written in whole units converted to
    base units.  [ether] goes through the decimal text of its argument; [bitcoin]
    and [usdc] multiply binary floating-point numbers and are partial. *)
From Stdlib Require Import String SpecFloat.
From S2P Require Import Prelude JsString BigNumber Constants.

Section UnitsUtils.
Context `{Ethers}.

(** The argument is the text [amount.toString()] gives. *)
Definition ether (amount : string) : result Z := parseEther amount.

Definition gWei (amount : js_number) : result Z :=
  a ← bn_from_number amount; Ok (bn_mul 1000000000 a).

Definition bitcoin (amount : js_number) : result Z :=
  let weiString := js_mul (js_of_Z 100000000) amount in bn_from_number weiString.

Definition usdc (amount : js_number) : result Z :=
  let weiString := js_mul (js_of_Z 1000000) amount in bn_from_number weiString.

Lemma ether_eq (n : Z) : 0 ≤ n → ether (dec_string n) = Ok (n * 10 ^ 18).
Proof. apply parseEther_integer. Qed.

Lemma ether_1 : ether "1" = Ok (10 ^ 18).
Proof. rewrite <- (Z.mul_1_l (10 ^ 18)). by apply (ether_eq 1). Qed.
End UnitsUtils.

#[export] Hint Rewrite @ether_1 : bn.

(** ** Exact products of floating-point integers *)
Section Exact.
Lemma digits2_log2 (p : positive) : Z.pos (digits2_pos p) = Z.log2 (Z.pos p) + 1.
Proof.
  assert (∀ q, digits2_pos q = Pos.size q) as E by (intros q; induction q; cbn; congruence).
  destruct p; cbn [digits2_pos]; rewrite ?E; [| |done];
    match goal with |- context [Pos.size ?q] => destruct q; cbn; lia end.
Qed.

Lemma iter_pos_nat {A} (f : A → A) (n : positive) (x : A) :
  SpecFloat.iter_pos f n x = Nat.iter (Pos.to_nat n) f x.
Proof.
  revert x. induction n as [n IH|n IH|]; intros x; cbn [SpecFloat.iter_pos]; [| |done]; rewrite !IH.
  - rewrite Pos2Nat.inj_xI, Nat.mul_comm. cbn [Nat.mul].
    replace (Pos.to_nat n * 2)%nat with (Pos.to_nat n + Pos.to_nat n)%nat by lia.
    by rewrite <- Nat.add_1_r, !Nat.iter_add.
  - by rewrite Pos2Nat.inj_xO, <- Nat.iter_add; f_equal; lia.
Qed.

Lemma shr_exact (m : Z) (k : nat) :
  0 < m → Nat.iter k shr_1 (Build_shr_record (m * 2 ^ Z.of_nat k) false false)
    = Build_shr_record m false false.
Proof.
  intros Hm. induction k as [|k IH]; [by rewrite Z.mul_1_r|].
  rewrite Nat.iter_succ_r. rewrite Nat2Z.inj_succ, Z.pow_succ_r by lia.
  replace (m * (2 * 2 ^ Z.of_nat k)) with (2 * (m * 2 ^ Z.of_nat k)) by lia.
  assert (0 < m * 2 ^ Z.of_nat k) by nia. by destruct (m * 2 ^ Z.of_nat k).
Qed.

Lemma shr_fexp_exact (m k e : Z) :
  0 < m → 0 ≤ k → fexp 53 1024 (Z.log2 m + k + 1 + e) = e + k →
  shr_fexp 53 1024 (m * 2 ^ k) e loc_Exact = (Build_shr_record m false false, e + k).
Proof.
  intros Hm Hk He. unfold shr_fexp.
  assert (Zdigits2 (m * 2 ^ k) = Z.log2 m + k + 1) as ->.
  { replace (Z.log2 m + k) with (Z.log2 (m * 2 ^ k)) by (rewrite Z.log2_mul_pow2; lia).
    assert (0 < m * 2 ^ k) by nia.
    destruct (m * 2 ^ k); try lia. apply digits2_log2. }
  rewrite He. replace (e + k - e) with k by lia. cbn [shr_record_of_loc].
  destruct k as [|k|k]; [by rewrite Z.mul_1_r, Z.add_0_r| |lia].
  cbn [shr]. rewrite iter_pos_nat. rewrite <- (positive_nat_Z k) at 1. by rewrite shr_exact.
Qed.

(** The number a positive safe integer is rounded to, whatever the scale. *)
Definition safe_float (z : Z) : js_number :=
  let d := Z.log2 z + 1 in S754_finite false (Z.to_pos (z * 2 ^ (53 - d))) (d - 53).

Lemma safe_log2 (z : Z) : 0 < z < 2 ^ 53 → 1 ≤ Z.log2 z + 1 ≤ 53.
Proof.
  intros Hz. pose proof (Z.log2_nonneg z). assert (Z.log2 z < 53); [|lia].
  apply Z.log2_lt_pow2; lia.
Qed.

Lemma fexp_safe (d : Z) : 1 ≤ d ≤ 53 → fexp 53 1024 d = d - 53.
Proof. intros Hd. unfold fexp, SpecFloat.emin. lia. Qed.

Lemma round_exact (z k : Z) :
  0 < z < 2 ^ 53 → 52 - Z.log2 z ≤ k →
  binary_round_aux 53 1024 false (z * 2 ^ k) (- k) loc_Exact = safe_float z.
Proof.
  intros Hz Hk. pose proof (safe_log2 z Hz) as Hd. set (d := Z.log2 z + 1) in *.
  set (m := z * 2 ^ (53 - d)).
  assert (0 < 2 ^ (53 - d)) by (apply Z.pow_pos_nonneg; lia).
  assert (0 < m) by (unfold m; nia).
  assert (Hm : Z.log2 m = 52) by (unfold m; rewrite Z.log2_mul_pow2 by lia; lia).
  assert (z * 2 ^ k = m * 2 ^ (k - (53 - d))) as ->.
  { unfold m. rewrite <- Z.mul_assoc, <- Z.pow_add_r by lia. do 2 f_equal. lia. }
  unfold binary_round_aux.
  rewrite shr_fexp_exact by (try rewrite fexp_safe; lia). cbn [shr_m loc_of_shr_record].
  cbn [round_nearest_even]. pose proof (shr_fexp_exact m 0 (- k + (k - (53 - d)))) as R.
  rewrite Z.mul_1_r in R. rewrite R by (try rewrite fexp_safe; lia). cbn [shr_m].
  unfold safe_float. fold d. fold m. destruct m as [|p|p] eqn:E; try lia.
  destruct (Z.leb_spec (- k + (k - (53 - d)) + 0) (1024 - 53)); [|lia]. f_equal. lia.
Qed.

Lemma pos_iter_xO (p n : positive) : Z.pos (Pos.iter xO p n) = Z.pos p * 2 ^ Z.pos n.
Proof.
  induction n as [|n IH] using Pos.peano_ind; [cbn; lia|].
  rewrite Pos.iter_succ, Pos2Z.inj_succ, Z.pow_succ_r by lia. lia.
Qed.

Lemma js_of_Z_safe (z : Z) : 0 < z < 2 ^ 53 → js_of_Z z = safe_float z.
Proof.
  intros Hz. pose proof (safe_log2 z Hz) as Hd.
  unfold js_of_Z, binary_normalize. destruct z as [|p|p]; try lia.
  unfold binary_round, shl_align. rewrite digits2_log2, Z.add_0_r, fexp_safe by lia.
  rewrite Z.sub_0_r. destruct (Z.log2 (Z.pos p) + 1 - 53) as [|e|e] eqn:E; try lia.
  - rewrite <- (round_exact (Z.pos p) 0) by lia. by rewrite Z.mul_1_r.
  - rewrite <- (round_exact (Z.pos p) (Z.pos e)) by lia. f_equal.
    apply pos_iter_xO.
Qed.

(** A product of positive integers below [2 ^ 53] is exact. *)
Lemma js_mul_safe (a b : Z) :
  0 < a → 0 < b → a * b < 2 ^ 53 → js_mul (js_of_Z a) (js_of_Z b) = js_of_Z (a * b).
Proof.
  intros Ha Hb Hab. assert (a < 2 ^ 53) by nia. assert (b < 2 ^ 53) by nia.
  rewrite !js_of_Z_safe by lia.
  pose proof (safe_log2 a). pose proof (safe_log2 b). pose proof (Z.log2_mul_below a b).
  assert (0 < a * 2 ^ (53 - (Z.log2 a + 1))) by (apply Z.mul_pos_pos; [|apply Z.pow_pos_nonneg]; lia).
  assert (0 < b * 2 ^ (53 - (Z.log2 b + 1))) by (apply Z.mul_pos_pos; [|apply Z.pow_pos_nonneg]; lia).
  unfold js_mul, safe_float at 1 2, SFmul. cbn [xorb].
  rewrite Pos2Z.inj_mul, !Z2Pos.id by done.
  rewrite <- (round_exact (a * b) (53 - (Z.log2 a + 1) + (53 - (Z.log2 b + 1)))) by lia.
  rewrite Z.pow_add_r by lia. f_equal; [ring|lia].
Qed.

Lemma js_integer_safe (z : Z) : 0 < z < 2 ^ 53 → js_integer (js_of_Z z) = Some z.
Proof.
  intros Hz. pose proof (safe_log2 z Hz) as Hd. rewrite js_of_Z_safe by done.
  unfold safe_float, js_integer.
  assert (0 < 2 ^ (53 - (Z.log2 z + 1))) by (apply Z.pow_pos_nonneg; lia).
  assert (Z.pos (Z.to_pos (z * 2 ^ (53 - (Z.log2 z + 1)))) = z * 2 ^ (53 - (Z.log2 z + 1))) as ->.
  { rewrite Z2Pos.id by nia. done. }
  replace (- (Z.log2 z + 1 - 53)) with (53 - (Z.log2 z + 1)) by lia.
  destruct (Z.leb_spec 0 (Z.log2 z + 1 - 53)).
  - replace (Z.log2 z + 1) with 53 by lia. f_equal. lia.
  - rewrite Z.mod_mul, Z.div_mul by lia. done.
Qed.
End Exact.

(** ** Conversions *)
Section Conversions.
Context `{Ethers}.

Lemma from_exact_product (c n : Z) :
  0 < c < 2 ^ 53 → 0 ≤ n → c * n < MAX_SAFE → bn_from_number (js_mul (js_of_Z c) (js_of_Z n)) = Ok (c * n).
Proof.
  intros Hc Hn Hcn. unfold MAX_SAFE in *. apply bn_from_number_safe; [|unfold MAX_SAFE; nia].
  destruct (decide (n = 0)) as [->|].
  - rewrite js_of_Z_safe by done. by rewrite Z.mul_0_r.
  - rewrite js_mul_safe by nia. by rewrite js_integer_safe by nia.
Qed.

(** On whole amounts the conversions are exact as long as the result is a
    safe integer, although they go through floating-point products. *)
Theorem whole_units_exact (n : Z) (Hn : 0 ≤ n) (Hsafe : 100000000 * n < MAX_SAFE) :
  bitcoin (js_of_Z n) = Ok (10 ^ 8 * n) ∧ usdc (js_of_Z n) = Ok (10 ^ 6 * n) ∧
  gWei (js_of_Z n) = Ok (10 ^ 9 * n).
Proof.
  split; [by apply from_exact_product|]. split; [apply from_exact_product; lia|].
  unfold gWei. rewrite (bn_from_number_safe _ n); [by bn_simpl| |lia].
  unfold MAX_SAFE in *. destruct (decide (n = 0)) as [->|]; [done|]. apply js_integer_safe. lia.
Qed.

(** The literal [k / 10 ^ d], correctly rounded. *)
Definition js_literal (k d : Z) : js_number := SFdiv 53 1024 (js_of_Z k) (js_of_Z (10 ^ d)).

(** Amounts in cents, up to ten units, whose product with a million is not an
    integer. *)
Definition lossy_cents : list Z :=
  [201; 203; 205; 207; 209; 402; 403; 406; 407; 410; 411; 414; 415; 418; 419; 803; 804; 805;
   806; 811; 812; 813; 814; 819; 820; 821; 822; 828; 829; 830; 831; 836; 837; 838].

Definition cents_product (k : Z) : js_number := js_mul (js_of_Z 1000000) (js_literal k 2).

Lemma cents_products :
  Forall (λ k, js_finite (cents_product k) = true ∧
               js_integer (cents_product k) = if bool_decide (k ∈ lossy_cents) then None else Some (10000 * k))
    (Z.of_nat <$> seq 0 1000).
Proof. apply (bool_decide_unpack _). vm_compute. exact I. Qed.

(** [usdc] is not total on the amounts it is written for: of the amounts
    below ten units with two decimals it throws an underflow on exactly those in
    [lossy_cents] (2.01 is the first), and converts the others exactly. *)
Theorem usdc_cents (k : Z) (Hk : 0 ≤ k < 1000) :
  usdc (js_literal k 2) =
    if bool_decide (k ∈ lossy_cents) then Throw (NumericFault "underflow" "BigNumber.from")
    else Ok (10000 * k).
Proof.
  pose proof cents_products as F. rewrite Forall_forall in F.
  destruct (F k) as [Hf Hi].
  { apply list_elem_of_fmap. exists (Z.to_nat k). split; [lia|]. apply elem_of_seq. lia. }
  unfold usdc. destruct (bool_decide _).
  - by apply bn_from_number_fraction.
  - apply bn_from_number_safe; [done|]. unfold MAX_SAFE. lia.
Qed.
End Conversions.

(** ** Concrete instances *)

Lemma whole_units_exact_witness : usdc (js_of_Z 25) = Ok 25000000.
Proof. destruct (whole_units_exact 25) as (_ & E & _); [lia|unfold MAX_SAFE; lia|exact E]. Defined.

Lemma usdc_cents_witness :
  usdc (js_literal 201 2) = Throw (NumericFault "underflow" "BigNumber.from").
Proof. apply (usdc_cents 201). lia. Defined.
