(* ===== verification/UniswapUtils.v ===== *)
(** * Liquidity computations

    [utils/common/uniswapUtils.ts].  The file compares big number objects with
    [<], [>] and [==]: the first two compare decimal strings, the last object
    identities.  Both behaviours are modelled. *)
From Stdlib Require Import Ascii String.
From S2P Require Import Prelude JsString BigNumber Constants MathUtils UnitsUtils Script.

(** A big number object is the exported constant [ZERO] or another object. *)
Inductive bn_object :=
| the_ZERO
| fresh (z : Z).

Section UniswapUtils.
Context `{Ethers}.

Definition obj_value (o : bn_object) : Z := match o with the_ZERO => ZERO | fresh z => z end.

(** [o == ZERO]. *)
Definition is_ZERO (o : bn_object) : bool :=
  match o with the_ZERO => true | fresh _ => false end.

Definition MINIMUM_LIQUIDITY : Z := 1000.

Definition min (valueOne valueTwo : Z) : Z :=
  if bn_obj_lt valueOne valueTwo then valueOne else valueTwo.

(** The loop of [sqrt]; [fuel] bounds the iterations. *)
Fixpoint sqrt_loop (fuel : nat) (value z x : Z) : result Z :=
  match fuel with
  | O => Throw (Error "out of fuel")
  | S fuel' =>
      if bn_obj_lt x z then
        q ← bn_div value x; h ← bn_div (bn_add q x) 2; sqrt_loop fuel' value x h
      else Ok z
  end.

Definition sqrt (value : bn_object) : result Z :=
  let v := obj_value value in
  if bn_obj_gt v 3 then
    h ← bn_div v 2; sqrt_loop (S (S (Z.to_nat v))) v v (bn_add h 1)
  else if negb (is_ZERO value) then Ok 1 else Ok v.

Definition calculateLPTokensIssued (pool : contract) (amountOne amountTwo : Z) : script Z :=
  reserves ← call (A := value) pool "getReserves" [];
  reserve0 ← decode_answer "_reserve0" (default VUndefined (prop "_reserve0" reserves));
  reserve1 ← decode_answer "_reserve1" (default VUndefined (prop "_reserve1" reserves));
  totalSupply ← call (A := Z) pool "totalSupply" [];
  lift_result (
    if is_ZERO (fresh totalSupply) then
      root ← sqrt (fresh (bn_mul amountOne amountTwo)); Ok (bn_sub root MINIMUM_LIQUIDITY)
    else
      a ← bn_div (bn_mul amountOne totalSupply) reserve0;
      b ← bn_div (bn_mul amountTwo totalSupply) reserve1;
      Ok (min a b)).

Definition getReservesSafe (assetOne assetTwo : Address) (lpToken : contract) : script (Z * Z) :=
  let firstAsset := if js_lt assetOne assetTwo then assetOne else assetTwo in
  reserves ← call (A := value) lpToken "getReserves" [];
  reserve0 ← decode_answer "_reserve0" (default VUndefined (prop "_reserve0" reserves));
  reserve1 ← decode_answer "_reserve1" (default VUndefined (prop "_reserve1" reserves));
  mret (if String.eqb assetOne firstAsset then (reserve0, reserve1) else (reserve1, reserve0)).

Definition calculateTokensInReserve (setToken assetOne assetTwo lpToken stakingRewards : contract)
    : script (Z * Z) :=
  '(reserveOne, reserveTwo) ← getReservesSafe (address assetOne) (address assetTwo) lpToken;
  totalSupply ← call (A := Z) lpToken "totalSupply" [];
  lpTokenBalance ← call (A := Z) stakingRewards "balanceOf" [VAddr (address setToken)];
  lift_result (
    s1 ← preciseDiv reserveOne totalSupply;
    a ← preciseMul s1 lpTokenBalance;
    s2 ← preciseDiv reserveTwo totalSupply;
    b ← preciseMul s2 lpTokenBalance;
    Ok (a, b)).

Definition calculateEngageQuantities (setToken assetOne assetTwo lpToken stakingRewards : contract)
    (reservePercentage : Z) (extraAssetOne extraAssetTwo : option Z) : script (Z * Z) :=
  '(reserveOne, reserveTwo) ←
    calculateTokensInReserve setToken assetOne assetTwo lpToken stakingRewards;
  b1 ← call (A := Z) assetOne "balanceOf" [VAddr (address setToken)];
  let balanceOnTokenAssetOne := bn_add b1 (default ZERO extraAssetOne) in
  b2 ← call (A := Z) assetTwo "balanceOf" [VAddr (address setToken)];
  let balanceOnTokenAssetTwo := bn_add b2 (default ZERO extraAssetTwo) in
  lift_result (
    p1 ← preciseMul reserveOne reservePercentage;
    e1 ← ether "1";
    q1 ← preciseMul balanceOnTokenAssetOne (bn_sub e1 reservePercentage);
    p2 ← preciseMul reserveTwo reservePercentage;
    e2 ← ether "1";
    q2 ← preciseMul balanceOnTokenAssetTwo (bn_sub e2 reservePercentage);
    Ok (bn_sub p1 q1, bn_sub p2 q2)).

Definition calculateRebalanceQuantity (sellTokenQuantity : Z)
    (setToken assetOne assetTwo : contract) (assetOneToTwoPrice : Z)
    (extraAssetOne extraAssetTwo : option Z) : script (Z * Address * Address) :=
  b1 ← call (A := Z) assetOne "balanceOf" [VAddr (address setToken)];
  let balanceAssetOne := bn_add b1 (default ZERO extraAssetOne) in
  b2 ← call (A := Z) assetTwo "balanceOf" [VAddr (address setToken)];
  let balanceAssetTwo := bn_add b2 (default ZERO extraAssetTwo) in
  lift_result (
    valueAssetTwoDenomOne ← preciseDiv balanceAssetTwo assetOneToTwoPrice;
    '(quantityToSell, assetToSell, assetToBuy) ←
      (if bn_gt balanceAssetOne valueAssetTwoDenomOne then
         q ← bn_div (bn_sub balanceAssetOne valueAssetTwoDenomOne) 2;
         Ok (q, address assetOne, address assetTwo)
       else
         h ← bn_div (bn_sub valueAssetTwoDenomOne balanceAssetOne) 2;
         q ← preciseMul h assetOneToTwoPrice;
         Ok (q, address assetTwo, address assetOne));
    let quantityToSell' :=
      if bn_obj_gt sellTokenQuantity ZERO then sellTokenQuantity else quantityToSell in
    Ok (quantityToSell', assetToSell, assetToBuy)).

Definition calculateRebalanceFlows (setToken router : contract) (sellTokenQuantity : Z)
    (assetOne assetTwo : contract) (assetOneToTwoPrice : Z)
    (extraAssetOne extraAssetTwo : option Z) : script (list Z) :=
  '(quantityToSell, assetToSell, assetToBuy) ←
    calculateRebalanceQuantity sellTokenQuantity setToken assetOne assetTwo assetOneToTwoPrice
      extraAssetOne extraAssetTwo;
  call (A := list Z) router "getAmountsOut"
    [VNum quantityToSell; VList [VAddr assetToSell; VAddr assetToBuy]].
End UniswapUtils.

(** ** Termination of [sqrt] *)
Section Termination.
Lemma filter_lt {A} (P Q : A → bool) (l : list A) (a : A) :
  (∀ x, P x = true → Q x = true) → a ∈ l → Q a = true → P a = false →
  (length (List.filter P l) < length (List.filter Q l))%nat.
Proof.
  intros Hsub Ha HQ HP.
  assert (∀ k, (length (List.filter P k) ≤ length (List.filter Q k))%nat) as Hle.
  { intros k. induction k as [|b k IH]; [done|]. cbn.
    pose proof (Hsub b). destruct (P b), (Q b); cbn; try lia; naive_solver. }
  induction l as [|b l IH]; [by apply elem_of_nil in Ha|].
  apply elem_of_cons in Ha as [<-|Ha]; cbn.
  - rewrite HP, HQ. cbn. specialize (Hle l). lia.
  - specialize (IH Ha). pose proof (Hsub b). destruct (P b), (Q b); cbn; try lia; naive_solver.
Qed.

Lemma filter_le_length {A} (P : A → bool) (l : list A) :
  (length (List.filter P l) ≤ length l)%nat.
Proof. induction l as [|b l IH]; cbn; [lia|]. destruct (P b); cbn; lia. Qed.

(** How many numbers up to [v] the object comparison puts below [z]. *)
Definition below (v z : Z) : nat :=
  length (List.filter (λ n, js_lt (dec_string n) (dec_string z)) (Z.of_nat <$> seq 1 (Z.to_nat v))).

Lemma below_lt (v x z : Z) :
  1 ≤ x ≤ v → js_lt (dec_string x) (dec_string z) = true → (below v x < below v z)%nat.
Proof.
  intros Hx Hlt. apply (filter_lt _ _ _ x); [|..|done|apply js_lt_irrefl].
  - intros n Hn. by eapply js_lt_trans.
  - apply list_elem_of_fmap. exists (Z.to_nat x). split; [lia|]. apply elem_of_seq. lia.
Qed.

Lemma below_le (v z : Z) : (below v z ≤ Z.to_nat v)%nat.
Proof.
  unfold below. etrans; [apply filter_le_length|]. by rewrite length_fmap, length_seq.
Qed.

Lemma am_gm_step (s q x : Z) : 0 ≤ s → 0 ≤ q + x → s * s < (q + 1) * x → 2 * s ≤ q + x.
Proof.
  intros Hs Hqx Hlt. destruct (Z.le_gt_cases (2 * s) (q + x)) as [|Hgt]; [done|].
  pose proof (Z.square_nonneg (q + 1 - x)).
  assert ((q + 1 + x) * (q + 1 + x) ≤ (2 * s) * (2 * s)) by (apply Z.mul_le_mono_nonneg; lia).
  lia.
Qed.

(** One Newton step stays between the root and the radicand. *)
Lemma newton_step (v x : Z) :
  1 ≤ x ≤ v → Z.sqrt v ≤ (v / x + x) / 2 ≤ v ∧ 1 ≤ (v / x + x) / 2.
Proof.
  intros Hx. pose proof (Z.sqrt_spec v ltac:(lia)) as [Hs _]. set (s := Z.sqrt v) in *.
  pose proof (Z.sqrt_pos v). assert (1 ≤ s) by (apply Z.sqrt_le_square; lia).
  pose proof (Z.div_mod v x). pose proof (Z.mod_pos_bound v x). set (q := v / x) in *.
  assert (1 ≤ q) by (apply Z.div_le_lower_bound; lia).
  assert (q ≤ v) by nia.
  assert (2 * s ≤ q + x) by (apply am_gm_step; nia).
  split; [split|].
  - apply Z.div_le_lower_bound; lia.
  - apply Z.div_le_upper_bound; nia.
  - apply Z.div_le_lower_bound; lia.
Qed.

Lemma sqrt_loop_terminates `{Ethers} (fuel : nat) (v z x : Z) :
  1 ≤ x ≤ v → Z.sqrt v ≤ x → Z.sqrt v ≤ z ≤ v → (below v z < fuel)%nat →
  ∃ r, sqrt_loop fuel v z x = Ok r ∧ Z.sqrt v ≤ r ≤ v.
Proof.
  revert z x. induction fuel as [|fuel IH]; intros z x Hx Hsx Hz Hf; [lia|].
  cbn [sqrt_loop]. unfold bn_obj_lt. bn_simpl.
  destruct (js_lt (dec_string x) (dec_string z)) eqn:E; [|by exists z].
  bn_simpl. destruct (newton_step v x Hx) as [??].
  rewrite (quot_floor v x) by lia. rewrite quot_floor by (pose proof (Z.div_pos v x); lia).
  pose proof (below_lt v x z Hx E). apply IH; lia.
Qed.
End Termination.

(** ** Properties *)
Section Properties.
Context `{Ethers}.

Lemma digits_3 (n : Z) : js_gt (dec_string n) (dec_string 3) = true → 4 ≤ n.
Proof.
  intros E. destruct (Z.le_gt_cases 4 n) as [|Hn]; [done|exfalso].
  destruct (decide (0 ≤ n)) as [H0|H0].
  - assert (n = 0 ∨ n = 1 ∨ n = 2 ∨ n = 3) as C by lia. by destruct_or! C; subst.
  - unfold dec_string in E. by destruct (Z.ltb_spec n 0); [|lia].
Qed.

(** C39. [sqrt] terminates on every argument, although its loop is governed by
    the order of decimal strings.  In the looping branch the result is never
    below the integer square root; every other argument gives 1, or the
    constant [ZERO] itself. *)
Theorem sqrt_terminates (o : bn_object) :
  ∃ r, sqrt o = Ok r ∧
    if bn_obj_gt (obj_value o) 3 then Z.sqrt (obj_value o) ≤ r ≤ obj_value o
    else r = if is_ZERO o then 0 else 1.
Proof.
  unfold sqrt. set (v := obj_value o). destruct (bn_obj_gt v 3) eqn:E.
  - unfold bn_obj_gt in E. autorewrite with bn in E. apply digits_3 in E.
    bn_simpl. rewrite quot_floor by lia.
    pose proof (Z.sqrt_spec v ltac:(lia)) as [Hs _]. pose proof (Z.sqrt_nonneg v).
    assert (v / 2 + 1 ≤ v).
    { pose proof (Z.div_mod v 2). pose proof (Z.mod_pos_bound v 2). lia. }
    assert (Z.sqrt v ≤ v / 2 + 1).
    { pose proof (Z.div_mod v 2). pose proof (Z.mod_pos_bound v 2).
      pose proof (Z.square_nonneg (Z.sqrt v - 1)). lia. }
    pose proof (below_le v v). pose proof (Z.div_pos v 2). apply sqrt_loop_terminates; lia.
  - destruct o; cbn [is_ZERO negb]; eexists; (split; [done|]); [|done].
    subst v. cbn. by autorewrite with bn.
Qed.

(** Whatever the pool answers, the initial-deposit formula is never used:
    an empty pool makes the helper throw, and a funded one yields the candidate
    whose decimal string is smaller, which is the smaller candidate when both
    have equally many digits. *)
Theorem lp_tokens_issued {S} (step : S → event → S * Prelude.result value) (s s1 s2 : S)
    (pool : contract) (amountOne amountTwo r0 r1 supply : Z)
    (Hr0 : 0 ≤ r0) (Hr1 : 0 ≤ r1) (Hs : 0 ≤ supply) (H1 : 0 ≤ amountOne) (H2 : 0 ≤ amountTwo)
    (Hreserves : step s (EvCall (signer pool) (address pool) "getReserves" [])
       = (s1, Ok (VObj [("_reserve0", VNum r0); ("_reserve1", VNum r1)]%string)))
    (Hsupply : step s1 (EvCall (signer pool) (address pool) "totalSupply" [])
       = (s2, Ok (VNum supply))) :
  let a := amountOne * supply / r0 in
  let b := amountTwo * supply / r1 in
  outcome step (calculateLPTokensIssued pool amountOne amountTwo) s =
    (if (r0 =? 0) || (r1 =? 0) then Throw (NumericFault "division-by-zero" "div")
     else Ok (min a b)) ∧
  (dec_length a = dec_length b → min a b = Z.min a b).
Proof.
  intros a b. split.
  - unfold outcome, calculateLPTokensIssued, call. cbn [mbind script_bind run].
    rewrite Hreserves. cbn. rewrite Hsupply. cbn. rewrite run_lift_result. cbn [snd].
    destruct (Z.eqb_spec r0 0) as [->|]; [by rewrite bn_div_zero|]. cbn [orb].
    rewrite (bn_div_spec _ r0) by done. cbn [mbind result_bind].
    destruct (Z.eqb_spec r1 0) as [->|]; [by rewrite bn_div_zero|].
    rewrite (bn_div_spec _ r1), !bn_mul_spec by done.
    cbn [mbind result_bind]. unfold a, b. by rewrite !quot_floor by nia.
  - intros Hlen. unfold min, bn_obj_lt. rewrite !bn_toString_spec, dec_lt_same_length; [|..|done].
    + destruct (Z.ltb_spec a b); lia.
    + unfold a. destruct (decide (r0 = 0)) as [->|]; [rewrite Z.div_0_r; lia|].
      apply Z.div_pos; nia.
    + unfold b. destruct (decide (r1 = 0)) as [->|]; [rewrite Z.div_0_r; lia|]. apply Z.div_pos; nia.
Qed.

(** The rebalance sells the asset worth more.  An explicit positive quantity
    is sold as it is; otherwise the quantity sold leaves the two values, in units
    of the first asset, within one unit of each other. *)
Theorem rebalance_quantity {S} (step : S → event → S * Prelude.result value) (s s1 s2 : S)
    (setToken assetOne assetTwo : contract) (sell price x y : Z)
    (Hprice : 0 < price) (Hx : 0 ≤ x) (Hy : 0 ≤ y)
    (H1 : step s (EvCall (signer assetOne) (address assetOne) "balanceOf"
                    [VAddr (address setToken)]) = (s1, Ok (VNum x)))
    (H2 : step s1 (EvCall (signer assetTwo) (address assetTwo) "balanceOf"
                     [VAddr (address setToken)]) = (s2, Ok (VNum y))) :
  let v := y * 10 ^ 18 / price in
  ∃ q, outcome step (calculateRebalanceQuantity sell setToken assetOne assetTwo price None None) s
         = Ok (if v <? x then (q, address assetOne, address assetTwo)
               else (q, address assetTwo, address assetOne)) ∧
    (0 < sell → q = sell) ∧
    (sell ≤ 0 →
       if v <? x then 0 ≤ (x - q) - (v + q) ≤ 1
       else ∃ h, 0 ≤ (v - h) - (x + h) ≤ 1 ∧ q = h * price / 10 ^ 18).
Proof.
  intros v. unfold outcome, calculateRebalanceQuantity, call. cbn [mbind script_bind run].
  rewrite H1. cbn. rewrite H2. cbn. rewrite run_lift_result. cbn [snd].
  unfold bn_obj_gt. bn_simpl. rewrite !dec_gt_zero, !Z.add_0_r.
  rewrite quot_floor by lia. fold v.
  assert (Hhalf : ∀ d, 0 ≤ d → 0 ≤ d - 2 * (d / 2) ≤ 1).
  { intros d Hd. pose proof (Z.div_mod d 2). pose proof (Z.mod_pos_bound d 2). lia. }
  destruct (Z.ltb_spec v x); cbn [mbind result_bind]; eexists; (split; [done|]);
    destruct (Z.ltb_spec 0 sell); (split; [done||lia|]); try lia; intros _.
  - rewrite quot_floor by lia. pose proof (Hhalf (x - v)). lia.
  - exists ((v - x) / 2). pose proof (Hhalf (v - x)). split; [lia|].
    rewrite (quot_floor (v - x)) by lia.
    apply quot_floor; [|done]. pose proof (Z.div_pos (v - x) 2). nia.
Qed.

Definition hex_address (l : list Z) : Address := String.append "0x" (string_of_digits l).

Lemma hex_address_cons (l : list Z) :
  hex_address l = String "0"%char (String "x"%char (string_of_digits l)).
Proof. done. Qed.

Lemma ascii_compare_refl (c : Ascii.ascii) : Ascii.compare c c = Eq.
Proof. apply N.compare_refl. Qed.

(** For two different addresses written in lower case, the reserves come
    back in the order of the arguments, the pair keeping the numerically smaller
    token first. *)
Theorem reserves_in_order {S} (step : S → event → S * Prelude.result value) (s s1 : S)
    (lpToken : contract) (l k : list Z) (r0 r1 : Z)
    (Hl : Forall (is_digit 16) l) (Hk : Forall (is_digit 16) k) (Hlen : length l = length k)
    (Hne : undigits 16 l ≠ undigits 16 k)
    (Hreserves : step s (EvCall (signer lpToken) (address lpToken) "getReserves" [])
       = (s1, Ok (VObj [("_reserve0", VNum r0); ("_reserve1", VNum r1)]%string))) :
  outcome step (getReservesSafe (hex_address l) (hex_address k) lpToken) s =
    Ok (if undigits 16 l <? undigits 16 k then (r0, r1) else (r1, r0)).
Proof.
  unfold outcome, getReservesSafe, call. cbn [mbind script_bind run].
  rewrite Hreserves. cbn -[String.eqb].
  assert (js_lt (hex_address l) (hex_address k) = (undigits 16 l <? undigits 16 k)) as ->.
  { unfold js_lt, String.ltb. rewrite !hex_address_cons, !string_compare_cons, !ascii_compare_refl.
    rewrite (string_of_digits_compare 16) by (done || lia).
    unfold Z.ltb. by destruct (_ ?= _). }
  destruct (Z.ltb_spec (undigits 16 l) (undigits 16 k)); [by rewrite String.eqb_refl|].
  assert (hex_address l ≠ hex_address k) as E%String.eqb_neq; [|by rewrite E].
  intros E. rewrite !hex_address_cons in E. injection E as E.
  apply (f_equal hex_values) in E. rewrite !hex_values_of_digits in E by done. injection E as ->. done.
Qed.
End Properties.

(** ** Concrete instances *)

(** The numeric order of checksummed addresses is lost: the token [0xbC...] is
    numerically the first of the pair, and is given the second reserve. *)
Lemma min_is_lexicographic : min 9 10 = 10 ∧ sqrt (fresh 100) = Ok 1 ∧ sqrt (fresh 400) = Ok 101.
Proof. computed. Qed.

Definition pool_chain (r0 r1 supply : Z) (s : ()) (ev : event) : () * result value :=
  (s, match ev with
      | EvCall _ _ "getReserves" _ =>
          Ok (VObj [("_reserve0", VNum r0); ("_reserve1", VNum r1)])
      | EvCall _ _ "totalSupply" _ => Ok (VNum supply)
      | EvCall _ "one" "balanceOf" _ => Ok (VNum 300)
      | EvCall _ _ "balanceOf" _ => Ok (VNum 100)
      | _ => Throw (Revert "unknown")
      end%string).

Definition sample_pool : contract := attach "o" "UniswapV2Pair" "pool".

Lemma checksummed_order :
  outcome (pool_chain 7 8 100) (getReservesSafe "0xb0" "0xC0" sample_pool) () = Ok (8, 7).
Proof. computed. Qed.

Lemma lp_tokens_issued_witness :
  outcome (pool_chain 100 400 200) (calculateLPTokensIssued sample_pool 5 20) () = Ok 10 ∧
  outcome (pool_chain 0 0 0) (calculateLPTokensIssued sample_pool 5 20) ()
    = Throw (NumericFault "division-by-zero" "div").
Proof.
  split.
  - destruct (lp_tokens_issued (pool_chain 100 400 200) () () () sample_pool 5 20 100 400 200)
      as [E _]; [lia..|reflexivity|reflexivity|]. rewrite E. reflexivity.
  - destruct (lp_tokens_issued (pool_chain 0 0 0) () () () sample_pool 5 20 0 0 0)
      as [E _]; [lia..|reflexivity|reflexivity|]. rewrite E. reflexivity.
Defined.

Lemma rebalance_quantity_witness :
  ∃ q, outcome (pool_chain 0 0 0)
         (calculateRebalanceQuantity 0 (attach "o" "SetToken" "set") (attach "o" "t" "one")
            (attach "o" "t" "two") (10 ^ 18) None None) () = Ok (q, "one"%string, "two"%string) ∧
       0 ≤ (300 - q) - (100 + q) ≤ 1.
Proof.
  destruct (rebalance_quantity (pool_chain 0 0 0) () () () (attach "o" "SetToken" "set")
              (attach "o" "t" "one") (attach "o" "t" "two") 0 (10 ^ 18) 300 100)
    as (q & E & _ & H); [lia..|reflexivity|reflexivity|].
  exists q. split; [exact E|]. apply H. lia.
Defined.

Lemma reserves_in_order_witness :
  outcome (pool_chain 7 8 100) (getReservesSafe "0xb0" "0xc0" sample_pool) () = Ok (7, 8).
Proof.
  apply (reserves_in_order (pool_chain 7 8 100) () () sample_pool [11; 0] [12; 0] 7 8);
    [| |reflexivity|discriminate|reflexivity]; repeat constructor; unfold is_digit; lia.
Defined.
