(* ===== verification/Deployer.v ===== *)
(** * Deployments and constructor signatures

    What the classes of [utils/deploys/] share: the signer they deploy with, the
    encoding of their arguments, and the constructor signatures a deployment has
    to agree with. *)
From Stdlib Require Import String.
From S2P Require Import Prelude JsString BigNumber Constants Script Dependencies.

(** Each class keeps one private field. *)
Record Deployer := { _deployerSigner : Address }.

(** Array and tuple arguments. *)
Definition addresses (l : list Address) : value := VList (VAddr <$> l).
Definition numbers (l : list Z) : value := VList (VNum <$> l).
Definition strings (l : list string) : value := VList (VStr <$> l).
Definition four_strings (t : string * string * string * string) : value :=
  let '(a, b, c, d) := t in strings [a; b; c; d].

(** A default value that an expression computes. *)
Definition or_default {A} (o : option A) (d : result A) : script A :=
  match o with Some a => SRet a | None => lift_result d end.

(** [v.k]; reading a property of [undefined] throws. *)
Definition js_get (k : string) (v : value) : result value :=
  match v with
  | VUndefined => Throw (TypeError k)
  | VObj fs => Ok (default VUndefined (assoc k fs))
  | _ => Ok VUndefined
  end.

(** [dependencies.K[1]]. *)
Definition mainnet (k : string) : Address := default EmptyString (dependency_on k 1).

(** ** Constructor signatures *)

Inductive abi_type :=
| Taddress
| Tuint (bits : Z)
| Tint (bits : Z)
| Tbool
| Tstring
| Tbytes (size : option Z)
| Tarray (t : abi_type) (size : option Z).

Definition signature : Type := list abi_type.

(** The kind of value the encoder accepts for a type; an address is a string. *)
Fixpoint conforms (t : abi_type) (v : value) : bool :=
  match t, v with
  | Taddress, (VAddr _ | VStr _) => true
  | (Tuint _ | Tint _), VNum _ => true
  | Tbool, VBool _ => true
  | Tstring, VStr _ => true
  | Tbytes _, VBytes _ => true
  | Tarray t' size, VList l =>
      match size with Some n => Z.of_nat (length l) =? n | None => true end
      && forallb (conforms t') l
  | _, _ => false
  end.

Fixpoint conforms_all (ts : signature) (vs : list value) : bool :=
  match ts, vs with
  | [], [] => true
  | t :: ts', v :: vs' => conforms t v && conforms_all ts' vs'
  | _, _ => false
  end.

(** Arrays of one kind of value conform element by element. *)
Lemma forallb_fmap_true {A} (f : A → value) (P : value → bool) (l : list A) :
  (∀ a, P (f a) = true) → forallb P (f <$> l) = true.
Proof. intros H. induction l as [|a l IH]; cbn; [done|]. by rewrite H, IH. Qed.

(** ** Scripts whose deployments agree with the signatures *)
Section Conformance.
Context (signatures : string → option signature).

Definition event_conforms (ev : event) : Prop :=
  match ev with
  | EvDeploy _ name _ args => ∃ ts, signatures name = Some ts ∧ conforms_all ts args = true
  | _ => True
  end.

(** Whatever the chain answers, every deployment the script performs agrees. *)
Definition script_conforms {A} (p : script A) : Prop :=
  ∀ S (step : S → event → S * result value) (s : S), Forall event_conforms (trace step p s).

Lemma script_conforms_deploy (from : Address) (name : string)
    (links : list (string * Address)) (args : list value) (ts : signature) :
  signatures name = Some ts → conforms_all ts args = true →
  script_conforms (deploy from name links args).
Proof.
  intros Hs Hc S step s. unfold trace, deploy. cbn.
  destruct (step s _) as [s' [v|e]]; cbn; [|by repeat constructor; exists ts].
  assert (∀ q : script contract, q = (a ← decode_answer name v;
     SRet {| factory := name; address := a; signer := from |}) → (run step q s').1.2 = []) as E.
  { intros q ->. unfold decode_answer. by destruct (from_value v). }
  specialize (E _ eq_refl). destruct (run step _ s') as [[? ?] ?]. cbn in *. subst.
  by repeat constructor; exists ts.
Qed.

Lemma script_conforms_ret {A} (a : A) : script_conforms (SRet a).
Proof. intros S step s. constructor. Qed.

Lemma script_conforms_lift {A} (r : result A) : script_conforms (lift_result r).
Proof. intros S step s. destruct r; constructor. Qed.

Lemma script_conforms_bind {A B} (p : script A) (f : A → script B) :
  script_conforms p → (∀ a, script_conforms (f a)) → script_conforms (p ≫= f).
Proof.
  intros Hp Hf S step s. specialize (Hp S step s). unfold trace in *. rewrite run_bind.
  destruct (run step p s) as [[s' t] [a|e]]; cbn in *; [|done].
  specialize (Hf a S step s'). unfold trace in Hf.
  destruct (run step (f a) s') as [[s'' t'] r]. cbn in *. by apply Forall_app.
Qed.

Lemma script_conforms_default {A} (o : option A) (d : result A) :
  script_conforms (or_default o d).
Proof. destruct o; [apply script_conforms_ret|apply script_conforms_lift]. Qed.
End Conformance.

(** A helper agrees when it does for all its arguments. *)
Class Conforms (A : Type) := conform : (string → option signature) → A → Prop.
#[export] Instance conforms_script {A} : Conforms (script A) := λ sigs, script_conforms sigs.
#[export] Instance conforms_fun {A B} `{Conforms B} : Conforms (A → B) :=
  λ sigs f, ∀ a, conform sigs (f a).

Ltac head_of t := match t with ?f _ => head_of f | _ => t end.

(** Proves the agreement of one helper. *)
Ltac conform_helper :=
  repeat match goal with
  | |- conform _ _ => unfold conform, conforms_fun, conforms_script; intros
  end;
  lazymatch goal with |- script_conforms _ ?p => let f := head_of p in unfold f end; cbv zeta;
  repeat (apply script_conforms_bind;
          [apply script_conforms_default || apply script_conforms_lift|intros ?; cbv zeta]);
  repeat match goal with
         | H : string * string * string * string |- _ => destruct H as [[[? ?] ?] ?]
         end;
  eapply script_conforms_deploy;
  [vm_compute; reflexivity
  |cbn; rewrite ?forallb_fmap_true by reflexivity; reflexivity].

(** Proves the agreement of all the helpers of a class. *)
Ltac conform_class := repeat match goal with |- _ ∧ _ => split end; conform_helper.
