(* ===== verification/Constructors.v ===== *)
(** * Constructor signatures

    The parameter types of the constructors the helpers of [utils/deploys/] call:
    those of the Solidity sources for the system's own contracts, those of the
    artifacts under [external/abi] for the external ones.  A parameter of an
    interface or contract type is an address. *)
From Stdlib Require Import String.
From S2P Require Import Prelude JsString BigNumber Constants Script Dependencies Deployer.

Definition Controller : signature := [Taddress].
Definition SetTokenCreator : signature := [Taddress].
Definition SetToken : signature := [Tarray Taddress None; Tarray (Tint 256) None;
  Tarray Taddress None; Taddress; Taddress; Tstring; Tstring].
Definition PriceOracle : signature := [Taddress; Taddress; Tarray Taddress None;
  Tarray Taddress None; Tarray Taddress None; Tarray Taddress None].
Definition IntegrationRegistry : signature := [Taddress].
Definition SetValuer : signature := [Taddress].
Definition BasicIssuanceModule : signature := [Taddress].
Definition IssuanceModule : signature := [Taddress].
Definition DebtIssuanceModule : signature := [Taddress].
Definition DebtIssuanceModuleV2 : signature := [Taddress].
Definition SlippageIssuanceModule : signature := [Taddress].
Definition AmmModule : signature := [Taddress].
Definition StreamingFeeModule : signature := [Taddress].
Definition AirdropModule : signature := [Taddress].
Definition TradeModule : signature := [Taddress].
Definition WrapModule : signature := [Taddress; Taddress].
Definition ClaimModule : signature := [Taddress].
Definition StakingModule : signature := [Taddress].
Definition CustomOracleNavIssuanceModule : signature := [Taddress; Taddress].
Definition SingleIndexModule : signature := [Taddress; Taddress; Taddress; Taddress; Taddress].
Definition GeneralIndexModule : signature := [Taddress; Taddress].
Definition GovernanceModule : signature := [Taddress].
Definition CompoundLeverageModule : signature := [Taddress; Taddress; Taddress; Taddress;
  Taddress].
Definition AaveLeverageModule : signature := [Taddress; Taddress].
Definition AaveV3LeverageModule : signature := [Taddress; Taddress].
Definition NotionalTradeModule : signature := [Taddress; Taddress; Taddress; Taddress;
  Tuint 256].
Definition WrapModuleV2 : signature := [Taddress; Taddress].
Definition PerpV2LeverageModuleV2 : signature := [Taddress; Taddress; Taddress; Taddress;
  Tuint 256].
Definition PerpV2BasisTradingModule : signature := [Taddress; Taddress; Taddress; Taddress;
  Tuint 256].
Definition AuctionRebalanceModuleV1 : signature := [Taddress].
Definition Compound : signature := [].
Definition AaveV2 : signature := [].
Definition AaveV3 : signature := [].
Definition PerpV2 : signature := [].
Definition PositionV2 : signature := [].
Definition PerpV2LibraryV2 : signature := [].
Definition PerpV2Positions : signature := [].
Definition ExplicitERC20Mock : signature := [].
Definition InvokeMock : signature := [].
Definition ManagerIssuanceHookMock : signature := [].
Definition ModuleIssuanceHookMock : signature := [].
Definition NAVIssuanceHookMock : signature := [].
Definition NAVIssuanceCaller : signature := [Taddress].
Definition AddressArrayUtilsMock : signature := [].
Definition Uint256ArrayUtilsMock : signature := [].
Definition KyberNetworkProxyMock : signature := [Taddress].
Definition ModuleBaseMock : signature := [Taddress].
Definition ModuleBaseV2Mock : signature := [Taddress].
Definition GodModeMock : signature := [Taddress].
Definition DebtModuleMock : signature := [Taddress].
Definition GovernanceAdapterMock : signature := [Tuint 256].
Definition CurveStableswapMock : signature := [Tarray Taddress None].
Definition OneInchExchangeMock : signature := [Taddress; Taddress; Tuint 256; Tuint 256].
Definition ZeroExMock : signature := [Taddress; Taddress; Tuint 256; Tuint 256].
Definition OracleMock : signature := [Tuint 256].
Definition YearnVaultMock : signature := [Tuint 256].
Definition OracleAdapterMock : signature := [Taddress; Tuint 256].
Definition PositionMock : signature := [].
Definition PositionV2Mock : signature := [].
Definition PreciseUnitMathMock : signature := [].
Definition ResourceIdentifierMock : signature := [].
Definition StakingAdapterMock : signature := [Taddress].
Definition StandardTokenMock : signature := [Taddress; Tuint 256; Tstring; Tstring; Tuint 8].
Definition StandardTokenWithFeeMock : signature := [Taddress; Tuint 256; Tstring; Tstring;
  Tuint 256].
Definition StandardTokenWithRoundingErrorMock : signature := [Taddress; Tuint 256; Tint 256;
  Tstring; Tstring; Tuint 8].
Definition TradeAdapterMock : signature := [].
Definition AmmAdapterMock : signature := [Tarray Taddress None].
Definition WrapAdapterMock : signature := [].
Definition AaveLendingPoolCoreMock : signature := [].
Definition AaveLendingPoolMock : signature := [Taddress].
Definition AaveV2Mock : signature := [].
Definition PerpV2Mock : signature := [].
Definition PerpV2LibraryV2Mock : signature := [].
Definition PerpV2PositionsMock : signature := [].
Definition UniswapV3MathMock : signature := [].
Definition UnitConversionUtilsMock : signature := [].
Definition SetTokenAccessibleMock : signature := [Taddress].
Definition ClaimAdapterMock : signature := [].
Definition GaugeControllerMock : signature := [].
Definition ContractCallerMock : signature := [].
Definition DebtIssuanceMock : signature := [].
Definition ComptrollerMock : signature := [Taddress; Tuint 256; Taddress].
Definition CompoundMock : signature := [].
Definition SynthMock : signature := [Taddress; Tuint 256; Tstring; Tstring; Tuint 8;
  Tbytes (Some 32)].
Definition SynthetixExchangerMock : signature := [Taddress; Taddress; Taddress;
  Tbytes (Some 32); Tbytes (Some 32); Tbytes (Some 32); Tuint 256; Tuint 256; Tuint 256;
  Tuint 256].
Definition ERC4626Mock : signature := [Tstring; Tstring; Taddress].
Definition CustomSetValuerMock : signature := [].
Definition YearnStrategyMock : signature := [Taddress].
Definition ForceFunderMock : signature := [].
Definition WrapV2AdapterMock : signature := [].
Definition ChainlinkAggregatorMock : signature := [Tuint 8].
Definition TribePegExchangerMock : signature := [Taddress; Taddress].
Definition StringArrayUtilsMock : signature := [].
Definition BytesArrayUtilsMock : signature := [].
Definition WrappedfCashMock : signature := [Taddress; Taddress; Taddress; Tbool].
Definition WrappedfCashFactoryMock : signature := [].
Definition NotionalV2Mock : signature := [].
Definition KyberExchangeAdapter : signature := [Taddress].
Definition OneInchExchangeAdapter : signature := [Taddress; Taddress; Tbytes (Some 4)].
Definition UniswapV2AmmAdapter : signature := [Taddress].
Definition UniswapV2ExchangeAdapter : signature := [Taddress].
Definition UniswapV2TransferFeeExchangeAdapter : signature := [Taddress].
Definition UniswapV2ExchangeAdapterV2 : signature := [Taddress].
Definition UniswapV2IndexExchangeAdapter : signature := [Taddress].
Definition AaveGovernanceV2Adapter : signature := [Taddress; Taddress].
Definition CompClaimAdapter : signature := [Taddress].
Definition BalancerV1IndexExchangeAdapter : signature := [Taddress].
Definition BalancerV2ExchangeAdapter : signature := [Taddress].
Definition CompoundLikeGovernanceAdapter : signature := [Taddress; Taddress].
Definition CompoundBravoGovernanceAdapter : signature := [Taddress; Taddress].
Definition CurveStakingAdapter : signature := [Taddress].
Definition RgtMigrationWrapAdapter : signature := [Taddress].
Definition UniswapPairPriceAdapter : signature := [Taddress; Taddress; Tarray Taddress None].
Definition UniswapV3IndexExchangeAdapter : signature := [Taddress].
Definition ZeroExApiAdapter : signature := [Taddress; Taddress].
Definition SnapshotGovernanceAdapter : signature := [Taddress].
Definition SynthetixExchangeAdapter : signature := [Taddress].
Definition UniswapV3ExchangeAdapter : signature := [Taddress].
Definition UniswapV3ExchangeAdapterV2 : signature := [Taddress].
Definition KyberV3IndexExchangeAdapter : signature := [Taddress; Taddress].
Definition CompoundWrapV2Adapter : signature := [].
Definition YearnWrapV2Adapter : signature := [].
Definition AaveV2WrapV2Adapter : signature := [Taddress].
Definition ERC4626WrapV2Adapter : signature := [].
Definition CurveExchangeAdapter : signature := [Taddress; Taddress; Tint 128; Tint 128;
  Taddress].
Definition CurveStEthExchangeAdapter : signature := [Taddress; Taddress; Taddress].
Definition ConstantPriceAdapter : signature := [].
Definition BoundedStepwiseLinearPriceAdapter : signature := [].
Definition BoundedStepwiseLogarithmicPriceAdapter : signature := [].
Definition BoundedStepwiseExponentialPriceAdapter : signature := [].
Definition ProtocolViewer : signature := [].
Definition PerpV2LeverageModuleViewer : signature := [Taddress; Taddress; Taddress; Taddress].
Definition AssetLimitHook : signature := [Tarray Taddress None; Tarray (Tuint 256) None].
Definition AMMSplitter : signature := [Taddress; Taddress; Taddress; Taddress].
Definition CTokenOracle : signature := [Taddress; Taddress; Tuint 256; Tuint 256; Tstring].
Definition YearnVaultOracle : signature := [Taddress; Taddress; Tuint 256; Tstring].
Definition Comp : signature := [Taddress].
Definition CompoundTimelock : signature := [Taddress; Tuint 256].
Definition CompoundGovernorAlpha : signature := [Taddress; Taddress; Taddress].
Definition CompoundGovernorBravoDelegate : signature := [].
Definition CompoundGovernorBravoDelegator : signature := [Taddress; Taddress; Taddress;
  Taddress; Tuint 256; Tuint 256; Tuint 256].
Definition CERc20 : signature := [Taddress; Taddress; Taddress; Tuint 256; Tstring; Tstring;
  Tuint 256].
Definition CEther : signature := [Taddress; Taddress; Tuint 256; Tstring; Tstring; Tuint 256].
Definition CompoundPriceOracleMock : signature := [].
Definition PriceOracleProxy : signature := [Taddress; Taddress; Taddress; Taddress; Taddress;
  Taddress; Taddress].
Definition Comptroller : signature := [].
Definition Unitroller : signature := [].
Definition WhitePaperInterestRateModel : signature := [Tuint 256; Tuint 256].
Definition WETH9 : signature := [].
Definition AaveV2LendingPoolAddressesProvider : signature := [Tstring].
Definition AaveV2LendingPool : signature := [].
Definition AaveV2LendingPoolConfigurator : signature := [].
Definition AaveV2LendingPoolCollateralManager : signature := [].
Definition AaveV2LendingRateOracle : signature := [].
Definition AaveV2Oracle : signature := [Tarray Taddress None; Tarray Taddress None; Taddress;
  Taddress].
Definition AaveV2PriceOracle : signature := [].
Definition AaveV2DefaultReserveInterestRateStrategy : signature := [Taddress; Tuint 256;
  Tuint 256; Tuint 256; Tuint 256; Tuint 256; Tuint 256].
Definition AaveV2ProtocolDataProvider : signature := [Taddress].
Definition AaveV2AToken : signature := [].
Definition AaveV2StableDebtToken : signature := [].
Definition AaveV2VariableDebtToken : signature := [].
Definition AaveV2StakedTokenIncentivesController : signature := [Taddress; Taddress].
Definition GenericLogic : signature := [].
Definition ValidationLogic : signature := [].
Definition ReserveLogic : signature := [].
Definition AaveGovernanceV2 : signature := [Taddress; Tuint 256; Taddress;
  Tarray Taddress None].
Definition Executor : signature := [Taddress; Tuint 256; Tuint 256; Tuint 256; Tuint 256;
  Tuint 256; Tuint 256; Tuint 256; Tuint 256].
Definition GovernanceStrategy : signature := [Taddress; Taddress].
Definition AaveTokenV2Mintable : signature := [].
Definition CurveDeposit : signature := [Tarray Taddress (Some 4); Tarray Taddress (Some 4);
  Taddress; Taddress].
Definition CurvePoolERC20 : signature := [Tstring; Tstring; Tuint 256; Tuint 256].
Definition Stableswap : signature := [Tarray Taddress (Some 4); Tarray Taddress (Some 4);
  Taddress; Tuint 256; Tuint 256].
Definition CRVToken : signature := [Tstring; Tstring; Tuint 256].
Definition GaugeController : signature := [Taddress; Taddress].
Definition LiquidityGaugeReward : signature := [Taddress; Taddress; Taddress; Taddress].
Definition LiquidityGauge : signature := [Taddress; Taddress].
Definition Minter : signature := [Taddress; Taddress].
Definition Uni : signature := [Taddress; Taddress; Tuint 256].
Definition UniswapTimelock : signature := [Taddress; Tuint 256].
Definition UniswapGovernorAlpha : signature := [Taddress; Taddress].
Definition UniswapV2Factory : signature := [Taddress].
Definition UniswapV2Router02 : signature := [Taddress; Taddress].
Definition UniswapV2Pair : signature := [].
Definition StakingRewards : signature := [Taddress; Taddress; Taddress].
Definition BFactory : signature := [].
Definition ExchangeProxy : signature := [Taddress].
Definition BRegistry : signature := [Taddress].
Definition DelegateRegistry : signature := [].
Definition Vault : signature := [].
Definition Registry : signature := [].
Definition KyberNetworkTokenV2 : signature := [].
Definition DMMFactory : signature := [Taddress].
Definition DMMRouter02 : signature := [Taddress; Taddress].
Definition DMMPool : signature := [].
Definition UniswapV3Factory : signature := [].
Definition SwapRouter : signature := [Taddress; Taddress].
Definition NonfungiblePositionManager : signature := [Taddress; Taddress; Taddress].
Definition Quoter : signature := [Taddress; Taddress].
Definition NFTDescriptor : signature := [].
Definition PerpV2OrderBook : signature := [].
Definition PerpV2MarketRegistry : signature := [].
Definition PerpV2Quoter : signature := [Taddress].
Definition PerpV2QuoteToken : signature := [].
Definition PerpV2Vault : signature := [].
Definition PerpV2TestAggregatorV3 : signature := [].
Definition PerpV2ChainlinkPriceFeed : signature := [].
Definition PerpV2BaseToken : signature := [].
Definition PerpV2ClearingHouseConfig : signature := [].
Definition PerpV2InsuranceFund : signature := [].
Definition PerpV2AccountBalance : signature := [].
Definition PerpV2Exchange : signature := [].
Definition PerpV2ClearingHouse : signature := [].

Definition constructors : list (string * signature) := [
   ("Controller", Controller); ("SetTokenCreator", SetTokenCreator); ("SetToken", SetToken);
   ("PriceOracle", PriceOracle); ("IntegrationRegistry", IntegrationRegistry);
   ("SetValuer", SetValuer); ("BasicIssuanceModule", BasicIssuanceModule);
   ("IssuanceModule", IssuanceModule); ("DebtIssuanceModule", DebtIssuanceModule);
   ("DebtIssuanceModuleV2", DebtIssuanceModuleV2);
   ("SlippageIssuanceModule", SlippageIssuanceModule); ("AmmModule", AmmModule);
   ("StreamingFeeModule", StreamingFeeModule); ("AirdropModule", AirdropModule);
   ("TradeModule", TradeModule); ("WrapModule", WrapModule); ("ClaimModule", ClaimModule);
   ("StakingModule", StakingModule);
   ("CustomOracleNavIssuanceModule", CustomOracleNavIssuanceModule);
   ("SingleIndexModule", SingleIndexModule); ("GeneralIndexModule", GeneralIndexModule);
   ("GovernanceModule", GovernanceModule); ("CompoundLeverageModule", CompoundLeverageModule);
   ("AaveLeverageModule", AaveLeverageModule); ("AaveV3LeverageModule", AaveV3LeverageModule);
   ("NotionalTradeModule", NotionalTradeModule); ("WrapModuleV2", WrapModuleV2);
   ("PerpV2LeverageModuleV2", PerpV2LeverageModuleV2);
   ("PerpV2BasisTradingModule", PerpV2BasisTradingModule);
   ("AuctionRebalanceModuleV1", AuctionRebalanceModuleV1); ("Compound", Compound);
   ("AaveV2", AaveV2); ("AaveV3", AaveV3); ("PerpV2", PerpV2); ("PositionV2", PositionV2);
   ("PerpV2LibraryV2", PerpV2LibraryV2); ("PerpV2Positions", PerpV2Positions);
   ("ExplicitERC20Mock", ExplicitERC20Mock); ("InvokeMock", InvokeMock);
   ("ManagerIssuanceHookMock", ManagerIssuanceHookMock);
   ("ModuleIssuanceHookMock", ModuleIssuanceHookMock);
   ("NAVIssuanceHookMock", NAVIssuanceHookMock); ("NAVIssuanceCaller", NAVIssuanceCaller);
   ("AddressArrayUtilsMock", AddressArrayUtilsMock);
   ("Uint256ArrayUtilsMock", Uint256ArrayUtilsMock);
   ("KyberNetworkProxyMock", KyberNetworkProxyMock); ("ModuleBaseMock", ModuleBaseMock);
   ("ModuleBaseV2Mock", ModuleBaseV2Mock); ("GodModeMock", GodModeMock);
   ("DebtModuleMock", DebtModuleMock); ("GovernanceAdapterMock", GovernanceAdapterMock);
   ("CurveStableswapMock", CurveStableswapMock); ("OneInchExchangeMock", OneInchExchangeMock);
   ("ZeroExMock", ZeroExMock); ("OracleMock", OracleMock); ("YearnVaultMock", YearnVaultMock);
   ("OracleAdapterMock", OracleAdapterMock); ("PositionMock", PositionMock);
   ("PositionV2Mock", PositionV2Mock); ("PreciseUnitMathMock", PreciseUnitMathMock);
   ("ResourceIdentifierMock", ResourceIdentifierMock);
   ("StakingAdapterMock", StakingAdapterMock); ("StandardTokenMock", StandardTokenMock);
   ("StandardTokenWithFeeMock", StandardTokenWithFeeMock);
   ("StandardTokenWithRoundingErrorMock", StandardTokenWithRoundingErrorMock);
   ("TradeAdapterMock", TradeAdapterMock); ("AmmAdapterMock", AmmAdapterMock);
   ("WrapAdapterMock", WrapAdapterMock); ("AaveLendingPoolCoreMock", AaveLendingPoolCoreMock);
   ("AaveLendingPoolMock", AaveLendingPoolMock); ("AaveV2Mock", AaveV2Mock);
   ("PerpV2Mock", PerpV2Mock); ("PerpV2LibraryV2Mock", PerpV2LibraryV2Mock);
   ("PerpV2PositionsMock", PerpV2PositionsMock); ("UniswapV3MathMock", UniswapV3MathMock);
   ("UnitConversionUtilsMock", UnitConversionUtilsMock);
   ("SetTokenAccessibleMock", SetTokenAccessibleMock); ("ClaimAdapterMock", ClaimAdapterMock);
   ("GaugeControllerMock", GaugeControllerMock); ("ContractCallerMock", ContractCallerMock);
   ("DebtIssuanceMock", DebtIssuanceMock); ("ComptrollerMock", ComptrollerMock);
   ("CompoundMock", CompoundMock); ("SynthMock", SynthMock);
   ("SynthetixExchangerMock", SynthetixExchangerMock); ("ERC4626Mock", ERC4626Mock);
   ("CustomSetValuerMock", CustomSetValuerMock); ("YearnStrategyMock", YearnStrategyMock);
   ("ForceFunderMock", ForceFunderMock); ("WrapV2AdapterMock", WrapV2AdapterMock);
   ("ChainlinkAggregatorMock", ChainlinkAggregatorMock);
   ("TribePegExchangerMock", TribePegExchangerMock);
   ("StringArrayUtilsMock", StringArrayUtilsMock);
   ("BytesArrayUtilsMock", BytesArrayUtilsMock); ("WrappedfCashMock", WrappedfCashMock);
   ("WrappedfCashFactoryMock", WrappedfCashFactoryMock); ("NotionalV2Mock", NotionalV2Mock);
   ("KyberExchangeAdapter", KyberExchangeAdapter);
   ("OneInchExchangeAdapter", OneInchExchangeAdapter);
   ("UniswapV2AmmAdapter", UniswapV2AmmAdapter);
   ("UniswapV2ExchangeAdapter", UniswapV2ExchangeAdapter);
   ("UniswapV2TransferFeeExchangeAdapter", UniswapV2TransferFeeExchangeAdapter);
   ("UniswapV2ExchangeAdapterV2", UniswapV2ExchangeAdapterV2);
   ("UniswapV2IndexExchangeAdapter", UniswapV2IndexExchangeAdapter);
   ("AaveGovernanceV2Adapter", AaveGovernanceV2Adapter);
   ("CompClaimAdapter", CompClaimAdapter);
   ("BalancerV1IndexExchangeAdapter", BalancerV1IndexExchangeAdapter);
   ("BalancerV2ExchangeAdapter", BalancerV2ExchangeAdapter);
   ("CompoundLikeGovernanceAdapter", CompoundLikeGovernanceAdapter);
   ("CompoundBravoGovernanceAdapter", CompoundBravoGovernanceAdapter);
   ("CurveStakingAdapter", CurveStakingAdapter);
   ("RgtMigrationWrapAdapter", RgtMigrationWrapAdapter);
   ("UniswapPairPriceAdapter", UniswapPairPriceAdapter);
   ("UniswapV3IndexExchangeAdapter", UniswapV3IndexExchangeAdapter);
   ("ZeroExApiAdapter", ZeroExApiAdapter);
   ("SnapshotGovernanceAdapter", SnapshotGovernanceAdapter);
   ("SynthetixExchangeAdapter", SynthetixExchangeAdapter);
   ("UniswapV3ExchangeAdapter", UniswapV3ExchangeAdapter);
   ("UniswapV3ExchangeAdapterV2", UniswapV3ExchangeAdapterV2);
   ("KyberV3IndexExchangeAdapter", KyberV3IndexExchangeAdapter);
   ("CompoundWrapV2Adapter", CompoundWrapV2Adapter);
   ("YearnWrapV2Adapter", YearnWrapV2Adapter); ("AaveV2WrapV2Adapter", AaveV2WrapV2Adapter);
   ("ERC4626WrapV2Adapter", ERC4626WrapV2Adapter);
   ("CurveExchangeAdapter", CurveExchangeAdapter);
   ("CurveStEthExchangeAdapter", CurveStEthExchangeAdapter);
   ("ConstantPriceAdapter", ConstantPriceAdapter);
   ("BoundedStepwiseLinearPriceAdapter", BoundedStepwiseLinearPriceAdapter);
   ("BoundedStepwiseLogarithmicPriceAdapter", BoundedStepwiseLogarithmicPriceAdapter);
   ("BoundedStepwiseExponentialPriceAdapter", BoundedStepwiseExponentialPriceAdapter);
   ("ProtocolViewer", ProtocolViewer);
   ("PerpV2LeverageModuleViewer", PerpV2LeverageModuleViewer);
   ("AssetLimitHook", AssetLimitHook); ("AMMSplitter", AMMSplitter);
   ("CTokenOracle", CTokenOracle); ("YearnVaultOracle", YearnVaultOracle); ("Comp", Comp);
   ("CompoundTimelock", CompoundTimelock); ("CompoundGovernorAlpha", CompoundGovernorAlpha);
   ("CompoundGovernorBravoDelegate", CompoundGovernorBravoDelegate);
   ("CompoundGovernorBravoDelegator", CompoundGovernorBravoDelegator); ("CERc20", CERc20);
   ("CEther", CEther); ("CompoundPriceOracleMock", CompoundPriceOracleMock);
   ("PriceOracleProxy", PriceOracleProxy); ("Comptroller", Comptroller);
   ("Unitroller", Unitroller); ("WhitePaperInterestRateModel", WhitePaperInterestRateModel);
   ("WETH9", WETH9);
   ("AaveV2LendingPoolAddressesProvider", AaveV2LendingPoolAddressesProvider);
   ("AaveV2LendingPool", AaveV2LendingPool);
   ("AaveV2LendingPoolConfigurator", AaveV2LendingPoolConfigurator);
   ("AaveV2LendingPoolCollateralManager", AaveV2LendingPoolCollateralManager);
   ("AaveV2LendingRateOracle", AaveV2LendingRateOracle); ("AaveV2Oracle", AaveV2Oracle);
   ("AaveV2PriceOracle", AaveV2PriceOracle);
   ("AaveV2DefaultReserveInterestRateStrategy", AaveV2DefaultReserveInterestRateStrategy);
   ("AaveV2ProtocolDataProvider", AaveV2ProtocolDataProvider); ("AaveV2AToken", AaveV2AToken);
   ("AaveV2StableDebtToken", AaveV2StableDebtToken);
   ("AaveV2VariableDebtToken", AaveV2VariableDebtToken);
   ("AaveV2StakedTokenIncentivesController", AaveV2StakedTokenIncentivesController);
   ("GenericLogic", GenericLogic); ("ValidationLogic", ValidationLogic);
   ("ReserveLogic", ReserveLogic); ("AaveGovernanceV2", AaveGovernanceV2);
   ("Executor", Executor); ("GovernanceStrategy", GovernanceStrategy);
   ("AaveTokenV2Mintable", AaveTokenV2Mintable); ("CurveDeposit", CurveDeposit);
   ("CurvePoolERC20", CurvePoolERC20); ("Stableswap", Stableswap); ("CRVToken", CRVToken);
   ("GaugeController", GaugeController); ("LiquidityGaugeReward", LiquidityGaugeReward);
   ("LiquidityGauge", LiquidityGauge); ("Minter", Minter); ("Uni", Uni);
   ("UniswapTimelock", UniswapTimelock); ("UniswapGovernorAlpha", UniswapGovernorAlpha);
   ("UniswapV2Factory", UniswapV2Factory); ("UniswapV2Router02", UniswapV2Router02);
   ("UniswapV2Pair", UniswapV2Pair); ("StakingRewards", StakingRewards);
   ("BFactory", BFactory); ("ExchangeProxy", ExchangeProxy); ("BRegistry", BRegistry);
   ("DelegateRegistry", DelegateRegistry); ("Vault", Vault); ("Registry", Registry);
   ("KyberNetworkTokenV2", KyberNetworkTokenV2); ("DMMFactory", DMMFactory);
   ("DMMRouter02", DMMRouter02); ("DMMPool", DMMPool); ("UniswapV3Factory", UniswapV3Factory);
   ("SwapRouter", SwapRouter); ("NonfungiblePositionManager", NonfungiblePositionManager);
   ("Quoter", Quoter); ("NFTDescriptor", NFTDescriptor); ("PerpV2OrderBook", PerpV2OrderBook);
   ("PerpV2MarketRegistry", PerpV2MarketRegistry); ("PerpV2Quoter", PerpV2Quoter);
   ("PerpV2QuoteToken", PerpV2QuoteToken); ("PerpV2Vault", PerpV2Vault);
   ("PerpV2TestAggregatorV3", PerpV2TestAggregatorV3);
   ("PerpV2ChainlinkPriceFeed", PerpV2ChainlinkPriceFeed);
   ("PerpV2BaseToken", PerpV2BaseToken);
   ("PerpV2ClearingHouseConfig", PerpV2ClearingHouseConfig);
   ("PerpV2InsuranceFund", PerpV2InsuranceFund);
   ("PerpV2AccountBalance", PerpV2AccountBalance); ("PerpV2Exchange", PerpV2Exchange);
   ("PerpV2ClearingHouse", PerpV2ClearingHouse) ]%string.

Definition signature_of (name : string) : option signature := lookup_key name constructors.
