(* ===== verification/DeployCoreContracts.v ===== *)
(** * Deployment of core contracts

    [utils/deploys/deployCoreContracts.ts]: one helper per contract, for
    the controller, the token and its creator, the registries and the oracle. *)
From Stdlib Require Import String.
From S2P Require Import Prelude JsString BigNumber Constants Script.
From S2P Require Import Dependencies Deployer Constructors.

Section DeployCoreContracts.
Context (this : Deployer).
#[local] Abbreviation signer := (_deployerSigner this).

Definition deployController (feeRecipient : Address) : script contract :=
  deploy signer "Controller" [] [VAddr feeRecipient].

Definition getController (controllerAddress : Address) : contract :=
  attach signer "Controller" controllerAddress.

Definition deploySetTokenCreator (controller : Address) : script contract :=
  deploy signer "SetTokenCreator" [] [VAddr controller].

Definition getSetTokenCreator (setTokenCreatorAddress : Address) : contract :=
  attach signer "SetTokenCreator" setTokenCreatorAddress.

Definition deploySetToken (_components : list Address) (_units : list Z)
    (_modules : list Address) (_controller : Address) (_manager : Address) (_name : string)
    (_symbol : string) : script contract :=
  deploy signer "SetToken" [] [addresses _components; numbers _units; addresses _modules;
    VAddr _controller; VAddr _manager; VStr _name; VStr _symbol].

Definition getSetToken (setTokenAddress : Address) : contract :=
  attach signer "SetToken" setTokenAddress.

Definition deployPriceOracle (controller : Address) (masterQuoteAsset : Address)
    (adapters : list Address) (assetOnes : list Address) (assetTwos : list Address)
    (oracles : list Address) : script contract :=
  deploy signer "PriceOracle" [] [VAddr controller; VAddr masterQuoteAsset; addresses adapters;
    addresses assetOnes; addresses assetTwos; addresses oracles].

Definition getPriceOracle (priceOracleAddress : Address) : contract :=
  attach signer "PriceOracle" priceOracleAddress.

Definition deployIntegrationRegistry (controller : Address) : script contract :=
  deploy signer "IntegrationRegistry" [] [VAddr controller].

Definition getIntegrationRegistry (integrationRegistryAddress : Address) : contract :=
  attach signer "IntegrationRegistry" integrationRegistryAddress.

Definition deploySetValuer (controller : Address) : script contract :=
  deploy signer "SetValuer" [] [VAddr controller].

(** Every helper of the class agrees with the constructor it calls. *)
Definition helpers_conform : Prop :=
  conform signature_of deployController ∧ conform signature_of deploySetTokenCreator ∧
  conform signature_of deploySetToken ∧ conform signature_of deployPriceOracle ∧
  conform signature_of deployIntegrationRegistry ∧ conform signature_of deploySetValuer.

Lemma DeployCoreContracts_agree : helpers_conform.
Proof. unfold helpers_conform. conform_class. Qed.
End DeployCoreContracts.
