(* ===== verification/DeployModules.v ===== *)
(** * Deployment of modules

    [utils/deploys/deployModules.ts]: one helper per contract, for
    the modules of the protocol, some linked against libraries. *)
From Stdlib Require Import String.
From S2P Require Import Prelude JsString BigNumber Constants Script.
From S2P Require Import Dependencies Deployer Constructors.

Section DeployModules.
Context (this : Deployer).
#[local] Abbreviation signer := (_deployerSigner this).

Definition deployBasicIssuanceModule (controller : Address) : script contract :=
  deploy signer "BasicIssuanceModule" [] [VAddr controller].

Definition deployIssuanceModule (controller : Address) : script contract :=
  deploy signer "IssuanceModule" [] [VAddr controller].

Definition deployDebtIssuanceModule (controller : Address) : script contract :=
  deploy signer "DebtIssuanceModule" [] [VAddr controller].

Definition deployDebtIssuanceModuleV2 (controller : Address) : script contract :=
  deploy signer "DebtIssuanceModuleV2" [] [VAddr controller].

Definition deploySlippageIssuanceModule (controller : Address) : script contract :=
  deploy signer "SlippageIssuanceModule" [] [VAddr controller].

Definition deployAmmModule (controller : Address) : script contract :=
  deploy signer "AmmModule" [] [VAddr controller].

Definition getBasicIssuanceModule (basicIssuanceModule : Address) : contract :=
  attach signer "BasicIssuanceModule" basicIssuanceModule.

Definition deployStreamingFeeModule (controller : Address) : script contract :=
  deploy signer "StreamingFeeModule" [] [VAddr controller].

Definition getStreamingFeeModule (streamingFeeModule : Address) : contract :=
  attach signer "StreamingFeeModule" streamingFeeModule.

Definition deployAirdropModule (controller : Address) : script contract :=
  deploy signer "AirdropModule" [] [VAddr controller].

Definition deployTradeModule (controller : Address) : script contract :=
  deploy signer "TradeModule" [] [VAddr controller].

Definition deployWrapModule (controller : Address) (weth : Address) : script contract :=
  deploy signer "WrapModule" [] [VAddr controller; VAddr weth].

Definition deployClaimModule (controller : Address) : script contract :=
  deploy signer "ClaimModule" [] [VAddr controller].

Definition deployStakingModule (controller : Address) : script contract :=
  deploy signer "StakingModule" [] [VAddr controller].

Definition deployCustomOracleNavIssuanceModule (controller : Address) (weth : Address)
    : script contract :=
  deploy signer "CustomOracleNavIssuanceModule" [] [VAddr controller; VAddr weth].

Definition deploySingleIndexModule (controller : Address) (weth : Address)
    (uniswapRouter : Address) (sushiswapRouter : Address) (balancerProxy : Address)
    : script contract :=
  deploy signer "SingleIndexModule" [] [VAddr controller; VAddr weth; VAddr uniswapRouter;
    VAddr sushiswapRouter; VAddr balancerProxy].

Definition deployGeneralIndexModule (controller : Address) (weth : Address) : script contract :=
  deploy signer "GeneralIndexModule" [] [VAddr controller; VAddr weth].

Definition deployGovernanceModule (controller : Address) : script contract :=
  deploy signer "GovernanceModule" [] [VAddr controller].

Definition deployCompoundLeverageModule (controller : Address) (compToken : Address)
    (comptroller : Address) (cEth : Address) (weth : Address) (libraryName : string)
    (libraryAddress : Address) : script contract :=
  deploy signer "CompoundLeverageModule"
    [(libraryName, libraryAddress)]
    [VAddr controller; VAddr compToken; VAddr comptroller; VAddr cEth; VAddr weth].

Definition deployAaveLeverageModule (controller : Address)
    (lendingPoolAddressesProvider : Address) (libraryName : string) (libraryAddress : Address)
    : script contract :=
  deploy signer "AaveLeverageModule"
    [(libraryName, libraryAddress)]
    [VAddr controller; VAddr lendingPoolAddressesProvider].

Definition deployAaveV3LeverageModule (controller : Address)
    (lendingPoolAddressesProvider : Address) (libraryName : string) (libraryAddress : Address)
    : script contract :=
  deploy signer "AaveV3LeverageModule"
    [(libraryName, libraryAddress)]
    [VAddr controller; VAddr lendingPoolAddressesProvider].

Definition deployNotionalTradeModule (controller : Address) (wrappedfCashFactory : Address)
    (weth : Address) (notionalV2 : Address) (decodedIdGasLimit : Z) : script contract :=
  deploy signer "NotionalTradeModule" [] [VAddr controller; VAddr wrappedfCashFactory;
    VAddr weth; VAddr notionalV2; VNum decodedIdGasLimit].

Definition deployWrapModuleV2 (controller : Address) (weth : Address) : script contract :=
  deploy signer "WrapModuleV2" [] [VAddr controller; VAddr weth].

Definition deployPerpV2LeverageModuleV2 (controller : Address) (perpVault : Address)
    (perpQuoter : Address) (perpMarketRegistry : Address) (maxPerpPositionsPerSet : Z)
    (positionV2LibraryName : string) (positionV2LibraryAddress : Address)
    (perpV2LibraryName : string) (perpV2LibraryAddress : Address)
    (perpV2PositionsLibraryName : string) (perpV2PositionsLibraryAddress : Address)
    : script contract :=
  deploy signer "PerpV2LeverageModuleV2"
    [(positionV2LibraryName, positionV2LibraryAddress);
     (perpV2LibraryName, perpV2LibraryAddress);
     (perpV2PositionsLibraryName, perpV2PositionsLibraryAddress)]
    [VAddr controller; VAddr perpVault; VAddr perpQuoter; VAddr perpMarketRegistry;
    VNum maxPerpPositionsPerSet].

Definition deployPerpV2BasisTradingModule (controller : Address) (perpVault : Address)
    (perpQuoter : Address) (perpMarketRegistry : Address) (maxPerpPositionsPerSet : Z)
    (positionV2LibraryName : string) (positionV2LibraryAddress : Address)
    (perpV2LibraryName : string) (perpV2LibraryAddress : Address)
    (perpV2PositionsLibraryName : string) (perpV2PositionsLibraryAddress : Address)
    : script contract :=
  deploy signer "PerpV2BasisTradingModule"
    [(positionV2LibraryName, positionV2LibraryAddress);
     (perpV2LibraryName, perpV2LibraryAddress);
     (perpV2PositionsLibraryName, perpV2PositionsLibraryAddress)]
    [VAddr controller; VAddr perpVault; VAddr perpQuoter; VAddr perpMarketRegistry;
    VNum maxPerpPositionsPerSet].

Definition deployAuctionRebalanceModuleV1 (controller : Address) : script contract :=
  deploy signer "AuctionRebalanceModuleV1" [] [VAddr controller].

(** Every helper of the class agrees with the constructor it calls. *)
Definition helpers_conform : Prop :=
  conform signature_of deployBasicIssuanceModule ∧
  conform signature_of deployIssuanceModule ∧
  conform signature_of deployDebtIssuanceModule ∧
  conform signature_of deployDebtIssuanceModuleV2 ∧
  conform signature_of deploySlippageIssuanceModule ∧
  conform signature_of deployAmmModule ∧ conform signature_of deployStreamingFeeModule ∧
  conform signature_of deployAirdropModule ∧ conform signature_of deployTradeModule ∧
  conform signature_of deployWrapModule ∧ conform signature_of deployClaimModule ∧
  conform signature_of deployStakingModule ∧
  conform signature_of deployCustomOracleNavIssuanceModule ∧
  conform signature_of deploySingleIndexModule ∧
  conform signature_of deployGeneralIndexModule ∧
  conform signature_of deployGovernanceModule ∧
  conform signature_of deployCompoundLeverageModule ∧
  conform signature_of deployAaveLeverageModule ∧
  conform signature_of deployAaveV3LeverageModule ∧
  conform signature_of deployNotionalTradeModule ∧
  conform signature_of deployWrapModuleV2 ∧
  conform signature_of deployPerpV2LeverageModuleV2 ∧
  conform signature_of deployPerpV2BasisTradingModule ∧
  conform signature_of deployAuctionRebalanceModuleV1.

Lemma DeployModules_agree : helpers_conform.
Proof. unfold helpers_conform. conform_class. Qed.
End DeployModules.
