(* ===== verification/DeployLibraries.v ===== *)
(** * Deployment of libraries

    [utils/deploys/deployLibraries.ts]: one helper per contract, for
    the libraries other contracts are linked against. *)
From Stdlib Require Import String.
From S2P Require Import Prelude JsString BigNumber Constants Script.
From S2P Require Import Dependencies Deployer Constructors.

Section DeployLibraries.
Context (this : Deployer).
#[local] Abbreviation signer := (_deployerSigner this).

Definition deployCompound : script contract :=
  deploy signer "Compound" [] [].

Definition deployAaveV2 : script contract :=
  deploy signer "AaveV2" [] [].

Definition deployAaveV3 : script contract :=
  deploy signer "AaveV3" [] [].

Definition deployPerpV2 : script contract :=
  deploy signer "PerpV2" [] [].

Definition deployPositionV2 : script contract :=
  deploy signer "PositionV2" [] [].

Definition deployPerpV2LibraryV2 : script contract :=
  deploy signer "PerpV2LibraryV2" [] [].

Definition deployPerpV2Positions : script contract :=
  deploy signer "PerpV2Positions" [] [].

(** Every helper of the class agrees with the constructor it calls. *)
Definition helpers_conform : Prop :=
  conform signature_of deployCompound ∧ conform signature_of deployAaveV2 ∧
  conform signature_of deployAaveV3 ∧ conform signature_of deployPerpV2 ∧
  conform signature_of deployPositionV2 ∧ conform signature_of deployPerpV2LibraryV2 ∧
  conform signature_of deployPerpV2Positions.

Lemma DeployLibraries_agree : helpers_conform.
Proof. unfold helpers_conform. conform_class. Qed.
End DeployLibraries.
