(* ===== verification/DeployMocks.v ===== *)
(** * Deployment of mocks

    [utils/deploys/deployMocks.ts]: one helper per contract, for
    the contracts that stand for others in tests. *)
From Stdlib Require Import String.
From S2P Require Import Prelude JsString BigNumber Constants UnitsUtils Script.
From S2P Require Import Dependencies Deployer Constructors.

Section DeployMocks.
Context `{Ethers}.
Context (this : Deployer).
#[local] Abbreviation signer := (_deployerSigner this).

Definition deployExplicitErc20Mock : script contract :=
  deploy signer "ExplicitERC20Mock" [] [].

Definition deployInvokeMock : script contract :=
  deploy signer "InvokeMock" [] [].

Definition deployManagerIssuanceHookMock : script contract :=
  deploy signer "ManagerIssuanceHookMock" [] [].

Definition deployModuleIssuanceHookMock : script contract :=
  deploy signer "ModuleIssuanceHookMock" [] [].

Definition deployNavIssuanceHookMock : script contract :=
  deploy signer "NAVIssuanceHookMock" [] [].

Definition deployNAVIssuanceCaller (navIssuanceModule : Address) : script contract :=
  deploy signer "NAVIssuanceCaller" [] [VAddr navIssuanceModule].

Definition deployAddressArrayUtilsMock : script contract :=
  deploy signer "AddressArrayUtilsMock" [] [].

Definition deployUint256ArrayUtilsMock : script contract :=
  deploy signer "Uint256ArrayUtilsMock" [] [].

Definition deployKyberNetworkProxyMock (mockWethAddress : Address) : script contract :=
  deploy signer "KyberNetworkProxyMock" [] [VAddr mockWethAddress].

Definition deployModuleBaseMock (controllerAddress : Address) : script contract :=
  deploy signer "ModuleBaseMock" [] [VAddr controllerAddress].

Definition deployModuleBaseV2Mock (controllerAddress : Address) : script contract :=
  deploy signer "ModuleBaseV2Mock" [] [VAddr controllerAddress].

Definition deployGodModeMock (controllerAddress : Address) : script contract :=
  deploy signer "GodModeMock" [] [VAddr controllerAddress].

Definition deployDebtModuleMock (controllerAddress : Address) : script contract :=
  deploy signer "DebtModuleMock" [] [VAddr controllerAddress].

Definition deployGovernanceAdapterMock (initialProposalId : Z) : script contract :=
  deploy signer "GovernanceAdapterMock" [] [VNum initialProposalId].

Definition deployCurveStableswapMock (coins : list Address) : script contract :=
  deploy signer "CurveStableswapMock" [] [addresses coins].

Definition deployOneInchExchangeMock (sendToken : Address) (receiveToken : Address)
    (sendQuantity : Z) (receiveQuantity : Z) : script contract :=
  deploy signer "OneInchExchangeMock" [] [VAddr sendToken; VAddr receiveToken; VNum sendQuantity;
    VNum receiveQuantity].

Definition deployZeroExMock (sendToken : Address) (receiveToken : Address) (sendQuantity : Z)
    (receiveQuantity : Z) : script contract :=
  deploy signer "ZeroExMock" [] [VAddr sendToken; VAddr receiveToken; VNum sendQuantity;
    VNum receiveQuantity].

Definition deployOracleMock (initialValue : Z) : script contract :=
  deploy signer "OracleMock" [] [VNum initialValue].

Definition deployYearnVaultMock (pricePerShare : Z) : script contract :=
  deploy signer "YearnVaultMock" [] [VNum pricePerShare].

Definition deployOracleAdapterMock (asset : Address) (dummyPrice : Z) : script contract :=
  deploy signer "OracleAdapterMock" [] [VAddr asset; VNum dummyPrice].

Definition deployPositionMock : script contract :=
  deploy signer "PositionMock" [] [].

Definition deployPositionV2Mock (libraryName : string) (libraryAddress : Address)
    : script contract :=
  deploy signer "PositionV2Mock"
    [(libraryName, libraryAddress)]
    [].

Definition deployPreciseUnitMathMock : script contract :=
  deploy signer "PreciseUnitMathMock" [] [].

Definition deployResourceIdentifierMock : script contract :=
  deploy signer "ResourceIdentifierMock" [] [].

Definition deployStakingAdapterMock (stakingAsset : Address) : script contract :=
  deploy signer "StakingAdapterMock" [] [VAddr stakingAsset].

Definition deployTokenMock (initialAccount : Address) (initialBalance : option Z)
    (decimals : option Z) (name : option string) (symbol : option string) : script contract :=
  initialBalance ← or_default initialBalance (ether "1000000000");
  let decimals := default 18 decimals in
  let name := default "Token"%string name in
  let symbol := default "Symbol"%string symbol in
  deploy signer "StandardTokenMock" [] [VAddr initialAccount; VNum initialBalance; VStr name;
    VStr symbol; VNum decimals].

Definition deployTokenWithFeeMock (initialAccount : Address) (initialBalance : option Z)
    (fee : option Z) (name : option string) (symbol : option string) : script contract :=
  initialBalance ← or_default initialBalance (ether "1000000000");
  fee ← or_default fee (ether "0.1");
  let name := default "Token"%string name in
  let symbol := default "Symbol"%string symbol in
  deploy signer "StandardTokenWithFeeMock" [] [VAddr initialAccount; VNum initialBalance;
    VStr name; VStr symbol; VNum fee].

Definition deployTokenWithErrorMock (initialAccount : Address) (initialBalance : Z)
    (error : Z) (name : option string) (symbol : option string) (decimals : option Z)
    : script contract :=
  let name := default "Token"%string name in
  let symbol := default "Symbol"%string symbol in
  let decimals := default 18 decimals in
  deploy signer "StandardTokenWithRoundingErrorMock" [] [VAddr initialAccount;
    VNum initialBalance; VNum error; VStr name; VStr symbol; VNum decimals].

Definition deployTradeAdapterMock : script contract :=
  deploy signer "TradeAdapterMock" [] [].

Definition deployAmmAdapterMock (_underlyingTokens : list Address) : script contract :=
  deploy signer "AmmAdapterMock" [] [addresses _underlyingTokens].

Definition deployWrapAdapterMock : script contract :=
  deploy signer "WrapAdapterMock" [] [].

Definition deployAaveLendingPoolCoreMock : script contract :=
  deploy signer "AaveLendingPoolCoreMock" [] [].

Definition deployAaveLendingPoolMock (aaveLendingPoolCore : Address) : script contract :=
  deploy signer "AaveLendingPoolMock" [] [VAddr aaveLendingPoolCore].

Definition deployAaveV2Mock (libraryName : string) (libraryAddress : Address)
    : script contract :=
  deploy signer "AaveV2Mock"
    [(libraryName, libraryAddress)]
    [].

Definition deployPerpV2Mock (libraryName : string) (libraryAddress : Address)
    : script contract :=
  deploy signer "PerpV2Mock"
    [(libraryName, libraryAddress)]
    [].

Definition deployPerpV2LibraryV2Mock (libraryName : string) (libraryAddress : Address)
    : script contract :=
  deploy signer "PerpV2LibraryV2Mock"
    [(libraryName, libraryAddress)]
    [].

Definition deployPerpV2PositionsMock (libraryName : string) (libraryAddress : Address)
    : script contract :=
  deploy signer "PerpV2PositionsMock"
    [(libraryName, libraryAddress)]
    [].

Definition deployUniswapV3MathMock : script contract :=
  deploy signer "UniswapV3MathMock" [] [].

Definition deployUnitConversionUtilsMock : script contract :=
  deploy signer "UnitConversionUtilsMock" [] [].

Definition deploySetTokenAccessibleMock (controller : Address) : script contract :=
  deploy signer "SetTokenAccessibleMock" [] [VAddr controller].

Definition deployClaimAdapterMock : script contract :=
  deploy signer "ClaimAdapterMock" [] [].

Definition deployGaugeControllerMock : script contract :=
  deploy signer "GaugeControllerMock" [] [].

Definition deployContractCallerMock : script contract :=
  deploy signer "ContractCallerMock" [] [].

Definition deployDebtIssuanceMock : script contract :=
  deploy signer "DebtIssuanceMock" [] [].

Definition deployComptrollerMock (comp : Address) (compAmount : Z) (cToken : Address)
    : script contract :=
  deploy signer "ComptrollerMock" [] [VAddr comp; VNum compAmount; VAddr cToken].

Definition deployCompoundMock (libraryName : string) (libraryAddress : Address)
    : script contract :=
  deploy signer "CompoundMock"
    [(libraryName, libraryAddress)]
    [].

Definition deploySynthMock (initialAccount : Address) (currencyKey : Bytes)
    (initialBalance : option Z) (name : option string) (symbol : option string)
    : script contract :=
  initialBalance ← or_default initialBalance (ether "1000000000");
  let name := default "Token"%string name in
  let symbol := default "Symbol"%string symbol in
  deploy signer "SynthMock" [] [VAddr initialAccount; VNum initialBalance; VStr name;
    VStr symbol; VNum 18; VBytes currencyKey].

Definition deploySynthetixExchangerMock (sUsd : Address) (sEth : Address) (sBtc : Address)
    (currencyKeys : value) (rates : value) : script contract :=
  kUsd ← lift_result (js_get "sUsd" currencyKeys);
  kEth ← lift_result (js_get "sEth" currencyKeys);
  kBtc ← lift_result (js_get "sBtc" currencyKeys);
  usd_eth ← lift_result (r ← js_get "usd" rates; js_get "eth" r);
  eth_usd ← lift_result (r ← js_get "eth" rates; js_get "usd" r);
  usd_btc ← lift_result (r ← js_get "usd" rates; js_get "btc" r);
  btc_usd ← lift_result (r ← js_get "btc" rates; js_get "usd" r);
  deploy signer "SynthetixExchangerMock" [] [VAddr sUsd; VAddr sEth; VAddr sBtc;
    kUsd; kEth; kBtc; usd_eth; eth_usd; usd_btc; btc_usd].

Definition deployERC4626Mock (name : string) (symbol : string) (asset : Address)
    : script contract :=
  deploy signer "ERC4626Mock" [] [VStr name; VStr symbol; VAddr asset].

Definition deployCustomSetValuerMock : script contract :=
  deploy signer "CustomSetValuerMock" [] [].

Definition deployYearnStrategyMock (vault : Address) : script contract :=
  deploy signer "YearnStrategyMock" [] [VAddr vault].

Definition deployForceFunderMock : script contract :=
  deploy signer "ForceFunderMock" [] [].

Definition deployWrapV2AdapterMock : script contract :=
  deploy signer "WrapV2AdapterMock" [] [].

Definition deployChainlinkAggregatorMock (decimals : Z) : script contract :=
  deploy signer "ChainlinkAggregatorMock" [] [VNum decimals].

Definition deployTribePegExchangerMock (rgt : Address) (tribe : Address) : script contract :=
  deploy signer "TribePegExchangerMock" [] [VAddr rgt; VAddr tribe].

Definition deployStringArrayUtilsMock : script contract :=
  deploy signer "StringArrayUtilsMock" [] [].

Definition deployBytesArrayUtilsMock : script contract :=
  deploy signer "BytesArrayUtilsMock" [] [].

Definition deployWrappedfCashMock (assetToken : Address) (underlyingToken : Address)
    (weth : Address) (isEth : bool) : script contract :=
  deploy signer "WrappedfCashMock" [] [VAddr assetToken; VAddr underlyingToken; VAddr weth;
    VBool isEth].

Definition deployWrappedfCashFactoryMock : script contract :=
  deploy signer "WrappedfCashFactoryMock" [] [].

Definition deployNotionalV2Mock : script contract :=
  deploy signer "NotionalV2Mock" [] [].

Definition getTokenMock (token : Address) : contract :=
  attach signer "StandardTokenMock" token.

Definition getForkedZeroExExchange : contract :=
  attach signer "ZeroExMock" (mainnet "ZERO_EX_EXCHANGE").

(** The [any] arguments of [deploySynthetixExchangerMock] as its caller builds them: a
    key per coin and a rate in each direction. *)
Definition keyed (currencyKeys : value) : Prop :=
  ∀ coin, coin ∈ ["sUsd"; "sEth"; "sBtc"]%string →
    ∃ key, js_get coin currencyKeys = Ok (VBytes key).

Definition rated (rates : value) : Prop :=
  ∀ from to, (from, to) ∈ [("usd", "eth"); ("eth", "usd"); ("usd", "btc"); ("btc", "usd")]%string →
    ∃ rate, (r ← js_get from rates; js_get to r) = Ok (VNum rate).

(** Every helper of the class agrees with the constructor it calls, for all its
    arguments; the one with untyped arguments does when they hold what it reads. *)
Definition helpers_conform : Prop :=
  (∀ sUsd sEth sBtc currencyKeys rates, keyed currencyKeys → rated rates →
    conform signature_of (deploySynthetixExchangerMock sUsd sEth sBtc currencyKeys rates)) ∧
  conform signature_of deployExplicitErc20Mock ∧ conform signature_of deployInvokeMock ∧
  conform signature_of deployManagerIssuanceHookMock ∧
  conform signature_of deployModuleIssuanceHookMock ∧
  conform signature_of deployNavIssuanceHookMock ∧
  conform signature_of deployNAVIssuanceCaller ∧
  conform signature_of deployAddressArrayUtilsMock ∧
  conform signature_of deployUint256ArrayUtilsMock ∧
  conform signature_of deployKyberNetworkProxyMock ∧
  conform signature_of deployModuleBaseMock ∧ conform signature_of deployModuleBaseV2Mock ∧
  conform signature_of deployGodModeMock ∧ conform signature_of deployDebtModuleMock ∧
  conform signature_of deployGovernanceAdapterMock ∧
  conform signature_of deployCurveStableswapMock ∧
  conform signature_of deployOneInchExchangeMock ∧ conform signature_of deployZeroExMock ∧
  conform signature_of deployOracleMock ∧ conform signature_of deployYearnVaultMock ∧
  conform signature_of deployOracleAdapterMock ∧ conform signature_of deployPositionMock ∧
  conform signature_of deployPositionV2Mock ∧
  conform signature_of deployPreciseUnitMathMock ∧
  conform signature_of deployResourceIdentifierMock ∧
  conform signature_of deployStakingAdapterMock ∧ conform signature_of deployTokenMock ∧
  conform signature_of deployTokenWithFeeMock ∧
  conform signature_of deployTokenWithErrorMock ∧
  conform signature_of deployTradeAdapterMock ∧ conform signature_of deployAmmAdapterMock ∧
  conform signature_of deployWrapAdapterMock ∧
  conform signature_of deployAaveLendingPoolCoreMock ∧
  conform signature_of deployAaveLendingPoolMock ∧ conform signature_of deployAaveV2Mock ∧
  conform signature_of deployPerpV2Mock ∧ conform signature_of deployPerpV2LibraryV2Mock ∧
  conform signature_of deployPerpV2PositionsMock ∧
  conform signature_of deployUniswapV3MathMock ∧
  conform signature_of deployUnitConversionUtilsMock ∧
  conform signature_of deploySetTokenAccessibleMock ∧
  conform signature_of deployClaimAdapterMock ∧
  conform signature_of deployGaugeControllerMock ∧
  conform signature_of deployContractCallerMock ∧
  conform signature_of deployDebtIssuanceMock ∧
  conform signature_of deployComptrollerMock ∧ conform signature_of deployCompoundMock ∧
  conform signature_of deploySynthMock ∧ conform signature_of deployERC4626Mock ∧
  conform signature_of deployCustomSetValuerMock ∧
  conform signature_of deployYearnStrategyMock ∧
  conform signature_of deployForceFunderMock ∧
  conform signature_of deployWrapV2AdapterMock ∧
  conform signature_of deployChainlinkAggregatorMock ∧
  conform signature_of deployTribePegExchangerMock ∧
  conform signature_of deployStringArrayUtilsMock ∧
  conform signature_of deployBytesArrayUtilsMock ∧
  conform signature_of deployWrappedfCashMock ∧
  conform signature_of deployWrappedfCashFactoryMock ∧
  conform signature_of deployNotionalV2Mock.

Lemma deploySynthetixExchangerMock_agrees sUsd sEth sBtc currencyKeys rates :
  keyed currencyKeys → rated rates →
  conform signature_of (deploySynthetixExchangerMock sUsd sEth sBtc currencyKeys rates).
Proof.
  intros Hk Hr. unfold deploySynthetixExchangerMock, conform, conforms_script.
  destruct (Hk "sUsd"%string) as [? ->]; [by set_solver|].
  destruct (Hk "sEth"%string) as [? ->]; [by set_solver|].
  destruct (Hk "sBtc"%string) as [? ->]; [by set_solver|].
  destruct (Hr "usd" "eth")%string as [? ->]; [by set_solver|].
  destruct (Hr "eth" "usd")%string as [? ->]; [by set_solver|].
  destruct (Hr "usd" "btc")%string as [? ->]; [by set_solver|].
  destruct (Hr "btc" "usd")%string as [? ->]; [by set_solver|].
  eapply script_conforms_deploy; reflexivity.
Qed.

(** Without a key the helper passes [undefined] for it. *)
Lemma deploySynthetixExchangerMock_undefined rates :
  rated rates → ¬ conform signature_of (deploySynthetixExchangerMock "a" "b" "c" (VObj []) rates).
Proof.
  intros Hr Hc. specialize (Hc unit (λ s _, (s, Throw (Revert EmptyString))) ()). revert Hc.
  unfold deploySynthetixExchangerMock.
  destruct (Hr "usd" "eth")%string as [? ->]; [by set_solver|].
  destruct (Hr "eth" "usd")%string as [? ->]; [by set_solver|].
  destruct (Hr "usd" "btc")%string as [? ->]; [by set_solver|].
  destruct (Hr "btc" "usd")%string as [? ->]; [by set_solver|].
  intros Hc. apply Forall_inv in Hc as (ts & [= <-] & Hv). discriminate Hv.
Qed.

Lemma DeployMocks_agree : helpers_conform.
Proof.
  unfold helpers_conform. split; [exact deploySynthetixExchangerMock_agrees|]. conform_class.
Qed.
End DeployMocks.
