(* ===== verification/DeployExternalContracts.v ===== *)
(** * Deployment of external contracts

    [utils/deploys/deployExternal.ts]: one helper per contract, for
    the contracts of other protocols the modules integrate with. *)
From Stdlib Require Import String.
From S2P Require Import Prelude JsString BigNumber Constants UnitsUtils Script.
From S2P Require Import Dependencies Deployer Constructors.

Section DeployExternalContracts.
Context `{Ethers}.
Context (this : Deployer).
#[local] Abbreviation signer := (_deployerSigner this).

Definition deployComp (_account : Address) : script contract :=
  deploy signer "Comp" [] [VAddr _account].

Definition deployCompoundTimelock (_admin : Address) (_delay : Z) : script contract :=
  deploy signer "CompoundTimelock" [] [VAddr _admin; VNum _delay].

Definition deployCompoundGovernorAlpha (_timelock : Address) (_comp : Address)
    (_guardian : Address) : script contract :=
  deploy signer "CompoundGovernorAlpha" [] [VAddr _timelock; VAddr _comp; VAddr _guardian].

Definition deployCompoundGovernorBravoDelegate : script contract :=
  deploy signer "CompoundGovernorBravoDelegate" [] [].

Definition deployCompoundGovernorBravoDelegator (timelock : Address) (comp : Address)
    (admin : Address) (implementation : Address) (votingPeriod : Z) (votingDelay : Z)
    (proposalThreshold : Z) : script contract :=
  deploy signer "CompoundGovernorBravoDelegator" [] [VAddr timelock; VAddr comp; VAddr admin;
    VAddr implementation; VNum votingPeriod; VNum votingDelay; VNum proposalThreshold].

Definition deployCeRc20 (underlying : Address) (comptroller : Address)
    (interestRateModel : Address) (initialExchangeRateMantissa : Z) (name : string)
    (symbol : string) (decimals : Z) : script contract :=
  deploy signer "CERc20" [] [VAddr underlying; VAddr comptroller; VAddr interestRateModel;
    VNum initialExchangeRateMantissa; VStr name; VStr symbol; VNum decimals].

Definition deployCEther (comptroller : Address) (interestRateModel : Address)
    (initialExchangeRateMantissa : Z) (name : string) (symbol : string) (decimals : Z)
    : script contract :=
  deploy signer "CEther" [] [VAddr comptroller; VAddr interestRateModel;
    VNum initialExchangeRateMantissa; VStr name; VStr symbol; VNum decimals].

Definition deployCompoundPriceOracleMock : script contract :=
  deploy signer "CompoundPriceOracleMock" [] [].

Definition deployPriceOracleProxy (guardian : Address) (v1PriceOracle : Address)
    (cEthAddress : Address) (cUsdcAddress : Address) (cSaiAddress : Address)
    (cDaiAddress : Address) (cUsdtAddress : Address) : script contract :=
  deploy signer "PriceOracleProxy" [] [VAddr guardian; VAddr v1PriceOracle; VAddr cEthAddress;
    VAddr cUsdcAddress; VAddr cSaiAddress; VAddr cDaiAddress; VAddr cUsdtAddress].

Definition deployComptroller : script contract :=
  deploy signer "Comptroller" [] [].

Definition deployUnitroller : script contract :=
  deploy signer "Unitroller" [] [].

Definition deployWhitePaperInterestRateModel (baseRate : Z) (multiplier : Z)
    : script contract :=
  deploy signer "WhitePaperInterestRateModel" [] [VNum baseRate; VNum multiplier].

Definition deployWETH : script contract :=
  deploy signer "WETH9" [] [].

Definition deployAaveV2LendingPoolAddressesProvider (marketId : string) : script contract :=
  deploy signer "AaveV2LendingPoolAddressesProvider" [] [VStr marketId].

Definition deployAaveV2LendingPool (validationLogicAddress : Address)
    (reserveLogicAddress : Address) : script contract :=
  deploy signer "AaveV2LendingPool"
    [("__$de8c0cf1a7d7c36c802af9a64fb9d86036$__"%string, validationLogicAddress);
     ("__$22cd43a9dda9ce44e9b92ba393b88fb9ac$__"%string, reserveLogicAddress)]
    [].

Definition deployAaveV2LendingPoolConfigurator : script contract :=
  deploy signer "AaveV2LendingPoolConfigurator" [] [].

Definition deployAaveV2LendingPoolCollateralManager : script contract :=
  deploy signer "AaveV2LendingPoolCollateralManager" [] [].

Definition deployAaveV2LendingRateOracle : script contract :=
  deploy signer "AaveV2LendingRateOracle" [] [].

Definition deployAaveV2Oracle (assets : list string) (sources : ()) (fallBackOracle : Address)
    (weth : Address) : script contract :=
  deploy signer "AaveV2Oracle" [] [strings assets; VList []; VAddr fallBackOracle; VAddr weth].

Definition deployAaveV2PriceOracle : script contract :=
  deploy signer "AaveV2PriceOracle" [] [].

Definition deployAaveV2DefaultReserveInterestRateStrategy (_AddressesProvider : Address)
    (_optimalUtilizationRate : option Z) (_baseVariableBorrowRate : option Z)
    (_variableRateSlope1 : option Z) (_variableRateSlope2 : option Z)
    (_stableRateSlope1 : option Z) (_stableRateSlope2 : option Z) : script contract :=
  _optimalUtilizationRate ← or_default _optimalUtilizationRate (ether "1");
  _baseVariableBorrowRate ← or_default _baseVariableBorrowRate (ether "1");
  _variableRateSlope1 ← or_default _variableRateSlope1 (ether "1");
  _variableRateSlope2 ← or_default _variableRateSlope2 (ether "1");
  _stableRateSlope1 ← or_default _stableRateSlope1 (ether "1");
  _stableRateSlope2 ← or_default _stableRateSlope2 (ether "1");
  deploy signer "AaveV2DefaultReserveInterestRateStrategy" [] [VAddr _AddressesProvider;
    VNum _optimalUtilizationRate; VNum _baseVariableBorrowRate; VNum _variableRateSlope1;
    VNum _variableRateSlope2; VNum _stableRateSlope1; VNum _stableRateSlope2].

Definition deployAaveV2ProtocolDataProvider (addressProvider : Address) : script contract :=
  deploy signer "AaveV2ProtocolDataProvider" [] [VAddr addressProvider].

Definition deployAaveV2AToken : script contract :=
  deploy signer "AaveV2AToken" [] [].

Definition deployAaveV2StableDebtToken : script contract :=
  deploy signer "AaveV2StableDebtToken" [] [].

Definition deployAaveV2VariableDebtToken : script contract :=
  deploy signer "AaveV2VariableDebtToken" [] [].

Definition deployAaveV2StakedTokenIncentivesController (stakeToken : Address)
    (emissionManager : Address) : script contract :=
  deploy signer "AaveV2StakedTokenIncentivesController" [] [VAddr stakeToken;
    VAddr emissionManager].

Definition getForkedAaveLendingPoolAddressesProvider (_mainnetAddressesProvider : Address)
    : contract :=
  attach signer "AaveV2LendingPoolAddressesProvider" _mainnetAddressesProvider.

Definition getForkedAaveV2ProtocolDataProvider (_mainnetAddressesProvider : Address)
    : contract :=
  attach signer "AaveV2ProtocolDataProvider" _mainnetAddressesProvider.

Definition deployGeneralLogic : script contract :=
  deploy signer "GenericLogic" [] [].

Definition deployValidationLogic (genericLogicLibraryAddress : Address) : script contract :=
  deploy signer "ValidationLogic"
    [("__$52a8a86ab43135662ff256bbc95497e8e3$__"%string, genericLogicLibraryAddress)]
    [].

Definition deployReserveLogic : script contract :=
  deploy signer "ReserveLogic" [] [].

Definition deployAaveGovernanceV2 (_governanceStrategy : Address) (_votingDelay : Z)
    (_guardian : Address) (_executors : list Address) : script contract :=
  deploy signer "AaveGovernanceV2" [] [VAddr _governanceStrategy; VNum _votingDelay;
    VAddr _guardian; addresses _executors].

Definition deployExecutor (_admin : Address) (_delay : Z) (_gracePeriod : Z)
    (_minimumDelay : Z) (_maximumDelay : Z) (_propositionThreshold : Z) (_voteDuration : Z)
    (_voteDifferential : Z) (_minmumQuorum : Z) : script contract :=
  deploy signer "Executor" [] [VAddr _admin; VNum _delay; VNum _gracePeriod; VNum _minimumDelay;
    VNum _maximumDelay; VNum _propositionThreshold; VNum _voteDuration;
    VNum _voteDifferential; VNum _minmumQuorum].

Definition deployGovernanceStrategy (_aave : Address) (_stkaave : Address) : script contract :=
  deploy signer "GovernanceStrategy" [] [VAddr _aave; VAddr _stkaave].

Definition deployAaveTokenV2Mintable : script contract :=
  deploy signer "AaveTokenV2Mintable" [] [].

Definition deployCurveDeposit (_coins : string * string * string * string)
    (_underlying_coins : string * string * string * string) (_curve : string)
    (_token : string) : script contract :=
  deploy signer "CurveDeposit" [] [four_strings _coins; four_strings _underlying_coins;
    VStr _curve; VStr _token].

Definition deployCurvePoolERC20 (_name : string) (_symbol : string) (_decimals : option Z)
    (_supply : Z) : script contract :=
  let _decimals := default 18 _decimals in
  deploy signer "CurvePoolERC20" [] [VStr _name; VStr _symbol; VNum _decimals; VNum _supply].

Definition getCurveStEthStableswapMock : contract :=
  attach signer "CurveStableswapMock" (mainnet "CURVE_ETH_STETH_EXCHANGE").

Definition getCurveWethStethStableswapMock : contract :=
  attach signer "CurveStableswapMock" (mainnet "CURVE_WETH_STETH_EXCHANGE").

Definition deployStableswap (_coins : string * string * string * string)
    (_underlying_coins : string * string * string * string) (_pool_token : string)
    (_aCoefficient : option Z) (_fee : option Z) : script contract :=
  let _aCoefficient := default 1 _aCoefficient in
  let _fee := default 0 _fee in
  deploy signer "Stableswap" [] [four_strings _coins; four_strings _underlying_coins;
    VStr _pool_token; VNum _aCoefficient; VNum _fee].

Definition deployCrvToken (_name : string) (_symbol : string) (_decimals : option Z)
    : script contract :=
  let _decimals := default 18 _decimals in
  deploy signer "CRVToken" [] [VStr _name; VStr _symbol; VNum _decimals].

Definition deployGaugeController (_token : string) (_voting_escrow : string)
    : script contract :=
  deploy signer "GaugeController" [] [VStr _token; VStr _voting_escrow].

Definition deployLiquidityGaugeReward (_lpAddr : string) (_minter : string)
    (_reward_contract : string) (_rewarded_token : string) : script contract :=
  deploy signer "LiquidityGaugeReward" [] [VStr _lpAddr; VStr _minter; VStr _reward_contract;
    VStr _rewarded_token].

Definition deployLiquidityGauge (_lpAddr : string) (_minter : string) : script contract :=
  deploy signer "LiquidityGauge" [] [VStr _lpAddr; VStr _minter].

Definition deployMinter (_token : string) (_controller : string) : script contract :=
  deploy signer "Minter" [] [VStr _token; VStr _controller].

Definition deployUni (_account : Address) (_minter : Address) (_mintingAllowedAfter : Z)
    : script contract :=
  deploy signer "Uni" [] [VAddr _account; VAddr _minter; VNum _mintingAllowedAfter].

Definition deployUniswapTimelock (_admin : Address) (_delay : Z) : script contract :=
  deploy signer "UniswapTimelock" [] [VAddr _admin; VNum _delay].

Definition deployUniswapGovernorAlpha (_timelock : Address) (_uni : Address)
    : script contract :=
  deploy signer "UniswapGovernorAlpha" [] [VAddr _timelock; VAddr _uni].

Definition deployUniswapV2Factory (_feeToSetter : string) : script contract :=
  deploy signer "UniswapV2Factory" [] [VStr _feeToSetter].

Definition deployUniswapV2Router02 (_factory : Address) (_weth : Address) : script contract :=
  deploy signer "UniswapV2Router02" [] [VAddr _factory; VAddr _weth].

Definition getForkedUniswapV2Router02 (_mainnetRouter : Address) : contract :=
  attach signer "UniswapV2Router02" _mainnetRouter.

Definition deployUniswapV2Pair : script contract :=
  deploy signer "UniswapV2Pair" [] [].

Definition deployStakingRewards (_rewardsDistribution : Address) (_rewardsToken : Address)
    (_stakingToken : Address) : script contract :=
  deploy signer "StakingRewards" [] [VAddr _rewardsDistribution; VAddr _rewardsToken;
    VAddr _stakingToken].

Definition deployB__factory : script contract :=
  deploy signer "BFactory" [] [].

Definition deployExchangeProxy (weth : Address) : script contract :=
  deploy signer "ExchangeProxy" [] [VAddr weth].

Definition deployBRegistry (factory_ : Address) : script contract :=
  deploy signer "BRegistry" [] [VAddr factory_].

Definition deployDelegateRegistry : script contract :=
  deploy signer "DelegateRegistry" [] [].

Definition deployVault : script contract :=
  deploy signer "Vault" [] [].

Definition getVault (vaultAddress : Address) : contract :=
  attach signer "Vault" vaultAddress.

Definition deployRegistry : script contract :=
  deploy signer "Registry" [] [].

Definition deployKyberNetworkTokenV2 : script contract :=
  deploy signer "KyberNetworkTokenV2" [] [].

Definition deployDMMFactory (_feeToSetter : string) : script contract :=
  deploy signer "DMMFactory" [] [VStr _feeToSetter].

Definition deployDMMRouter02 (_factory : Address) (_weth : Address) : script contract :=
  deploy signer "DMMRouter02" [] [VAddr _factory; VAddr _weth].

Definition deployDMMPool : script contract :=
  deploy signer "DMMPool" [] [].

Definition deployUniswapV3Factory : script contract :=
  deploy signer "UniswapV3Factory" [] [].

Definition deploySwapRouter (factory_ : Address) (weth : Address) : script contract :=
  deploy signer "SwapRouter" [] [VAddr factory_; VAddr weth].

Definition deployNftPositionManager (factory_ : Address) (weth : Address) (nftDesc : Address)
    : script contract :=
  deploy signer "NonfungiblePositionManager" [] [VAddr factory_; VAddr weth; VAddr nftDesc].

Definition deployQuoter (factory_ : Address) (weth : Address) : script contract :=
  deploy signer "Quoter" [] [VAddr factory_; VAddr weth].

Definition deployNFTDescriptor : script contract :=
  deploy signer "NFTDescriptor" [] [].

Definition getUniswapV3PoolInstance (pool : Address) : contract :=
  attach signer "UniswapV3Pool" pool.

Definition deployPerpV2OrderBook : script contract :=
  deploy signer "PerpV2OrderBook" [] [].

Definition deployPerpV2MarketRegistry : script contract :=
  deploy signer "PerpV2MarketRegistry" [] [].

Definition deployPerpV2Quoter (marketRegistry : Address) : script contract :=
  deploy signer "PerpV2Quoter" [] [VAddr marketRegistry].

Definition deployPerpV2QuoteToken : script contract :=
  deploy signer "PerpV2QuoteToken" [] [].

Definition deployPerpV2Vault : script contract :=
  deploy signer "PerpV2Vault" [] [].

Definition deployPerpV2TestAggregatorV3 : script contract :=
  deploy signer "PerpV2TestAggregatorV3" [] [].

Definition deployPerpV2ChainlinkPriceFeed : script contract :=
  deploy signer "PerpV2ChainlinkPriceFeed" [] [].

Definition deployPerpV2BaseToken : script contract :=
  deploy signer "PerpV2BaseToken" [] [].

Definition deployPerpV2ClearingHouseConfig : script contract :=
  deploy signer "PerpV2ClearingHouseConfig" [] [].

Definition deployPerpV2InsuranceFund : script contract :=
  deploy signer "PerpV2InsuranceFund" [] [].

Definition deployPerpV2AccountBalance : script contract :=
  deploy signer "PerpV2AccountBalance" [] [].

Definition deployPerpV2Exchange : script contract :=
  deploy signer "PerpV2Exchange" [] [].

Definition deployPerpV2ClearingHouse : script contract :=
  deploy signer "PerpV2ClearingHouse" [] [].

Definition getVToken (token : Address) : contract :=
  attach signer "PerpV2BaseToken" token.

(** Every helper of the class agrees with the constructor it calls. *)
Definition helpers_conform : Prop :=
  conform signature_of deployComp ∧ conform signature_of deployCompoundTimelock ∧
  conform signature_of deployCompoundGovernorAlpha ∧
  conform signature_of deployCompoundGovernorBravoDelegate ∧
  conform signature_of deployCompoundGovernorBravoDelegator ∧
  conform signature_of deployCeRc20 ∧ conform signature_of deployCEther ∧
  conform signature_of deployCompoundPriceOracleMock ∧
  conform signature_of deployPriceOracleProxy ∧ conform signature_of deployComptroller ∧
  conform signature_of deployUnitroller ∧
  conform signature_of deployWhitePaperInterestRateModel ∧
  conform signature_of deployWETH ∧
  conform signature_of deployAaveV2LendingPoolAddressesProvider ∧
  conform signature_of deployAaveV2LendingPool ∧
  conform signature_of deployAaveV2LendingPoolConfigurator ∧
  conform signature_of deployAaveV2LendingPoolCollateralManager ∧
  conform signature_of deployAaveV2LendingRateOracle ∧
  conform signature_of deployAaveV2Oracle ∧ conform signature_of deployAaveV2PriceOracle ∧
  conform signature_of deployAaveV2DefaultReserveInterestRateStrategy ∧
  conform signature_of deployAaveV2ProtocolDataProvider ∧
  conform signature_of deployAaveV2AToken ∧
  conform signature_of deployAaveV2StableDebtToken ∧
  conform signature_of deployAaveV2VariableDebtToken ∧
  conform signature_of deployAaveV2StakedTokenIncentivesController ∧
  conform signature_of deployGeneralLogic ∧ conform signature_of deployValidationLogic ∧
  conform signature_of deployReserveLogic ∧ conform signature_of deployAaveGovernanceV2 ∧
  conform signature_of deployExecutor ∧ conform signature_of deployGovernanceStrategy ∧
  conform signature_of deployAaveTokenV2Mintable ∧
  conform signature_of deployCurveDeposit ∧ conform signature_of deployCurvePoolERC20 ∧
  conform signature_of deployStableswap ∧ conform signature_of deployCrvToken ∧
  conform signature_of deployGaugeController ∧
  conform signature_of deployLiquidityGaugeReward ∧
  conform signature_of deployLiquidityGauge ∧ conform signature_of deployMinter ∧
  conform signature_of deployUni ∧ conform signature_of deployUniswapTimelock ∧
  conform signature_of deployUniswapGovernorAlpha ∧
  conform signature_of deployUniswapV2Factory ∧
  conform signature_of deployUniswapV2Router02 ∧ conform signature_of deployUniswapV2Pair ∧
  conform signature_of deployStakingRewards ∧ conform signature_of deployB__factory ∧
  conform signature_of deployExchangeProxy ∧ conform signature_of deployBRegistry ∧
  conform signature_of deployDelegateRegistry ∧ conform signature_of deployVault ∧
  conform signature_of deployRegistry ∧ conform signature_of deployKyberNetworkTokenV2 ∧
  conform signature_of deployDMMFactory ∧ conform signature_of deployDMMRouter02 ∧
  conform signature_of deployDMMPool ∧ conform signature_of deployUniswapV3Factory ∧
  conform signature_of deploySwapRouter ∧ conform signature_of deployNftPositionManager ∧
  conform signature_of deployQuoter ∧ conform signature_of deployNFTDescriptor ∧
  conform signature_of deployPerpV2OrderBook ∧
  conform signature_of deployPerpV2MarketRegistry ∧
  conform signature_of deployPerpV2Quoter ∧ conform signature_of deployPerpV2QuoteToken ∧
  conform signature_of deployPerpV2Vault ∧
  conform signature_of deployPerpV2TestAggregatorV3 ∧
  conform signature_of deployPerpV2ChainlinkPriceFeed ∧
  conform signature_of deployPerpV2BaseToken ∧
  conform signature_of deployPerpV2ClearingHouseConfig ∧
  conform signature_of deployPerpV2InsuranceFund ∧
  conform signature_of deployPerpV2AccountBalance ∧
  conform signature_of deployPerpV2Exchange ∧
  conform signature_of deployPerpV2ClearingHouse.

Lemma DeployExternalContracts_agree : helpers_conform.
Proof. unfold helpers_conform. conform_class. Qed.
End DeployExternalContracts.
