(* ===== verification/DeployAdapters.v ===== *)
(** * Deployment of adapters

    [utils/deploys/deployAdapters.ts]: one helper per contract, for
    the adapters of exchanges, governance systems and price curves. *)
From Stdlib Require Import String.
From S2P Require Import Prelude JsString BigNumber Constants Script.
From S2P Require Import Dependencies Deployer Constructors.

Section DeployAdapters.
Context (this : Deployer).
#[local] Abbreviation signer := (_deployerSigner this).

Definition deployKyberExchangeAdapter (kyberNetworkProxy : Address) : script contract :=
  deploy signer "KyberExchangeAdapter" [] [VAddr kyberNetworkProxy].

Definition deployOneInchExchangeAdapter (approveAddress : Address) (exchangeAddress : Address)
    (swapFunctionSignature : Bytes) : script contract :=
  deploy signer "OneInchExchangeAdapter" [] [VAddr approveAddress; VAddr exchangeAddress;
    VBytes swapFunctionSignature].

Definition deployUniswapV2AmmAdapter (uniswapV2Router : Address) : script contract :=
  deploy signer "UniswapV2AmmAdapter" [] [VAddr uniswapV2Router].

Definition deployUniswapV2ExchangeAdapter (uniswapV2Router : Address) : script contract :=
  deploy signer "UniswapV2ExchangeAdapter" [] [VAddr uniswapV2Router].

Definition deployUniswapV2TransferFeeExchangeAdapter (uniswapV2Router : Address)
    : script contract :=
  deploy signer "UniswapV2TransferFeeExchangeAdapter" [] [VAddr uniswapV2Router].

Definition deployUniswapV2ExchangeAdapterV2 (uniswapV2Router : Address) : script contract :=
  deploy signer "UniswapV2ExchangeAdapterV2" [] [VAddr uniswapV2Router].

Definition deployUniswapV2IndexExchangeAdapter (uniswapV2Router : Address) : script contract :=
  deploy signer "UniswapV2IndexExchangeAdapter" [] [VAddr uniswapV2Router].

Definition deployAaveGovernanceV2Adapter (aaveGovernanceV2 : Address) (aaveToken : Address)
    : script contract :=
  deploy signer "AaveGovernanceV2Adapter" [] [VAddr aaveGovernanceV2; VAddr aaveToken].

Definition deployCompClaimAdapter (comptrollerAddress : Address) : script contract :=
  deploy signer "CompClaimAdapter" [] [VAddr comptrollerAddress].

Definition deployBalancerV1IndexExchangeAdapter (balancerProxy : Address) : script contract :=
  deploy signer "BalancerV1IndexExchangeAdapter" [] [VAddr balancerProxy].

Definition deployBalancerV2ExchangeAdapter (vault : Address) : script contract :=
  deploy signer "BalancerV2ExchangeAdapter" [] [VAddr vault].

Definition deployCompoundLikeGovernanceAdapter (governanceAlpha : Address)
    (governanceToken : Address) : script contract :=
  deploy signer "CompoundLikeGovernanceAdapter" [] [VAddr governanceAlpha; VAddr governanceToken].

Definition deployCompoundBravoGovernanceAdapter (governorBravo : Address)
    (governanceToken : Address) : script contract :=
  deploy signer "CompoundBravoGovernanceAdapter" [] [VAddr governorBravo; VAddr governanceToken].

Definition deployCurveStakingAdapter (gaugeController : Address) : script contract :=
  deploy signer "CurveStakingAdapter" [] [VAddr gaugeController].

Definition deployRgtMigrationWrapAdapter (pegExchanger : Address) : script contract :=
  deploy signer "RgtMigrationWrapAdapter" [] [VAddr pegExchanger].

Definition deployUniswapPairPriceAdapter (controller : Address) (uniswapFactory : Address)
    (uniswapPools : list Address) : script contract :=
  deploy signer "UniswapPairPriceAdapter" [] [VAddr controller; VAddr uniswapFactory;
    addresses uniswapPools].

Definition getUniswapPairPriceAdapter (uniswapAdapterAddress : Address) : contract :=
  attach signer "UniswapPairPriceAdapter" uniswapAdapterAddress.

Definition deployUniswapV3IndexExchangeAdapter (router : Address) : script contract :=
  deploy signer "UniswapV3IndexExchangeAdapter" [] [VAddr router].

Definition deployZeroExApiAdapter (zeroExAddress : Address) (wethAddress : Address)
    : script contract :=
  deploy signer "ZeroExApiAdapter" [] [VAddr zeroExAddress; VAddr wethAddress].

Definition deploySnapshotGovernanceAdapter (delegateRegistry : Address) : script contract :=
  deploy signer "SnapshotGovernanceAdapter" [] [VAddr delegateRegistry].

Definition deploySynthetixExchangeAdapter (synthetixExchangerAddress : Address)
    : script contract :=
  deploy signer "SynthetixExchangeAdapter" [] [VAddr synthetixExchangerAddress].

Definition deployUniswapV3ExchangeAdapter (swapRouter : Address) : script contract :=
  deploy signer "UniswapV3ExchangeAdapter" [] [VAddr swapRouter].

Definition deployUniswapV3ExchangeAdapterV2 (swapRouter : Address) : script contract :=
  deploy signer "UniswapV3ExchangeAdapterV2" [] [VAddr swapRouter].

Definition deployKyberV3IndexExchangeAdapter (dmmRouter : Address) (dmmFactory : Address)
    : script contract :=
  deploy signer "KyberV3IndexExchangeAdapter" [] [VAddr dmmRouter; VAddr dmmFactory].

Definition deployCompoundWrapV2Adapter (libraryName : string) (libraryAddress : Address)
    : script contract :=
  deploy signer "CompoundWrapV2Adapter"
    [(libraryName, libraryAddress)]
    [].

Definition deployYearnWrapV2Adapter : script contract :=
  deploy signer "YearnWrapV2Adapter" [] [].

Definition deployAaveV2WrapV2Adapter (lendingPool : Address) : script contract :=
  deploy signer "AaveV2WrapV2Adapter" [] [VAddr lendingPool].

Definition deployERC4626WrapV2Adapter : script contract :=
  deploy signer "ERC4626WrapV2Adapter" [] [].

Definition deployCurveExchangeAdapter (tokenA : Address) (tokenB : Address) (tokenAIndex : Z)
    (tokenbBIndex : Z) (exchange : Address) : script contract :=
  deploy signer "CurveExchangeAdapter" [] [VAddr tokenA; VAddr tokenB; VNum tokenAIndex;
    VNum tokenbBIndex; VAddr exchange].

Definition deployCurveStEthExchangeAdapter (weth : Address) (steth : Address)
    (exchange : Address) : script contract :=
  deploy signer "CurveStEthExchangeAdapter" [] [VAddr weth; VAddr steth; VAddr exchange].

Definition deployConstantPriceAdapter : script contract :=
  deploy signer "ConstantPriceAdapter" [] [].

Definition deployBoundedStepwiseLinearPriceAdapter : script contract :=
  deploy signer "BoundedStepwiseLinearPriceAdapter" [] [].

Definition deployBoundedStepwiseLogarithmicPriceAdapter : script contract :=
  deploy signer "BoundedStepwiseLogarithmicPriceAdapter" [] [].

Definition deployBoundedStepwiseExponentialPriceAdapter : script contract :=
  deploy signer "BoundedStepwiseExponentialPriceAdapter" [] [].

(** Every helper of the class agrees with the constructor it calls. *)
Definition helpers_conform : Prop :=
  conform signature_of deployKyberExchangeAdapter ∧
  conform signature_of deployOneInchExchangeAdapter ∧
  conform signature_of deployUniswapV2AmmAdapter ∧
  conform signature_of deployUniswapV2ExchangeAdapter ∧
  conform signature_of deployUniswapV2TransferFeeExchangeAdapter ∧
  conform signature_of deployUniswapV2ExchangeAdapterV2 ∧
  conform signature_of deployUniswapV2IndexExchangeAdapter ∧
  conform signature_of deployAaveGovernanceV2Adapter ∧
  conform signature_of deployCompClaimAdapter ∧
  conform signature_of deployBalancerV1IndexExchangeAdapter ∧
  conform signature_of deployBalancerV2ExchangeAdapter ∧
  conform signature_of deployCompoundLikeGovernanceAdapter ∧
  conform signature_of deployCompoundBravoGovernanceAdapter ∧
  conform signature_of deployCurveStakingAdapter ∧
  conform signature_of deployRgtMigrationWrapAdapter ∧
  conform signature_of deployUniswapPairPriceAdapter ∧
  conform signature_of deployUniswapV3IndexExchangeAdapter ∧
  conform signature_of deployZeroExApiAdapter ∧
  conform signature_of deploySnapshotGovernanceAdapter ∧
  conform signature_of deploySynthetixExchangeAdapter ∧
  conform signature_of deployUniswapV3ExchangeAdapter ∧
  conform signature_of deployUniswapV3ExchangeAdapterV2 ∧
  conform signature_of deployKyberV3IndexExchangeAdapter ∧
  conform signature_of deployCompoundWrapV2Adapter ∧
  conform signature_of deployYearnWrapV2Adapter ∧
  conform signature_of deployAaveV2WrapV2Adapter ∧
  conform signature_of deployERC4626WrapV2Adapter ∧
  conform signature_of deployCurveExchangeAdapter ∧
  conform signature_of deployCurveStEthExchangeAdapter ∧
  conform signature_of deployConstantPriceAdapter ∧
  conform signature_of deployBoundedStepwiseLinearPriceAdapter ∧
  conform signature_of deployBoundedStepwiseLogarithmicPriceAdapter ∧
  conform signature_of deployBoundedStepwiseExponentialPriceAdapter.

Lemma DeployAdapters_agree : helpers_conform.
Proof. unfold helpers_conform. conform_class. Qed.
End DeployAdapters.
