(* ===== verification/DeployViewers.v ===== *)
(** * Deployment of viewers

    [utils/deploys/deployViewers.ts]: one helper per contract, for
    the view-only aggregators. *)
From Stdlib Require Import String.
From S2P Require Import Prelude JsString BigNumber Constants Script.
From S2P Require Import Dependencies Deployer Constructors.

Section DeployViewers.
Context (this : Deployer).
#[local] Abbreviation signer := (_deployerSigner this).

Definition deployProtocolViewer : script contract :=
  deploy signer "ProtocolViewer" [] [].

Definition deployPerpV2LeverageModuleViewer (perpModule : Address)
    (perpAccountBalance : Address) (perpClearingHouseConfig : Address) (vQuoteToken : Address)
    : script contract :=
  deploy signer "PerpV2LeverageModuleViewer" [] [VAddr perpModule; VAddr perpAccountBalance;
    VAddr perpClearingHouseConfig; VAddr vQuoteToken].

(** Every helper of the class agrees with the constructor it calls. *)
Definition helpers_conform : Prop :=
  conform signature_of deployProtocolViewer ∧
  conform signature_of deployPerpV2LeverageModuleViewer.

Lemma DeployViewers_agree : helpers_conform.
Proof. unfold helpers_conform. conform_class. Qed.
End DeployViewers.
