(* ===== verification/DeployProduct.v ===== *)
(** * Deployment of product contracts

    [utils/deploys/deployProduct.ts]: one helper per contract, for
    contracts built on top of the protocol. *)
From Stdlib Require Import String.
From S2P Require Import Prelude JsString BigNumber Constants Script.
From S2P Require Import Dependencies Deployer Constructors.

Section DeployProduct.
Context (this : Deployer).
#[local] Abbreviation signer := (_deployerSigner this).

Definition deployAssetLimitHook (_assets : list Address) (_limits : list Z) : script contract :=
  deploy signer "AssetLimitHook" [] [addresses _assets; numbers _limits].

Definition getAssetLimitHook (assetLimitHookAddress : Address) : contract :=
  attach signer "AssetLimitHook" assetLimitHookAddress.

Definition deployAMMSplitter (uniRouter : Address) (sushiRouter : Address)
    (uniFactory : Address) (sushiFactory : Address) : script contract :=
  deploy signer "AMMSplitter" [] [VAddr uniRouter; VAddr sushiRouter; VAddr uniFactory;
    VAddr sushiFactory].

(** Every helper of the class agrees with the constructor it calls. *)
Definition helpers_conform : Prop :=
  conform signature_of deployAssetLimitHook ∧ conform signature_of deployAMMSplitter.

Lemma DeployProduct_agree : helpers_conform.
Proof. unfold helpers_conform. conform_class. Qed.
End DeployProduct.
