(* ===== verification/DeployOracles.v ===== *)
(** * Deployment of oracles

    [utils/deploys/deployOracles.ts]: one helper per contract, for
    the oracles of wrapped tokens. *)
From Stdlib Require Import String.
From S2P Require Import Prelude JsString BigNumber Constants Script.
From S2P Require Import Dependencies Deployer Constructors.

Section DeployOracles.
Context (this : Deployer).
#[local] Abbreviation signer := (_deployerSigner this).

Definition deployCTokenOracle (cToken : Address) (underlyingOracle : Address)
    (cTokenFullUnit : Z) (underlyingFullUnit : Z) (dataDescription : string)
    : script contract :=
  deploy signer "CTokenOracle" [] [VAddr cToken; VAddr underlyingOracle; VNum cTokenFullUnit;
    VNum underlyingFullUnit; VStr dataDescription].

Definition deployYearnVaultOracle (vault : Address) (underlyingOracle : Address)
    (underlyingFullUnit : Z) (dataDescription : string) : script contract :=
  deploy signer "YearnVaultOracle" [] [VAddr vault; VAddr underlyingOracle;
    VNum underlyingFullUnit; VStr dataDescription].

(** Every helper of the class agrees with the constructor it calls. *)
Definition helpers_conform : Prop :=
  conform signature_of deployCTokenOracle ∧ conform signature_of deployYearnVaultOracle.

Lemma DeployOracles_agree : helpers_conform.
Proof. unfold helpers_conform. conform_class. Qed.
End DeployOracles.
