(* ===== verification/DeployHelper.v ===== *)
(** * The deployment helper

    [utils/deploys/index.ts]: one object that holds an instance of each class of
    helpers, all deploying with the same signer. *)
From Stdlib Require Import String.
From S2P Require Import Prelude JsString BigNumber Constants UnitsUtils Script.
From S2P Require Import Dependencies Deployer Constructors.
From S2P Require Import DeployCoreContracts DeployModules DeployLibraries DeployMocks.
From S2P Require Import DeployExternalContracts DeployAdapters DeployViewers DeployProduct DeployOracles.

Record DeployHelper := {
  libraries : Deployer;
  mocks : Deployer;
  modules : Deployer;
  core : Deployer;
  external : Deployer;
  adapters : Deployer;
  viewers : Deployer;
  product : Deployer;
  oracles : Deployer;
}.

(** [new DeployHelper(deployerSigner)]. *)
Definition new_DeployHelper (deployerSigner : Address) : DeployHelper :=
  let d := {| _deployerSigner := deployerSigner |} in
  {| libraries := d; mocks := d; modules := d; core := d; external := d; adapters := d;
     viewers := d; product := d; oracles := d |}.

(** C40. Every helper of every class passes its constructor as many arguments as
    the constructor has parameters, each of the kind its parameter has, whatever
    the arguments of the helper and whatever the chain answers. The one helper with
    untyped arguments, deploySynthetixExchangerMock, does so when the objects it gets
    hold a key for each coin and a rate for each direction; otherwise it may pass
    undefined. *)
Theorem helpers_match_constructors `{Ethers} (this : DeployHelper) :
  DeployCoreContracts.helpers_conform (core this) ∧
  DeployModules.helpers_conform (modules this) ∧
  DeployLibraries.helpers_conform (libraries this) ∧
  DeployMocks.helpers_conform (mocks this) ∧
  DeployExternalContracts.helpers_conform (external this) ∧
  DeployAdapters.helpers_conform (adapters this) ∧
  DeployViewers.helpers_conform (viewers this) ∧
  DeployProduct.helpers_conform (product this) ∧
  DeployOracles.helpers_conform (oracles this).
Proof.
  split; [apply DeployCoreContracts_agree|].
  split; [apply DeployModules_agree|].
  split; [apply DeployLibraries_agree|].
  split; [apply DeployMocks_agree|].
  split; [apply DeployExternalContracts_agree|].
  split; [apply DeployAdapters_agree|].
  split; [apply DeployViewers_agree|].
  split; [apply DeployProduct_agree|].
  apply DeployOracles_agree.
Qed.
