(* ===== verification/AddressArrayUtils.v ===== *)
(** * Address arrays of the contracts

    [contracts/lib/AddressArrayUtils.sol] on lists: search, duplicates, removal in
    memory and in storage. *)
From Stdlib Require Import String.
From S2P Require Import Prelude JsString BigNumber Constants MathUtils SolMath.

Section AddressArrayUtils.
Implicit Types (A B : list Address) (a : Address).

(** The search loop, from index [i] on. *)
Fixpoint indexOf_from (i : Z) A a : Z * bool :=
  match A with
  | [] => (wrap_uint (-1), false)
  | x :: A' => if decide (x = a) then (i, true) else indexOf_from (i + 1) A' a
  end.

Definition indexOf A a : Z * bool := indexOf_from 0 A a.

Definition contains A a : bool := let '(_, isIn) := indexOf A a in isIn.

(** The outer loop compares every element with the later ones. *)
Fixpoint hasDuplicate_loop A : bool :=
  match A with
  | [] => false
  | current :: A' => existsb (λ x, bool_decide (current = x)) A' || hasDuplicate_loop A'
  end.

Definition hasDuplicate A : result bool :=
  require (0 <? Z.of_nat (length A)) "A is empty";; Ok (hasDuplicate_loop A).

Definition pop A (index : Z) : result (list Address * Address) :=
  require (index <? Z.of_nat (length A)) "Index must be < A length";;
  match A !! Z.to_nat index with
  | Some x => Ok (take (Z.to_nat index) A ++ drop (S (Z.to_nat index)) A, x)
  | None => Throw (Revert "invalid opcode")
  end.

Definition remove A a : result (list Address) :=
  let '(index, isIn) := indexOf A a in
  if negb isIn then Throw (Revert "Address not in array.")
  else '(_A, _) ← pop A index; Ok _A.

(** The storage variant overwrites the removed element with the last one. *)
Definition removeStorage A a : result (list Address) :=
  let '(index, isIn) := indexOf A a in
  if negb isIn then Throw (Revert "Address not in array.")
  else
    let lastIndex := Z.of_nat (length A) - 1 in
    match A !! Z.to_nat lastIndex with
    | Some x =>
        let A' := if negb (index =? lastIndex) then <[Z.to_nat index := x]> A else A in
        Ok (take (length A' - 1) A')
    | None => Throw (Revert "invalid opcode")
    end.

Definition extend A B : list Address := A ++ B.

Definition _validateLengthAndUniqueness A : result () :=
  require (0 <? Z.of_nat (length A)) "Array length must be > 0";;
  d ← hasDuplicate A;
  require (negb d) "Cannot duplicate addresses".

Definition validatePairsWithArray {X} A (Bs : list X) : result () :=
  require (Z.of_nat (length A) =? Z.of_nat (length Bs)) "Array length mismatch";;
  _validateLengthAndUniqueness A.
End AddressArrayUtils.

(** ** Lemmas *)
Section Lemmas.
Implicit Types (A B : list Address) (a : Address).

Lemma indexOf_from_found (i : Z) A a :
  a ∈ A → ∃ l r, A = l ++ a :: r ∧ (a ∉ l) ∧ indexOf_from i A a = (i + Z.of_nat (length l), true).
Proof.
  revert i. induction A as [|x A IH]; intros i Hin; [by apply elem_of_nil in Hin|].
  cbn [indexOf_from]. destruct (decide (x = a)) as [->|Hne].
  - exists [], A. split; [done|]. split; [apply not_elem_of_nil|]. cbn. f_equal. lia.
  - apply elem_of_cons in Hin as [->|Hin]; [done|].
    destruct (IH (i + 1) Hin) as (l & r & -> & Hl & ->). exists (x :: l), r.
    split; [done|]. split; [by apply not_elem_of_cons|]. cbn [length]. f_equal. lia.
Qed.

Lemma indexOf_from_absent (i : Z) A a : a ∉ A → indexOf_from i A a = (UINT_MAX, false).
Proof.
  revert i. induction A as [|x A IH]; intros i Hin; [done|]. cbn [indexOf_from].
  apply not_elem_of_cons in Hin as [Hne Hin]. destruct (decide (x = a)); [congruence|]. by apply IH.
Qed.

Lemma contains_true A a : contains A a = true ↔ a ∈ A.
Proof.
  unfold contains, indexOf. destruct (decide (a ∈ A)) as [Hin|Hin].
  - destruct (indexOf_from_found 0 A a Hin) as (? & ? & _ & _ & ->). done.
  - by rewrite indexOf_from_absent.
Qed.

Lemma hasDuplicate_loop_true A : hasDuplicate_loop A = true ↔ ¬ NoDup A.
Proof.
  induction A as [|x A IH]; cbn [hasDuplicate_loop].
  - split; [done|]. intros H. destruct H. constructor.
  - rewrite orb_true_iff, IH, NoDup_cons, existsb_exists. split.
    + intros [(y & Hy & E)|H]; [|tauto]. apply bool_decide_eq_true in E as <-.
      apply list_elem_of_In in Hy. tauto.
    + intros H. destruct (decide (x ∈ A)) as [Hx|Hx]; [left|right; tauto].
      exists x. split; [by apply list_elem_of_In|]. by apply bool_decide_eq_true.
Qed.

(** Removal deletes the first occurrence and keeps the order of the others. *)
Lemma remove_present A a :
  a ∈ A → ∃ l r, A = l ++ a :: r ∧ (a ∉ l) ∧ remove A a = Ok (l ++ r).
Proof.
  intros Hin. unfold remove, indexOf.
  destruct (indexOf_from_found 0 A a Hin) as (l & r & -> & Hl & ->).
  exists l, r. split; [done|]. split; [done|]. cbn [negb]. unfold pop.
  rewrite Z.add_0_l, Nat2Z.id, length_app, list_lookup_middle by done. cbn [length].
  destruct (Z.ltb_spec (Z.of_nat (length l)) (Z.of_nat (length l + S (length r)))); [|lia].
  cbn [require mbind result_bind]. do 2 f_equal; [by rewrite take_app_length|].
  change (a :: r) with ([a] ++ r). rewrite app_assoc.
  replace (S (length l)) with (length (l ++ [a])) by (rewrite length_app; cbn; lia).
  by rewrite drop_app_length.
Qed.

Lemma remove_absent A a : a ∉ A → remove A a = Throw (Revert "Address not in array.").
Proof. intros Hin. unfold remove, indexOf. by rewrite indexOf_from_absent. Qed.

Lemma remove_nodup A B a :
  NoDup A → remove A a = Ok B → a ∈ A ∧ NoDup B ∧ (∀ x, x ∈ B ↔ x ∈ A ∧ x ≠ a).
Proof.
  intros Hnd E. destruct (decide (a ∈ A)) as [Hin|Hin].
  - destruct (remove_present A a Hin) as (l & r & -> & Hl & E'). rewrite E in E'.
    injection E' as ->. split; [done|].
    apply NoDup_app in Hnd as (Hndl & Hd & Hndr). apply NoDup_cons in Hndr as [Hr Hndr].
    split.
    + apply NoDup_app. split; [done|]. split; [|done]. intros x Hx Hxr.
      apply (Hd x Hx). by apply elem_of_cons; right.
    + intros x. rewrite !elem_of_app, elem_of_cons. split.
      * intros [Hx|Hx]; (split; [tauto|]); intros ->; done.
      * tauto.
  - rewrite remove_absent in E by done. discriminate.
Qed.
End Lemmas.

(** ** Removal *)
Section Removal.
Implicit Types (A B : list Address) (a : Address).

(** Both removals of an address that is present. *)
Lemma removeStorage_present A a :
  a ∈ A → ∃ l r B, A = l ++ a :: r ∧ (a ∉ l) ∧ remove A a = Ok (l ++ r) ∧
    removeStorage A a = Ok B ∧ B ≡ₚ l ++ r.
Proof.
  intros Hin.
  destruct (remove_present A a Hin) as (l & r & HA & Hl & Hr).
  unfold removeStorage, indexOf.
  destruct (indexOf_from_found 0 A a Hin) as (l' & r' & HA' & Hl' & ->).
  assert (l' = l ∧ r' = r) as [-> ->].
  { rewrite HA in HA'. clear -HA' Hl Hl'. revert l' Hl' HA'.
    induction l as [|x l IH]; intros [|y l'] Hl' E; simplify_list_eq.
    - done.
    - by apply not_elem_of_cons in Hl' as [].
    - by apply not_elem_of_cons in Hl as [].
    - apply not_elem_of_cons in Hl as [_ Hl]. apply not_elem_of_cons in Hl' as [_ Hl'].
      by destruct (IH Hl l' Hl' ltac:(assumption)) as [-> ->]. }
  subst A. clear HA'. exists l, r. cbn [negb].
  rewrite Z.add_0_l, Nat2Z.id, length_app. cbn [length].
  replace (Z.to_nat (Z.of_nat (length l + S (length r)) - 1)) with (length l + length r)%nat by lia.
  destruct r as [|y r _] using rev_ind.
  - rewrite list_lookup_middle by (cbn; lia). cbn [length].
    destruct (Z.eqb_spec (Z.of_nat (length l)) (Z.of_nat (length l + 1) - 1)); [|lia].
    cbn [negb]. eexists; split; [done|]. split; [done|]. split; [done|]. split; [reflexivity|].
    rewrite length_app. cbn [length]. replace (length l + 1 - 1)%nat with (length l) by lia.
    by rewrite take_app_length, app_nil_r.
  - assert ((l ++ a :: r ++ [y]) !! (length l + length (r ++ [y]))%nat = Some y) as ->.
    { rewrite lookup_app_r by lia. replace (length l + length (r ++ [y]) - length l)%nat
        with (S (length r)) by (rewrite length_app; cbn; lia).
      by apply (list_lookup_middle r [] y). }
    rewrite length_app. cbn [length].
    destruct (Z.eqb_spec (Z.of_nat (length l)) (Z.of_nat (length l + S (length r + 1)) - 1)); [lia|].
    cbn [negb]. eexists; split; [done|]. split; [done|]. split; [done|]. split; [reflexivity|].
    rewrite insert_app_r_alt by lia. rewrite Nat.sub_diag. cbn [insert list_insert].
    replace (l ++ y :: r ++ [y]) with ((l ++ y :: r) ++ [y]) by (by rewrite <- app_assoc).
    replace (length ((l ++ y :: r) ++ [y]) - 1)%nat with (length (l ++ y :: r))
      by (rewrite !length_app; cbn; lia).
    rewrite take_app_length. by rewrite Permutation_cons_append.
Qed.

Lemma removeStorage_absent A a :
  a ∉ A → removeStorage A a = Throw (Revert "Address not in array.").
Proof. intros Hin. unfold removeStorage, indexOf. by rewrite indexOf_from_absent. Qed.

Lemma removeStorage_nodup A B a :
  NoDup A → removeStorage A a = Ok B → a ∈ A ∧ NoDup B ∧ (∀ x, x ∈ B ↔ x ∈ A ∧ x ≠ a).
Proof.
  intros Hnd E. destruct (decide (a ∈ A)) as [Hin|Hin].
  - destruct (removeStorage_present A a Hin) as (l & r & B' & HA & Hl & Er & E' & HB).
    rewrite E in E'. injection E' as <-.
    destruct (remove_nodup A (l ++ r) a Hnd Er) as (_ & Hnd' & Hx).
    split; [done|]. split; [by rewrite HB|]. intros x. rewrite HB. apply Hx.
  - by rewrite removeStorage_absent in E.
Qed.

(** Both removals revert exactly when the address is absent.  In memory the
    other elements keep their order; in storage the result is a permutation of
    that. *)
Theorem removals_agree A a :
  if decide (a ∈ A) then
    ∃ l r B, A = l ++ a :: r ∧ (a ∉ l) ∧ remove A a = Ok (l ++ r) ∧
      removeStorage A a = Ok B ∧ B ≡ₚ l ++ r
  else remove A a = Throw (Revert "Address not in array.") ∧
    removeStorage A a = Throw (Revert "Address not in array.").
Proof.
  destruct (decide (a ∈ A)) as [Hin|Hin]; [by apply removeStorage_present|].
  split; [by apply remove_absent|by apply removeStorage_absent].
Qed.
End Removal.

(** ** Arrays with flags

    A contract that keeps an array for each of several addresses often keeps a flag
    for each element as well. *)

(** The flags agree with the array. *)
Definition flags_agree (st : Address) (l : list Address) (f : gset (Address * Address)) : Prop :=
  NoDup l ∧ ∀ a, (st, a) ∈ f ↔ a ∈ l.

Lemma flags_add (st a : Address) (l : list Address) (f : gset (Address * Address)) :
  flags_agree st l f → (st, a) ∉ f → flags_agree st (l ++ [a]) ({[ (st, a) ]} ∪ f).
Proof.
  intros [Hn Hf] Ha. split.
  - apply NoDup_app. split; [done|]. split; [|apply NoDup_singleton].
    intros x Hx. rewrite list_elem_of_singleton. intros ->. by apply Ha, Hf.
  - intros b. specialize (Hf b). set_solver.
Qed.

Lemma flags_remove (st a : Address) (l l' : list Address) (f : gset (Address * Address)) :
  flags_agree st l f → remove l a = Ok l' → flags_agree st l' (f ∖ {[ (st, a) ]}).
Proof.
  intros [Hn Hf] Hl. apply remove_nodup in Hl as (_ & Hn' & Hx); [|done]. split; [done|].
  intros b. rewrite Hx. specialize (Hf b). set_solver.
Qed.

Lemma flags_frame (st : Address) (l : list Address) (f f' : gset (Address * Address)) :
  (∀ a, (st, a) ∈ f' ↔ (st, a) ∈ f) → flags_agree st l f → flags_agree st l f'.
Proof. intros Hf [Hn Ha]. split; [done|]. intros a. by rewrite Hf, Ha. Qed.

Lemma flags_remove_last (st a : Address) (l l' : list Address) (f : gset (Address * Address)) :
  flags_agree st l f → removeStorage l a = Ok l' → flags_agree st l' (f ∖ {[ (st, a) ]}).
Proof.
  intros [Hn Hf] Hl. apply removeStorage_nodup in Hl as (_ & Hn' & Hx); [|done]. split; [done|].
  intros b. rewrite Hx. specialize (Hf b). set_solver.
Qed.

(** The flags of the elements of an array, set or cleared one after the other. *)
Definition flagged (a : Address * Address) (b : bool) (f : gset (Address * Address)) :
    gset (Address * Address) := if b then {[ a ]} ∪ f else f ∖ {[ a ]}.

Lemma flagged_other (a a' : Address * Address) (b : bool) (f : gset (Address * Address)) :
  a' ≠ a → a' ∈ flagged a b f ↔ a' ∈ f.
Proof. intros Hne. unfold flagged. destruct b; set_solver. Qed.

(** ** Histories

    A contract that keeps one array of the accounts with a permission puts an account
    in it, or takes it out, when the permission changes. *)

(** [l'] is [l] but for the account, which it lists by its status. *)
Definition toggled (a : Address) (status : bool) (l l' : list Address) : Prop :=
  NoDup l' ∧ ∀ x, x ∈ l' ↔ if decide (x = a) then status = true else x ∈ l.

Lemma toggled_add (a : Address) (l : list Address) :
  NoDup l → contains l a = false → toggled a true l (l ++ [a]).
Proof.
  intros Hn Hc. apply not_true_iff_false in Hc. rewrite contains_true in Hc. split.
  - apply NoDup_app. split; [done|]. split; [set_solver|apply NoDup_singleton].
  - intros x. rewrite elem_of_app, list_elem_of_singleton. destruct (decide (x = a)); subst; intuition congruence.
Qed.

Lemma toggled_remove (a : Address) (l l' : list Address) :
  NoDup l → removeStorage l a = Ok l' → toggled a false l l'.
Proof.
  intros Hn Hl. apply removeStorage_nodup in Hl as (_ & Hl & Ha); [|done]. split; [done|].
  intros x. rewrite Ha. destruct (decide (x = a)); subst; intuition congruence.
Qed.

Lemma toggled_same (a : Address) (status : bool) (l : list Address) :
  NoDup l → contains l a = status → toggled a status l l.
Proof.
  intros Hn Hc. split; [done|]. intros x. destruct (decide (x = a)) as [->|]; [|done].
  by rewrite <- contains_true, Hc.
Qed.

(** The permissions that go with a history. *)
Definition recorded (l : list Address) (allowed : gset Address) : Prop :=
  NoDup l ∧ ∀ a, a ∈ allowed ↔ a ∈ l.

Lemma recorded_toggle (a : Address) (status : bool) (l l' : list Address) (allowed : gset Address) :
  recorded l allowed → toggled a status l l' →
  recorded l' (if status then {[ a ]} ∪ allowed else allowed ∖ {[ a ]}).
Proof.
  intros [_ Ha] [Hl Hb]. split; [done|]. intros x. rewrite Hb. specialize (Ha x).
  destruct status, (decide (x = a)); set_solver.
Qed.
