(* ===== verification/Controller.v ===== *)
(** * The controller

    [contracts/protocol/Controller.sol]: the registry of sets, factories, modules
    and resources.  The ownership check is that of a contract package outside the
    repository and is a parameter, a function of the caller. *)
From Stdlib Require Import String.
From S2P Require Import Prelude JsString BigNumber Constants MathUtils SolMath AddressArrayUtils.

Module Controller.

Definition address0 : Address := "0x0000000000000000000000000000000000000000"%string.

Inductive log_entry :=
| FactoryAdded (_factory : Address)
| FactoryRemoved (_factory : Address)
| FeeEdited (_module : Address) (_feeType _feePercentage : Z)
| FeeRecipientChanged (_newFeeRecipient : Address)
| ModuleAdded (_module : Address)
| ModuleRemoved (_module : Address)
| ResourceAdded (_resource : Address) (_id : Z)
| ResourceRemoved (_resource : Address) (_id : Z)
| SetAdded (_setToken _factory : Address)
| SetRemoved (_setToken : Address).

Record State := {
  sets : list Address;
  factories : list Address;
  modules : list Address;
  resources : list Address;
  isSet : gset Address;
  isFactory : gset Address;
  isModule : gset Address;
  isResource : gset Address;
  fees : gmap (Address * Z) Z;
  resourceId : gmap Z Address;
  feeRecipient : Address;
  isInitialized : bool;
  logs : list log_entry;
}.

(** ** Field updates *)

Definition set_sets (l : list Address) (f : gset Address) (c : State) : State :=
  {| sets := l; factories := factories c; modules := modules c; resources := resources c;
     isSet := f; isFactory := isFactory c; isModule := isModule c; isResource := isResource c;
     fees := fees c; resourceId := resourceId c; feeRecipient := feeRecipient c;
     isInitialized := isInitialized c; logs := logs c |}.

Definition set_factories (l : list Address) (f : gset Address) (c : State) : State :=
  {| sets := sets c; factories := l; modules := modules c; resources := resources c;
     isSet := isSet c; isFactory := f; isModule := isModule c; isResource := isResource c;
     fees := fees c; resourceId := resourceId c; feeRecipient := feeRecipient c;
     isInitialized := isInitialized c; logs := logs c |}.

Definition set_modules (l : list Address) (f : gset Address) (c : State) : State :=
  {| sets := sets c; factories := factories c; modules := l; resources := resources c;
     isSet := isSet c; isFactory := isFactory c; isModule := f; isResource := isResource c;
     fees := fees c; resourceId := resourceId c; feeRecipient := feeRecipient c;
     isInitialized := isInitialized c; logs := logs c |}.

Definition set_resources (l : list Address) (f : gset Address) (ids : gmap Z Address)
    (c : State) : State :=
  {| sets := sets c; factories := factories c; modules := modules c; resources := l;
     isSet := isSet c; isFactory := isFactory c; isModule := isModule c; isResource := f;
     fees := fees c; resourceId := ids; feeRecipient := feeRecipient c;
     isInitialized := isInitialized c; logs := logs c |}.

Definition set_fees (m : gmap (Address * Z) Z) (c : State) : State :=
  {| sets := sets c; factories := factories c; modules := modules c; resources := resources c;
     isSet := isSet c; isFactory := isFactory c; isModule := isModule c;
     isResource := isResource c; fees := m; resourceId := resourceId c;
     feeRecipient := feeRecipient c; isInitialized := isInitialized c; logs := logs c |}.

Definition set_feeRecipient (a : Address) (c : State) : State :=
  {| sets := sets c; factories := factories c; modules := modules c; resources := resources c;
     isSet := isSet c; isFactory := isFactory c; isModule := isModule c;
     isResource := isResource c; fees := fees c; resourceId := resourceId c;
     feeRecipient := a; isInitialized := isInitialized c; logs := logs c |}.

Definition set_initialized (c : State) : State :=
  {| sets := sets c; factories := factories c; modules := modules c; resources := resources c;
     isSet := isSet c; isFactory := isFactory c; isModule := isModule c;
     isResource := isResource c; fees := fees c; resourceId := resourceId c;
     feeRecipient := feeRecipient c; isInitialized := true; logs := logs c |}.

Definition emit (e : log_entry) (c : State) : State :=
  {| sets := sets c; factories := factories c; modules := modules c; resources := resources c;
     isSet := isSet c; isFactory := isFactory c; isModule := isModule c;
     isResource := isResource c; fees := fees c; resourceId := resourceId c;
     feeRecipient := feeRecipient c; isInitialized := isInitialized c; logs := logs c ++ [e] |}.

(** ** Reading the mappings *)

Definition resource_at (c : State) (id : Z) : Address := default address0 (resourceId c !! id).
Definition fee_of (c : State) (m : Address) (t : Z) : Z := default 0 (fees c !! (m, t)).

(** ** Operations *)

Definition constructor (_feeRecipient : Address) : State :=
  {| sets := []; factories := []; modules := []; resources := []; isSet := ∅; isFactory := ∅;
     isModule := ∅; isResource := ∅; fees := ∅; resourceId := ∅; feeRecipient := _feeRecipient;
     isInitialized := false; logs := [] |}.

Section Operations.
Context (onlyOwner : Address → result ()).
Implicit Types (caller : Address) (c : State).

Definition onlyFactory caller c : result () :=
  require (bool_decide (caller ∈ isFactory c)) "Only valid factories can call".

Definition onlyInitialized c : result () :=
  require (isInitialized c) "Contract must be initialized.".

Definition nonzero (a : Address) (reason : string) : result () :=
  require (negb (bool_decide (a = address0))) reason.

(** The loops of [initialize]. *)
Fixpoint flag_all (l : list Address) (f : gset Address) : result (gset Address) :=
  match l with
  | [] => Ok f
  | a :: l' => nonzero a "Zero address submitted.";; flag_all l' ({[ a ]} ∪ f)
  end.

Fixpoint register_all (l : list (Address * Z)) (f : gset Address) (ids : gmap Z Address)
    : result (gset Address * gmap Z Address) :=
  match l with
  | [] => Ok (f, ids)
  | (r, id) :: l' =>
      nonzero r "Zero address submitted.";;
      require (bool_decide (default address0 (ids !! id) = address0)) "Resource ID already exists";;
      register_all l' ({[ r ]} ∪ f) (<[id := r]> ids)
  end.

Definition initialize caller (_factories _modules _resources : list Address)
    (_resourceIds : list Z) c : result State :=
  onlyOwner caller;;
  require (negb (isInitialized c)) "Controller is already initialized";;
  require (length _resources =? length _resourceIds)%nat "Array lengths do not match.";;
  fs ← flag_all _factories (isFactory c);
  ms ← flag_all _modules (isModule c);
  '(rs, ids) ← register_all (zip _resources _resourceIds) (isResource c) (resourceId c);
  Ok (set_initialized (set_resources _resources rs ids
       (set_modules _modules ms (set_factories _factories fs c)))).

Definition addSet caller (_setToken : Address) c : result State :=
  onlyInitialized c;; onlyFactory caller c;;
  require (negb (bool_decide (_setToken ∈ isSet c))) "Set already exists";;
  Ok (emit (SetAdded _setToken caller)
       (set_sets (sets c ++ [_setToken]) ({[ _setToken ]} ∪ isSet c) c)).

Definition removeSet caller (_setToken : Address) c : result State :=
  onlyInitialized c;; onlyOwner caller;;
  require (bool_decide (_setToken ∈ isSet c)) "Set does not exist";;
  l ← remove (sets c) _setToken;
  Ok (emit (SetRemoved _setToken) (set_sets l (isSet c ∖ {[ _setToken ]}) c)).

Definition addFactory caller (_factory : Address) c : result State :=
  onlyInitialized c;; onlyOwner caller;;
  require (negb (bool_decide (_factory ∈ isFactory c))) "Factory already exists";;
  Ok (emit (FactoryAdded _factory)
       (set_factories (factories c ++ [_factory]) ({[ _factory ]} ∪ isFactory c) c)).

Definition removeFactory caller (_factory : Address) c : result State :=
  onlyInitialized c;; onlyOwner caller;;
  require (bool_decide (_factory ∈ isFactory c)) "Factory does not exist";;
  l ← remove (factories c) _factory;
  Ok (emit (FactoryRemoved _factory) (set_factories l (isFactory c ∖ {[ _factory ]}) c)).

Definition addModule caller (_module : Address) c : result State :=
  onlyInitialized c;; onlyOwner caller;;
  require (negb (bool_decide (_module ∈ isModule c))) "Module already exists";;
  Ok (emit (ModuleAdded _module)
       (set_modules (modules c ++ [_module]) ({[ _module ]} ∪ isModule c) c)).

Definition removeModule caller (_module : Address) c : result State :=
  onlyInitialized c;; onlyOwner caller;;
  require (bool_decide (_module ∈ isModule c)) "Module does not exist";;
  l ← remove (modules c) _module;
  Ok (emit (ModuleRemoved _module) (set_modules l (isModule c ∖ {[ _module ]}) c)).

Definition addResource caller (_resource : Address) (_id : Z) c : result State :=
  onlyInitialized c;; onlyOwner caller;;
  require (negb (bool_decide (_resource ∈ isResource c))) "Resource already exists";;
  require (bool_decide (resource_at c _id = address0)) "Resource ID already exists";;
  Ok (emit (ResourceAdded _resource _id)
       (set_resources (resources c ++ [_resource]) ({[ _resource ]} ∪ isResource c)
          (<[_id := _resource]> (resourceId c)) c)).

Definition removeResource caller (_id : Z) c : result State :=
  onlyInitialized c;; onlyOwner caller;;
  let resourceToRemove := resource_at c _id in
  nonzero resourceToRemove "Resource does not exist";;
  l ← remove (resources c) resourceToRemove;
  Ok (emit (ResourceRemoved resourceToRemove _id)
       (set_resources l (isResource c ∖ {[ resourceToRemove ]})
          (base.delete _id (resourceId c)) c)).

Definition addFee caller (_module : Address) (_feeType _newFeePercentage : Z) c : result State :=
  onlyInitialized c;; onlyOwner caller;;
  require (bool_decide (_module ∈ isModule c)) "Module does not exist";;
  require (fee_of c _module _feeType =? 0) "Fee type already exists on module";;
  Ok (emit (FeeEdited _module _feeType _newFeePercentage)
       (set_fees (<[(_module, _feeType) := _newFeePercentage]> (fees c)) c)).

Definition editFee caller (_module : Address) (_feeType _newFeePercentage : Z) c : result State :=
  onlyInitialized c;; onlyOwner caller;;
  require (bool_decide (_module ∈ isModule c)) "Module does not exist";;
  require (negb (fee_of c _module _feeType =? 0)) "Fee type does not exist on module";;
  Ok (emit (FeeEdited _module _feeType _newFeePercentage)
       (set_fees (<[(_module, _feeType) := _newFeePercentage]> (fees c)) c)).

Definition editFeeRecipient caller (_newFeeRecipient : Address) c : result State :=
  onlyInitialized c;; onlyOwner caller;;
  nonzero _newFeeRecipient "Address must not be 0";;
  Ok (emit (FeeRecipientChanged _newFeeRecipient) (set_feeRecipient _newFeeRecipient c)).

(** The view functions. *)
Definition getModuleFee c (_moduleAddress : Address) (_feeType : Z) : Z :=
  fee_of c _moduleAddress _feeType.
Definition getFactories c : list Address := factories c.
Definition getModules c : list Address := modules c.
Definition getResources c : list Address := resources c.
Definition getSets c : list Address := sets c.
Definition isSystemContract (this : Address) c (_contractAddress : Address) : bool :=
  bool_decide (_contractAddress ∈ isSet c) || bool_decide (_contractAddress ∈ isModule c)
  || bool_decide (_contractAddress ∈ isResource c) || bool_decide (_contractAddress ∈ isFactory c)
  || bool_decide (_contractAddress = this).

(** ** Transactions *)

Inductive operation :=
| Initialize (_factories _modules _resources : list Address) (_resourceIds : list Z)
| AddSet (_setToken : Address)
| RemoveSet (_setToken : Address)
| AddFactory (_factory : Address)
| RemoveFactory (_factory : Address)
| AddModule (_module : Address)
| RemoveModule (_module : Address)
| AddResource (_resource : Address) (_id : Z)
| RemoveResource (_id : Z)
| AddFee (_module : Address) (_feeType _newFeePercentage : Z)
| EditFee (_module : Address) (_feeType _newFeePercentage : Z)
| EditFeeRecipient (_newFeeRecipient : Address).

Definition execute caller (o : operation) c : result State :=
  match o with
  | Initialize fs ms rs ids => initialize caller fs ms rs ids c
  | AddSet a => addSet caller a c
  | RemoveSet a => removeSet caller a c
  | AddFactory a => addFactory caller a c
  | RemoveFactory a => removeFactory caller a c
  | AddModule a => addModule caller a c
  | RemoveModule a => removeModule caller a c
  | AddResource a id => addResource caller a id c
  | RemoveResource id => removeResource caller id c
  | AddFee m t p => addFee caller m t p c
  | EditFee m t p => editFee caller m t p c
  | EditFeeRecipient a => editFeeRecipient caller a c
  end.

(** What [initialize] does not check: its arrays have no duplicates. *)
Definition distinct_arguments (o : operation) : Prop :=
  match o with
  | Initialize fs ms rs _ => NoDup fs ∧ NoDup ms ∧ NoDup rs
  | _ => True
  end.

(** States after any successful transactions of any callers, out of the
    transactions [P] admits. *)
Inductive reachable (P : operation → Prop) (recipient : Address) : State → Prop :=
| reachable_constructor : reachable P recipient (constructor recipient)
| reachable_step caller o c c' :
    reachable P recipient c → P o → execute caller o c = Ok c' → reachable P recipient c'.

Definition any_operation (o : operation) : Prop := True.
End Operations.

(** ** The registry invariant *)
Section Invariant.
Context (onlyOwner : Address → result ()).

(** An array and the flags of its elements describe the same set. *)
Definition agree (l : list Address) (f : gset Address) : Prop :=
  NoDup l ∧ ∀ a, a ∈ l ↔ a ∈ f.

(** Identifiers point to registered resources, to each at most once, and every
    resource but the zero address has one. *)
Definition identified (f : gset Address) (m : gmap Z Address) : Prop :=
  (∀ id r, m !! id = Some r → r ∈ f) ∧
  (∀ id id' r, m !! id = Some r → m !! id' = Some r → id = id') ∧
  (∀ r, r ∈ f → r ≠ address0 → ∃ id, m !! id = Some r).

Definition consistent (c : State) : Prop :=
  agree (sets c) (isSet c) ∧ agree (factories c) (isFactory c) ∧
  agree (modules c) (isModule c) ∧ agree (resources c) (isResource c) ∧
  identified (isResource c) (resourceId c) ∧
  (isInitialized c = false →
     isFactory c = ∅ ∧ isModule c = ∅ ∧ isResource c = ∅ ∧ resourceId c = ∅).

(** What is left of it when [initialize] is given duplicates: whatever is flagged
    is listed, and can be looked up. *)
Definition covers (l : list Address) (f : gset Address) : Prop := ∀ a, a ∈ f → a ∈ l.

Definition flagged_listed (c : State) : Prop :=
  covers (sets c) (isSet c) ∧ covers (factories c) (isFactory c) ∧
  covers (modules c) (isModule c) ∧ covers (resources c) (isResource c) ∧
  (∀ r, r ∈ isResource c → r ≠ address0 → ∃ id, resourceId c !! id = Some r) ∧
  (isInitialized c = false →
     isFactory c = ∅ ∧ isModule c = ∅ ∧ isResource c = ∅ ∧ resourceId c = ∅).

Lemma nonzero_ok (a : Address) (reason : string) (u : ()) :
  nonzero a reason = Ok u ↔ a ≠ address0.
Proof. unfold nonzero. rewrite require_ok, negb_true_iff, bool_decide_eq_false. done. Qed.

Lemma agree_empty : agree [] ∅.
Proof. split; [constructor|]. set_solver. Qed.

Lemma agree_add (l : list Address) (f : gset Address) (a : Address) :
  agree l f → a ∉ f → agree (l ++ [a]) ({[ a ]} ∪ f).
Proof.
  intros [Hnd Hl] Ha. split.
  - apply NoDup_app. split; [done|]. split; [|apply NoDup_singleton].
    intros x Hx. rewrite list_elem_of_singleton. intros ->. apply Ha. by apply Hl.
  - intros x. rewrite elem_of_app, list_elem_of_singleton, Hl. set_solver.
Qed.

Lemma agree_remove (l l' : list Address) (f : gset Address) (a : Address) :
  agree l f → remove l a = Ok l' → agree l' (f ∖ {[ a ]}).
Proof.
  intros [Hnd Hl] E. destruct (remove_nodup l l' a Hnd E) as (_ & Hnd' & Hl').
  split; [done|]. intros x. rewrite Hl', Hl. set_solver.
Qed.

Lemma covers_add (l : list Address) (f : gset Address) (a : Address) :
  covers l f → covers (l ++ [a]) ({[ a ]} ∪ f).
Proof. intros Hl x. rewrite elem_of_app, list_elem_of_singleton. specialize (Hl x). set_solver. Qed.

Lemma covers_remove (l l' : list Address) (f : gset Address) (a : Address) :
  covers l f → remove l a = Ok l' → covers l' (f ∖ {[ a ]}).
Proof.
  intros Hl E x Hx. apply elem_of_difference in Hx as [Hx Hne].
  destruct (remove_present l a) as (l1 & r & -> & _ & Er).
  { destruct (decide (a ∈ l)) as [|Ha]; [done|]. by rewrite (remove_absent l a Ha) in E. }
  rewrite Er in E. injection E as <-. specialize (Hl x Hx). set_solver.
Qed.

Lemma flag_all_elements (l : list Address) (g f : gset Address) :
  flag_all l g = Ok f → ∀ a, a ∈ f ↔ a ∈ l ∨ a ∈ g.
Proof.
  revert g. induction l as [|x l IH]; intros g E a; cbn in E; result_inv.
  - rewrite elem_of_nil. tauto.
  - rewrite (IH _ E a), elem_of_cons. set_solver.
Qed.

Lemma flag_all_agree (l : list Address) (f : gset Address) :
  NoDup l → flag_all l ∅ = Ok f → agree l f.
Proof.
  intros Hnd E. split; [done|]. intros a. rewrite (flag_all_elements l ∅ f E). set_solver.
Qed.

Lemma flag_all_covers (l : list Address) (f : gset Address) : flag_all l ∅ = Ok f → covers l f.
Proof. intros E a. rewrite (flag_all_elements l ∅ f E). set_solver. Qed.

Lemma found_add (f : gset Address) (m : gmap Z Address) (r : Address) (id : Z) :
  (∀ x, x ∈ f → x ≠ address0 → ∃ i, m !! i = Some x) →
  default address0 (m !! id) = address0 →
  ∀ x, x ∈ ({[ r ]} ∪ f : gset Address) → x ≠ address0 → ∃ i, <[id := r]> m !! i = Some x.
Proof.
  intros Hall Hid x Hx Hx0. destruct (decide (x = r)) as [->|Hne]; [exists id; apply lookup_insert_eq|].
  destruct (Hall x) as (i & Hi); [set_solver|done|]. exists i. rewrite lookup_insert_ne; [done|].
  intros ->. rewrite Hi in Hid. done.
Qed.

Lemma found_remove (f : gset Address) (m : gmap Z Address) (id : Z) :
  (∀ x, x ∈ f → x ≠ address0 → ∃ i, m !! i = Some x) →
  default address0 (m !! id) ≠ address0 →
  ∀ x, x ∈ f ∖ {[ default address0 (m !! id) ]} → x ≠ address0 →
    ∃ i, base.delete id m !! i = Some x.
Proof.
  intros Hall Hr x Hx Hx0. destruct (m !! id) as [r|] eqn:E; cbn in *; [|done].
  destruct (Hall x) as (i & Hi); [set_solver|done|]. exists i.
  rewrite lookup_delete_ne; [done|]. intros ->. set_solver.
Qed.

(** Registering keeps every flagged resource under an identifier. *)
Lemma register_all_found (l : list (Address * Z)) (f f' : gset Address) (m m' : gmap Z Address) :
  (∀ r, r ∈ f → r ≠ address0 → ∃ id, m !! id = Some r) → register_all l f m = Ok (f', m') →
  (∀ r, r ∈ f' → r ≠ address0 → ∃ id, m' !! id = Some r) ∧ ∀ a, a ∈ f' → a ∈ l.*1 ∨ a ∈ f.
Proof.
  revert f m. induction l as [|[r id] l IH]; intros f m Hf E; cbn in E.
  { injection E as <- <-. split; [done|]. by right. }
  result_inv. match goal with H : bool_decide _ = true |- _ => apply bool_decide_eq_true in H end.
  destruct (IH ({[ r ]} ∪ f) (<[id := r]> m)) as [H' Ha]; [by apply found_add|done|].
  split; [done|]. intros a Hin. apply Ha in Hin. cbn. set_solver.
Qed.

Lemma identified_add (f : gset Address) (m : gmap Z Address) (r : Address) (id : Z) :
  identified f m → r ∉ f → default address0 (m !! id) = address0 →
  identified ({[ r ]} ∪ f) (<[id := r]> m).
Proof.
  intros (Hin & Hinj & Hall) Hr Hid. split; [|split].
  - intros i x. rewrite lookup_insert_Some. intros [[_ <-]|[_ Hx]]; [set_solver|].
    apply Hin in Hx. set_solver.
  - intros i j x. rewrite !lookup_insert_Some.
    intros [[<- <-]|[Hi Hx]] [[<- E]|[Hj Hy]]; try done.
    + by apply Hin in Hy.
    + subst x. by apply Hin in Hx.
    + by apply (Hinj i j x).
  - by apply found_add.
Qed.

Lemma identified_remove (f : gset Address) (m : gmap Z Address) (id : Z) :
  identified f m → default address0 (m !! id) ≠ address0 →
  identified (f ∖ {[ default address0 (m !! id) ]}) (base.delete id m).
Proof.
  intros (Hin & Hinj & Hall) Hr. split; [|split; [|by apply found_remove]];
    (destruct (m !! id) as [r|] eqn:E; cbn in *; [|done]).
  - intros i x. rewrite lookup_delete_Some. intros [Hne Hx].
    assert (x ≠ r) by (intros ->; apply Hne; by apply (Hinj id i r)).
    apply Hin in Hx. set_solver.
  - intros i j x. rewrite !lookup_delete_Some. intros [_ Hx] [_ Hy]. by apply (Hinj i j x).
Qed.

Lemma register_all_identified (l : list (Address * Z)) (f f' : gset Address)
    (m m' : gmap Z Address) :
  NoDup l.*1 → (∀ r, r ∈ l.*1 → r ∉ f) → identified f m → register_all l f m = Ok (f', m') →
  identified f' m' ∧ ∀ a, a ∈ f' ↔ a ∈ l.*1 ∨ a ∈ f.
Proof.
  revert f m. induction l as [|[r id] l IH]; intros f m Hnd Hdis Hid E; cbn in E, Hnd, Hdis.
  - injection E as <- <-. split; [done|]. intros a. cbn. rewrite elem_of_nil. tauto.
  - result_inv. apply NoDup_cons in Hnd as [Hr Hnd].
    match goal with H : bool_decide _ = true |- _ => apply bool_decide_eq_true in H end.
    destruct (IH ({[ r ]} ∪ f) (<[id := r]> m)) as [H' Ha]; [done| |by apply identified_add; set_solver|done|].
    + intros y Hy. specialize (Hdis y). set_solver.
    + split; [done|]. intros a. rewrite Ha. cbn. set_solver.
Qed.

(** Opens a consistent state into its components. *)
Ltac open_state :=
  match goal with H : consistent _ |- _ => destruct H as (Hs & Hf & Hm & Hr & Hid & Hun) end;
  repeat match goal with H : bool_decide _ = true |- _ => apply bool_decide_eq_true in H end;
  repeat match goal with H : negb (bool_decide _) = true |- _ =>
    apply negb_true_iff, bool_decide_eq_false in H end.

(** Closes the invariant of a state that differs in one component. *)
Ltac close_state :=
  unfold consistent; cbn;
  repeat match goal with |- _ ∧ _ => split end; try done; try (intros; congruence);
  eauto using agree_add, agree_remove, identified_add, identified_remove.

Lemma initialize_consistent (caller : Address) (fs ms rs : list Address) (ids : list Z)
    (c c' : State) :
  NoDup fs → NoDup ms → NoDup rs → consistent c →
  initialize onlyOwner caller fs ms rs ids c = Ok c' → consistent c'.
Proof.
  intros Hnf Hnm Hnr Hc E. unfold initialize in E.
  apply result_bind_ok in E as (? & _ & E). apply result_bind_ok in E as (? & Hi & E).
  apply result_bind_ok in E as (? & Hlen & E). apply result_bind_ok in E as (f & Hff & E).
  apply result_bind_ok in E as (m & Hmm & E). apply result_bind_ok in E as ([r i] & Hrr & E).
  injection E as <-. apply require_ok in Hi, Hlen. apply negb_true_iff in Hi.
  apply Nat.eqb_eq in Hlen. open_state. destruct (Hun Hi) as (Ef & Em & Er & Ei).
  rewrite Ef in Hff. rewrite Em in Hmm. rewrite Er, Ei in Hrr.
  apply register_all_identified in Hrr as [Hid' Hr'].
  - rewrite fst_zip in Hr' by lia. close_state; [by apply flag_all_agree..|].
    split; [done|]. intros a. rewrite Hr'. set_solver.
  - by rewrite fst_zip by lia.
  - set_solver.
  - split; [|split]; set_solver.
Qed.

Lemma execute_consistent (caller : Address) (o : operation) (c c' : State) :
  consistent c → distinct_arguments o → execute onlyOwner caller o c = Ok c' → consistent c'.
Proof.
  intros Hc Ho E. destruct o; cbn in E;
    [destruct Ho as (? & ? & ?); eapply initialize_consistent; [..|exact E]; assumption|..];
    unfold addSet, removeSet, addFactory, removeFactory, addModule, removeModule, addResource,
      removeResource, addFee, editFee, editFeeRecipient, onlyInitialized, onlyFactory in E;
    result_inv; open_state; close_state.
  apply identified_remove; [done|]. by eapply nonzero_ok.
Qed.

Lemma reachable_consistent (recipient : Address) (c : State) :
  reachable onlyOwner distinct_arguments recipient c → consistent c.
Proof.
  intros Hc. induction Hc as [|caller o c c' Hc IH Ho E].
  - do 4 (split; [apply agree_empty|]). split; [|done]. split; [|split]; set_solver.
  - by eapply execute_consistent.
Qed.

Ltac open_flagged :=
  match goal with H : flagged_listed _ |- _ => destruct H as (Hs & Hf & Hm & Hr & Hid & Hun) end;
  repeat match goal with H : bool_decide _ = true |- _ => apply bool_decide_eq_true in H end.

Ltac close_flagged :=
  unfold flagged_listed; cbn;
  repeat match goal with |- _ ∧ _ => split end; try done; try (intros; congruence);
  eauto using covers_add, covers_remove, found_add, found_remove.

Lemma initialize_flagged (caller : Address) (fs ms rs : list Address) (ids : list Z)
    (c c' : State) :
  flagged_listed c → initialize onlyOwner caller fs ms rs ids c = Ok c' → flagged_listed c'.
Proof.
  intros Hc E. unfold initialize in E.
  apply result_bind_ok in E as (? & _ & E). apply result_bind_ok in E as (? & Hi & E).
  apply result_bind_ok in E as (? & Hlen & E). apply result_bind_ok in E as (f & Hff & E).
  apply result_bind_ok in E as (m & Hmm & E). apply result_bind_ok in E as ([r i] & Hrr & E).
  injection E as <-. apply require_ok in Hi, Hlen. apply negb_true_iff in Hi.
  apply Nat.eqb_eq in Hlen. open_flagged. destruct (Hun Hi) as (Ef & Em & Er & Ei).
  rewrite Ef in Hff. rewrite Em in Hmm. rewrite Er, Ei in Hrr.
  apply register_all_found in Hrr as [Hid' Hr']; [|set_solver].
  rewrite fst_zip in Hr' by lia. close_flagged; [by apply flag_all_covers..|].
  intros a Ha. apply Hr' in Ha. set_solver.
Qed.

Lemma execute_flagged (caller : Address) (o : operation) (c c' : State) :
  flagged_listed c → execute onlyOwner caller o c = Ok c' → flagged_listed c'.
Proof.
  intros Hc E. destruct o; cbn in E; [by eapply initialize_flagged|..];
    unfold addSet, removeSet, addFactory, removeFactory, addModule, removeModule, addResource,
      removeResource, addFee, editFee, editFeeRecipient, onlyInitialized, onlyFactory in E;
    result_inv; open_flagged; close_flagged.
  apply found_remove; [done|]. by eapply nonzero_ok.
Qed.

(** C34. In every state the controller can reach from its deployment, through any
    transactions of any callers, an address that is flagged as a set, a factory, a
    module or a resource is in the array of them, and a flagged resource other than
    the zero address has an identifier.  If the arrays given to [initialize] have no
    duplicates - the code does not check it, and the example after this section
    shows that it is needed - each of the four arrays has no duplicates and lists
    exactly the flagged addresses, and the resource identifiers point to registered
    resources, each but the zero address having exactly one. *)
Theorem controller_consistent (recipient : Address) (c : State) :
  (reachable onlyOwner any_operation recipient c → flagged_listed c) ∧
  (reachable onlyOwner distinct_arguments recipient c → consistent c).
Proof.
  split; [|apply reachable_consistent]. intros Hc. induction Hc as [|caller o c c' Hc IH Ho E].
  - by repeat split.
  - by eapply execute_flagged.
Qed.

(** ** Registration and its undoing *)

Lemma remove_last (l : list Address) (a : Address) : a ∉ l → remove (l ++ [a]) a = Ok l.
Proof.
  intros Ha. destruct (remove_present (l ++ [a]) a) as (l' & r & E & Hl' & ->); [set_solver|].
  destruct r as [|y r _] using rev_ind.
  - apply app_inj_tail in E as [-> _]. by rewrite app_nil_r.
  - rewrite app_comm_cons, app_assoc in E. apply app_inj_tail in E as [-> _]. set_solver.
Qed.

Lemma unflag (f : gset Address) (a : Address) : a ∉ f → ({[ a ]} ∪ f) ∖ {[ a ]} = f.
Proof. set_solver. Qed.

Lemma agree_absent (l : list Address) (f : gset Address) (a : Address) :
  agree l f → a ∉ f → a ∉ l.
Proof. intros [_ Hl] Ha Hin. by apply Ha, Hl. Qed.

(** Decides the guards of an operation from the hypotheses. *)
Ltac guards :=
  unfold onlyInitialized, nonzero; cbn;
  repeat match goal with
  | H : isInitialized ?c = true |- context [isInitialized ?c] => rewrite H
  | H : ?f ?x = Ok _ |- context [?f ?x] => rewrite H
  | |- context [require (bool_decide ?P) _] => rewrite (bool_decide_true P) by set_solver
  | |- context [require (negb (bool_decide ?P)) _] => rewrite (bool_decide_false P) by set_solver
  end; cbn.

(** The owner can register any address that is not registered yet, as a
    factory, as a module or, if it is not the zero address, as a resource under a
    free identifier; removing it afterwards gives back the arrays and the flags
    there were. *)
Theorem registration_roundtrip (recipient caller a : Address) (id : Z) (c : State)
    (Hc : reachable onlyOwner distinct_arguments recipient c) (Hi : isInitialized c = true)
    (Howner : onlyOwner caller = Ok ()) :
  (a ∉ isFactory c → ∃ c1 c2, addFactory onlyOwner caller a c = Ok c1 ∧
     a ∈ isFactory c1 ∧ removeFactory onlyOwner caller a c1 = Ok c2 ∧
     getFactories c2 = getFactories c ∧ isFactory c2 = isFactory c) ∧
  (a ∉ isModule c → ∃ c1 c2, addModule onlyOwner caller a c = Ok c1 ∧
     a ∈ isModule c1 ∧ removeModule onlyOwner caller a c1 = Ok c2 ∧
     getModules c2 = getModules c ∧ isModule c2 = isModule c) ∧
  (a ∉ isResource c → a ≠ address0 → resourceId c !! id = None →
     ∃ c1 c2, addResource onlyOwner caller a id c = Ok c1 ∧ resource_at c1 id = a ∧
     removeResource onlyOwner caller id c1 = Ok c2 ∧
     getResources c2 = getResources c ∧ isResource c2 = isResource c ∧
     resourceId c2 = resourceId c).
Proof.
  apply reachable_consistent in Hc. open_state. split; [|split].
  - intros Ha. unfold addFactory. guards. do 2 eexists. split; [done|]. split; [set_solver|].
    unfold removeFactory. guards. rewrite remove_last by (by eapply agree_absent).
    cbn. split; [done|]. cbn. by rewrite unflag.
  - intros Ha. unfold addModule. guards. do 2 eexists. split; [done|]. split; [set_solver|].
    unfold removeModule. guards. rewrite remove_last by (by eapply agree_absent).
    cbn. split; [done|]. cbn. by rewrite unflag.
  - intros Ha Ha0 Hid0. unfold addResource, resource_at. rewrite Hid0. guards.
    do 2 eexists. split; [done|]. cbn. rewrite lookup_insert_eq. split; [done|].
    unfold removeResource, resource_at. cbn. rewrite lookup_insert_eq. guards.
    rewrite remove_last by (by eapply agree_absent). cbn. split; [done|]. cbn.
    rewrite unflag by done. rewrite delete_insert_id by done. done.
Qed.
End Invariant.

(** ** Concrete instances *)

Definition owner_only (a : Address) : result () :=
  require (bool_decide (a = "owner"%string)) "Ownable: caller is not the owner".

Definition state_of (r : result State) : State :=
  match r with Ok c => c | Throw _ => constructor EmptyString end.

Definition sample_initialized : State :=
  state_of (execute owner_only "owner" (Initialize ["f"] ["m1"; "m2"] ["r"] [0])
              (constructor "fees"))%string.

Definition sample_removed : State :=
  state_of (execute owner_only "owner" (RemoveModule "m1") sample_initialized)%string.

Lemma sample_initialized_reachable :
  reachable owner_only distinct_arguments "fees" sample_initialized.
Proof.
  apply (reachable_step owner_only _ "fees" "owner" (Initialize ["f"] ["m1"; "m2"] ["r"] [0])
           (constructor "fees"))%string; [apply reachable_constructor| |vm_compute; reflexivity].
  split; [|split]; apply (bool_decide_unpack _); vm_compute; exact I.
Qed.

Definition sample_duplicated : State :=
  state_of (execute owner_only "owner" (Initialize ["f"; "f"] [] [] []) (constructor "fees"))%string.

Lemma sample_duplicated_reachable :
  reachable owner_only any_operation "fees" sample_duplicated.
Proof.
  apply (reachable_step owner_only _ "fees" "owner" (Initialize ["f"; "f"] [] [] [])
           (constructor "fees"))%string; [apply reachable_constructor|exact I|].
  vm_compute. reflexivity.
Qed.

Lemma controller_consistent_witness :
  consistent sample_removed ∧ modules sample_removed = ["m2"%string] ∧
  flagged_listed sample_duplicated.
Proof.
  split; [|split; [vm_compute; reflexivity|]].
  - apply (controller_consistent owner_only "fees").
    apply (reachable_step owner_only _ "fees" "owner" (RemoveModule "m1") sample_initialized)%string;
      [apply sample_initialized_reachable|exact I|vm_compute; reflexivity].
  - apply (controller_consistent owner_only "fees"), sample_duplicated_reachable.
Defined.

Lemma registration_roundtrip_witness :
  ∃ c1 c2, addModule owner_only "owner" "m3" sample_initialized = Ok c1 ∧
    removeModule owner_only "owner" "m3" c1 = Ok c2 ∧ getModules c2 = ["m1"; "m2"]%string.
Proof.
  destruct (registration_roundtrip owner_only "fees" "owner" "m3" 7 sample_initialized)
    as (_ & H & _); [apply sample_initialized_reachable|vm_compute; reflexivity..|].
  destruct H as (c1 & c2 & E1 & _ & E2 & E3 & _); [apply (bool_decide_unpack _); vm_compute; exact I|].
  exists c1, c2. split; [exact E1|]. split; [exact E2|]. rewrite E3. vm_compute. reflexivity.
Defined.

(** With duplicates in an array of [initialize] the agreement fails: a factory listed
    twice is still listed after its removal, although it is no longer flagged. *)
Lemma initialize_duplicates :
  let c := state_of (execute owner_only "owner" (Initialize ["f"; "f"] [] [] [])
                       (constructor "fees"))%string in
  let c' := state_of (execute owner_only "owner" (RemoveFactory "f") c)%string in
  factories c' = ["f"%string] ∧ bool_decide ("f"%string ∈ isFactory c') = false.
Proof. computed. Qed.

(** The zero address can be added as a resource, and can then not be removed. *)
Lemma zero_resource :
  let c := state_of (addResource owner_only "owner" address0 5 sample_initialized) in
  resources c = ["r"%string; address0] ∧
  removeResource owner_only "owner" 5 c = Throw (Revert "Resource does not exist").
Proof. computed. Qed.
End Controller.
