(* ===== verification/Blockchain.v ===== *)
(** * Chain control

    [utils/common/blockchainUtils.ts] and [utils/common/protocolUtils.ts]: the
    requests the tool chain sends to the node, and the reading of its logs. *)
From Stdlib Require Import String.
From S2P Require Import Prelude JsString BigNumber Constants Script.

(** ** Blockchain *)

(** The private field [_snapshotId]; the provider answers the requests. *)
Record Blockchain := { _snapshotId : value }.

Definition new_Blockchain : Blockchain := {| _snapshotId := VNum 0 |}.

Definition sendJSONRpcRequestAsync {A} `{FromValue A} (method : string) (params : list value)
    : script A := rpc method params.

Definition saveSnapshotAsync (this : Blockchain) : script (value * Blockchain) :=
  response ← sendJSONRpcRequestAsync (A := value) "evm_snapshot" [];
  mret (response, {| _snapshotId := response |}).

Definition revertAsync (this : Blockchain) : script () :=
  sendJSONRpcRequestAsync "evm_revert" [_snapshotId this].

Definition revertByIdAsync (this : Blockchain) (id : value) : script () :=
  sendJSONRpcRequestAsync "evm_revert" [id].

Definition resetAsync (this : Blockchain) : script () :=
  sendJSONRpcRequestAsync "evm_revert" [VStr "0x1"].

Definition increaseTimeAsync (this : Blockchain) (duration : Z) : script () :=
  sendJSONRpcRequestAsync "evm_increaseTime" [VNum duration].

(** The block itself is returned, not its timestamp. *)
Definition getCurrentTimestamp (this : Blockchain) : script value :=
  n ← rpc (A := value) "getBlockNumber" []; rpc (A := value) "getBlock" [n].

Definition setNextBlockTimestamp (this : Blockchain) (timestamp : Z) : script () :=
  sendJSONRpcRequestAsync "evm_setNextBlockTimestamp" [VNum timestamp].

Definition waitBlocksAsync (this : Blockchain) (count : Z) : script () :=
  for_each (λ _ _, sendJSONRpcRequestAsync "evm_mine" []) (seq 0 (Z.to_nat count)) ().

(** ** Protocol utilities *)

(** The hash of the event signature and the parser of its logs belong to the big
    number library's package. *)
Class EventAbi := {
  event_topic : string → string;
  parse_log : value → option value;
}.

Section ProtocolUtils.
Context `{Ethers} `{EventAbi}.

(** A missing or empty hash is rejected; the log read is the last one of the
    latest block, whatever the hash. *)
Definition getCreatedSetTokenAddress (txnHash : option string) : script Address :=
  match txnHash with
  | None | Some EmptyString => SThrow (Error "Invalid transaction hash")
  | Some _ =>
      let topic := event_topic "SetTokenCreated(address,address,string,string)" in
      logs ← rpc (A := list value) "getLogs"
               [VObj [("fromBlock", VStr "latest"); ("toBlock", VStr "latest");
                      ("topics", VList [VStr topic])]%string];
      match last logs with
      | None => SThrow (TypeError "topics")
      | Some log =>
          match parse_log log with
          | Some args => decode_answer "_setToken" (default VUndefined (prop "_setToken" args))
          | None => SThrow (Error "no matching event")
          end
      end
  end.

Definition getDefaultPosition (component : Address) (unit : Z) : Position :=
  {| Constants.component := component; module := AddressZero; unit_ := unit; positionState := 0;
     data := EMPTY_BYTES |}.

Definition getExternalPosition (component module : Address) (unit : Z) (data : string) : Position :=
  {| Constants.component := component; Constants.module := module; unit_ := unit;
     positionState := 1; Constants.data := data |}.
End ProtocolUtils.
