(* ===== verification/Sandbox.v ===== *)
(** * Test sandboxing

    [utils/test/testingUtils.ts]: snapshots of the chain around tests, and the
    conversions and requests the tests use.  [cacheBeforeEach] may be nested; its
    hooks share one stack of snapshot identifiers. *)
From Stdlib Require Import String.
From S2P Require Import Prelude JsString BigNumber Constants Script Blockchain.

(** ** Hooks *)

(** [addSnapshotBeforeRestoreAfterEach] registers two hooks on one object. *)
Definition snapshot_beforeEach (blockchain : Blockchain) : script Blockchain :=
  '(_, blockchain') ← saveSnapshotAsync blockchain; mret blockchain'.

Definition restore_afterEach (blockchain : Blockchain) : script () := revertAsync blockchain.

(** The variables [cacheBeforeEach] closes over. *)
Record cache := { initialized : bool; blockchain : Blockchain }.

Definition new_cache : cache := {| initialized := false; blockchain := new_Blockchain |}.

(** The two hooks [cacheBeforeEach] registers; [SNAPSHOTS] is the shared stack,
    the last element on top. *)
Definition cache_beforeEach (initializer : script ()) (c : cache) (SNAPSHOTS : list value)
    : script (cache * list value) :=
  if negb (initialized c) then
    initializer;;
    '(id, b) ← saveSnapshotAsync (blockchain c);
    mret ({| initialized := true; blockchain := b |}, SNAPSHOTS ++ [id])
  else
    let snapshotId := default VUndefined (last SNAPSHOTS) in
    revertByIdAsync (blockchain c) snapshotId;;
    '(id, b) ← saveSnapshotAsync (blockchain c);
    mret ({| initialized := true; blockchain := b |}, removelast SNAPSHOTS ++ [id]).

Definition cache_after (c : cache) (SNAPSHOTS : list value) : list value :=
  if initialized c then removelast SNAPSHOTS else SNAPSHOTS.

(** Before a test the hooks of the enclosing suites run, the outermost first. *)
Fixpoint run_hooks (suites : list (script () * cache)) (SNAPSHOTS : list value)
    : script (list (script () * cache) * list value) :=
  match suites with
  | [] => mret ([], SNAPSHOTS)
  | (initializer, c) :: suites' =>
      '(c', SNAPSHOTS') ← cache_beforeEach initializer c SNAPSHOTS;
      '(rest, SNAPSHOTS'') ← run_hooks suites' SNAPSHOTS';
      mret ((initializer, c') :: rest, SNAPSHOTS'')
  end.

(** ** Requests and conversions *)
Section Requests.
Context `{Ethers}.

(** The number a block field holds. *)
Definition timestamp_of (block : value) : script Z :=
  decode_answer "timestamp" (default VUndefined (prop "timestamp" block)).

Definition getTransactionTimestamp (asyncTxn : script value) : script Z :=
  txData ← asyncTxn;
  block ← rpc (A := value) "getBlock" [default VUndefined (prop "block" txData)];
  timestamp_of block.

Definition getLastBlockTimestamp : script Z :=
  block ← rpc (A := value) "getBlock" [VStr "latest"]; timestamp_of block.

Definition mineBlockAsync : script () := sendJSONRpcRequestAsync "evm_mine" [].

Definition increaseTimeAsync (duration : Z) : script () :=
  sendJSONRpcRequestAsync "evm_increaseTime" [VNum duration];; mineBlockAsync.

Definition convertNotionalToPosition (notionalAmount : Z) (setToken : contract) : script Z :=
  supply ← call (A := Z) setToken "totalSupply" [];
  lift_result (u ← bn_pow 10 18; bn_div (bn_mul notionalAmount u) supply).

Definition convertPositionToNotional (positionAmount : Z) (setToken : contract) : script Z :=
  supply ← call (A := Z) setToken "totalSupply" [];
  lift_result (u ← bn_pow 10 18; bn_div (bn_mul positionAmount supply) u).

Definition impersonateAccount (address : Address) : script Address :=
  rpc (A := value) "hardhat_impersonateAccount" [VAddr address];;
  rpc (A := Address) "getSigner" [VAddr address].
End Requests.

(** ** The node

    What the sandbox relies on: a snapshot stores the current state of the chain
    under a new identifier, and reverting to one restores its state and forgets it
    together with every later one. *)
Class Node {S Σ : Type} (step : S → event → S * result value) := {
  chain : S → Σ;
  snapshots : S → list (value * Σ);
  node_fresh s : NoDup (snapshots s).*1;
  node_snapshot s : ∃ id s', step s (EvRpc "evm_snapshot" []) = (s', Ok id) ∧
    chain s' = chain s ∧ snapshots s' = snapshots s ++ [(id, chain s)];
  node_revert s id σ l r : snapshots s = l ++ (id, σ) :: r →
    ∃ s', step s (EvRpc "evm_revert" [id]) = (s', Ok (VBool true)) ∧
      chain s' = σ ∧ snapshots s' = l;
}.

(** ** Isolation *)
Section Isolation.
Context {S Σ : Type} (step : S → event → S * result value) `{!Node (Σ := Σ) step}.

(** An initializer has the effect [f] on the chain and takes no snapshot. *)
Definition realizes (p : script ()) (f : Σ → Σ) : Prop :=
  ∀ s, ∃ s' t, run step p s = (s', t, Ok ()) ∧ chain s' = f (chain s) ∧
    snapshots s' = snapshots s.

(** A test may do anything, fail included, but drop the snapshots of its suites. *)
Definition keeps_snapshots (p : script ()) : Prop :=
  ∀ s, ∃ extra, snapshots (final step p s) = snapshots s ++ extra.

(** The order in which the runner visits suites and tests. *)
Inductive visit :=
| Enter (initializer : script ()) (effect : Σ → Σ)
| RunTest (body : script ())
| Leave.

(** The chain as each test finds it; [None] if a hook fails. *)
Fixpoint play (vs : list visit) (suites : list (script () * cache)) (SNAPSHOTS : list value)
    (s : S) : option (list Σ) :=
  match vs with
  | [] => Some []
  | Enter initializer _ :: vs' => play vs' (suites ++ [(initializer, new_cache)]) SNAPSHOTS s
  | RunTest body :: vs' =>
      match run step (run_hooks suites SNAPSHOTS) s with
      | (s1, _, Ok (suites', SNAPSHOTS')) =>
          (chain s1 ::.) <$> play vs' suites' SNAPSHOTS' (final step body s1)
      | _ => None
      end
  | Leave :: vs' =>
      match last suites with
      | Some (_, c) => play vs' (removelast suites) (cache_after c SNAPSHOTS) s
      | None => None
      end
  end.

(** What each test should find: the effects of the suites around it, applied to
    the chain the session started from. *)
Fixpoint expected (vs : list visit) (effects : list (Σ → Σ)) (σ : Σ) : list Σ :=
  match vs with
  | [] => []
  | Enter _ f :: vs' => expected vs' (effects ++ [f]) σ
  | RunTest _ :: vs' => foldl (λ x f, f x) σ effects :: expected vs' effects σ
  | Leave :: vs' => expected vs' (removelast effects) σ
  end.

(** Visits that stay inside the outermost of [depth] suites. *)
Fixpoint nested (vs : list visit) (depth : nat) : Prop :=
  match vs with
  | [] => True
  | Enter initializer f :: vs' => realizes initializer f ∧ nested vs' (Datatypes.S depth)
  | RunTest body :: vs' => (1 ≤ depth)%nat ∧ keeps_snapshots body ∧ nested vs' depth
  | Leave :: vs' => (2 ≤ depth)%nat ∧ nested vs' (pred depth)
  end.

(** ** The invariant of a session *)

(** The chain after each of the effects in turn. *)
Fixpoint scan (σ : Σ) (fs : list (Σ → Σ)) : list Σ :=
  match fs with [] => [] | f :: fs' => f σ :: scan (f σ) fs' end.

Lemma scan_app (σ : Σ) (fs gs : list (Σ → Σ)) :
  scan σ (fs ++ gs) = scan σ fs ++ scan (foldl (λ x f, f x) σ fs) gs.
Proof. revert σ. induction fs as [|f fs IH]; intros σ; cbn; [done|]. by rewrite IH. Qed.

Lemma last_scan (σ : Σ) (fs : list (Σ → Σ)) :
  last (scan σ fs) = if decide (fs = []) then None else Some (foldl (λ x f, f x) σ fs).
Proof.
  induction fs as [|f fs _] using rev_ind; [done|]. rewrite scan_app, foldl_app. cbn.
  rewrite last_snoc. by destruct (decide (fs ++ [f] = [])) as [E|]; [destruct fs|].
Qed.

(** A subsequence ending in a known element ends before it. *)
Lemma sublist_before (xs l r : list (value * Σ)) (id : value) (τ : Σ) :
  NoDup (l ++ (id, τ) :: r).*1 → sublist (xs ++ [(id, τ)]) (l ++ (id, τ) :: r) → sublist xs l.
Proof.
  intros Hnd Hsub. assert (((id, τ) ∉ l) ∧ (id, τ) ∉ r) as [Hl Hr].
  { apply NoDup_fmap_1 in Hnd. apply NoDup_app in Hnd as (_ & Hd & [Hr _]%NoDup_cons).
    split; [|done]. intros Hin. apply (Hd _ Hin). set_solver. }
  apply sublist_app_cons_r in Hsub as [Hsub|(l1 & l2 & E & H1 & H2)].
  - apply (elem_of_sublist _ _ (id, τ)) in Hsub; set_solver.
  - destruct l2 as [|y l2 _] using rev_ind; [by apply app_inj_tail in E as [-> _]|].
    rewrite app_comm_cons, app_assoc in E. apply app_inj_tail in E as [_ <-].
    apply (elem_of_sublist _ _ (id, τ)) in H2; set_solver.
Qed.

Lemma hook_again (p : script ()) (c : cache) (stored : list (value * Σ)) (id : value) (τ : Σ)
    (s : S) :
  initialized c = true → sublist (stored ++ [(id, τ)]) (snapshots s) →
  ∃ c' id' s', yields step (cache_beforeEach p c (stored.*1 ++ [id])) s s'
                 (c', stored.*1 ++ [id']) ∧
    initialized c' = true ∧ chain s' = τ ∧ sublist (stored ++ [(id', τ)]) (snapshots s').
Proof.
  intros Hc Hsub.
  assert ((id, τ) ∈ snapshots s) as (l & r & E)%list_elem_of_split
    by (eapply elem_of_sublist; [|exact Hsub]; set_solver).
  destruct (node_revert s id τ l r E) as (s1 & R1 & Hchain1 & Hsnap1).
  destruct (node_snapshot s1) as (id' & s2 & R2 & Hchain2 & Hsnap2).
  do 2 eexists. exists s2. split; [|split; [|split]].
  - unfold cache_beforeEach. rewrite Hc, last_snoc, removelast_last. cbn [negb default].
    eapply yields_bind; [by eapply yields_rpc|].
    eapply (yields_bind _ _ _ _ _ _ (_, _)); [|apply yields_ret].
    eapply yields_bind; [by eapply yields_rpc|apply yields_ret].
  - done.
  - congruence.
  - rewrite Hsnap2, Hchain1, Hsnap1. apply sublist_app; [|done].
    pose proof (node_fresh s) as Hnd. rewrite E in *. by eapply sublist_before.
Qed.

Lemma hook_first (p : script ()) (f : Σ → Σ) (c : cache) (SNAPSHOTS : list value) (s : S) :
  initialized c = false → realizes p f →
  ∃ c' id s', yields step (cache_beforeEach p c SNAPSHOTS) s s' (c', SNAPSHOTS ++ [id]) ∧
    initialized c' = true ∧ chain s' = f (chain s) ∧
    snapshots s' = snapshots s ++ [(id, f (chain s))].
Proof.
  intros Hc Hp. destruct (Hp s) as (s1 & t & R1 & Hchain1 & Hsnap1).
  destruct (node_snapshot s1) as (id & s2 & R2 & Hchain2 & Hsnap2).
  do 2 eexists. exists s2. split; [|split; [|split]].
  - unfold cache_beforeEach. rewrite Hc. cbn [negb].
    eapply yields_bind; [by exists t|].
    eapply (yields_bind _ _ _ _ _ _ (_, _)); [|apply yields_ret].
    eapply yields_bind; [by eapply yields_rpc|apply yields_ret].
  - done.
  - congruence.
  - by rewrite Hsnap2, Hsnap1, Hchain1.
Qed.

(** The hooks of suites that have run before. *)
Lemma hooks_again (us : list (script () * cache)) (stored : list (value * Σ)) (id : value)
    (τ : Σ) (s : S) :
  Forall (λ u, initialized u.2 = true) us → us ≠ [] →
  sublist (stored ++ [(id, τ)]) (snapshots s) →
  ∃ us' id' s', yields step (run_hooks us (stored.*1 ++ [id])) s s' (us', stored.*1 ++ [id']) ∧
    us'.*1 = us.*1 ∧ Forall (λ u, initialized u.2 = true) us' ∧ chain s' = τ ∧
    sublist (stored ++ [(id', τ)]) (snapshots s').
Proof.
  intros Hus. revert id s. induction Hus as [|[p c] us Hc Hus IH]; intros id s Hne Hsub; [done|].
  destruct (hook_again p c stored id τ s Hc Hsub) as (c1 & id1 & s1 & Y1 & Hc1 & Hch1 & Hsub1).
  destruct (decide (us = [])) as [->|Hus'].
  - exists [(p, c1)], id1, s1. split; [|by repeat constructor]. cbn [run_hooks].
    eapply (yields_bind _ _ _ _ _ _ (_, _)); [exact Y1|]. cbn. apply yields_ret.
  - destruct (IH id1 s1 Hus' Hsub1) as (us2 & id2 & s2 & Y2 & Hfst & Hinit & Hch2 & Hsub2).
    exists ((p, c1) :: us2), id2, s2. split; [|split; [|split; [|done]]].
    + cbn [run_hooks]. eapply (yields_bind _ _ _ _ _ _ (_, _)); [exact Y1|].
      eapply (yields_bind _ _ _ _ _ _ (_, _)); [exact Y2|]. apply yields_ret.
    + cbn. by rewrite Hfst.
    + by constructor.
Qed.

(** The hooks of suites entered since. *)
Lemma hooks_first (ws : list (script () * cache)) (fs : list (Σ → Σ)) (SNAPSHOTS : list value)
    (s : S) :
  Forall (λ w, initialized w.2 = false) ws → Forall2 (λ w f, realizes w.1 f) ws fs →
  ∃ ws' ext s', yields step (run_hooks ws SNAPSHOTS) s s' (ws', SNAPSHOTS ++ ext.*1) ∧
    ws'.*1 = ws.*1 ∧ Forall (λ w, initialized w.2 = true) ws' ∧
    chain s' = foldl (λ x f, f x) (chain s) fs ∧ ext.*2 = scan (chain s) fs ∧
    snapshots s' = snapshots s ++ ext.
Proof.
  intros Hws Hfs. revert SNAPSHOTS s Hws.
  induction Hfs as [|[p c] f ws fs Hp Hfs IH]; intros SNAPSHOTS s Hws.
  - exists [], [], s. cbn. rewrite !app_nil_r. split; [apply yields_ret|]. by repeat constructor.
  - apply Forall_cons in Hws as [Hc Hws].
    destruct (hook_first p f c SNAPSHOTS s Hc Hp) as (c1 & id & s1 & Y1 & Hc1 & Hch1 & Hsn1).
    destruct (IH (SNAPSHOTS ++ [id]) s1 Hws)
      as (ws2 & ext & s2 & Y2 & Hfst & Hinit & Hch2 & Hext & Hsn2).
    exists ((p, c1) :: ws2), ((id, f (chain s)) :: ext), s2.
    split; [|split; [|split; [|split; [|split]]]].
    + cbn [run_hooks]. eapply (yields_bind _ _ _ _ _ _ (_, _)); [exact Y1|].
      eapply (yields_bind _ _ _ _ _ _ (_, _)); [exact Y2|].
      rewrite <- app_assoc. apply yields_ret.
    + cbn. by rewrite Hfst.
    + by constructor.
    + cbn. by rewrite Hch2, Hch1.
    + cbn. by rewrite Hext, Hch1.
    + rewrite Hsn2, Hsn1. by rewrite <- app_assoc.
Qed.

Lemma run_hooks_app (us ws us' ws' : list (script () * cache)) (n n1 n2 : list value)
    (s s1 s2 : S) :
  yields step (run_hooks us n) s s1 (us', n1) → yields step (run_hooks ws n1) s1 s2 (ws', n2) →
  yields step (run_hooks (us ++ ws) n) s s2 (us' ++ ws', n2).
Proof.
  revert us' n s. induction us as [|[p c] us IH]; intros us' n s Hu Hw.
  - destruct Hu as [t E]. cbn in E. injection E as <- <- <- <-. done.
  - destruct Hu as [t E]. cbn [run_hooks] in E. rewrite run_bind in E.
    destruct (run step (cache_beforeEach p c n) s) as [[s' t1] [[c1 n']|e]] eqn:E1; [|done].
    rewrite run_bind in E.
    destruct (run step (run_hooks us n') s') as [[s'' t2] [[us1 n'']|e]] eqn:E2; [|done].
    cbn in E. injection E as -> <- <- ->.
    cbn [run_hooks app]. eapply (yields_bind _ _ _ _ _ _ (_, _)); [by eexists|].
    eapply (yields_bind _ _ _ _ _ _ (_, _)); [eapply IH; [by eexists|done]|]. apply yields_ret.
Qed.

(** Between visits the suites entered first have run; the stack holds one snapshot
    for each of these, of the chain right after its initializer. *)
Definition sandboxed (suites : list (script () * cache)) (effects : list (Σ → Σ))
    (SNAPSHOTS : list value) (σ : Σ) (s : S) : Prop :=
  ∃ us ws fs gs stored,
    suites = us ++ ws ∧ effects = fs ++ gs ∧
    Forall (λ u, initialized u.2 = true) us ∧ Forall (λ w, initialized w.2 = false) ws ∧
    Forall2 (λ u f, realizes u.1 f) us fs ∧ Forall2 (λ w g, realizes w.1 g) ws gs ∧
    SNAPSHOTS = stored.*1 ∧ stored.*2 = scan σ fs ∧ sublist stored (snapshots s) ∧
    (us = [] → chain s = σ).

Lemma realizes_fst (us us' : list (script () * cache)) (fs : list (Σ → Σ)) :
  us'.*1 = us.*1 → Forall2 (λ u f, realizes u.1 f) us fs → Forall2 (λ u f, realizes u.1 f) us' fs.
Proof.
  intros E H. revert us' E. induction H as [|u f us fs Hu H IH]; intros [|u' us'] E; try done.
  cbn in E. injection E as E1 E2. constructor; [by rewrite E1|by apply IH].
Qed.

Lemma sandboxed_enter suites effects SNAPSHOTS σ s p f :
  sandboxed suites effects SNAPSHOTS σ s → realizes p f →
  sandboxed (suites ++ [(p, new_cache)]) (effects ++ [f]) SNAPSHOTS σ s.
Proof.
  intros (us & ws & fs & gs & st & -> & -> & ? & ? & ? & ? & ? & ? & ? & ?) Hp.
  exists us, (ws ++ [(p, new_cache)]), fs, (gs ++ [f]), st. rewrite !app_assoc.
  repeat split; try done.
  - apply Forall_app. split; [done|by repeat constructor].
  - apply Forall2_app; [done|by repeat constructor].
Qed.

(** The hooks bring the chain back to the state of the innermost suite. *)
Lemma sandboxed_hooks suites effects SNAPSHOTS σ s :
  sandboxed suites effects SNAPSHOTS σ s →
  ∃ suites' SNAPSHOTS' s', yields step (run_hooks suites SNAPSHOTS) s s' (suites', SNAPSHOTS') ∧
    length suites' = length suites ∧ chain s' = foldl (λ x f, f x) σ effects ∧
    (∀ s'', (∃ extra, snapshots s'' = snapshots s' ++ extra) → suites ≠ [] →
       sandboxed suites' effects SNAPSHOTS' σ s'').
Proof.
  intros (us & ws & fs & gs & st & -> & -> & Hus & Hws & Hfs & Hgs & -> & Hst & Hsub & Hempty).
  assert (∃ us' st' s1, yields step (run_hooks us st.*1) s s1 (us', st'.*1) ∧ us'.*1 = us.*1 ∧
            Forall (λ u, initialized u.2 = true) us' ∧ chain s1 = foldl (λ x f, f x) σ fs ∧
            st'.*2 = scan σ fs ∧ sublist st' (snapshots s1))
    as (us' & st' & s1 & Y1 & Hfst1 & Hus' & Hch1 & Hst' & Hsub').
  { destruct (decide (us = [])) as [->|Hne].
    - apply Forall2_nil_inv_l in Hfs as ->. exists [], st, s.
      split; [apply yields_ret|]. repeat split; try done. by apply Hempty.
    - destruct st as [|[id τ] st _] using rev_ind.
      { destruct fs; [apply Forall2_nil_inv_r in Hfs; done|done]. }
      rewrite fmap_app. cbn [fmap list_fmap].
      assert (τ = foldl (λ x f, f x) σ fs) as ->.
      { pose proof (last_scan σ fs) as L. rewrite <- Hst, fmap_app in L. cbn in L. rewrite last_snoc in L.
        destruct (decide (fs = [])); [done|]. congruence. }
      destruct (hooks_again us st id _ s Hus Hne Hsub)
        as (us' & id' & s1 & Y & Hfst & Hin & Hch & Hsb).
      exists us', (st ++ [(id', foldl (λ x f, f x) σ fs)]), s1. rewrite !fmap_app.
      rewrite fmap_app in Hst. repeat split; done. }
  destruct (hooks_first ws gs st'.*1 s1 Hws Hgs)
    as (ws' & ext & s2 & Y2 & Hfst2 & Hws' & Hch2 & Hext & Hsn2).
  exists (us' ++ ws'), (st'.*1 ++ ext.*1), s2.
  split; [by eapply run_hooks_app|].
  pose proof (f_equal length Hfst1) as L1. pose proof (f_equal length Hfst2) as L2.
  rewrite !length_fmap in L1, L2.
  split; [rewrite !length_app; lia|]. split; [by rewrite foldl_app, Hch2, Hch1|].
  intros s'' [extra Hex] Hne. exists (us' ++ ws'), [], (fs ++ gs), [], (st' ++ ext).
  rewrite !app_nil_r. repeat split; try done.
  - by apply Forall_app.
  - apply Forall2_app; by eapply realizes_fst.
  - by rewrite fmap_app.
  - by rewrite fmap_app, scan_app, Hst', Hext, Hch1.
  - rewrite Hex, Hsn2, <- app_assoc. apply sublist_app; [done|]. by apply sublist_inserts_r.
  - intros E. apply app_nil in E as [-> ->]. destruct us, ws; done.
Qed.

Lemma sandboxed_leave suites effects SNAPSHOTS σ s :
  sandboxed suites effects SNAPSHOTS σ s → (2 ≤ length suites)%nat →
  ∃ p c, last suites = Some (p, c) ∧
    sandboxed (removelast suites) (removelast effects) (cache_after c SNAPSHOTS) σ s.
Proof.
  intros (us & ws & fs & gs & st & -> & -> & Hus & Hws & Hfs & Hgs & -> & Hst & Hsub & Hempty) Hlen.
  destruct ws as [|[p c] ws _] using rev_ind.
  - apply Forall2_nil_inv_l in Hgs as ->. rewrite !app_nil_r in *.
    destruct us as [|[p c] us _] using rev_ind; [cbn in Hlen; lia|].
    apply Forall_app in Hus as [Hus Hc]. rewrite Forall_singleton in Hc. cbn in Hc.
    apply Forall2_app_inv_l in Hfs as (fs1 & fs2 & Hfs1 & Hfs2 & ->).
    apply Forall2_cons_inv_l in Hfs2 as (f & r & Hf & Hnil & ->).
    apply Forall2_nil_inv_l in Hnil as ->.
    exists p, c. rewrite last_snoc. split; [done|]. rewrite !removelast_last. unfold cache_after.
    rewrite Hc. rewrite scan_app in Hst.
    destruct st as [|x st _] using rev_ind; [by destruct (scan σ fs1)|].
    rewrite fmap_app in Hst. apply app_inj_tail in Hst as [Hst _].
    rewrite fmap_app. change ([x].*1) with [x.1]. rewrite removelast_last. exists us, [], fs1, [], st. rewrite !app_nil_r.
    repeat split; try done.
    + etrans; [|exact Hsub]. by apply sublist_inserts_r.
    + intros ->. cbn in Hlen. lia.
  - apply Forall_app in Hws as [Hws Hc]. rewrite Forall_singleton in Hc. cbn in Hc.
    apply Forall2_app_inv_l in Hgs as (gs1 & gs2 & Hgs1 & Hgs2 & ->).
    apply Forall2_cons_inv_l in Hgs2 as (g & r & Hg & Hnil & ->).
    apply Forall2_nil_inv_l in Hnil as ->.
    exists p, c. rewrite !app_assoc, last_snoc. split; [done|]. rewrite !removelast_last.
    unfold cache_after. rewrite Hc. exists us, ws, fs, gs1, st. done.
Qed.

Lemma play_expected (vs : list visit) suites effects SNAPSHOTS σ s :
  sandboxed suites effects SNAPSHOTS σ s → nested vs (length suites) →
  play vs suites SNAPSHOTS s = Some (expected vs effects σ).
Proof.
  revert suites effects SNAPSHOTS s.
  induction vs as [|[p f|body|] vs IH]; intros suites effects SNAPSHOTS s Hs Hn; cbn in Hn |- *.
  - done.
  - destruct Hn as [Hp Hn]. apply IH; [by apply sandboxed_enter|].
    by rewrite length_app, Nat.add_1_r.
  - destruct Hn as (Hd & Hb & Hn).
    destruct (sandboxed_hooks _ _ _ _ _ Hs) as (suites' & n' & s1 & [t ->] & Hlen & Hch & Hs').
    rewrite (IH suites' effects n').
    + cbn. by rewrite Hch.
    + apply Hs'; [apply Hb|]. intros ->. cbn in Hd. lia.
    + by rewrite Hlen.
  - destruct Hn as [Hd Hn]. destruct (sandboxed_leave _ _ _ _ _ Hs Hd) as (p & c & -> & Hs').
    apply IH; [done|]. destruct suites as [|x suites _] using rev_ind; [cbn in Hd; lia|].
    rewrite removelast_last. rewrite length_app in Hn. cbn in Hn. by rewrite Nat.add_1_r in Hn.
Qed.

(** C37. In any session of nested suites that use [cacheBeforeEach], no hook fails
    and every test finds exactly the chain its suites' initializers produce from
    the initial one, each applied once, whatever the tests before it did. *)
Theorem cache_isolation (vs : list visit) (s : S) (Hnested : nested vs 0) :
  play vs [] [] s = Some (expected vs [] (chain s)).
Proof.
  apply play_expected; [|done]. exists [], [], [], [], []. repeat split; try done.
  apply sublist_nil_l.
Qed.
End Isolation.

(** ** Restoration after a test *)
Section Restoration.
Context {S Σ : Type} (step : S → event → S * result value) `{!Node (Σ := Σ) step}.

(** After a test between the two hooks of
    [addSnapshotBeforeRestoreAfterEach] the chain and the snapshots are as before
    it, whatever the test did short of dropping that snapshot. *)
Theorem snapshot_restores (body : script ()) (b : Blockchain) (s : S)
    (Hbody : keeps_snapshots step body) :
  ∃ b' s1 s2, yields step (snapshot_beforeEach b) s s1 b' ∧
    yields step (restore_afterEach b') (final step body s1) s2 () ∧
    chain s2 = chain s ∧ snapshots s2 = snapshots s.
Proof.
  destruct (node_snapshot s) as (id & s1 & R1 & Hch1 & Hsn1).
  destruct (Hbody s1) as [extra Hex]. rewrite Hsn1, <- app_assoc in Hex. cbn in Hex.
  destruct (node_revert _ _ _ _ _ Hex) as (s2 & R2 & Hch2 & Hsn2).
  exists {| _snapshotId := id |}, s1, s2. split; [|split; [by eapply yields_rpc|done]].
  eapply (yields_bind _ _ _ _ _ _ (_, _)); [|apply yields_ret].
  eapply yields_bind; [by eapply yields_rpc|]. apply yields_ret.
Qed.
End Restoration.

(** ** Positions and notional amounts *)
Section Conversions.
Context `{Ethers}.

(** Converting a notional amount to a position and back never gives more than
    the amount, and loses less than one unit per whole token in circulation, plus
    one. *)
Theorem position_notional_roundtrip {S} (step : S → event → S * result value) (s s1 s2 : S)
    (setToken : contract) (amount supply : Z) (Ha : 0 ≤ amount) (Hs : 0 < supply)
    (H1 : step s (EvCall (signer setToken) (address setToken) "totalSupply" [])
            = (s1, Ok (VNum supply)))
    (H2 : step s1 (EvCall (signer setToken) (address setToken) "totalSupply" [])
            = (s2, Ok (VNum supply))) :
  ∃ back, outcome step (p ← convertNotionalToPosition amount setToken;
                        convertPositionToNotional p setToken) s = Ok back ∧
    back ≤ amount < back + supply / 10 ^ 18 + 2.
Proof.
  eexists. split.
  { eapply yields_outcome. eapply yields_bind.
    - eapply yields_bind; [by eapply yields_call|]. apply yields_lift. by bn_simpl.
    - eapply yields_bind; [by eapply yields_call|]. apply yields_lift. by bn_simpl. }
  set (u := 10 ^ 18). assert (Hu : 0 < u) by done. rewrite (quot_floor _ supply) by nia.
  set (p := amount * u / supply).
  assert (p * supply ≤ amount * u < (p + 1) * supply).
  { unfold p. pose proof (Z.div_mod (amount * u) supply).
    pose proof (Z.mod_pos_bound (amount * u) supply). nia. }
  assert (0 ≤ p) by (unfold p; apply Z.div_pos; nia).
  rewrite quot_floor by nia.
  pose proof (Z.mul_div_le (p * supply) u Hu). pose proof (Z.mul_succ_div_gt (p * supply) u Hu).
  pose proof (Z.mul_succ_div_gt supply u Hu). split; [nia|].
  apply (Z.mul_lt_mono_pos_l u); [done|]. nia.
Qed.
End Conversions.

(** ** A concrete node *)

(** The chain is one number; identifiers count the snapshots held. *)
Definition toy_state : Type := Z * list Z.

Definition toy_step (s : toy_state) (ev : event) : toy_state * result value :=
  let '(σ, snaps) := s in
  match ev with
  | EvRpc "evm_snapshot" _ => ((σ, snaps ++ [σ]), Ok (VNum (Z.of_nat (length snaps))))
  | EvRpc "evm_revert" [VNum id] =>
      match snaps !! Z.to_nat id with
      | Some σ' => ((σ', take (Z.to_nat id) snaps), Ok (VBool true))
      | None => (s, Ok (VBool false))
      end
  | EvCall _ _ "add" [VNum k] => ((σ + k, snaps), Ok VUndefined)
  | EvCall _ _ "totalSupply" _ => (s, Ok (VNum (3 * 10 ^ 18)))
  | _ => (s, Throw (Revert "unknown"))
  end.

Definition toy_snapshots (snaps : list Z) : list (value * Z) :=
  imap (λ i σ, (VNum (Z.of_nat i), σ)) snaps.

Lemma toy_snapshots_app (l k : list Z) :
  toy_snapshots (l ++ k) = toy_snapshots l ++ imap (λ i σ, (VNum (Z.of_nat (length l + i)), σ)) k.
Proof. unfold toy_snapshots. by rewrite imap_app. Qed.

#[local] Obligation Tactic := idtac.

#[export] Program Instance toy_node : Node toy_step := {|
  chain := fst;
  snapshots s := toy_snapshots s.2;
|}.
Next Obligation.
  intros [σ snaps]. cbn. unfold toy_snapshots. rewrite fmap_imap. apply NoDup_alt.
  intros i j v Hi Hj. apply list_lookup_imap_Some in Hi as (? & _ & ->).
  apply list_lookup_imap_Some in Hj as (? & _ & E). cbn in E. injection E. lia.
Qed.
Next Obligation.
  intros [σ snaps]. do 2 eexists. cbn. split; [done|]. split; [done|]. cbn.
  rewrite toy_snapshots_app. cbn. by rewrite Nat.add_0_r.
Qed.
Next Obligation.
  intros [σ snaps] id τ l r E. cbn in E. unfold toy_snapshots in E.
  assert (imap (λ i x, (VNum (Z.of_nat i), x)) snaps !! length l = Some (id, τ)) as L
    by (rewrite E; by apply list_lookup_middle).
  apply list_lookup_imap_Some in L as (x & Hx & [= -> ->]).
  exists (x, take (length l) snaps). cbn. rewrite Nat2Z.id, Hx. split; [done|]. split; [done|].
  cbn. unfold toy_snapshots.
  rewrite <- (take_drop (length l) snaps), imap_app in E.
  apply app_inj_1 in E as [E _]; [done|].
  rewrite length_imap, length_take. apply lookup_lt_Some in Hx. lia.
Qed.

Definition toy_add (k : Z) : script () := send (attach "o" "Toy" "toy") "add" [VNum k].

Definition toy_session : list (visit (Σ := Z)) :=
  [Enter (toy_add 1) (λ x, x + 1); RunTest (toy_add 5); Enter (toy_add 10) (λ x, x + 10);
   RunTest (toy_add 7;; SThrow (Error "assertion")); RunTest (toy_add 9); Leave;
   RunTest (toy_add 2)].

Lemma toy_realizes (k : Z) : realizes toy_step (toy_add k) (λ x, x + k).
Proof. intros [σ snaps]. do 2 eexists. by split; [vm_compute; reflexivity|]. Qed.

Lemma cache_isolation_witness : play toy_step toy_session [] [] (100, []) = Some [101; 111; 111; 101].
Proof.
  rewrite (cache_isolation toy_step toy_session (100, [])); [vm_compute; reflexivity|].
  repeat split; try apply toy_realizes; try lia;
    intros [σ snaps]; exists []; by rewrite app_nil_r.
Defined.

Lemma snapshot_restores_witness :
  ∃ b' s1 s2, yields toy_step (snapshot_beforeEach new_Blockchain) (7, []) s1 b' ∧
    yields toy_step (restore_afterEach b') (final toy_step (toy_add 3) s1) s2 () ∧
    chain s2 = 7 ∧ snapshots s2 = [].
Proof.
  destruct (snapshot_restores toy_step (toy_add 3) new_Blockchain (7, []))
    as (b' & s1 & s2 & Y1 & Y2 & E1 & E2).
  - intros [σ snaps]. exists []. by rewrite app_nil_r.
  - exists b', s1, s2. split; [exact Y1|]. split; [exact Y2|]. split.
    + rewrite E1. reflexivity.
    + rewrite E2. reflexivity.
Defined.

Lemma position_notional_roundtrip_witness :
  ∃ back, outcome toy_step
    (p ← convertNotionalToPosition 10 (attach "o" "SetToken" "set");
     convertPositionToNotional p (attach "o" "SetToken" "set")) (0, []) = Ok back ∧
    back ≤ 10 < back + 3 * 10 ^ 18 / 10 ^ 18 + 2.
Proof.
  apply (position_notional_roundtrip toy_step (0, []) (0, []) (0, [])
           (attach "o" "SetToken" "set") 10 (3 * 10 ^ 18)); [lia|lia|reflexivity|reflexivity].
Defined.
