(* ===== verification/AdapterUtils.v ===== *)
(** * Encodings for adapters and libraries

    [utils/common/adapterUtils.ts], [utils/common/libraryUtils.ts] and
    [utils/common/addressUtils.ts]: words of call data, hashes of names, and the
    placeholders of unlinked libraries. *)
From Stdlib Require Import Ascii String.
From S2P Require Import Prelude JsString BigNumber Constants Script.

(** The hash function of the package: 32 bytes in hexadecimal after [0x]. *)
Class Keccak := {
  keccak256 : Bytes → string;
  keccak256_shape b : ∃ l, keccak256 b = String.append "0x" (string_of_digits l) ∧
    length l = 64%nat ∧ Forall (is_digit 16) l;
}.

Section AdapterUtils.
Context `{Ethers} `{Keccak}.

Definition addressToData (address : string) : string :=
  replace_first "0x" "000000000000000000000000" address.

Definition bigNumberToData (number : Z) : string :=
  padStart 64 "0"%char (replace_first "0x" EmptyString (bn_toHexString number)).

(** The bytes of the name, in UTF-8. *)
Definition hashAdapterName (name : string) : string := keccak256 name.

(** [path_sep] is the separator of the platform. *)
Definition convertLibraryNameToLinkId (path_sep libraryName : string) : result string :=
  if negb (includes path_sep libraryName && includes ":" libraryName) then
    Throw (Error "Converting library name to link id requires a fully qualified contract name.")
  else
    let hashedName := keccak256 libraryName in
    Ok (String.append "__$" (String.append (slice_to 34 (slice_from 2 hashedName)) "$__")).

(** The key of the new wallet is drawn by the package. *)
Definition getRandomAddress : script Address :=
  wallet ← rpc (A := value) "createRandom" [];
  rpc (A := Address) "getAddress" [wallet].
End AdapterUtils.

(** ** Strings *)
Section Strings.

Lemma length_string_of_digits (l : list Z) : String.length (string_of_digits l) = length l.
Proof.
  induction l as [|d l IH]; [done|]. rewrite string_of_digits_cons. cbn. by rewrite IH.
Qed.

Lemma length_string_append (s t : string) :
  String.length (String.append s t) = (String.length s + String.length t)%nat.
Proof.
  induction s as [|c s IH]; [done|].
  change (String.append (String c s) t) with (String c (String.append s t)). cbn. by rewrite IH.
Qed.

Lemma substring_all (s : string) : String.substring 0 (String.length s) s = s.
Proof. induction s as [|c s IH]; [done|]. cbn. by rewrite IH. Qed.

Lemma substring_0_0 (s : string) : String.substring 0 0 s = EmptyString.
Proof. by destruct s. Qed.

Lemma length_substring_0 (n : nat) (s : string) :
  (n ≤ String.length s)%nat → String.length (String.substring 0 n s) = n.
Proof.
  revert n. induction s as [|c s IH]; intros [|n] Hn; cbn in *; try done; try lia.
  by rewrite IH by lia.
Qed.

Lemma slice_prefix (s : string) : slice_from 2 (String.append "0x" s) = s.
Proof.
  unfold slice_from. rewrite length_string_append. cbn [String.length].
  change (String.append "0x" s) with (String "0"%char (String "x"%char s)).
  replace (2 + String.length s - 2)%nat with (String.length s) by lia.
  cbn [String.substring]. apply substring_all.
Qed.

Lemma prefix_empty (s : string) : String.prefix EmptyString s = true.
Proof. by destruct s. Qed.

Lemma replace_prefix (rep s : string) :
  replace_first "0x" rep (String.append "0x" s) = String.append rep s.
Proof.
  assert (String.index 0 "0x" (String.append "0x" s) = Some 0%nat) as E.
  { change (String.append "0x" s) with (String "0"%char (String "x"%char s)).
    cbn. by rewrite prefix_empty. }
  unfold replace_first. rewrite E. unfold slice_to. rewrite substring_0_0.
  change (0 + String.length "0x")%nat with 2%nat. by rewrite slice_prefix.
Qed.

Lemma string_of_digits_zeros (n : nat) :
  string_of_list_ascii (replicate n "0"%char) = string_of_digits (replicate n 0).
Proof. unfold string_of_digits. by rewrite fmap_replicate. Qed.

Lemma string_of_digits_app (l k : list Z) :
  String.append (string_of_digits l) (string_of_digits k) = string_of_digits (l ++ k).
Proof.
  induction l as [|d l IH]; [done|]. rewrite string_of_digits_cons.
  change (String.append (String ?c ?s) ?t) with (String c (String.append s t)). by rewrite IH.
Qed.

Lemma zeros_range (n : nat) : Forall (is_digit 16) (replicate n 0).
Proof. apply Forall_replicate. unfold is_digit. lia. Qed.

Lemma undigits_zeros (n : nat) (l : list Z) :
  undigits 16 (replicate n 0 ++ l) = undigits 16 l.
Proof.
  induction n as [|n IH]; [done|]. cbn [replicate app]. rewrite undigits_cons by lia. lia.
Qed.

Lemma hex_even_length (n : Z) (k : nat) :
  0 ≤ n < 16 ^ Z.of_nat (2 * k) → (1 ≤ k)%nat → (length (hex_digits_even n) ≤ 2 * k)%nat.
Proof.
  intros Hn Hk.
  assert (length (digits 16 n) ≤ 2 * k)%nat as Hlen.
  { destruct (decide (n = 0)) as [->|Hne]; [cbn; lia|].
    destruct (digits_head 16 ltac:(lia) n) as (d & l & E & Hd); [lia|].
    pose proof (digits_undigits 16 ltac:(lia) n) as U. rewrite E, undigits_cons in U by lia.
    pose proof (digits_range 16 ltac:(lia) n ltac:(lia)) as R. rewrite E in R.
    apply Forall_cons in R as [_ Hl].
    pose proof (undigits_bound 16 ltac:(lia) l Hl).
    rewrite E. cbn [length]. apply Nat.lt_nge. intros Hlt.
    assert (16 ^ Z.of_nat (2 * k) ≤ 16 ^ Z.of_nat (length l)) by (apply Z.pow_le_mono_r; lia).
    nia. }
  unfold hex_digits_even. cbv zeta. destruct (Nat.even _) eqn:E; [done|]. cbn [length].
  destruct (decide (length (digits 16 n) = 2 * k)%nat) as [Heq|]; [|lia].
  rewrite Heq, Nat.even_mul in E. done.
Qed.
End Strings.

(** ** Words of call data *)
Section Words.
Context `{Ethers} `{Keccak}.

(** A big number that fits a 256-bit word is encoded as exactly 64
    hexadecimal digits, which read back as the number. *)
Theorem bigNumberToData_word (n : Z) (Hn : 0 ≤ n < 2 ^ 256) :
  String.length (bigNumberToData n) = 64%nat ∧ hex_value (bigNumberToData n) = Some n.
Proof.
  unfold bigNumberToData. rewrite bn_toHexString_spec, replace_prefix by lia.
  change (String.append EmptyString ?s) with s. unfold padStart.
  rewrite length_string_of_digits, string_of_digits_zeros, string_of_digits_app.
  pose proof (hex_even_length n 32) as L.
  split.
  - rewrite length_string_of_digits, length_app, length_replicate.
    assert (length (hex_digits_even n) ≤ 64)%nat by (apply L; lia). lia.
  - unfold hex_value. rewrite hex_values_of_digits.
    + cbn. by rewrite undigits_zeros, undigits_hex_even by lia.
    + apply Forall_app. split; [apply zeros_range|]. apply hex_even_range. lia.
Qed.

(** An address, [0x] and forty digits, becomes a word of 64 digits with the
    same value. *)
Theorem addressToData_word (l : list Z) (Hl : Forall (is_digit 16) l) (Hlen : length l = 40%nat) :
  String.length (addressToData (String.append "0x" (string_of_digits l))) = 64%nat ∧
  hex_value (addressToData (String.append "0x" (string_of_digits l))) = Some (undigits 16 l).
Proof.
  unfold addressToData. rewrite replace_prefix.
  change "000000000000000000000000"%string with (string_of_digits (replicate 24 0)).
  rewrite string_of_digits_app, length_string_of_digits, length_app, Hlen.
  split; [done|]. unfold hex_value. rewrite hex_values_of_digits.
  - cbn -[replicate]. by rewrite undigits_zeros.
  - apply Forall_app. split; [apply zeros_range|done].
Qed.

(** A name is accepted exactly when it holds both a path separator and a
    colon; the placeholder of an accepted name is as long as an address without
    its prefix, so that it can be replaced by one in the bytecode. *)
Theorem link_id_shape (path_sep name : string) :
  match convertLibraryNameToLinkId path_sep name with
  | Ok id => includes path_sep name = true ∧ includes ":" name = true ∧ String.length id = 40%nat
  | Throw _ => includes path_sep name = false ∨ includes ":" name = false
  end.
Proof.
  unfold convertLibraryNameToLinkId.
  destruct (includes path_sep name), (includes ":" name); cbn [andb negb]; auto.
  split; [done|]. split; [done|]. destruct (keccak256_shape name) as (l & -> & Hl & _).
  rewrite slice_prefix, !length_string_append. unfold slice_to.
  rewrite length_substring_0; [done|]. rewrite length_string_of_digits, Hl. lia.
Qed.
End Words.

(** ** Concrete instances *)

Lemma bigNumberToData_word_witness :
  hex_value (bigNumberToData (2 ^ 200 + 5)) = Some (2 ^ 200 + 5).
Proof. destruct (bigNumberToData_word (2 ^ 200 + 5)) as [_ E]; [lia|exact E]. Defined.

Definition sample_digits : list Z := replicate 20 10 ++ replicate 20 3.

Lemma addressToData_word_witness :
  hex_value (addressToData (String.append "0x" (string_of_digits sample_digits)))
    = Some (undigits 16 sample_digits).
Proof.
  destruct (addressToData_word sample_digits) as [_ E]; [|reflexivity|exact E].
  apply Forall_app; split; apply Forall_replicate; unfold is_digit; lia.
Defined.

(** A concrete function of the shape: the bytes as a number, modulo the word. *)
Definition toy_word (b : Bytes) : list Z :=
  let v := foldl (λ acc c, acc * 256 + Z.of_N (N_of_ascii c)) 0 (list_ascii_of_string b) in
  (λ i, (v / 16 ^ Z.of_nat i) mod 16) <$> reverse (seq 0 64).

#[export] Program Instance toy_keccak : Keccak := {|
  keccak256 b := String.append "0x" (string_of_digits (toy_word b));
|}.
Next Obligation.
  intros b. exists (toy_word b). split; [done|]. unfold toy_word. split.
  - by rewrite length_fmap, length_reverse.
  - apply Forall_fmap, Forall_true. intros i. unfold compose, is_digit.
    apply Z.mod_pos_bound. lia.
Qed.

Lemma link_id_shape_witness :
  String.length match convertLibraryNameToLinkId "/" "a.sol:A" with Ok id => id | Throw _ => EmptyString end
    = 0%nat ∧
  String.length match convertLibraryNameToLinkId "/" "c/a.sol:A" with Ok id => id | Throw _ => EmptyString end
    = 40%nat.
Proof.
  pose proof (link_id_shape "/" "a.sol:A") as H1. pose proof (link_id_shape "/" "c/a.sol:A") as H2.
  split; [reflexivity|].
  destruct (convertLibraryNameToLinkId "/" "c/a.sol:A") eqn:E;
    [exact (proj2 (proj2 H2))|vm_compute in E; discriminate].
Defined.

(** Negative numbers are not encoded as words: the sign ends up inside. *)
Lemma negative_data :
  bigNumberToData (-5) = "0000000000000000000000000000000000000000000000000000000000000-05"%string.
Proof. reflexivity. Qed.
