(* ===== verification/BuildTasks.v ===== *)
(** * Build configuration and tasks

    [hardhat.config.ts], [utils/wallets.ts], [tasks/subtasks.ts] and
    [utils/tasks/]: networks and accounts, the compile tasks, and the rewriting of
    gas limits in contract interfaces around the generation of bindings. *)
From Stdlib Require Import Ascii String.
From S2P Require Import Prelude JsString BigNumber Constants Script.

(** ** Gas limits in interfaces *)

(** JSON values; objects keep the order of their keys. *)
Inductive json :=
| JNull
| JBool (b : bool)
| JNumber (z : Z)
| JString (s : string)
| JArray (l : list json)
| JObject (fields : list (string * json)).

Definition fields := list (string * json).

Fixpoint get (k : string) (o : fields) : option json :=
  match o with
  | [] => None
  | (k', v) :: o' => if String.eqb k k' then Some v else get k o'
  end.

(** [{...o, k: v}]: a key that exists keeps its place. *)
Fixpoint put (k : string) (v : json) (o : fields) : fields :=
  match o with
  | [] => [(k, v)]
  | (k', v') :: o' => if String.eqb k k' then (k, v) :: o' else (k', v') :: put k v o'
  end.

(** [delete o.k]. *)
Fixpoint remove_key (k : string) (o : fields) : fields :=
  match o with
  | [] => []
  | (k', v) :: o' => if String.eqb k k' then remove_key k o' else (k', v) :: remove_key k o'
  end.

(** [abiElement.type !== "function"], negated. *)
Definition is_function (abiElement : fields) : bool :=
  match get "type" abiElement with Some (JString t) => String.eqb t "function" | _ => false end.

Section Gas.
Context `{Ethers}.

(** [coverage] is [process.env.COVERAGE === "true"]. *)
Definition gas_limit (coverage : bool) (coverageGas networkGas : js_number) : result string :=
  g ← bn_from_number (if coverage then coverageGas else networkGas);
  Ok (bn_toHexString (bn_sub g 1000000)).

Definition addGasToAbiMethods (coverage : bool) (coverageGas networkGas : js_number)
    (abi : list fields) : result (list fields) :=
  gasLimit ← gas_limit coverage coverageGas networkGas;
  Ok ((λ abiElement, if negb (is_function abiElement) then abiElement
                     else put "gas" (JString gasLimit) abiElement) <$> abi).
End Gas.

(** The elements of the argument are changed in place; its callers drop them. *)
Definition removeGasFromAbiMethods (abi : list fields) : list fields :=
  (λ abiElement, if negb (is_function abiElement) then abiElement
                 else remove_key "gas" abiElement) <$> abi.

(** ** The subtasks *)

Record artifact := { abi : list fields; rest : fields }.

(** The compiled artifact, with its interface rewritten unless
    [SKIP_ABI_GAS_MODS] is set. *)
Definition artifact_subtask `{Ethers} (skip coverage : bool) (coverageGas networkGas : js_number)
    (a : artifact) : result artifact :=
  if negb skip then
    abi' ← addGasToAbiMethods coverage coverageGas networkGas (abi a);
    Ok {| abi := abi'; rest := rest a |}
  else Ok a.

(** Files by path, as the JSON they hold. *)
Abbreviation files := (gmap string artifact).

Section Typechain.
Context `{Ethers} (coverage : bool) (coverageGas networkGas : js_number).

(** The first loop rewrites the files and remembers what it wrote; a failure leaves
    the files written before it. *)
Fixpoint inject (paths : list string) (fs : files) : files * result (list (artifact * string)) :=
  match paths with
  | [] => (fs, Ok [])
  | p :: paths' =>
      match fs !! p with
      | None => (fs, Throw (Error "Cannot find module"))
      | Some a =>
          match addGasToAbiMethods coverage coverageGas networkGas (abi a) with
          | Throw e => (fs, Throw e)
          | Ok abi' =>
              let a' := {| abi := abi'; rest := rest a |} in
              let '(fs', r) := inject paths' (<[p := a']> fs) in
              (fs', items ← r; Ok ((a', p) :: items))
          end
      end
  end.

(** The second loop takes the gas limits out again. *)
Definition restore (items : list (artifact * string)) (fs : files) : files :=
  foldl (λ fs item,
           <[item.2 := {| abi := removeGasFromAbiMethods (abi item.1); rest := rest item.1 |}]> fs)
    fs items.

(** [runSuper] generates the bindings from the files. *)
Definition typechain_subtask (paths : list string) (runSuper : files → files * result ())
    (fs : files) : files * result () :=
  match inject paths fs with
  | (fs1, Throw e) => (fs1, Throw e)
  | (fs1, Ok items) =>
      match runSuper fs1 with
      | (fs2, Throw e) => (fs2, Throw e)
      | (fs2, Ok ()) => (restore items fs2, Ok ())
      end
  end.
End Typechain.

(** ** The native compiler *)

(** What [setupNativeSolc] prints and chooses.  [output] is what [solc --version]
    prints, [None] if it cannot be run; [version] is [config.solidity.version]. *)
Inductive compiler := solcjs | native.

Definition setupNativeSolc (isFirstRun : bool) (output version : option string)
    : list string * bool * compiler :=
  let solcVersionOutput := default EmptyString output in
  let first := if isFirstRun then
                 [String.append "Local native solc version: " solcVersionOutput] else [] in
  if negb (includes (default "undefined"%string version) solcVersionOutput) then
    (first ++ (if isFirstRun then ["Using solcjs"%string] else []), false, solcjs)
  else
    (first ++ (if isFirstRun then ["Using native solc"%string] else []), false, native).

(** ** Properties *)
Section Properties.
Context `{Ethers}.

Lemma remove_put (k : string) (v : json) (o : fields) :
  get k o = None → remove_key k (put k v o) = o.
Proof.
  induction o as [|[k' v'] o IH]; intros E; cbn in *; [by rewrite String.eqb_refl|].
  destruct (String.eqb k k') eqn:Ek; [done|]. cbn. by rewrite Ek, IH.
Qed.

Lemma get_put_ne (k k' : string) (v : json) (o : fields) :
  k ≠ k' → get k (put k' v o) = get k o.
Proof.
  intros Hne%String.eqb_neq. induction o as [|[k1 v1] o IH]; cbn.
  - by rewrite Hne.
  - destruct (String.eqb k' k1) eqn:E1; cbn; [|by rewrite IH].
    apply String.eqb_eq in E1 as <-. by rewrite Hne.
Qed.

Lemma get_put_eq (k : string) (v : json) (o : fields) : get k (put k v o) = Some v.
Proof.
  induction o as [|[k' v'] o IH]; cbn; [by rewrite String.eqb_refl|].
  destruct (String.eqb k k') eqn:Ek; cbn; [by rewrite String.eqb_refl|]. by rewrite Ek.
Qed.

Lemma is_function_put (v : json) (o : fields) : is_function (put "gas" v o) = is_function o.
Proof. unfold is_function. by rewrite get_put_ne. Qed.

(** No function of the interface has a gas limit of its own. *)
Definition gas_free (abi : list fields) : Prop :=
  Forall (λ e, is_function e = true → get "gas" e = None) abi.

Lemma remove_add_gas (coverage : bool) (g g' : js_number) (a a' : list fields) :
  gas_free a → addGasToAbiMethods coverage g g' a = Ok a' → removeGasFromAbiMethods a' = a.
Proof.
  intros Hfree E. unfold addGasToAbiMethods in E. result_inv. unfold removeGasFromAbiMethods.
  rewrite <- list_fmap_compose. induction Hfree as [|e a He Hfree IH]; [done|].
  rewrite fmap_cons. f_equal; [|done]. cbn. destruct (is_function e) eqn:F; cbn.
  - rewrite is_function_put, F. cbn. apply remove_put. auto.
  - by rewrite F.
Qed.

(** Injecting the gas limit touches the functions of an interface only, gives
    each of them the limit of the environment less a million, and removing the
    limits gives back the interface there was, key order included. *)
Theorem gas_roundtrip (coverage : bool) (coverageGas networkGas : js_number) (g : Z)
    (a : list fields) (Hfree : gas_free a)
    (Hgas : bn_from_number (if coverage then coverageGas else networkGas) = Ok g) :
  ∃ a', addGasToAbiMethods coverage coverageGas networkGas a = Ok a' ∧
    Forall2 (λ e e', if is_function e then
                       get "gas" e' = Some (JString (bn_toHexString (g - 1000000))) ∧
                       ∀ k, k ≠ "gas"%string → get k e' = get k e
                     else e' = e) a a' ∧
    removeGasFromAbiMethods a' = a.
Proof.
  destruct (addGasToAbiMethods coverage coverageGas networkGas a) as [a'|e] eqn:E.
  2: { unfold addGasToAbiMethods, gas_limit in E. by rewrite Hgas in E. }
  exists a'. split; [done|]. split; [|by eapply remove_add_gas].
  unfold addGasToAbiMethods, gas_limit in E. rewrite Hgas in E. cbn in E. injection E as <-.
  apply Forall2_fmap_r, Forall2_same_length_lookup_2; [done|].
  intros i e e' He He'. rewrite He in He'. injection He' as <-.
  unfold compose. destruct (is_function e) eqn:F; cbn [negb]; [|done]. rewrite bn_sub_spec. split.
  - apply get_put_eq.
  - intros k Hk. by apply get_put_ne.
Qed.

Lemma inject_spec (coverage : bool) (g g' : js_number) (gl : string) (paths : list string)
    (fs : files) :
  gas_limit coverage g g' = Ok gl → NoDup paths →
  (∀ p, p ∈ paths → ∃ a, fs !! p = Some a ∧ gas_free (abi a)) →
  ∃ fs' items, inject coverage g g' paths fs = (fs', Ok items) ∧
    items.*2 = paths ∧ (∀ p, p ∉ paths → fs' !! p = fs !! p) ∧
    Forall (λ item, ∃ a, fs !! item.2 = Some a ∧ rest item.1 = rest a ∧
              removeGasFromAbiMethods (abi item.1) = abi a) items.
Proof.
  intros Hgl Hnd. revert fs. induction Hnd as [|p paths Hp Hnd IH]; intros fs Hfs.
  - exists fs, []. by repeat split.
  - destruct (Hfs p) as (a & Ha & Hfree); [set_solver|]. cbn [inject]. rewrite Ha.
    unfold addGasToAbiMethods. rewrite Hgl. cbn [mbind result_bind].
    set (a' := {| abi := _; rest := rest a |}).
    destruct (IH (<[p := a']> fs)) as (fs' & items & E & Hitems & Hother & Hall).
    { intros q Hq. rewrite lookup_insert_ne by set_solver. apply Hfs. set_solver. }
    rewrite E. cbn. exists fs', ((a', p) :: items). split; [done|]. split; [cbn; by rewrite Hitems|].
    split.
    + intros q Hq. rewrite Hother by set_solver. rewrite lookup_insert_ne by set_solver. done.
    + constructor.
      * exists a. split; [done|]. split; [done|]. cbn.
        apply (remove_add_gas coverage g g' (abi a)); [done|].
        unfold addGasToAbiMethods. by rewrite Hgl.
      * rewrite Forall_forall in Hall |- *. intros [b q] Hin. specialize (Hall _ Hin).
        cbn in *. assert (q ∈ paths) by (rewrite <- Hitems; apply list_elem_of_fmap; by exists (b, q)).
        rewrite lookup_insert_ne in Hall by set_solver. done.
Qed.

Lemma restore_spec (items : list (artifact * string)) (fs0 fs : files) :
  NoDup items.*2 →
  Forall (λ item, ∃ a, fs0 !! item.2 = Some a ∧ rest item.1 = rest a ∧
            removeGasFromAbiMethods (abi item.1) = abi a) items →
  (∀ p, p ∉ items.*2 → fs !! p = fs0 !! p) →
  restore items fs = fs0.
Proof.
  revert fs. induction items as [|[b q] items IH]; intros fs Hnd Hall Hother; cbn in *.
  - apply map_eq. intros p. apply Hother. set_solver.
  - apply Forall_cons in Hall as [(a & Ha & Hr & Habi) Hall]. apply NoDup_cons in Hnd as [Hq Hnd].
    apply IH; [done|done|]. intros p Hp. cbn in *. rewrite Hr, Habi.
    destruct (decide (p = q)) as [->|Hne].
    + rewrite lookup_insert_eq, Ha. by destruct a.
    + rewrite lookup_insert_ne by done. apply Hother. set_solver.
Qed.

(** Generating the bindings leaves every file as it was, when the listed
    artifacts exist and have no gas limits of their own and the generator succeeds
    without writing files; when the generator fails, the rewritten files stay. *)
Theorem typechain_restores (coverage : bool) (coverageGas networkGas : js_number) (gl : string)
    (paths : list string) (runSuper : files → files * result ()) (fs : files)
    (Hgl : gas_limit coverage coverageGas networkGas = Ok gl) (Hnd : NoDup paths)
    (Hfs : ∀ p, p ∈ paths → ∃ a, fs !! p = Some a ∧ gas_free (abi a))
    (Hsuper : ∀ fs', (runSuper fs').1 = fs') :
  ∃ fs1, (inject coverage coverageGas networkGas paths fs).1 = fs1 ∧
    typechain_subtask coverage coverageGas networkGas paths runSuper fs =
      match (runSuper fs1).2 with Ok () => (fs, Ok ()) | Throw e => (fs1, Throw e) end.
Proof.
  destruct (inject_spec coverage coverageGas networkGas gl paths fs Hgl Hnd Hfs)
    as (fs1 & items & E & Hitems & Hother & Hall).
  exists fs1. rewrite E. split; [done|]. unfold typechain_subtask. rewrite E.
  pose proof (Hsuper fs1) as Hs. destruct (runSuper fs1) as [fs2 [[]|e]]; cbn in *; subst fs2; [|done].
  f_equal. apply restore_spec; [by rewrite Hitems|done|by rewrite Hitems].
Qed.
End Properties.

(** ** A sample interface *)

Definition sample_abi : list fields :=
  [[("type", JString "function"); ("name", JString "totalSupply")];
   [("type", JString "event"); ("name", JString "Transfer")]]%string.

Lemma sample_gas_free : gas_free sample_abi.
Proof. repeat constructor. Qed.

Lemma gas_roundtrip_witness :
  ∃ a', addGasToAbiMethods false (js_of_Z 0) (js_of_Z 12000000) sample_abi = Ok a' ∧
    removeGasFromAbiMethods a' = sample_abi.
Proof.
  destruct (gas_roundtrip false (js_of_Z 0) (js_of_Z 12000000) 12000000 sample_abi)
    as (a' & E & _ & R); [exact sample_gas_free|vm_compute; reflexivity|].
  exists a'. split; [exact E|exact R].
Defined.

Definition sample_files : files :=
  {["external/abi/perp/Vault.json"%string := {| abi := sample_abi; rest := [] |}]}.

Lemma typechain_restores_witness :
  typechain_subtask false (js_of_Z 0) (js_of_Z 12000000) ["external/abi/perp/Vault.json"%string]
    (λ fs, (fs, Ok ())) sample_files = (sample_files, Ok ()).
Proof.
  destruct (typechain_restores false (js_of_Z 0) (js_of_Z 12000000) "0xa7d8c0"
              ["external/abi/perp/Vault.json"%string] (λ fs, (fs, Ok ())) sample_files)
    as (fs1 & _ & E).
  - vm_compute. reflexivity.
  - apply NoDup_singleton.
  - intros p ->%list_elem_of_singleton. exists {| abi := sample_abi; rest := [] |}.
    split; [reflexivity|exact sample_gas_free].
  - reflexivity.
  - exact E.
Defined.
