(* ===== verification/HardhatConfig.v ===== *)
(** * Hardhat configuration

    [hardhat.config.ts] and [utils/wallets.ts]: networks, accounts and the tasks
    that compile contracts in isolation. *)
From Stdlib Require Import Ascii String.
From S2P Require Import Prelude JsString BigNumber Constants Script Dependencies.

(** ** Wallets *)

Definition privateKeys : list string := [
  "0xf2f48ee19680706196e2e339e5da3491186e0c4c5030670656b0e0164837257d";
  "0x5d862464fe9303452126c8bc94274b8c5f9874cbd219789b3eb2128075a76f72";
  "0xdf02719c4df8b9b8ac7f551fcb5d9ef48fa27eef7a66453879f4d8fdc6e78fb1";
  "0xff12e391b79415e941a94de3bf3a9aee577aed0731e297d5cfa0b8a1e02fa1d0";
  "0x752dd9cf65e68cfaba7d60225cbdbc1f4729dd5e5507def72815ed0d8abc6249";
  "0xefb595a0178eb79a8df953f87c5148402a224cdf725e88c0146727c6aceadccd";
  "0x83c6d2cc5ddcf9711a6d59b417dc20eb48afd58d45290099e5987e3d768f328f";
  "0xbb2d3f7c9583780a7d3904a2f55d792707c345f21de1bacb2d389934d82796b2";
  "0xb2fd4d29c1390b71b8795ae81196bfd60293adf99f9d32a0aff06288fcdac55f" ]%string.

(** A wallet of the package holds its key. *)
Record Wallet := { wallet_key : string }.

Definition generatedWallets : list Wallet := (λ key, {| wallet_key := key |}) <$> privateKeys.

(** ** Networks *)

(** [process.env]. *)
Definition environment := string → option string.

(** A variable that is set and not empty. *)
Definition truthy (o : option string) : bool :=
  match o with None | Some EmptyString => false | Some _ => true end.

(** The text of a variable in a template; a missing one reads [undefined]. *)
Definition text (o : option string) : string := default "undefined"%string o.

Record HardhatAccount := { privateKey : string; balance : string }.

Definition getHardhatPrivateKeys : list HardhatAccount :=
  let ONE_MILLION_ETH := "1000000000000000000000000"%string in
  (λ key, {| privateKey := key; balance := ONE_MILLION_ETH |}) <$> privateKeys.

Record Network := {
  url : option string;
  network_accounts : list string;
  hardhat_accounts : list HardhatAccount;
  forking : option (string * Z);
  gas : option Z;
  blockGasLimit : option Z;
  timeout : option Z;
  allowUnlimitedContractSize : option bool;
}.

Definition remote (u : string) (accounts : list string) : Network :=
  {| url := Some u; network_accounts := accounts; hardhat_accounts := []; forking := None;
     gas := None; blockGasLimit := None; timeout := None; allowUnlimitedContractSize := None |}.

Section Config.
Context (env : environment).

Definition forkingConfig : string * Z :=
  (String.append "https://eth-mainnet.alchemyapi.io/v2/" (text (env "ALCHEMY_TOKEN")), 16889000).

(** Tests tagged for the forked chain are the only ones run when [FORK] is set, and
    the only ones left out otherwise. *)
Definition mochaConfig : string * bool * Z :=
  ("@forked-mainnet"%string, if truthy (env "FORK") then false else true,
   if truthy (env "FORK") then 100000 else 40000).

Definition hardhatNetworks : list (string * Network) :=
  [("kovan"%string,
    remote (String.append "https://kovan.infura.io/v3/" (text (env "INFURA_TOKEN")))
      [String.append "0x" (text (env "KOVAN_DEPLOY_PRIVATE_KEY"))]);
   ("staging_mainnet"%string,
    remote (String.append "https://mainnet.infura.io/v3/" (text (env "INFURA_TOKEN")))
      [String.append "0x" (text (env "STAGING_MAINNET_DEPLOY_PRIVATE_KEY"))]);
   ("production"%string,
    remote (String.append "https://mainnet.infura.io/v3/" (text (env "INFURA_TOKEN")))
      [String.append "0x" (text (env "PRODUCTION_MAINNET_DEPLOY_PRIVATE_KEY"))])].

Record Config := {
  compilers : list (string * bool * Z);
  networks : list (string * Network);
  typechain_outDir : string;
  typechain_target : string;
  externalArtifacts : list string;
  runOnCompile : bool;
  mocha : string * bool * Z;
  externalGasMods : list string;
}.

Definition config : Config :=
  {| compilers := [("0.6.10", true, 200); ("0.8.17", true, 200)]%string;
     networks :=
       [("hardhat"%string,
         {| url := None; network_accounts := []; hardhat_accounts := getHardhatPrivateKeys;
            forking := if truthy (env "FORK") then Some forkingConfig else None;
            gas := Some 12000000; blockGasLimit := Some 12000000; timeout := None;
            allowUnlimitedContractSize := Some false |});
        ("localhost"%string,
         {| url := Some "http://127.0.0.1:8545"%string; network_accounts := [];
            hardhat_accounts := []; forking := None; gas := Some 12000000;
            blockGasLimit := Some 12000000; timeout := Some 200000;
            allowUnlimitedContractSize := None |});
        ("coverage"%string,
         {| url := Some "http://127.0.0.1:8555"%string; network_accounts := [];
            hardhat_accounts := []; forking := None; gas := None; blockGasLimit := None;
            timeout := Some 200000; allowUnlimitedContractSize := None |})]
       ++ (if truthy (env "KOVAN_DEPLOY_PRIVATE_KEY") then hardhatNetworks else []);
     typechain_outDir := "typechain"%string;
     typechain_target := "ethers-v5"%string;
     externalArtifacts := ["external/**/*.json"%string];
     runOnCompile := false;
     mocha := mochaConfig;
     externalGasMods := ["external/abi/perp"%string] |}.

(** Whether the process exits with an error while the configuration is read. *)
Definition checkForkedProviderEnvironment : bool :=
  truthy (env "FORK") &&
  (negb (truthy (env "ALCHEMY_TOKEN")) ||
   bool_decide (env "ALCHEMY_TOKEN" = Some "fake_alchemy_token"%string)).
End Config.

(** ** Compile tasks *)

(** A task run by the tool; its answer is a JavaScript value. *)
Definition env_run (task : string) (args : value) : script value :=
  rpc "env.run" [VStr task; args].

Definition get_value (k : string) (v : value) : value := default VUndefined (prop k v).

(** The name of the source file of a contract. *)
Definition sourceName_of (contractName : string) : script value :=
  a ← rpc (A := value) "readArtifactSync" [VStr contractName]; mret (get_value "sourceName" a).

Definition same_source (sourceName resolvedFile : value) : bool :=
  match get_value "sourceName" resolvedFile, sourceName with
  | VStr a, VStr b => String.eqb a b
  | VUndefined, VUndefined => true
  | _, _ => false
  end.

(** Compiles the file a contract is in, and nothing else. *)
Definition compile_source (contractName : string) : script () :=
  sourceName ← sourceName_of contractName;
  dependencyGraph ← env_run "TASK_COMPILE_SOLIDITY_GET_DEPENDENCY_GRAPH"
                      (VObj [("sourceNames", VList [sourceName])]%string);
  files ← rpc (A := list value) "getResolvedFiles" [dependencyGraph];
  let resolvedFiles := List.filter (same_source sourceName) files in
  compilationJob ← env_run "TASK_COMPILE_SOLIDITY_GET_COMPILATION_JOB_FOR_FILE"
                     (VObj [("dependencyGraph", dependencyGraph);
                            ("file", default VUndefined (head resolvedFiles))]%string);
  env_run "TASK_COMPILE_SOLIDITY_COMPILE_JOB"
    (VObj [("compilationJob", compilationJob); ("compilationJobs", VList [compilationJob]);
           ("compilationJobIndex", VNum 0); ("emitsArtifacts", VBool true);
           ("quiet", VBool true)]%string);;
  mret ().

(** [index:compile:one]. *)
Definition compile_one (contractName : string) : script () :=
  compile_source contractName;; env_run "typechain" VUndefined;; mret ().

(** [index:compile:all]. *)
Definition compile_all : script () :=
  allArtifacts ← rpc (A := list string) "getAllFullyQualifiedNames" [];
  for_each (λ contractName _, compile_source contractName) allArtifacts ().

(** ** Properties *)

(** A private key is [0x] and 64 hexadecimal digits. *)
Definition is_private_key (k : string) : bool :=
  match k with
  | String "0" (String "x" digits) =>
      (String.length digits =? 64)%nat && (match hex_values digits with Some _ => true | None => false end)
  | _ => false
  end%char.

(** The local network has one account for each key, the keys are well formed
    and pairwise different, and each account starts with a million ether; the
    chain is forked exactly when [FORK] is set, and then, unless the process exits
    first, with a token that is set and is not the placeholder. *)
Theorem accounts_and_forking (env : environment) :
  NoDup privateKeys ∧ Forall (λ k, is_private_key k = true) privateKeys ∧
  (∃ n, head (networks (config env)) = Some ("hardhat"%string, n) ∧
     privateKey <$> hardhat_accounts n = privateKeys ∧
     Forall (λ a, balance a = dec_string (1000000 * 10 ^ 18)) (hardhat_accounts n) ∧
     (checkForkedProviderEnvironment env = false →
        if truthy (env "FORK") then
          ∃ token, env "ALCHEMY_TOKEN"%string = Some token ∧ token ≠ EmptyString ∧
            token ≠ "fake_alchemy_token"%string ∧
            forking n = Some (String.append "https://eth-mainnet.alchemyapi.io/v2/" token, 16889000)
        else forking n = None)).
Proof.
  split; [apply (bool_decide_unpack _); vm_compute; exact I|].
  split; [apply (bool_decide_unpack _); vm_compute; exact I|].
  eexists. split; [reflexivity|]. cbn [hardhat_accounts forking]. split; [reflexivity|].
  split; [apply (bool_decide_unpack _); vm_compute; exact I|].
  unfold checkForkedProviderEnvironment, forkingConfig.
  destruct (truthy (env "FORK")); [|done]. cbn [andb]. intros [H1 H2]%orb_false_iff.
  apply negb_false_iff in H1. apply bool_decide_eq_false in H2.
  destruct (env "ALCHEMY_TOKEN"%string) as [token|]; [|done]. exists token.
  split; [done|]. split; [by intros ->|]. split; [congruence|done].
Qed.
