(* ===== verification/Accounts.v ===== *)
(** * Accounts

    [utils/test/accountUtils.ts] and [utils/test/types.ts]: the accounts of the node
    and the tokens of the forked main net. *)
From Stdlib Require Import String.
From S2P Require Import Prelude JsString BigNumber Constants UnitsUtils Script.
From S2P Require Import Dependencies Deployer DeployMocks DeployHelper.

(** The wallet is a signer, given by its address. *)
Record Account := { address : Address; wallet : Address }.

(** [this.k] holding an account. *)
Definition account_value (a : Account) : value :=
  VObj [("address"%string, VAddr (address a)); ("wallet"%string, VAddr (wallet a))].

#[global] Instance Account_from_value : FromValue Account := λ v,
  a ← get_field (A := Address) "address" v; w ← get_field (A := Address) "wallet" v;
  Some {| address := a; wallet := w |}.

Definition ForkedTokens : Type := list (string * contract).

(** The signers the node was configured with. *)
Definition getWallets : script (list Address) := rpc "getSigners" [].

Definition getAccounts : script (list Account) :=
  wallets ← getWallets;
  for_each (λ w accounts,
    a ← rpc (A := Address) "getAddress" [VAddr w];
    mret (accounts ++ [{| address := a; wallet := w |}])) wallets [].

(** The last account; [undefined] when there is none. *)
Definition getRandomAccount : script (option Account) :=
  accounts ← getAccounts; mret (last accounts).

Definition getEthBalance (account : Address) : script Z := rpc "getBalance" [VAddr account].

Definition single (k : string) : Address := default EmptyString (dependency_single k).

Definition whales : list Address :=
  single <$> ["DAI_WHALE"; "WETH_WHALE"; "WBTC_WHALE"; "USDC_WHALE"; "STETH_WHALE"; "RETH_WHALE"]%string.

Definition tokens : list Address :=
  mainnet <$> ["DAI"; "WETH"; "WBTC"; "USDC"; "STETH"; "RETH"]%string.

Definition getForkedDependencyAddresses : list Address * list Address := (whales, tokens).

(** Each token is connected to the signer of its largest holder. *)
Definition getForkedTokens : ForkedTokens :=
  let '(whales, tokens) := getForkedDependencyAddresses in
  zip ["dai"; "weth"; "wbtc"; "usdc"; "steth"; "reth"]%string
    (zip_with (λ whale token, attach whale "IERC20" token) whales tokens).

(** Each holder is impersonated and given ether by a contract that destroys itself. *)
Definition initializeForkedTokens `{Ethers} (deployer : DeployHelper) : script () :=
  let '(whales, _) := getForkedDependencyAddresses in
  for_each (λ whale _,
    rpc (A := value) "hardhat_impersonateAccount" [VAddr whale];;
    funder ← deployForceFunderMock (mocks deployer);
    v ← lift_result (ether "100");
    send funder "fund" [VAddr whale; VObj [("value"%string, VNum v)]]) whales ().

(** Every token and every holder is an entry of the table, and they are paired as
    the names say. *)
Lemma forked_tokens_complete :
  getForkedTokens.*1 = ["dai"; "weth"; "wbtc"; "usdc"; "steth"; "reth"]%string ∧
  (Script.address <$> getForkedTokens.*2) = tokens ∧ (signer <$> getForkedTokens.*2) = whales ∧
  Forall (λ a, is_address a = true) (whales ++ tokens).
Proof. repeat split; apply (bool_decide_unpack _); vm_compute; exact I. Qed.
