(* ===== verification/Ledger.v ===== *)
(** * The ledger

    What a fixture relies on when it builds the system: deploying a contract whose
    constructor accepts its arguments creates it at a fresh address, the controller
    runs its code, and token approvals succeed.  A ledger is a chain that keeps this
    promise; [Book] is a concrete one. *)
From Stdlib Require Import String.
From S2P Require Import Prelude JsString BigNumber Constants Script.
From S2P Require Import Dependencies Deployer.
From S2P Require Controller.
#[local] Abbreviation address0 := Controller.Controller.address0.

(** ** Constructors

    What the constructors of the contracts of the system fixture demand, beyond the
    types of their arguments. *)
Definition is_uint (bits z : Z) : bool := (0 <=? z) && (z <? 2 ^ bits).

Definition constructible (name : string) (args : list value) : bool :=
  match args with
  | [] => String.eqb name "WETH9"
  | [VAddr _] =>
      bool_decide (name ∈ ["Controller"; "BasicIssuanceModule"; "IntegrationRegistry";
                           "SetTokenCreator"; "SetValuer"; "StreamingFeeModule"]%string)
  | [VNum startingPrice] => String.eqb name "OracleMock" && is_uint 256 startingPrice
  | [VAddr _; VAddr _] => String.eqb name "CustomOracleNavIssuanceModule"
  | [VAddr initialAccount; VNum initialBalance; VStr _; VStr _; VNum decimals] =>
      String.eqb name "StandardTokenMock" && negb (bool_decide (initialAccount = address0))
      && is_uint 256 initialBalance && is_uint 8 decimals
  | [VAddr _; VAddr _; VList _; VList assetOnes; VList assetTwos; VList oracles] =>
      String.eqb name "PriceOracle" && (length assetOnes =? length assetTwos)%nat
      && (length assetTwos =? length oracles)%nat
  | _ => false
  end.

(** ** The view of a ledger *)

(** The accounts of the node, the contract at each address, and for each controller
    its owner and its state. *)
Record view := {
  accounts : list Address;
  code : gmap Address string;
  controllers : gmap Address (Address * Controller.Controller.State);
}.

(** The ownership check of the contract package: the owner is the deployer. *)
Definition owned_by (owner caller : Address) : result () :=
  require (bool_decide (caller = owner)) "Ownable: caller is not the owner".

Definition deployed (from a : Address) (name : string) (args : list value) (v : view) : view :=
  {| accounts := accounts v;
     code := <[a := name]> (code v);
     controllers :=
       match args with
       | [VAddr r] => if String.eqb name "Controller"
                      then <[a := (from, Controller.Controller.constructor r)]> (controllers v)
                      else controllers v
       | _ => controllers v
       end |}.

Definition with_controller (a : Address) (c : Address * Controller.Controller.State) (v : view) : view :=
  {| accounts := accounts v; code := code v; controllers := <[a := c]> (controllers v) |}.

(** The transactions on tokens that cannot fail: approving a spender, and wrapping up
    to 5,000 ether, which every account of the node has. *)
Definition token_call (v : view) (from a : Address) (m : string) (args : list value) : bool :=
  match code v !! a, args with
  | Some n, [VAddr spender; VNum amount] =>
      String.eqb m "approve" && bool_decide (n ∈ ["WETH9"; "StandardTokenMock"]%string)
      && negb (bool_decide (spender = address0)) && is_uint 256 amount
  | Some n, [VObj [("value"%string, VNum amount)]] =>
      String.eqb m "deposit" && String.eqb n "WETH9" && bool_decide (from ∈ accounts v)
      && (0 <=? amount) && (amount <=? 5000 * 10 ^ 18)
  | _, _ => false
  end.

Class Ledger {S : Type} (step : S → event → S * result value) := {
  look : S → view;
  ledger_accounts s :
    step s (EvRpc "listAccounts" []) = (s, Ok (addresses (accounts (look s))));
  ledger_deploy s from name args : constructible name args = true →
    ∃ a s', step s (EvDeploy from name [] args) = (s', Ok (VAddr a)) ∧
      a ≠ address0 ∧ code (look s) !! a = None ∧ look s' = deployed from a name args (look s);
  ledger_token s from a m args : token_call (look s) from a m args = true →
    ∃ s' r, step s (EvCall from a m args) = (s', Ok r) ∧ look s' = look s;
  ledger_initialize s from a owner c fs ms rs ids :
    controllers (look s) !! a = Some (owner, c) →
    match Controller.Controller.initialize (owned_by owner) from fs ms rs ids c with
    | Ok c' => ∃ s' r,
        step s (EvCall from a "initialize" [addresses fs; addresses ms; addresses rs; numbers ids])
          = (s', Ok r) ∧ look s' = with_controller a (owner, c') (look s)
    | Throw e => ∃ s',
        step s (EvCall from a "initialize" [addresses fs; addresses ms; addresses rs; numbers ids])
          = (s', Throw e) ∧ look s' = look s
    end;
}.

(** ** A concrete ledger *)
Module Book.

Definition fresh_address (v : view) : Address := fresh ({[ address0 ]} ∪ dom (code v)).

Lemma fresh_address_spec (v : view) : fresh_address v ≠ address0 ∧ code v !! fresh_address v = None.
Proof.
  pose proof (is_fresh ({[ address0 ]} ∪ dom (code v) : gset Address)) as F.
  change (fresh _) with (fresh_address v) in F. split; [set_solver|].
  apply not_elem_of_dom. set_solver.
Qed.

Definition step (v : view) (ev : event) : view * result value :=
  match ev with
  | EvRpc m [] =>
      if String.eqb m "listAccounts" then (v, Ok (addresses (accounts v)))
      else (v, Throw (Error "unsupported"))
  | EvDeploy from name [] args =>
      if constructible name args then
        let a := fresh_address v in (deployed from a name args v, Ok (VAddr a))
      else (v, Throw (Revert EmptyString))
  | EvCall from a m args =>
      if token_call v from a m args then (v, Ok VUndefined)
      else
        match controllers v !! a, args with
        | Some (owner, c), [fs; ms; rs; ids] =>
            if String.eqb m "initialize" then
              match from_value fs, from_value ms, from_value rs, from_value ids with
              | Some fs, Some ms, Some rs, Some ids =>
                  match Controller.Controller.initialize (owned_by owner) from fs ms rs ids c with
                  | Ok c' => (with_controller a (owner, c') v, Ok VUndefined)
                  | Throw e => (v, Throw e)
                  end
              | _, _, _, _ => (v, Throw (Error "unsupported"))
              end
            else (v, Throw (Error "unsupported"))
        | _, _ => (v, Throw (Error "unsupported"))
        end
  | _ => (v, Throw (Error "unsupported"))
  end.

Lemma from_addresses (l : list Address) : from_value (addresses l) = Some l.
Proof. apply mapM_Some. induction l; by constructor. Qed.

Lemma from_numbers (l : list Z) : from_value (numbers l) = Some l.
Proof. apply mapM_Some. induction l; by constructor. Qed.

#[export] Program Instance Ledger_step : Ledger step := {| look := λ v, v |}.
Next Obligation. done. Qed.
Next Obligation.
  intros v from name args E. destruct (fresh_address_spec v) as [Hz Hn].
  eexists _, _. cbn. rewrite E. repeat split; eauto.
Qed.
Next Obligation. intros v from a m args E. eexists _, _. cbn. by rewrite E. Qed.
Next Obligation.
  intros v from a owner c fs ms rs ids E. cbn beta in E |- *. unfold step.
  assert (token_call v from a "initialize" [addresses fs; addresses ms; addresses rs; numbers ids]
          = false) as -> by (unfold token_call; by destruct (code v !! a)).
  rewrite E, !from_addresses, from_numbers. cbn [String.eqb Ascii.eqb Bool.eqb].
  destruct (Controller.Controller.initialize _ _ _ _ _ _ _); eauto.
Qed.
End Book.

(** ** Weakest preconditions of methods *)
Section Wp.
Context {S : Type} (step : S → event → S * result value).
Implicit Types (this : jsobj) (s : S).

(** The method succeeds, in a state the postcondition holds of. *)
Definition wp {A} (m : method A) (Q : A → jsobj → S → Prop) this s : Prop :=
  ∃ a this' s', yields step (m this) s s' (a, this') ∧ Q a this' s'.

Lemma wp_ret {A} (a : A) Q this s : Q a this s → wp (mret a) Q this s.
Proof. intros H. exists a, this, s. split; [apply yields_ret|done]. Qed.

Lemma wp_bind {A B} (m : method A) (f : A → method B) Q this s :
  wp m (λ a, wp (f a) Q) this s → wp (m ≫= f) Q this s.
Proof.
  intros (a & this1 & s1 & Hm & b & this2 & s2 & Hf & HQ).
  exists b, this2, s2. split; [|done]. unfold mbind at 1, method_bind. by eapply yields_bind.
Qed.

Lemma wp_await {A} (p : script A) Q this s s' a :
  yields step p s s' a → Q a this s' → wp (await p) Q this s.
Proof.
  intros Hp HQ. exists a, this, s'. split; [|done]. unfold await.
  eapply yields_bind; [done|]. apply (yields_ret step (a, this)).
Qed.

Lemma wp_set_contract k c Q this s :
  Q () (<[k := FContract c]> this) s → wp (set_contract k c) Q this s.
Proof. intros H. eexists _, _, _. split; [apply (yields_ret step ((), _))|done]. Qed.

Lemma wp_set_value k v Q this s :
  Q () (<[k := FValue v]> this) s → wp (set_value k v) Q this s.
Proof. intros H. eexists _, _, _. split; [apply (yields_ret step ((), _))|done]. Qed.

Lemma wp_assign k p Q this s s' c :
  yields step p s s' c → Q () (<[k := FContract c]> this) s' → wp (assign k p) Q this s.
Proof.
  intros Hp HQ. apply wp_bind. eapply wp_await; [done|]. by apply wp_set_contract.
Qed.

Lemma wp_this_contract k Q this s c :
  this !! k = Some (FContract c) → Q c this s → wp (this_contract k) Q this s.
Proof.
  intros E HQ. exists c, this, s. split; [|done]. unfold this_contract. rewrite E.
  apply (yields_ret step (c, this)).
Qed.

Lemma wp_this_address k Q this s c :
  this !! k = Some (FContract c) → Q (address c) this s → wp (this_address k) Q this s.
Proof. intros E HQ. apply wp_bind. eapply wp_this_contract; [done|]. by apply wp_ret. Qed.

Lemma wp_this_value {A} `{FromValue A} k Q this s v (a : A) :
  this !! k = Some (FValue v) → from_value v = Some a → Q a this s → wp (this_value k) Q this s.
Proof.
  intros E F HQ. exists a, this, s. split; [|done]. unfold this_value. rewrite E, F.
  apply (yields_ret step (a, this)).
Qed.
End Wp.
