(* ===== verification/SystemFixture.v ===== *)
(** * The system fixture

    [utils/fixtures/systemFixture.ts]: the deployment of a whole system, and what a
    ledger holds after it. *)
From Stdlib Require Import String.
From S2P Require Import Prelude JsString BigNumber Constants UnitsUtils Script.
From S2P Require Import Dependencies Deployer DeployCoreContracts DeployModules DeployMocks.
From S2P Require Import DeployExternalContracts DeployHelper Blockchain Ledger.
From S2P Require Controller.

(** ** The class *)
Section SystemFixture.
Context `{Ethers}.

(** What the constructor sets; the signer is the owner. *)
Context (_ownerAddress : Address).
#[local] Abbreviation _deployer := (new_DeployHelper _ownerAddress).
#[local] Abbreviation address0 := Controller.Controller.address0.

(** Ether sent along with a transaction. *)
Definition weth_deposit (value : Z) : list Script.value := [VObj [("value"%string, VNum value)]].

Definition approve (token : string) (amount : Z) : method () :=
  spender ← this_address "issuanceModule";
  c ← this_contract token;
  await (send c "approve" [VAddr spender; VNum amount]).

Definition initializeStandardComponents : method () :=
  assign "weth" (deployWETH (external _deployer));;
  ten_thousand ← await (lift_result (ether "10000"));
  assign "usdc" (deployTokenMock (mocks _deployer) _ownerAddress (Some ten_thousand) (Some 6) None None);;
  assign "wbtc" (deployTokenMock (mocks _deployer) _ownerAddress (Some ten_thousand) (Some 8) None None);;
  million ← await (lift_result (ether "1000000"));
  assign "dai" (deployTokenMock (mocks _deployer) _ownerAddress (Some million) (Some 18) None None);;
  p1 ← await (lift_result (ether "230")); set_value "component1Price" (VNum p1);;
  p2 ← await (lift_result (ether "1")); set_value "component2Price" (VNum p2);;
  p3 ← await (lift_result (ether "9000")); set_value "component3Price" (VNum p3);;
  p4 ← await (lift_result (ether "1")); set_value "component4Price" (VNum p4);;
  p1 ← this_value "component1Price"; assign "ETH_USD_Oracle" (deployOracleMock (mocks _deployer) p1);;
  p2 ← this_value "component2Price"; assign "USD_USD_Oracle" (deployOracleMock (mocks _deployer) p2);;
  p3 ← this_value "component3Price"; assign "BTC_USD_Oracle" (deployOracleMock (mocks _deployer) p3);;
  p4 ← this_value "component4Price"; assign "DAI_USD_Oracle" (deployOracleMock (mocks _deployer) p4);;
  weth ← this_contract "weth";
  five_thousand ← await (lift_result (ether "5000"));
  await (send weth "deposit" (weth_deposit five_thousand));;
  approve "weth" ten_thousand;;
  approve "usdc" ten_thousand;;
  approve "wbtc" ten_thousand;;
  approve "dai" ten_thousand.

Definition deployPriceOracle : method () :=
  controller ← this_address "controller";
  weth ← this_address "weth"; usdc ← this_address "usdc"; wbtc ← this_address "wbtc";
  dai ← this_address "dai";
  eth_usd ← this_address "ETH_USD_Oracle"; usd_usd ← this_address "USD_USD_Oracle";
  btc_usd ← this_address "BTC_USD_Oracle"; dai_usd ← this_address "DAI_USD_Oracle";
  assign "priceOracle"
    (DeployCoreContracts.deployPriceOracle (core _deployer) controller usdc []
       [weth; usdc; wbtc; dai] [usdc; usdc; usdc; usdc] [eth_usd; usd_usd; btc_usd; dai_usd]).

(** A field assigned from a helper that takes the address of the controller. *)
Definition with_controller_address (k : string) (helper : Address → script contract) : method () :=
  controller ← this_address "controller"; assign k (helper controller).

Definition initialize : method () :=
  listed ← await (rpc (A := list value) "listAccounts" []);
  set_value "feeRecipient" (default VUndefined (listed !! 3%nat));;
  feeRecipient ← this_value "feeRecipient";
  assign "controller" (deployController (core _deployer) feeRecipient);;
  with_controller_address "issuanceModule" (deployBasicIssuanceModule (modules _deployer));;
  initializeStandardComponents;;
  with_controller_address "integrationRegistry" (deployIntegrationRegistry (core _deployer));;
  with_controller_address "factory" (deploySetTokenCreator (core _deployer));;
  deployPriceOracle;;
  with_controller_address "integrationRegistry" (deployIntegrationRegistry (core _deployer));;
  with_controller_address "setValuer" (deploySetValuer (core _deployer));;
  with_controller_address "streamingFeeModule" (deployStreamingFeeModule (modules _deployer));;
  controller ← this_address "controller"; weth ← this_address "weth";
  assign "navIssuanceModule"
    (deployCustomOracleNavIssuanceModule (modules _deployer) controller weth);;
  controller ← this_contract "controller";
  factory ← this_address "factory";
  issuanceModule ← this_address "issuanceModule";
  streamingFeeModule ← this_address "streamingFeeModule";
  navIssuanceModule ← this_address "navIssuanceModule";
  integrationRegistry ← this_address "integrationRegistry";
  priceOracle ← this_address "priceOracle";
  setValuer ← this_address "setValuer";
  await (send controller "initialize"
    [addresses [factory];
     addresses [issuanceModule; streamingFeeModule; navIssuanceModule];
     addresses [integrationRegistry; priceOracle; setValuer];
     numbers [0; 1; 2]]).

(** Defaults of the optional parameters. *)
Definition createSetToken `{EventAbi} (components : list Address) (units : list Z)
    (modules : list Address) (manager : option Address) (name symbol : option string)
    : method contract :=
  let manager := default _ownerAddress manager in
  let name := default "SetToken"%string name in
  let symbol := default "SET"%string symbol in
  factory ← this_contract "factory";
  txHash ← await (call (A := value) factory "create"
    [addresses components; numbers units; addresses modules; VAddr manager; VStr name; VStr symbol]);
  hash ← await (lift_result (js_get "hash" txHash));
  retrievedSetAddress ← await (getCreatedSetTokenAddress (from_value hash));
  mret (attach _ownerAddress "SetToken" retrievedSetAddress).

Definition createNonControllerEnabledSetToken (components : list Address) (units : list Z)
    (modules : list Address) (manager : option Address) (name symbol : option string)
    : method contract :=
  let manager := default _ownerAddress manager in
  let name := default "SetToken"%string name in
  let symbol := default "SET"%string symbol in
  controller ← this_address "controller";
  await (deploySetToken (core _deployer) components units modules controller manager name symbol).

Definition approveAndIssueSetToken (setToken : contract) (issueQuantity : Z) (to : option Address)
    : method () :=
  let to := default _ownerAddress to in
  positions ← await (call (A := list value) setToken "getPositions" []);
  issuanceModule ← this_contract "issuanceModule";
  await (for_each (λ position _,
    component ← lift_result (js_get "component" position);
    component ← decode_answer "component" component;
    let componentInstance := getTokenMock (mocks _deployer) component in
    send componentInstance "approve" [VAddr (address issuanceModule); VNum MAX_UINT_256])
    positions ());;
  await (send issuanceModule "issue" [VAddr (address setToken); VNum issueQuantity; VAddr to]).
End SystemFixture.

(** ** The system on a ledger *)
Section System.
Context `{Ethers} {S : Type} (step : S → event → S * result value) `{!Ledger step}.
Context (owner recipient : Address).
#[local] Abbreviation address0 := Controller.Controller.address0.
Implicit Types (s : S) (this : jsobj) (cs : gmap Address (Address * Controller.Controller.State)).

Lemma from_values (l : list value) : from_value (VList l) = Some l.
Proof. apply mapM_Some. induction l; by constructor. Qed.

(** The contracts deployed so far, newest first: at different addresses, none of
    them zero, and all still there; the owner is an account of the node. *)
Definition holds (deps : list (Address * string)) cs s : Prop :=
  owner ∈ accounts (look s) ∧ controllers (look s) = cs ∧ NoDup deps.*1 ∧
  Forall (λ d, code (look s) !! d.1 = Some d.2 ∧ d.1 ≠ address0) deps.

Lemma holds_lookup deps cs s a n :
  holds deps cs s → (a, n) ∈ deps → code (look s) !! a = Some n ∧ a ≠ address0.
Proof. intros (_ & _ & _ & F) Hin. rewrite Forall_forall in F. apply (F _ Hin). Qed.

(** Contracts of different names are at different addresses. *)
Lemma holds_some deps cs s l :
  holds deps cs s → Forall (.∈ deps) l → NoDup l.*2 →
  NoDup l.*1 ∧ Forall (.≠ address0) l.*1 ∧ ((λ a, code (look s) !! a) <$> l.*1) = Some <$> l.*2.
Proof.
  intros Hh Hin Hnd. induction Hin as [|[a n] l Hd Hin IH]; [by repeat constructor|].
  cbn [fmap list_fmap fst snd] in Hnd |- *. apply NoDup_cons in Hnd as [Hn Hnd].
  destruct (IH Hnd) as (IH1 & IH2 & IH3). destruct (holds_lookup deps cs s a n Hh Hd) as [Ha Hz].
  split; [|split; [by constructor|by f_equal]]. apply NoDup_cons. split; [|done].
  intros ([b m] & -> & Hb)%list_elem_of_fmap. cbn in Ha. apply Hn.
  rewrite Forall_forall in Hin. destruct (holds_lookup deps cs s b m Hh (Hin _ Hb)) as [Hm _].
  apply list_elem_of_fmap. exists (b, m). cbn. split; [congruence|done].
Qed.

Lemma holds_ne deps cs s i j a b n m :
  holds deps cs s → deps !! i = Some (a, n) → deps !! j = Some (b, m) → i ≠ j → a ≠ b.
Proof.
  intros (_ & _ & Hnd & _) Hi Hj Hij <-. apply Hij. apply (NoDup_lookup deps.*1 i j a Hnd).
  - by rewrite list_lookup_fmap, Hi.
  - by rewrite list_lookup_fmap, Hj.
Qed.

(** What a deployment does to the book-keeping. *)
Definition new_controllers (a : Address) (name : string) (args : list value) cs :=
  controllers (deployed owner a name args {| accounts := []; code := ∅; controllers := cs |}).

Lemma holds_deploy deps cs s name args :
  holds deps cs s → constructible name args = true →
  ∃ a s', yields step (deploy owner name [] args) s s' (attach owner name a) ∧
    holds ((a, name) :: deps) (new_controllers a name args cs) s'.
Proof.
  intros (Ho & Hc & Hnd & F) Hargs.
  destruct (ledger_deploy s owner name args Hargs) as (a & s' & E & Hz & Hnew & Hs').
  exists a, s'. split; [eexists; cbn; by rewrite E|]. unfold holds. rewrite Hs'. cbn.
  split; [done|]. split; [by rewrite <- Hc|]. rewrite Forall_forall in F. split.
  - apply NoDup_cons. split; [|done]. intros (d & -> & Hd)%list_elem_of_fmap.
    destruct (F _ Hd) as [Hd' _]. congruence.
  - constructor; [by rewrite lookup_insert_eq|]. apply Forall_forall. intros d Hd.
    destruct (F _ Hd) as [Hd' ?]. split; [|done]. rewrite lookup_insert_ne; [done|congruence].
Qed.

Lemma wp_deploy k name args (Q : () → jsobj → S → Prop) this s deps cs :
  holds deps cs s → constructible name args = true →
  (∀ a s', holds ((a, name) :: deps) (new_controllers a name args cs) s' →
     Q () (<[k := FContract (attach owner name a)]> this) s') →
  wp step (assign k (deploy owner name [] args)) Q this s.
Proof.
  intros Hh Hargs HQ. destruct (holds_deploy deps cs s name args Hh Hargs) as (a & s' & E & Hh').
  eapply wp_assign; [done|]. by apply HQ.
Qed.

Lemma wp_token n a m args (Q : () → jsobj → S → Prop) this s deps cs :
  holds deps cs s → token_call (look s) owner a m args = true →
  (∀ s', holds deps cs s' → Q () this s') →
  wp step (await (send (attach owner n a) m args)) Q this s.
Proof.
  intros Hh Hok HQ. destruct (ledger_token s owner a m args Hok) as (s' & r & E & Hl).
  eapply (wp_await step _ _ _ _ s' ()); [by eapply yields_call|]. apply HQ.
  unfold holds in *. by rewrite Hl.
Qed.

Lemma wp_approve token amount n a im mn (Q : () → jsobj → S → Prop) this s deps cs :
  holds deps cs s → this !! "issuanceModule"%string = Some (FContract (attach owner mn im)) →
  this !! token = Some (FContract (attach owner n a)) → (im, mn) ∈ deps → (a, n) ∈ deps →
  bool_decide (n ∈ ["WETH9"; "StandardTokenMock"]%string) = true → is_uint 256 amount = true →
  (∀ s', holds deps cs s' → Q () this s') →
  wp step (approve token amount) Q this s.
Proof.
  intros Hh Him Htok Hin Hin' Hn Hamount HQ. unfold approve.
  apply wp_bind. eapply wp_this_address; [done|]. apply wp_bind. eapply wp_this_contract; [done|].
  eapply wp_token; [done| |done]. unfold token_call.
  destruct (holds_lookup deps cs s a n Hh Hin') as [-> _].
  destruct (holds_lookup deps cs s im mn Hh Hin) as [_ Hz]. cbn [address attach].
  rewrite Hn, Hamount, bool_decide_false by done. done.
Qed.

Lemma wp_deposit amount a (Q : () → jsobj → S → Prop) this s deps cs :
  holds deps cs s → (a, "WETH9"%string) ∈ deps →
  (0 <=? amount) && (amount <=? 5000 * 10 ^ 18) = true →
  (∀ s', holds deps cs s' → Q () this s') →
  wp step (await (send (attach owner "WETH9" a) "deposit" (weth_deposit amount))) Q this s.
Proof.
  intros Hh Hin Ha HQ. eapply wp_token; [done| |done]. unfold token_call, weth_deposit.
  destruct (holds_lookup deps cs s a _ Hh Hin) as [-> _]. destruct Hh as (Ho & _).
  rewrite (bool_decide_true _ Ho). by rewrite <- andb_assoc, Ha.
Qed.

(** ** Registering the system *)

(** What the controller holds after registering one factory, three modules and three
    resources under the identifiers 0, 1 and 2. *)
Definition registers (ctl fac : Address) (ms rs : list Address) (c : Controller.Controller.State) : Prop :=
  Controller.Controller.consistent c ∧ Controller.Controller.isInitialized c = true ∧
  Controller.Controller.feeRecipient c = recipient ∧
  Controller.Controller.factories c = [fac] ∧ Controller.Controller.modules c = ms ∧
  Controller.Controller.resources c = rs ∧
  (∀ i r, rs !! i = Some r → Controller.Controller.resource_at c (Z.of_nat i) = r) ∧
  ∀ x, Controller.Controller.isSystemContract ctl c x = bool_decide (x ∈ ctl :: fac :: ms ++ rs).

Ltac run_initialize :=
  unfold Controller.Controller.initialize, owned_by; cbn [Controller.Controller.flag_all
    Controller.Controller.register_all zip zip_with];
  unfold Controller.Controller.nonzero;
  repeat (first [rewrite bool_decide_false by assumption | rewrite bool_decide_true by reflexivity];
          cbn [negb require mbind result_bind]); cbn.

Lemma register_system ctl fac m1 m2 m3 r0 r1 r2 :
  Forall (.≠ address0) [fac; m1; m2; m3; r0; r1; r2] → NoDup [m1; m2; m3] → NoDup [r0; r1; r2] →
  ∃ c, Controller.Controller.initialize (owned_by owner) owner [fac] [m1; m2; m3] [r0; r1; r2] [0; 1; 2]
         (Controller.Controller.constructor recipient) = Ok c ∧
    registers ctl fac [m1; m2; m3] [r0; r1; r2] c.
Proof.
  intros Hz Hm Hr. rewrite !Forall_cons in Hz. destruct Hz as (? & ? & ? & ? & ? & ? & ? & _).
  eexists. split.
  - run_initialize. reflexivity.
  - set (c := Controller.Controller.set_initialized _). split.
    + apply (Controller.Controller.reachable_consistent (owned_by owner) recipient).
      apply (Controller.Controller.reachable_step (owned_by owner) _ recipient owner
        (Controller.Controller.Initialize [fac] [m1; m2; m3] [r0; r1; r2] [0; 1; 2])
        (Controller.Controller.constructor recipient)).
      * apply Controller.Controller.reachable_constructor.
      * split; [apply NoDup_singleton|done].
      * cbn [Controller.Controller.execute]. run_initialize. reflexivity.
    + do 5 (split; [reflexivity|]). split.
      * intros [|[|[|i]]] r; [intros [= <-]; reflexivity..|discriminate].
      * intros x. unfold Controller.Controller.isSystemContract. cbn.
        rewrite <- !bool_decide_or. apply bool_decide_ext. clear; set_solver.
Qed.

(** ** The run of [initialize] *)

Ltac solve_in := first [apply list_elem_of_here | apply list_elem_of_further; solve_in].

Ltac solve_ether :=
  lazymatch goal with
  | |- ether "10000" = _ => exact (ether_eq 10000 ltac:(lia))
  | |- ether "1000000" = _ => exact (ether_eq 1000000 ltac:(lia))
  | |- ether "230" = _ => exact (ether_eq 230 ltac:(lia))
  | |- ether "1" = _ => exact (ether_eq 1 ltac:(lia))
  | |- ether "9000" = _ => exact (ether_eq 9000 ltac:(lia))
  | |- ether "5000" = _ => exact (ether_eq 5000 ltac:(lia))
  end.

Ltac solve_constructible :=
  unfold constructible; rewrite ?bool_decide_false by assumption; reflexivity.

(** A helper of the deployer, down to the deployment it performs. *)
Ltac deploy_step Hold :=
  match goal with
  | |- wp _ (assign _ ?p) _ _ _ =>
      let f := head_of p in
      let q := eval unfold f, or_default in p in
      let q := eval cbn [mbind script_bind default from_option id] in q in
      change p with q;
      eapply wp_deploy; [exact Hold|solve_constructible|];
      let a := fresh "a" in let s' := fresh "s" in let Hh := fresh "Hh" in
      intros a s' Hh; clear Hold; unfold new_controllers in Hh;
      cbn [deployed controllers String.eqb Ascii.eqb Bool.eqb] in Hh
  end.

(** A transaction that leaves the book as it is. *)
Ltac send_step Hold :=
  let s' := fresh "s" in let Hh := fresh "Hh" in intros s' Hh; clear Hold.

(** One operation of a method. *)
Ltac method_step :=
  cbv beta;
  match goal with Hold : holds _ _ _ |- _ =>
  lazymatch goal with
  | |- wp _ (await (lift_result _)) _ _ _ =>
      eapply wp_await; [apply yields_lift; solve_ether|]
  | |- wp _ (set_value _ _) _ _ _ => apply wp_set_value
  | |- wp _ (this_contract _) _ _ _ => eapply wp_this_contract; [reflexivity|]
  | |- wp _ (this_address _) _ _ _ => eapply wp_this_address; [reflexivity|]; cbn [address attach]
  | |- wp _ (this_value _) _ _ _ => eapply wp_this_value; [reflexivity|reflexivity|]
  | |- wp _ (assign _ _) _ _ _ => deploy_step Hold
  | |- wp _ (approve _ _) _ _ _ =>
      eapply wp_approve;
      [exact Hold|reflexivity|reflexivity|solve_in|solve_in|reflexivity|reflexivity|send_step Hold]
  | |- wp _ (await (send _ "deposit" _)) _ _ _ =>
      eapply wp_deposit; [exact Hold|solve_in|reflexivity|send_step Hold]
  | |- wp _ (with_controller_address _ _) _ _ _ => unfold with_controller_address
  | |- wp _ (deployPriceOracle _) _ _ _ => unfold deployPriceOracle
  | |- wp _ (initializeStandardComponents _) _ _ _ => unfold initializeStandardComponents
  | |- wp _ (mbind _ _) _ _ _ => apply wp_bind
  end end.

Lemma wp_initialize a fac ms rs ids (Q : () → jsobj → S → Prop) this s deps cs c c' :
  holds deps cs s → cs !! a = Some (owner, c) →
  Controller.Controller.initialize (owned_by owner) owner fac ms rs ids c = Ok c' →
  (∀ s', code (look s') = code (look s) → controllers (look s') !! a = Some (owner, c') →
     Q () this s') →
  wp step (await (send (attach owner "Controller" a) "initialize"
    [addresses fac; addresses ms; addresses rs; numbers ids])) Q this s.
Proof.
  intros (_ & <- & _) Hc E HQ.
  pose proof (ledger_initialize s owner a owner c fac ms rs ids Hc) as L. rewrite E in L.
  destruct L as (s' & r & Hs & Hl).
  eapply (wp_await step _ _ _ _ s' ()); [by eapply yields_call|]. apply HQ; rewrite Hl; cbn; [done|].
  by rewrite lookup_insert_eq.
Qed.

Ltac solve_all_in := repeat (apply Forall_cons; split; [solve_in|]); apply Forall_nil; exact I.
Ltac solve_distinct := apply (bool_decide_unpack _); vm_compute; exact I.

Lemma arrangement (ctl fac iss str nav reg orc val old : Address) :
  NoDup [ctl; fac; iss; str; nav; orc; val; old] → NoDup [reg; orc; val] → reg ≠ old →
  NoDup [iss; str; nav] ∧ old ∉ [ctl; fac; iss; str; nav; reg; orc; val].
Proof.
  rewrite !NoDup_cons, !not_elem_of_cons. intros H1 H2 H3. destruct_and! H1.
  repeat split; auto using not_elem_of_nil, NoDup_nil_2, not_eq_sym.
Qed.

(** The address of a contract a field holds. *)
Definition field_address this (k : string) : option Address :=
  match this !! k with Some (FContract c) => Some (address c) | _ => None end.

(** The system is on the ledger: each field of the fixture holds the address of the
    contract it is for, the controller belongs to the owner and holds exactly those
    contracts, and one more registry is on the ledger and is no system contract. *)
Definition system_on this s : Prop :=
  ∃ c ctl fac iss str nav reg orc val old,
    (field_address this <$> ["controller"; "factory"; "issuanceModule"; "streamingFeeModule";
       "navIssuanceModule"; "integrationRegistry"; "priceOracle"; "setValuer"]%string)
      = Some <$> [ctl; fac; iss; str; nav; reg; orc; val] ∧
    (λ a, code (look s) !! a) <$> [ctl; fac; iss; str; nav; reg; orc; val; old]
      = Some <$> ["Controller"; "SetTokenCreator"; "BasicIssuanceModule"; "StreamingFeeModule";
                  "CustomOracleNavIssuanceModule"; "IntegrationRegistry"; "PriceOracle";
                  "SetValuer"; "IntegrationRegistry"]%string ∧
    controllers (look s) !! ctl = Some (owner, c) ∧
    registers ctl fac [iss; str; nav] [reg; orc; val] c ∧
    Controller.Controller.isSystemContract ctl c old = false.

Lemma wp_initialize_system s : owner ≠ address0 → owner ∈ accounts (look s) →
  accounts (look s) !! 3%nat = Some recipient →
  wp step (initialize owner) (λ _ this s', system_on this s') ∅ s.
Proof.
  intros Howner Hfunded Hfourth. unfold initialize.
  assert (holds [] (controllers (look s)) s) as Hh by (repeat split; [done|constructor..]).
  apply wp_bind. eapply wp_await; [eapply yields_rpc; [apply ledger_accounts|apply from_values]|].
  rewrite list_lookup_fmap, Hfourth. cbn [fmap option_fmap option_map default from_option].
  repeat method_step.
  lazymatch goal with
  | Hh : holds [(?nav, ?n1); (?str, ?n2); (?val, ?n3); (?reg, ?n4); (?orc, ?n5); (?fac, ?n6);
                (?old, _); _; _; _; _; _; _; _; _; (?iss, ?n7); (?ctl, ?n8)] _ _ |- _ =>
      destruct (holds_some _ _ _ [(ctl, n8); (fac, n6); (iss, n7); (str, n2); (nav, n1); (orc, n5);
                                  (val, n3); (old, n4)] Hh) as (Hnd & Hz & Hcode);
        [solve_all_in|solve_distinct|];
      destruct (holds_lookup _ _ _ reg n4 Hh) as [Hreg Hzreg]; [solve_in|];
      destruct (holds_some _ _ _ [(reg, n4); (orc, n5); (val, n3)] Hh) as (Hnd' & _);
        [solve_all_in|solve_distinct|];
      assert (reg ≠ old) as Hold by exact (holds_ne _ _ _ 3 6 reg old _ _ Hh eq_refl eq_refl ltac:(done));
      destruct (arrangement ctl fac iss str nav reg orc val old Hnd Hnd' Hold) as [Hms Hnot];
      destruct (register_system ctl fac iss str nav reg orc val) as (c & E & Hc);
        [cbn [fmap list_fmap fst] in Hz; rewrite !Forall_cons in Hz |- *; cbv beta in *; destruct_and! Hz; by repeat constructor|exact Hms|exact Hnd'|];
      eapply wp_initialize; [exact Hh|by rewrite lookup_insert_eq|exact E|];
      intros s' Hs' Hctl; exists c, ctl, fac, iss, str, nav, reg, orc, val, old
  end.
  pose proof Hc as (_ & _ & _ & _ & _ & _ & _ & Hsys).
  split; [reflexivity|]. split; [|split; [exact Hctl|split; [exact Hc|]]].
  - cbn [fmap list_fmap fst snd] in Hcode |- *. rewrite Hs'. congruence.
  - rewrite Hsys. by apply bool_decide_false.
Qed.

(** C38. On a ledger whose accounts include the owner and which has a fourth account,
    [initialize] succeeds.  Afterwards the controller in the fixture belongs to the
    owner, pays fees to the fourth account and holds, consistently, exactly the
    factory, the three modules and the three resources in the fields of the fixture,
    the resources under the identifiers 0, 1 and 2, each address having the contract
    its field is for.  The registry deployed first is on the ledger but is no system
    contract. *)
Theorem system_initialized s (Howner : owner ≠ address0) (Hfunded : owner ∈ accounts (look s))
    (Hfourth : accounts (look s) !! 3%nat = Some recipient) :
  ∃ this s', yields step (initialize owner ∅) s s' ((), this) ∧ system_on this s'.
Proof.
  destruct (wp_initialize_system s Howner Hfunded Hfourth) as ([] & this & s' & E & H').
  by exists this, s'.
Qed.
End System.

(** ** A sample ledger *)
Import Ledger.Book.

Definition sample_book : view :=
  {| accounts := ["owner"; "manager"; "other"; "fees"]%string; code := ∅; controllers := ∅ |}.

Lemma system_initialized_witness :
  ∃ this s', yields step (initialize "owner" ∅) sample_book s' ((), this) ∧
    system_on step "owner" "fees" this s'.
Proof.
  apply (system_initialized step "owner" "fees" sample_book).
  - discriminate.
  - apply list_elem_of_here.
  - reflexivity.
Defined.
