(* ===== verification/PerpV2Fixture.v ===== *)
(** * The perpetual protocol fixture

    [utils/fixtures/perpV2Fixture.ts]: the deployment of the external perpetual
    protocol with its pools, prices and quotes. *)
From Stdlib Require Import Ascii String SpecFloat.
From S2P Require Import Prelude JsString BigNumber Constants MathUtils UnitsUtils Script.
From S2P Require Import Dependencies Deployer DeployMocks DeployExternalContracts DeployHelper Ledger.
From S2P Require Accounts.
Import Accounts (Account, account_value, Account_from_value).

(** ** Library functions

    [parseUnits] of the ethers package, the integers of the jsbi package and the
    price encoding of the exchange's package. *)
Class PerpLibraries := {
  parseUnits : string → Z → result Z;
  encodeSqrtRatioX96 : string → string → result Z;
  jsbi_multiply : Z → Z → Z;
  jsbi_exponentiate : Z → Z → Z;
  jsbi_divide : Z → Z → result Z;

  parseUnits_integer n d : 0 ≤ n → 0 ≤ d → parseUnits (dec_string n) d = Ok (n * 10 ^ d);
  jsbi_multiply_spec a b : jsbi_multiply a b = a * b;
  jsbi_exponentiate_spec a b : 0 ≤ b → jsbi_exponentiate a b = a ^ b;
  jsbi_divide_spec a b : b ≠ 0 → jsbi_divide a b = Ok (Z.quot a b);
}.

(** ** Rounded quotients of numbers *)

Definition js_div (a b : js_number) : js_number := SFdiv 53 1024 a b.

(** [Math.floor] and [Math.ceil] of a finite number, as integers. *)
Definition js_round (up : bool) (f : js_number) : option Z :=
  match f with
  | S754_zero _ => Some 0
  | S754_finite s m e =>
      let v := if s then Z.neg m else Z.pos m in
      Some (if 0 <=? e then v * 2 ^ e
            else if up then - (- v / 2 ^ (- e)) else v / 2 ^ (- e))
  | _ => None
  end.

(** ** The class *)

Record TokensFixture := {
  token0 : contract; token1 : contract; mockAggregator0 : contract; mockAggregator1 : contract }.
Record PoolFixture := {
  pool_factory : contract; pool : contract; pool_baseToken : contract; quoteToken : contract }.
Record BaseTokenFixture := { baseToken : contract; mockAggregator : contract }.
Record PositionInfo := { info_baseToken : Address; baseBalance : Z; quoteBalance : Z }.

Definition ONE_MILLION : string := "1000000".

(** Entries of the objects [_pools] and [_priceFeeds], which are keyed by address. *)
Definition entry (object : string) (a : Address) : string :=
  String.append object (String "."%char a).

Section PerpV2Fixture.
Context `{Ethers} `{PerpLibraries} (_ownerAddress : Address).
#[local] Abbreviation _deployer := (new_DeployHelper _ownerAddress).

(** The initial fields. *)
Definition new_PerpV2Fixture : result jsobj :=
  feeTierPercent ← ether "0.01";
  Ok (<["_feeTier"%string := FValue (VNum 10000)]>
        (<["feeTierPercent"%string := FValue (VNum feeTierPercent)]> ∅)).

Definition _isAscendingTokenOrder (addr0 addr1 : Address) : bool :=
  js_lt (toLowerCase addr0) (toLowerCase addr1).

Definition _createQuoteTokenFixture (name symbol : string) : script contract :=
  quoteToken ← deployPerpV2QuoteToken (external _deployer);
  send quoteToken "initialize" [VStr name; VStr symbol];;
  mret quoteToken.

Definition _createBaseTokenFixture (name symbol : string) : script BaseTokenFixture :=
  mockAggregator ← deployChainlinkAggregatorMock (mocks _deployer) 6;
  chainlinkPriceFeed ← deployPerpV2ChainlinkPriceFeed (external _deployer);
  send chainlinkPriceFeed "initialize" [VAddr (address mockAggregator)];;
  baseToken ← deployPerpV2BaseToken (external _deployer);
  send baseToken "initialize" [VStr name; VStr symbol; VAddr (address chainlinkPriceFeed)];;
  mret {| baseToken := baseToken; mockAggregator := mockAggregator |}.

Definition _tokensFixture : script TokensFixture :=
  randomToken0 ← _createBaseTokenFixture "RandomTestToken0" "randomToken0";
  randomToken1 ← _createBaseTokenFixture "RandomTestToken1" "randomToken1";
  if _isAscendingTokenOrder (address (baseToken randomToken0)) (address (baseToken randomToken1))
  then mret {| token0 := baseToken randomToken0; mockAggregator0 := mockAggregator randomToken0;
               token1 := baseToken randomToken1; mockAggregator1 := mockAggregator randomToken1 |}
  else mret {| token0 := baseToken randomToken1; mockAggregator0 := mockAggregator randomToken1;
               token1 := baseToken randomToken0; mockAggregator1 := mockAggregator randomToken0 |}.

(** Deploys tokens until one is below [token1Addr]; [None] if [fuel] deployments
    were not enough. *)
Fixpoint _token0Fixture (fuel : nat) (token1Addr : Address) : script (option BaseTokenFixture) :=
  match fuel with
  | O => mret None
  | S fuel' =>
      token0Fixture ← _createBaseTokenFixture "RandomTestToken0" "randomToken0";
      if _isAscendingTokenOrder (address (baseToken token0Fixture)) token1Addr
      then mret (Some token0Fixture) else _token0Fixture fuel' token1Addr
  end.

Definition deposit (sender : Account) (amount : Z) (token : contract) : method () :=
  decimals ← await (call (A := Z) token "decimals" []);
  parsedAmount ← await (lift_result (parseUnits (bn_toString amount) decimals));
  vault ← this_contract "vault";
  await (send (connect token (Accounts.wallet sender)) "approve"
           [VAddr (address vault); VNum parsedAmount]);;
  await (send (connect vault (Accounts.wallet sender)) "deposit"
           [VAddr (address token); VNum parsedAmount]).

(** The arguments of the pool factory. *)
Definition pool_of (m : string) (base : string) : method (contract * string * list value) :=
  uniV3Factory ← this_contract "uniV3Factory";
  b ← this_address base; q ← this_address "vQuote"; fee ← this_value (A := Z) "_feeTier";
  mret (uniV3Factory, m, [VAddr b; VAddr q; VNum fee]).

Definition createPool (base : string) : method () :=
  '(f, m, args) ← pool_of "createPool" base; await (send f m args).

Definition getPool (base : string) : method Address :=
  '(f, m, args) ← pool_of "getPool" base; await (call (A := Address) f m args).

Definition fund (k : string) : method () :=
  collateralAmount ← (d ← this_value (A := Z) "_usdcDecimals"; await (lift_result (parseUnits ONE_MILLION d)));
  maker ← this_value (A := Account) k;
  usdc ← this_contract "usdc";
  await (send usdc "mint" [VAddr (Accounts.address maker); VNum collateralAmount]);;
  deposit maker 1000000 usdc.

(** The virtual tokens and their prices. *)
Definition initialize_tokens (fuel : nat) : method bool :=
  supply ← await (lift_result (ether "100000000000000"));
  assign "usdc" (deployTokenMock (mocks _deployer) _ownerAddress (Some supply) (Some 6) None None);;
  set_value "_usdcDecimals" (VNum 6);;
  tokens ← await _tokensFixture;
  base ← await (_token0Fixture fuel (address (token1 tokens)));
  match base with
  | None => mret false
  | Some base =>
      set_contract "vETH" (token0 tokens);;
      set_contract "vBTC" (baseToken base);;
      set_contract "vQuote" (token1 tokens);;
      set_contract "ethPriceFeed" (mockAggregator0 tokens);;
      set_contract "btcPriceFeed" (mockAggregator base);;
      set_contract (entry "_priceFeeds" (address (token0 tokens))) (mockAggregator0 tokens);;
      set_contract (entry "_priceFeeds" (address (baseToken base))) (mockAggregator base);;
      mret true
  end.

(** The registries, the exchange and the vault.  [exchange.setAccountBalance] is not
    awaited; its request is sent at the same point. *)
Definition initialize_exchange : method () :=
  assign "uniV3Factory" (deployUniswapV3Factory (external _deployer));;
  assign "clearingHouseConfig" (deployPerpV2ClearingHouseConfig (external _deployer));;
  wire "clearingHouseConfig" "initialize" [];;
  createPool "vETH";;
  createPool "vBTC";;
  assign "marketRegistry" (deployPerpV2MarketRegistry (external _deployer));;
  wire "marketRegistry" "initialize" ["uniV3Factory"; "vQuote"]%string;;
  assign "orderBook" (deployPerpV2OrderBook (external _deployer));;
  wire "orderBook" "initialize" ["marketRegistry"]%string;;
  assign "insuranceFund" (deployPerpV2InsuranceFund (external _deployer));;
  wire "insuranceFund" "initialize" ["usdc"]%string;;
  assign "accountBalance" (deployPerpV2AccountBalance (external _deployer));;
  assign "exchange" (deployPerpV2Exchange (external _deployer));;
  wire "exchange" "initialize" ["marketRegistry"; "orderBook"; "clearingHouseConfig"]%string;;
  wire "exchange" "setAccountBalance" ["accountBalance"]%string;;
  wire "orderBook" "setExchange" ["exchange"]%string;;
  wire "accountBalance" "initialize" ["clearingHouseConfig"; "orderBook"]%string;;
  assign "vault" (deployPerpV2Vault (external _deployer));;
  wire "vault" "initialize"
    ["insuranceFund"; "clearingHouseConfig"; "accountBalance"; "exchange"]%string;;
  wire "insuranceFund" "setBorrower" ["vault"]%string;;
  wire "accountBalance" "setVault" ["vault"]%string.

(** The pools of the two virtual tokens. *)
Definition initialize_pools : method () :=
  poolAddrA ← getPool "vETH";
  poolAddrB ← getPool "vBTC";
  let vETHPool := getUniswapV3PoolInstance (external _deployer) poolAddrA in
  let vBTCPool := getUniswapV3PoolInstance (external _deployer) poolAddrB in
  set_contract "vETHPool" vETHPool;;
  set_contract "vBTCPool" vBTCPool;;
  vETH ← this_address "vETH"; set_contract (entry "_pools" vETH) vETHPool;;
  vBTC ← this_address "vBTC"; set_contract (entry "_pools" vBTC) vBTCPool;;
  send_to "vETH" "addWhitelist" [VAddr poolAddrA];;
  send_to "vBTC" "addWhitelist" [VAddr poolAddrB];;
  send_to "vQuote" "addWhitelist" [VAddr poolAddrA];;
  send_to "vQuote" "addWhitelist" [VAddr poolAddrB].

Definition initialize_clearingHouse : method () :=
  assign "clearingHouse" (deployPerpV2ClearingHouse (external _deployer));;
  wire "clearingHouse" "initialize" ["clearingHouseConfig"; "vault"; "vQuote"; "uniV3Factory";
    "exchange"; "accountBalance"; "insuranceFund"]%string;;
  send_to "clearingHouseConfig" "setSettlementTokenBalanceCap" [VNum MAX_UINT_256];;
  marketRegistry ← this_address "marketRegistry";
  assign "quoter" (deployPerpV2Quoter (external _deployer) marketRegistry);;
  wire "vQuote" "mintMaximumTo" ["clearingHouse"]%string;;
  wire "vETH" "mintMaximumTo" ["clearingHouse"]%string;;
  wire "vBTC" "mintMaximumTo" ["clearingHouse"]%string;;
  wire "vQuote" "addWhitelist" ["clearingHouse"]%string;;
  wire "vETH" "addWhitelist" ["clearingHouse"]%string;;
  wire "vBTC" "addWhitelist" ["clearingHouse"]%string;;
  wire "marketRegistry" "setClearingHouse" ["clearingHouse"]%string;;
  wire "orderBook" "setClearingHouse" ["clearingHouse"]%string;;
  wire "exchange" "setClearingHouse" ["clearingHouse"]%string;;
  wire "accountBalance" "setClearingHouse" ["clearingHouse"]%string;;
  wire "vault" "setClearingHouse" ["clearingHouse"]%string.

(** [false] if [fuel] token deployments were not enough. *)
Definition initialize (fuel : nat) (_maker _otherTrader : Account) : method bool :=
  set_value "maker" (account_value _maker);;
  set_value "otherTrader" (account_value _otherTrader);;
  ok ← initialize_tokens fuel;
  if ok : bool then
    initialize_exchange;; initialize_pools;; initialize_clearingHouse;;
    fund "maker";; fund "otherTrader";; mret true
  else mret false.

(** ** Liquidity and prices *)

(** [2 ^ 16] is exclusive or. *)
Definition observationCardinality : Z := Z.lxor 2 16 - 1.

Definition _getMinTick (tickSpacing : Z) : option Z :=
  q ← js_round true (js_div (js_of_Z (-887272)) (js_of_Z tickSpacing)); Some (q * tickSpacing).

Definition _getMaxTick (tickSpacing : Z) : option Z :=
  q ← js_round false (js_div (js_of_Z 887272) (js_of_Z tickSpacing)); Some (q * tickSpacing).

Definition _encodePriceSqrt (token1Amount token0Amount : Z) : result Z :=
  encodeSqrtRatioX96 (bn_toString token1Amount) (bn_toString token0Amount).

Definition addLiquidity_args (baseToken : Address) (base quote lowerTick upperTick : Z) : value :=
  VObj [("baseToken", VAddr baseToken); ("base", VNum base); ("quote", VNum quote);
        ("lowerTick", VNum lowerTick); ("upperTick", VNum upperTick);
        ("minBase", VNum 0); ("minQuote", VNum 0); ("useTakerBalance", VBool false);
        ("deadline", VNum MaxUint256)]%string.

(** What both initializations of a pool begin with. *)
Definition start_pool (baseToken : contract) (base quote : Z) : method contract :=
  pool ← this_contract (entry "_pools" (address baseToken));
  price ← await (lift_result (_encodePriceSqrt quote base));
  await (send pool "initialize" [VNum price]);;
  await (send pool "increaseObservationCardinalityNext" [VNum observationCardinality]);;
  mret pool.

(** And end with. *)
Definition add_liquidity (baseToken : contract) (base quote lowerTick upperTick : Z) : method () :=
  feeTier ← this_value (A := Z) "_feeTier";
  send_to "marketRegistry" "addPool" [VAddr (address baseToken); VNum feeTier];;
  send_to "marketRegistry" "setFeeRatio" [VAddr (address baseToken); VNum feeTier];;
  clearingHouse ← this_contract "clearingHouse";
  maker ← this_value (A := Account) "maker";
  await (send (connect clearingHouse (Accounts.wallet maker)) "addLiquidity"
           [addLiquidity_args (address baseToken) base quote lowerTick upperTick]).

(** A tick that is not a number is refused by the encoder. *)
Definition tick (o : option Z) : script Z :=
  match o with Some t => SRet t | None => SThrow (NumericFault "underflow" "BigNumber.from") end.

Definition initializePoolWithLiquidityWide (baseToken : contract)
    (baseTokenAmount quoteTokenAmount : Z) : method () :=
  pool ← start_pool baseToken baseTokenAmount quoteTokenAmount;
  tickSpacing ← await (call (A := Z) pool "tickSpacing" []);
  lowerTick ← await (tick (_getMinTick tickSpacing));
  upperTick ← await (tick (_getMaxTick tickSpacing));
  add_liquidity baseToken baseTokenAmount quoteTokenAmount lowerTick upperTick.

Definition initializePoolWithLiquidityWithinTicks (baseToken : contract)
    (baseTokenAmount quoteTokenAmount lowerTick upperTick : Z) : method () :=
  start_pool baseToken baseTokenAmount quoteTokenAmount;;
  add_liquidity baseToken baseTokenAmount quoteTokenAmount lowerTick upperTick.

Definition setBaseTokenOraclePrice (baseToken : contract) (price : Z) : method () :=
  feed ← this_contract (entry "_priceFeeds" (address baseToken));
  await (send feed "setRoundData" (VNum <$> [0; price; 0; 0; 0])).

Definition getPriceFromSqrtPriceX96 (sqrtPriceX96 : Z) : result Z :=
  let squaredPrice := jsbi_multiply sqrtPriceX96 sqrtPriceX96 in
  let denominator := jsbi_exponentiate 2 192 in
  let scaledPrice := jsbi_multiply squaredPrice (10 ^ 18) in
  jsbi_divide scaledPrice denominator.

Definition getSpotPrice (_baseToken : Address) : method Z :=
  pool ← this_contract (entry "_pools" _baseToken);
  slot0 ← await (call (A := value) pool "slot0" []);
  sqrtPriceX96 ← await (decode_answer (A := Z) "sqrtPriceX96"
                          (default VUndefined (prop "sqrtPriceX96" slot0)));
  await (lift_result (getPriceFromSqrtPriceX96 sqrtPriceX96)).

Definition swap_args (baseToken : Address) (baseQuantity : Z) (isBuy : bool) : value :=
  VObj [("baseToken", VAddr baseToken); ("isBaseToQuote", VBool (negb isBuy));
        ("isExactInput", VBool (negb isBuy)); ("amount", VNum baseQuantity);
        ("oppositeAmountBound", VNum ZERO); ("deadline", VNum MAX_UINT_256);
        ("sqrtPriceLimitX96", VNum ZERO); ("referralCode", VBytes ZERO_BYTES)]%string.

(** A read-only call in the name of the other trader; the pair is [deltaBase] and
    [deltaQuote]. *)
Definition getSwapQuote (baseToken : Address) (baseQuantity : Z) (isBuy : bool) : method (Z * Z) :=
  clearingHouse ← this_contract "clearingHouse";
  otherTrader ← this_value (A := Account) "otherTrader";
  answer ← await (call (A := value) (connect clearingHouse (Accounts.wallet otherTrader))
    "callStatic.openPosition" [swap_args baseToken baseQuantity isBuy]);
  deltaBase ← await (decode_answer "base" (default VUndefined (prop "base" answer)));
  deltaQuote ← await (decode_answer "quote" (default VUndefined (prop "quote" answer)));
  mret (deltaBase, deltaQuote).

Definition getCurrentLeverage (_setToken : Address) (_positionInfo : PositionInfo)
    (_collateralBalance : Z) : method Z :=
  price ← getSpotPrice (info_baseToken _positionInfo);
  await (lift_result (
    v ← preciseMul (baseBalance _positionInfo) price;
    let basePositionAbsoluteValue := bn_abs v in
    basePositionNetValue ← preciseMul (baseBalance _positionInfo) price;
    preciseDiv basePositionAbsoluteValue
      (bn_add (bn_add basePositionNetValue (quoteBalance _positionInfo)) _collateralBalance))).

Definition getVTokenInstance (token : Address) : contract := getVToken (external _deployer) token.
End PerpV2Fixture.

(** ** Ticks *)

Definition tick_check (t : Z) : bool :=
  match _getMinTick t, _getMaxTick t with
  | Some lo, Some hi => (lo =? - (887272 / t * t)) && (hi =? 887272 / t * t)
  | _, _ => false
  end.

(** The quotients in binary floating point round to the right integers for every
    spacing up to that of the fixture's fee tier. *)
Lemma tick_check_all : forallb tick_check (Z.of_nat <$> seq 1 200) = true.
Proof. vm_compute. reflexivity. Qed.

Lemma spacing_in (t : Z) : 1 ≤ t ≤ 200 → In t (Z.of_nat <$> seq 1 200).
Proof.
  intros Ht. apply in_map_iff. exists (Z.to_nat t). split; [lia|]. apply in_seq. lia.
Qed.

Lemma tick_values (t : Z) : 1 ≤ t ≤ 200 →
  _getMinTick t = Some (- (887272 / t * t)) ∧ _getMaxTick t = Some (887272 / t * t).
Proof.
  intros Ht. pose proof tick_check_all as F. rewrite forallb_forall in F.
  specialize (F t). unfold tick_check in F.
  destruct (_getMinTick t) as [lo|]; [destruct (_getMaxTick t) as [hi|]|].
  - apply andb_true_iff in F as [->%Z.eqb_eq ->%Z.eqb_eq]; [done|by apply spacing_in].
  - exfalso. by specialize (F (spacing_in t Ht)).
  - exfalso. by specialize (F (spacing_in t Ht)).
Qed.

(** For every tick spacing up to 200, that of the fixture's fee tier, the two ticks of a wide position
    are multiples of the spacing, within the bounds of the exchange, and the outermost
    such multiples: the floating-point quotients never round to the wrong integer. *)
Theorem ticks_outermost (t : Z) (Ht : 1 ≤ t ≤ 200) :
  ∃ lo hi, _getMinTick t = Some lo ∧ _getMaxTick t = Some hi ∧ (t | lo) ∧ (t | hi) ∧
    -887272 ≤ lo ∧ hi ≤ 887272 ∧ ∀ k, (t | k) → -887272 ≤ k ≤ 887272 → lo ≤ k ≤ hi.
Proof.
  destruct (tick_values t Ht) as [Hlo Hhi]. eexists _, _. split; [done|]. split; [done|].
  pose proof (Z.mul_div_le 887272 t ltac:(lia)).
  pose proof (Z.mul_succ_div_gt 887272 t ltac:(lia)).
  split; [apply Z.divide_opp_r, Z.divide_factor_r|]. split; [apply Z.divide_factor_r|].
  split; [lia|]. split; [lia|]. intros k [q ->] Hk.
  pose proof (Z.div_le_lower_bound 887272 t q ltac:(lia) ltac:(lia)).
  pose proof (Z.div_le_lower_bound 887272 t (- q) ltac:(lia) ltac:(lia)). nia.
Qed.

Lemma ticks_outermost_witness : _getMinTick 200 = Some (-887200) ∧ _getMaxTick 200 = Some 887200.
Proof.
  destruct (ticks_outermost 200) as (lo & hi & Elo & Ehi & _); [lia|].
  rewrite Elo, Ehi. vm_compute in Elo, Ehi. split; [by rewrite Elo|by rewrite Ehi].
Defined.

(** ** Concrete libraries *)

Definition read_integer (s : string) : result Z := v ← parseEther_Z s; Ok (v / 10 ^ 18).

#[export] Program Instance PerpLibraries_Z : PerpLibraries := {|
  parseUnits s d := v ← parseEther_Z s; Ok (v * 10 ^ d / 10 ^ 18);
  encodeSqrtRatioX96 amount1 amount0 :=
    a1 ← read_integer amount1; a0 ← read_integer amount0; Ok (Z.sqrt (a1 * 2 ^ 192 / a0));
  jsbi_multiply := Z.mul;
  jsbi_exponentiate := Z.pow;
  jsbi_divide a b := if b =? 0 then Throw (Error "Division by zero") else Ok (Z.quot a b);
|}.
Next Obligation.
  intros n d Hn Hd. cbn beta. change parseEther_Z with (parseEther (Ethers := Ethers_Z)).
  rewrite parseEther_integer by done. cbn [mbind result_bind].
  replace (n * 10 ^ 18 * 10 ^ d) with (n * 10 ^ d * 10 ^ 18) by lia. by rewrite Z.div_mul.
Qed.
Next Obligation. done. Qed.
Next Obligation. done. Qed.
Next Obligation. intros a b Hb. cbn. by apply Z.eqb_neq in Hb as ->. Qed.
