(* ===== verification/PerpUtils.v ===== *)
(** * Helpers for the perpetual protocol

    [utils/common/perpV2Utils.ts]: expected transfers, position units, funding and
    leverage of a token that trades on the perpetual protocol.  The fixture is the
    object the methods run on. *)
From Stdlib Require Import String.
From S2P Require Import Prelude JsString BigNumber Constants MathUtils UnitsUtils Script.
From S2P Require Import Dependencies Deployer DeployHelper Ledger PerpV2Fixture.
From S2P Require Accounts.
Import Accounts (Account, account_value, Account_from_value).

(** ** Answers of the module *)

Record AccountInfo := {
  collateralBalance : Z; owedRealizedPnl : Z; pendingFundingPayments : Z; netQuoteBalance : Z }.
Record PositionUnitInfo := { unit_baseToken : Address; baseUnit : Z }.

#[export] Instance AccountInfo_from_value : FromValue AccountInfo := λ v,
  c ← get_field "collateralBalance" v; o ← get_field "owedRealizedPnl" v;
  p ← get_field "pendingFundingPayments" v; q ← get_field "netQuoteBalance" v;
  Some {| collateralBalance := c; owedRealizedPnl := o; pendingFundingPayments := p;
          netQuoteBalance := q |}.

#[export] Instance PositionUnitInfo_from_value : FromValue PositionUnitInfo := λ v,
  b ← get_field (A := Address) "baseToken" v; u ← get_field "baseUnit" v;
  Some {| unit_baseToken := b; baseUnit := u |}.

#[export] Instance PositionInfo_from_value : FromValue PositionInfo := λ v,
  t ← get_field (A := Address) "baseToken" v; b ← get_field "baseBalance" v;
  q ← get_field "quoteBalance" v;
  Some {| info_baseToken := t; baseBalance := b; quoteBalance := q |}.

(** ** The functions *)
Section PerpUtils.
Context `{Ethers} `{PerpLibraries}.

(** A loop in a method. *)
Fixpoint for_all {A S} (body : A → S → method S) (l : list A) (s : S) : method S :=
  match l with
  | [] => mret s
  | x :: l' => s' ← body x s; for_all body l' s'
  end.

Definition lift {A} (r : result A) : method A := await (lift_result r).

Definition toUSDCDecimals (quantity : Z) : result Z := u ← bn_pow 10 12; bn_div quantity u.

Definition totalSupply (setToken : contract) : method Z := await (call (A := Z) setToken "totalSupply" []).

Definition getAccountInfo (module : contract) (setToken : Address) : method AccountInfo :=
  await (call (A := AccountInfo) module "getAccountInfo" [VAddr setToken]).

(** The slippage allowed is 2%, whatever [slippagePercentage]. *)
Definition leverUp (setToken module : contract) (owner : Account) (baseToken : Address)
    (leverageRatio : js_number) (slippagePercentage : Z) (isLong trackFunding : bool) : method Z :=
  spotPrice ← getSpotPrice baseToken;
  supply ← totalSupply setToken;
  info ← getAccountInfo module (address setToken);
  ratio ← lift (bn_from_number leverageRatio);
  baseTradeQuantityNotional ← lift (preciseDiv (bn_mul (collateralBalance info) ratio) spotPrice);
  unit ← lift (preciseDiv baseTradeQuantityNotional supply);
  let baseTradeQuantityUnit := if isLong then unit else bn_mul unit (-1) in
  quote ← lift (preciseMul baseTradeQuantityNotional spotPrice);
  let estimatedQuoteQuantityNotional := bn_abs quote in
  slippage ← lift (ether "0.02");
  allowedSlippage ← lift (preciseMul estimatedQuoteQuantityNotional slippage);
  let slippageAdjustedQuoteQuanitityNotional :=
    if isLong then bn_add estimatedQuoteQuantityNotional allowedSlippage
    else bn_sub estimatedQuoteQuantityNotional allowedSlippage in
  receiveQuoteQuantityUnit ← lift (preciseDiv slippageAdjustedQuoteQuanitityNotional supply);
  await (send (connect module (Accounts.wallet owner))
    (if trackFunding then "tradeAndTrackFunding" else "trade")
    [VAddr (address setToken); VAddr baseToken; VNum baseTradeQuantityUnit;
     VNum receiveQuoteQuantityUnit]);;
  mret baseTradeQuantityUnit.

(** One position of the issuance estimate. *)
Definition transfer_in_step (setQuantity : Z) (positionInfo : PositionUnitInfo) (usdcAmountIn : Z)
    : method Z :=
  baseTradeQuantityNotional ← lift (preciseMul (baseUnit positionInfo) setQuantity);
  let isLong := bn_gte baseTradeQuantityNotional ZERO in
  '(_, deltaQuote) ← getSwapQuote (unit_baseToken positionInfo) (bn_abs baseTradeQuantityNotional) isLong;
  spotPrice ← getSpotPrice (unit_baseToken positionInfo);
  idealQuote ← lift (preciseMul baseTradeQuantityNotional spotPrice);
  let expectedSlippage :=
    if isLong then bn_sub deltaQuote idealQuote else bn_sub (bn_abs idealQuote) deltaQuote in
  mret (bn_add (bn_add usdcAmountIn idealQuote) expectedSlippage).

Definition calculateUSDCTransferInPreciseUnits (setToken : contract) (setQuantity : Z)
    (module : contract) (includeFunding : option bool) : method Z :=
  let includeFunding := default true includeFunding in
  accountInfo ← getAccountInfo module (address setToken);
  let totalCollateralValue :=
    bn_add (bn_add (collateralBalance accountInfo) (owedRealizedPnl accountInfo))
      (netQuoteBalance accountInfo) in
  let totalCollateralValue :=
    if includeFunding : bool then bn_add totalCollateralValue (pendingFundingPayments accountInfo)
    else totalCollateralValue in
  supply ← totalSupply setToken;
  unit ← lift (preciseDiv totalCollateralValue supply);
  usdcAmountIn ← lift (preciseMul unit setQuantity);
  allPositionInfo ← await (call (A := list PositionUnitInfo) module "getPositionUnitInfo"
                             [VAddr (address setToken)]);
  for_all (transfer_in_step setQuantity) allPositionInfo usdcAmountIn.

Definition calculateUSDCTransferIn (setToken : contract) (setQuantity : Z) (module : contract)
    : method Z :=
  v ← calculateUSDCTransferInPreciseUnits setToken setQuantity module None; lift (toUSDCDecimals v).

(** One position of the redemption estimate; the supply is read again each time. *)
Definition transfer_out_step (setToken : contract) (setQuantity : Z) (positionInfo : PositionInfo)
    (totalRealizedPnl : Z) : method Z :=
  supply ← totalSupply setToken;
  basePositionUnit ← lift (preciseDiv (baseBalance positionInfo) supply);
  baseTradeQuantityNotional ← lift (preciseMul basePositionUnit setQuantity);
  let isLong := bn_gte basePositionUnit ZERO in
  closeRatio ← lift (preciseDiv (bn_abs baseTradeQuantityNotional) (bn_abs (baseBalance positionInfo)));
  reducedOpenNotional ← lift (preciseMul (quoteBalance positionInfo) closeRatio);
  '(_, deltaQuote) ← getSwapQuote (info_baseToken positionInfo) (bn_abs baseTradeQuantityNotional)
                       (negb isLong);
  let realizedPnl := if isLong then bn_add reducedOpenNotional deltaQuote
                     else bn_sub reducedOpenNotional deltaQuote in
  mret (bn_add totalRealizedPnl realizedPnl).

Definition getPositionNotionalInfo (module : contract) (setToken : Address)
    : method (list PositionInfo) :=
  await (call (A := list PositionInfo) module "getPositionNotionalInfo" [VAddr setToken]).

Definition calculateUSDCTransferOutPreciseUnits (setToken : contract) (setQuantity : Z)
    (module : contract) (includeFunding : option bool) : method Z :=
  let includeFunding := default true includeFunding in
  allPositionInfo ← getPositionNotionalInfo module (address setToken);
  accountInfo ← getAccountInfo module (address setToken);
  let totalCollateralBalance := bn_add (collateralBalance accountInfo) (owedRealizedPnl accountInfo) in
  let totalCollateralBalance :=
    if includeFunding : bool then bn_add totalCollateralBalance (pendingFundingPayments accountInfo)
    else totalCollateralBalance in
  supply ← totalSupply setToken;
  collateralPositionUnit ← lift (preciseDiv totalCollateralBalance supply);
  collateralQuantityNotional ← lift (preciseMul collateralPositionUnit setQuantity);
  totalRealizedPnl ← for_all (transfer_out_step setToken setQuantity) allPositionInfo 0;
  mret (bn_abs (bn_add collateralQuantityNotional totalRealizedPnl)).

Definition calculateUSDCTransferOut (setToken : contract) (setQuantity : Z) (module : contract)
    : method Z :=
  v ← calculateUSDCTransferOutPreciseUnits setToken setQuantity module None; lift (toUSDCDecimals v).

Definition calculateExternalPositionUnit (setToken module : contract) : method Z :=
  accountInfo ← getAccountInfo module (address setToken);
  supply ← totalSupply setToken;
  unit ← lift (preciseDiv (collateralBalance accountInfo) supply);
  lift (toUSDCDecimals unit).

(** The sign of the growth for a position, from the two prices. *)
Definition net_funding (baseBalance markTwap indexTwap fundingGrowth : Z) : Z :=
  let isLong := bn_gt baseBalance ZERO in
  if bn_lt markTwap indexTwap then
    if isLong then fundingGrowth else bn_mul fundingGrowth (-1)
  else if isLong then bn_mul fundingGrowth (-1) else fundingGrowth.

(** The answer of the exchange is the growth, a structure, and two prices. *)
Definition getNetFundingGrowth (baseToken : Address) (baseBalance : Z) : method Z :=
  exchange ← this_contract "exchange";
  answer ← await (call (A := list value) exchange "getFundingGrowthGlobalAndTwaps" [VAddr baseToken]);
  match answer with
  | [fundingGrowthGlobal; mark; index] =>
      markTwap ← await (decode_answer (A := Z) "markTwap" mark);
      indexTwap ← await (decode_answer (A := Z) "indexTwap" index);
      twPremiumX96 ← await (decode_answer (A := Z) "twPremiumX96"
                              (default VUndefined (prop "twPremiumX96" fundingGrowthGlobal)));
      twPremium ← lift (one ← ether "1"; p ← bn_pow TWO 96; bn_div (bn_mul twPremiumX96 one) p);
      perDay ← lift (bn_div twPremium ONE_DAY_IN_SECONDS);
      growth ← lift (preciseMul baseBalance perDay);
      mret (net_funding baseBalance markTwap indexTwap (bn_abs growth))
  | _ => await (SThrow (TypeError "getFundingGrowthGlobalAndTwaps"))
  end.

Definition getUSDCDeltaDueToFundingGrowth (setToken : contract) (setQuantity : Z)
    (baseToken : Address) (baseBalance : Z) : method Z :=
  netFundingGrowth ← getNetFundingGrowth baseToken baseBalance;
  supply ← totalSupply setToken;
  unit ← lift (preciseDiv netFundingGrowth supply);
  lift (preciseMul unit setQuantity).

(** One position of the leverage report. *)
Definition leverage_step (owner : Address) (totalCollateralValue : Z) (positionInfo : PositionInfo)
    (acc : list Address * list Z) : method (list Address * list Z) :=
  let vTokenInstance := getVTokenInstance owner (info_baseToken positionInfo) in
  tokenPrice ← await (call (A := Z) vTokenInstance "getIndexPrice" [VNum ZERO]);
  positionValue ← lift (preciseMul tokenPrice (baseBalance positionInfo));
  let accountValue := bn_add (bn_add positionValue totalCollateralValue) (quoteBalance positionInfo) in
  ratio ← lift (preciseDiv positionValue accountValue);
  mret (acc.1 ++ [address vTokenInstance], acc.2 ++ [ratio]).

Definition calculateLeverageRatios (owner setToken : Address) (perpModule : contract)
    : method (list Address * list Z) :=
  accountInfo ← getAccountInfo perpModule setToken;
  notionalPositionInfo ← getPositionNotionalInfo perpModule setToken;
  let totalCollateralValue :=
    bn_add (bn_add (collateralBalance accountInfo) (owedRealizedPnl accountInfo))
      (pendingFundingPayments accountInfo) in
  for_all (leverage_step owner totalCollateralValue) notionalPositionInfo ([], []).

(** The debt an account may still take on, less a reserve for slippage. *)
Definition available_debt (slippage imRatio totalCollateralValue unrealizedPnl totalDebtValue : Z)
    : result Z :=
  let base := if bn_gte unrealizedPnl ZERO then totalCollateralValue
              else bn_add totalCollateralValue unrealizedPnl in
  limit ← bn_div (bn_mul base (10 ^ 6)) imRatio;
  let availableDebt := bn_sub limit totalDebtValue in
  s ← preciseMul availableDebt slippage;
  reserve ← bn_div (bn_mul s (10 ^ 6)) imRatio;
  Ok (bn_sub availableDebt reserve).

Definition calculateMaxIssueQuantity (setToken : contract) (slippage : Z) (perpModule : contract)
    : method Z :=
  supply ← totalSupply setToken;
  clearingHouseConfig ← this_contract "clearingHouseConfig";
  imRatio ← await (call (A := Z) clearingHouseConfig "getImRatio" []);
  accountInfo ← getAccountInfo perpModule (address setToken);
  accountBalance ← this_contract "accountBalance";
  pnl ← await (call (A := list Z) accountBalance "getPnlAndPendingFee" [VAddr (address setToken)]);
  unrealizedPnl ← await (match pnl !! 1%nat with
                         | Some v => SRet v | None => SThrow (TypeError "unrealizedPnl") end);
  totalDebtValue ← await (call (A := Z) accountBalance "getTotalDebtValue" [VAddr (address setToken)]);
  let totalCollateralValue :=
    bn_add (bn_add (collateralBalance accountInfo) (owedRealizedPnl accountInfo))
      (pendingFundingPayments accountInfo) in
  availableDebtWithSlippage ←
    lift (available_debt slippage imRatio totalCollateralValue unrealizedPnl totalDebtValue);
  totalAbsPositionValue ← await (call (A := Z) accountBalance "getTotalAbsPositionValue"
                                   [VAddr (address setToken)]);
  unit ← lift (preciseDiv availableDebtWithSlippage totalAbsPositionValue);
  lift (preciseMul unit supply).
End PerpUtils.

(** ** A market

    What the estimates read, all in one state of the chain: the token's supply, the
    module's account and positions, and for each base token the price of its pool and
    the quotes of the clearing house. *)
Section Market.
Context `{Ethers} `{PerpLibraries}.

Class PerpMarket {S : Type} (step : S → event → S * result value) (s : S) (this : jsobj)
    (setToken module : contract) := {
  supply : Z;
  info : AccountInfo;
  positions : list PositionUnitInfo;
  sqrtPrice : Address → Z;
  quoted : Address → Z → bool → Z;
  market_supply :
    step s (EvCall (signer setToken) (address setToken) "totalSupply" []) = (s, Ok (VNum supply));
  market_info : ∃ v,
    step s (EvCall (signer module) (address module) "getAccountInfo" [VAddr (address setToken)])
      = (s, Ok v) ∧ from_value v = Some info;
  market_positions : ∃ v,
    step s (EvCall (signer module) (address module) "getPositionUnitInfo" [VAddr (address setToken)])
      = (s, Ok v) ∧ from_value v = Some positions;
  market_pool p : p ∈ positions → ∃ c v,
    this !! entry "_pools" (unit_baseToken p) = Some (FContract c) ∧
    step s (EvCall (signer c) (address c) "slot0" []) = (s, Ok v) ∧
    Script.prop "sqrtPriceX96" v = Some (VNum (sqrtPrice (unit_baseToken p)));
  market_quotes : ∃ c a,
    this !! "clearingHouse"%string = Some (FContract c) ∧
    this !! "otherTrader"%string = Some (FValue (account_value a)) ∧
    ∀ p amount isBuy, p ∈ positions → ∃ v b,
      step s (EvCall (Accounts.wallet a) (address c) "callStatic.openPosition"
                [swap_args (unit_baseToken p) amount isBuy]) = (s, Ok v) ∧
      Script.prop "base" v = Some (VNum b) ∧
      Script.prop "quote" v = Some (VNum (quoted (unit_baseToken p) amount isBuy));
}.

Section Estimates.
Context {S : Type} (step : S → event → S * result value) (s : S) (this : jsobj).
Context (setToken module : contract) `{M : !PerpMarket step s this setToken module}.

(** A method that reads the chain and succeeds with [a]. *)
Definition reads {A} (m : method A) (a : A) : Prop := yields step (m this) s s (a, this).

Lemma reads_ret {A} (a : A) : reads (mret a) a.
Proof. apply yields_ret. Qed.

Lemma reads_bind {A B} (m : method A) (f : A → method B) (a : A) (b : B) :
  reads m a → reads (f a) b → reads (m ≫= f) b.
Proof. intros Hm Hf. unfold reads, mbind, method_bind. by eapply yields_bind. Qed.

Lemma reads_await {A} (p : script A) (a : A) : yields step p s s a → reads (await p) a.
Proof. intros Hp. unfold reads, await. eapply yields_bind; [done|]. apply (yields_ret step (a, this)). Qed.

Lemma reads_lift {A} (r : result A) (a : A) : r = Ok a → reads (lift r) a.
Proof. intros E. by apply reads_await, yields_lift. Qed.

Lemma reads_contract k c : this !! k = Some (FContract c) → reads (this_contract k) c.
Proof. intros E. unfold reads, this_contract. rewrite E. apply (yields_ret step (c, this)). Qed.

Lemma reads_value {A} `{FromValue A} k v (a : A) :
  this !! k = Some (FValue v) → from_value v = Some a → reads (this_value k) a.
Proof. intros E F. unfold reads, this_value. rewrite E, F. apply (yields_ret step (a, this)). Qed.

Lemma reads_supply : reads (totalSupply setToken) supply.
Proof. apply reads_await. eapply yields_call; [apply market_supply|done]. Qed.

Lemma reads_info : reads (getAccountInfo module (address setToken)) info.
Proof. destruct market_info as (v & E & F). apply reads_await. by eapply yields_call. Qed.

(** The price a pool implies: the square of its root price over [2 ^ 192]. *)
Definition spot (t : Address) : Z := Z.quot (sqrtPrice t * sqrtPrice t * 10 ^ 18) (2 ^ 192).

Lemma spot_nonneg (t : Address) : 0 ≤ spot t.
Proof. apply Z.quot_pos; [nia|done]. Qed.

Lemma getPriceFromSqrtPriceX96_eq (p : Z) :
  getPriceFromSqrtPriceX96 p = Ok (Z.quot (p * p * 10 ^ 18) (2 ^ 192)).
Proof.
  unfold getPriceFromSqrtPriceX96.
  by rewrite !jsbi_multiply_spec, jsbi_exponentiate_spec, jsbi_divide_spec by done.
Qed.

Lemma reads_spot p : p ∈ positions → reads (getSpotPrice (unit_baseToken p)) (spot (unit_baseToken p)).
Proof.
  intros Hp. destruct (market_pool p Hp) as (c & v & Hc & E & Hv). unfold getSpotPrice.
  eapply reads_bind; [by apply reads_contract|].
  eapply reads_bind; [apply reads_await; by eapply yields_call|].
  eapply reads_bind; [apply reads_await; rewrite Hv; apply (yields_ret step (sqrtPrice _))|].
  apply reads_lift, getPriceFromSqrtPriceX96_eq.
Qed.

Lemma from_account_value (a : Accounts.Account) : from_value (account_value a) = Some a.
Proof. by destruct a. Qed.

Lemma reads_quote p amount isBuy : p ∈ positions → ∃ b,
  reads (getSwapQuote (unit_baseToken p) amount isBuy) (b, quoted (unit_baseToken p) amount isBuy).
Proof.
  intros Hp. destruct market_quotes as (c & a & Hc & Ha & Hq).
  destruct (Hq p amount isBuy Hp) as (v & b & E & Hb & Hquote). exists b. unfold getSwapQuote.
  eapply reads_bind; [by apply reads_contract|].
  eapply reads_bind; [eapply reads_value; [done|apply from_account_value]|].
  eapply reads_bind; [apply reads_await; by eapply yields_call|].
  eapply reads_bind; [apply reads_await; rewrite Hb; apply (yields_ret step b)|].
  eapply reads_bind; [apply reads_await; rewrite Hquote; apply (yields_ret step (quoted _ _ _))|].
  apply reads_ret.
Qed.

(** What opening the share of a position costs, as the clearing house quotes it: a
    long position is bought, a short one sold. *)
Definition cost (setQuantity : Z) (p : PositionUnitInfo) : Z :=
  let base := Z.quot (baseUnit p * setQuantity) (10 ^ 18) in
  if 0 <=? base then quoted (unit_baseToken p) base true
  else - quoted (unit_baseToken p) (- base) false.

Lemma reads_transfer_in_step q p acc : p ∈ positions →
  reads (transfer_in_step q p acc) (acc + cost q p).
Proof.
  intros Hp. unfold transfer_in_step, cost. set (base := Z.quot _ _).
  eapply reads_bind; [apply reads_lift, preciseMul_eq|]. fold base.
  rewrite bn_gte_spec, bn_abs_spec, ZERO_spec.
  destruct (reads_quote p (Z.abs base) (0 <=? base) Hp) as [b Hq].
  eapply reads_bind; [exact Hq|]. eapply reads_bind; [by apply reads_spot|].
  eapply reads_bind; [apply reads_lift, preciseMul_eq|].
  set (ideal := Z.quot _ _).
  assert (base < 0 → ideal ≤ 0) as Hideal.
  { intros Hneg. unfold ideal. pose proof (spot_nonneg (unit_baseToken p)).
    rewrite <- (Z.opp_involutive (base * _)), Z.quot_opp_l by done.
    pose proof (Z.quot_pos (- (base * spot (unit_baseToken p))) (10 ^ 18)). nia. }
  replace (acc + _) with
    (bn_add (bn_add acc ideal)
       (if 0 <=? base then bn_sub (quoted (unit_baseToken p) (Z.abs base) (0 <=? base)) ideal
        else bn_sub (bn_abs ideal) (quoted (unit_baseToken p) (Z.abs base) (0 <=? base)))).
  - apply reads_ret.
  - destruct (Z.leb_spec 0 base); bn_simpl.
    + rewrite (Z.abs_eq base) by done. lia.
    + rewrite (Z.abs_neq base) by lia. specialize (Hideal ltac:(lia)). lia.
Qed.

Lemma reads_transfer_in_loop q l acc : Forall (.∈ positions) l →
  reads (for_all (transfer_in_step q) l acc) (acc + foldr Z.add 0 (cost q <$> l)).
Proof.
  intros Hl. revert acc. induction Hl as [|p l Hp Hl IH]; intros acc; cbn [for_all fmap list_fmap foldr].
  - rewrite Z.add_0_r. apply reads_ret.
  - eapply reads_bind; [by apply reads_transfer_in_step|]. rewrite Z.add_assoc. apply IH.
Qed.

(** What the account of the token is worth in collateral. *)
Definition collateral (includeFunding : bool) : Z :=
  collateralBalance info + owedRealizedPnl info + netQuoteBalance info +
  (if includeFunding then pendingFundingPayments info else 0).

(** The share of the collateral and of the positions for a quantity of the token. *)
Definition issue_cost (setQuantity : Z) (includeFunding : bool) : Z :=
  Z.quot (Z.quot (collateral includeFunding * 10 ^ 18) supply * setQuantity) (10 ^ 18)
  + foldr Z.add 0 (cost setQuantity <$> positions).

Lemma reads_transfer_in q funding : supply ≠ 0 →
  reads (calculateUSDCTransferInPreciseUnits setToken q module funding)
    (issue_cost q (default true funding)).
Proof.
  intros Hs. unfold calculateUSDCTransferInPreciseUnits.
  eapply reads_bind; [apply reads_info|]. eapply reads_bind; [apply reads_supply|].
  eapply reads_bind; [by apply reads_lift, preciseDiv_eq|].
  eapply reads_bind; [apply reads_lift, preciseMul_eq|].
  destruct market_positions as (v & E & F).
  eapply reads_bind; [apply reads_await; by eapply yields_call|].
  unfold issue_cost. replace (collateral _) with
    (if default true funding
     then bn_add (bn_add (bn_add (collateralBalance info) (owedRealizedPnl info))
                         (netQuoteBalance info)) (pendingFundingPayments info)
     else bn_add (bn_add (collateralBalance info) (owedRealizedPnl info)) (netQuoteBalance info)).
  - apply reads_transfer_in_loop. by apply Forall_forall.
  - unfold collateral. destruct (default true funding); bn_simpl; lia.
Qed.

(** The expected transfer on issuance is the quantity's share of the collateral
    plus what the clearing house quotes for the quantity's share of each position, a
    long one bought and a short one sold.  The spot prices, from which the function
    computes an ideal quote and a slippage, cancel out; and the transfer in token
    decimals is that amount truncated. *)
Theorem transfer_in_quotes (q : Z) (funding : option bool) (Hs : supply ≠ 0) :
  outcome step (calculateUSDCTransferInPreciseUnits setToken q module funding this) s
    = Ok (issue_cost q (default true funding), this) ∧
  outcome step (calculateUSDCTransferIn setToken q module this) s
    = Ok (Z.quot (issue_cost q true) (10 ^ 12), this).
Proof.
  split.
  - destruct (reads_transfer_in q funding Hs) as [t E]. unfold outcome. by rewrite E.
  - assert (reads (calculateUSDCTransferIn setToken q module) (Z.quot (issue_cost q true) (10 ^ 12)))
      as [t E]; [|unfold outcome; by rewrite E].
    eapply reads_bind; [by apply reads_transfer_in|]. apply reads_lift. unfold toUSDCDecimals.
    by bn_simpl.
Qed.
End Estimates.
End Market.

(** ** A sample market: one long and one short position, 100 tokens *)

Definition sample_positions : list value :=
  [VObj [("baseToken", VAddr "vETH"); ("baseUnit", VNum (10 ^ 18))];
   VObj [("baseToken", VAddr "vBTC"); ("baseUnit", VNum (- 10 ^ 17))]]%string.

Definition sample_info : value :=
  VObj [("collateralBalance", VNum (1000 * 10 ^ 18)); ("owedRealizedPnl", VNum (- 10 ^ 18));
        ("pendingFundingPayments", VNum (10 ^ 18)); ("netQuoteBalance", VNum (- 500 * 10 ^ 18))]%string.

Definition sample_quote (t : Address) (amount : Z) (isBuy : bool) : Z :=
  (if String.eqb t "vETH" then 10 else 20) * amount + (if isBuy then 1000 else -1000).

Definition sample_step (s : ()) (ev : event) : () * result value :=
  (s, match ev with
      | EvCall _ _ m args =>
          if String.eqb m "totalSupply" then Ok (VNum (100 * 10 ^ 18))
          else if String.eqb m "getAccountInfo" then Ok sample_info
          else if String.eqb m "getPositionUnitInfo" then Ok (VList sample_positions)
          else if String.eqb m "slot0" then Ok (VObj [("sqrtPriceX96"%string, VNum (3 * 2 ^ 96))])
          else match args with
               | [VObj ((_, VAddr t) :: (_, VBool sell) :: _ :: (_, VNum amount) :: _)] =>
                   Ok (VObj [("base", VNum amount);
                             ("quote", VNum (sample_quote t amount (negb sell)))]%string)
               | _ => Throw (Error "unsupported")
               end
      | _ => Throw (Error "unsupported")
      end).

Definition sample_this : jsobj :=
  {[ "_pools.vETH"%string := FContract (attach "owner" "UniswapV3Pool" "poolA");
     "_pools.vBTC"%string := FContract (attach "owner" "UniswapV3Pool" "poolB");
     "clearingHouse"%string := FContract (attach "owner" "PerpV2ClearingHouse" "house");
     "otherTrader"%string :=
       FValue (account_value {| Accounts.address := "trader"; Accounts.wallet := "trader" |}) ]}.

#[local] Program Instance sample_market :
  PerpMarket sample_step () sample_this (attach "owner" "SetToken" "set")
    (attach "owner" "PerpV2LeverageModuleV2" "module") := {|
  supply := 100 * 10 ^ 18;
  info := {| collateralBalance := 1000 * 10 ^ 18; owedRealizedPnl := - 10 ^ 18;
             pendingFundingPayments := 10 ^ 18; netQuoteBalance := - 500 * 10 ^ 18 |};
  positions := [ {| unit_baseToken := "vETH"; baseUnit := 10 ^ 18 |};
                 {| unit_baseToken := "vBTC"; baseUnit := - 10 ^ 17 |} ];
  sqrtPrice _ := 3 * 2 ^ 96;
  quoted := sample_quote;
|}.
Next Obligation. reflexivity. Qed.
Next Obligation. eexists. split; reflexivity. Qed.
Next Obligation. eexists. split; reflexivity. Qed.
Next Obligation.
  intros p Hp.
  apply elem_of_cons in Hp as [->|[->|[]%not_elem_of_nil]%elem_of_cons];
    eexists _, _; repeat split; reflexivity.
Qed.
Next Obligation.
  eexists _, _. split; [reflexivity|]. split; [reflexivity|]. intros p amount isBuy Hp.
  eexists _, amount. split; [reflexivity|]. split; [reflexivity|]. by destruct isBuy.
Qed.

Lemma transfer_in_quotes_witness :
  outcome sample_step (calculateUSDCTransferIn (attach "owner" "SetToken" "set") (10 ^ 18)
    (attach "owner" "PerpV2LeverageModuleV2" "module") sample_this) () = Ok (13000000, sample_this).
Proof.
  destruct (transfer_in_quotes sample_step () sample_this (attach "owner" "SetToken" "set")
    (attach "owner" "PerpV2LeverageModuleV2" "module") (10 ^ 18) None) as [_ E]; [discriminate|].
  rewrite E. vm_compute. reflexivity.
Defined.
