(* ===== verification/Erc20.v ===== *)
(** * The token package under a set

    [SetToken] inherits balances, allowances and supply from the ERC-20 contract of
    a package outside the repository: the class [ERC20], with the documented effect
    of minting, burning and the token's own transactions, and a concrete ledger
    that has it. *)
From Stdlib Require Import String.
From S2P Require Import Prelude JsString BigNumber Constants MathUtils SolMath AddressArrayUtils Controller.

(** The transactions a holder sends to the token itself. *)
Inductive erc20_call :=
| Transfer (recipient : Address) (amount : Z)
| TransferFrom (sender recipient : Address) (amount : Z)
| Approve (spender : Address) (amount : Z)
| IncreaseAllowance (spender : Address) (addedValue : Z)
| DecreaseAllowance (spender : Address) (subtractedValue : Z).

(** Whose tokens a transaction moves, to whom, and how many. *)
Definition moves (msg_sender : Address) (o : erc20_call) : option (Address * Address * Z) :=
  match o with
  | Transfer a q => Some (msg_sender, a, q)
  | TransferFrom a b q => Some (a, b, q)
  | _ => None
  end.

Class ERC20 := {
  ledger : Type;
  new_ledger : string → string → ledger;
  totalSupply : ledger → Z;
  balanceOf : ledger → Address → Z;
  _mint : Address → Z → ledger → result ledger;
  _burn : Address → Z → ledger → result ledger;
  erc20_execute : Address → erc20_call → ledger → result ledger;
  new_ledger_empty name symbol :
    totalSupply (new_ledger name symbol) = 0 ∧ ∀ a, balanceOf (new_ledger name symbol) a = 0;
  mint_fits a q l :
    a ≠ Controller.address0 → is_uint q → is_uint (totalSupply l) →
    0 ≤ balanceOf l a ≤ totalSupply l → totalSupply l + q ≤ UINT_MAX → is_ok (_mint a q l) = true;
  mint_effect a q l l' :
    is_uint q → is_uint (totalSupply l) → _mint a q l = Ok l' →
    totalSupply l' = totalSupply l + q ∧ totalSupply l' ≤ UINT_MAX ∧
    ∀ b, balanceOf l' b = balanceOf l b + if decide (b = a) then q else 0;
  mint_zero q l : _mint Controller.address0 q l = Throw (Revert "ERC20: mint to the zero address");
  burn_fits a q l :
    a ≠ Controller.address0 → 0 ≤ q ≤ balanceOf l a → balanceOf l a ≤ totalSupply l →
    is_uint (totalSupply l) → is_ok (_burn a q l) = true;
  burn_effect a q l l' :
    is_uint q → is_uint (totalSupply l) → _burn a q l = Ok l' →
    q ≤ balanceOf l a ∧ q ≤ totalSupply l ∧ totalSupply l' = totalSupply l - q ∧
    ∀ b, balanceOf l' b = balanceOf l b - if decide (b = a) then q else 0;
  erc20_effect caller o l l' :
    erc20_execute caller o l = Ok l' →
    totalSupply l' = totalSupply l ∧
    ∀ b, balanceOf l' b = balanceOf l b +
      match moves caller o with
      | Some (x, y, q) => (if decide (b = y) then q else 0) - if decide (b = x) then q else 0
      | None => 0
      end;
}.

(** ** A concrete ledger *)

Record book :=
  { supply : Z; accounts : gmap Address Z; allowances : gmap (Address * Address) Z }.

Definition balance_in (b : book) (a : Address) : Z := default 0 (accounts b !! a).

Definition book_mint (a : Address) (q : Z) (b : book) : result book :=
  require (negb (bool_decide (a = Controller.address0))) "ERC20: mint to the zero address";;
  require (supply b + q <=? UINT_MAX) "SafeMath: addition overflow";;
  require (balance_in b a + q <=? UINT_MAX) "SafeMath: addition overflow";;
  Ok {| supply := supply b + q; accounts := <[a := balance_in b a + q]> (accounts b);
        allowances := allowances b |}.

Definition book_burn (a : Address) (q : Z) (b : book) : result book :=
  require (negb (bool_decide (a = Controller.address0))) "ERC20: burn from the zero address";;
  require (q <=? balance_in b a) "ERC20: burn amount exceeds balance";;
  require (q <=? supply b) "SafeMath: subtraction overflow";;
  Ok {| supply := supply b - q; accounts := <[a := balance_in b a - q]> (accounts b);
        allowances := allowances b |}.

Definition book_transfer (x y : Address) (q : Z) (b : book) : result book :=
  require (negb (bool_decide (x = Controller.address0))) "ERC20: transfer from the zero address";;
  require (negb (bool_decide (y = Controller.address0))) "ERC20: transfer to the zero address";;
  require (q <=? balance_in b x) "ERC20: transfer amount exceeds balance";;
  let b := {| supply := supply b; accounts := <[x := balance_in b x - q]> (accounts b);
              allowances := allowances b |} in
  require (balance_in b y + q <=? UINT_MAX) "SafeMath: addition overflow";;
  Ok {| supply := supply b; accounts := <[y := balance_in b y + q]> (accounts b);
        allowances := allowances b |}.

Definition allowance_in (b : book) (x y : Address) : Z := default 0 (allowances b !! (x, y)).

Definition book_approve (x y : Address) (q : Z) (b : book) : result book :=
  require (negb (bool_decide (x = Controller.address0))) "ERC20: approve from the zero address";;
  require (negb (bool_decide (y = Controller.address0))) "ERC20: approve to the zero address";;
  Ok {| supply := supply b; accounts := accounts b;
        allowances := <[(x, y) := q]> (allowances b) |}.

Definition book_execute (caller : Address) (o : erc20_call) (b : book) : result book :=
  match o with
  | Transfer y q => book_transfer caller y q b
  | TransferFrom x y q =>
      b ← book_transfer x y q b;
      require (q <=? allowance_in b x caller) "ERC20: transfer amount exceeds allowance";;
      book_approve x caller (allowance_in b x caller - q) b
  | Approve y q => book_approve caller y q b
  | IncreaseAllowance y q =>
      require (allowance_in b caller y + q <=? UINT_MAX) "SafeMath: addition overflow";;
      book_approve caller y (allowance_in b caller y + q) b
  | DecreaseAllowance y q =>
      require (q <=? allowance_in b caller y) "ERC20: decreased allowance below zero";;
      book_approve caller y (allowance_in b caller y - q) b
  end.

Lemma balance_in_insert (s : Z) (b : book) (a c : Address) (z : Z) l :
  balance_in {| supply := s; accounts := <[a := z]> (accounts b); allowances := l |} c =
    if decide (c = a) then z else balance_in b c.
Proof.
  unfold balance_in. cbn. destruct (decide (c = a)) as [->|Hne].
  - by rewrite lookup_insert_eq.
  - by rewrite lookup_insert_ne by congruence.
Qed.

Lemma book_transfer_effect (x y : Address) (q : Z) (b b' : book) :
  book_transfer x y q b = Ok b' →
  supply b' = supply b ∧
  ∀ c, balance_in b' c = balance_in b c +
    ((if decide (c = y) then q else 0) - if decide (c = x) then q else 0).
Proof.
  intros E. unfold book_transfer in E. result_inv. split; [done|]. intros c.
  pose proof (balance_in_insert (supply b) b x) as B.
  unfold balance_in at 1. cbn. destruct (decide (c = y)) as [->|Hy].
  - rewrite lookup_insert_eq. cbn. rewrite B. destruct (decide (y = x)) as [->|]; lia.
  - rewrite lookup_insert_ne by congruence.
    destruct (decide (c = x)) as [->|Hx]; [rewrite lookup_insert_eq; cbn; lia|].
    rewrite lookup_insert_ne by congruence. unfold balance_in. lia.
Qed.

Lemma book_approve_effect (x y : Address) (q : Z) (b b' : book) :
  book_approve x y q b = Ok b' → supply b' = supply b ∧ ∀ c, balance_in b' c = balance_in b c.
Proof. intros E. unfold book_approve in E. by result_inv. Qed.

#[local] Obligation Tactic := try done; cbv beta.

#[export] Program Instance ERC20_book : ERC20 := {|
  ledger := book;
  new_ledger _ _ := {| supply := 0; accounts := ∅; allowances := ∅ |};
  totalSupply := supply;
  balanceOf := balance_in;
  _mint := book_mint;
  _burn := book_burn;
  erc20_execute := book_execute;
|}.
Next Obligation.
  intros a q b Ha [Hq _] _ Hb Hs. unfold book_mint. rewrite bool_decide_false by done.
  destruct (Z.leb_spec (supply b + q) UINT_MAX), (Z.leb_spec (balance_in b a + q) UINT_MAX);
    try done; lia.
Qed.
Next Obligation.
  intros a q b b' Hq Hs E. unfold book_mint in E. result_inv.
  split; [done|]. split; [by apply Z.leb_le|]. intros c. rewrite balance_in_insert.
  destruct (decide (c = a)) as [->|]; lia.
Qed.
Next Obligation.
  intros a q b Ha Hq Hb Hs. unfold book_burn. rewrite bool_decide_false by done.
  destruct (Z.leb_spec q (balance_in b a)), (Z.leb_spec q (supply b)); try done; lia.
Qed.
Next Obligation.
  intros a q b b' Hq Hs E. unfold book_burn in E. result_inv.
  split; [by apply Z.leb_le|]. split; [by apply Z.leb_le|]. split; [done|].
  intros c. rewrite balance_in_insert. destruct (decide (c = a)) as [->|]; lia.
Qed.
Next Obligation.
  intros caller o b b' E. destruct o as [y q|x y q|y q|y q|y q]; cbn [book_execute moves] in *.
  - by apply book_transfer_effect in E.
  - apply result_bind_ok in E as (b1 & Et & E). apply result_bind_ok in E as (? & _ & E).
    apply book_transfer_effect in Et as [Es Eb]. apply book_approve_effect in E as [-> E].
    split; [done|]. intros c. by rewrite E, Eb.
  - apply book_approve_effect in E as [-> E]. split; [done|]. intros c. by rewrite E, Z.add_0_r.
  - apply result_bind_ok in E as (? & _ & E). apply book_approve_effect in E as [-> E].
    split; [done|]. intros c. by rewrite E, Z.add_0_r.
  - apply result_bind_ok in E as (? & _ & E). apply book_approve_effect in E as [-> E].
    split; [done|]. intros c. by rewrite E, Z.add_0_r.
Qed.
