(* ===== verification/SetToken.v ===== *)
(** * The set token

    [contracts/protocol/SetToken.sol]: the token that holds the components, its
    modules and their states, the lock, the positions in virtual units and the
    multiplier that turns them into real units.  The calls to other contracts in
    [invoke] and [removeModule] are composed in World.v. *)
From Stdlib Require Import String.
From S2P Require Import Prelude JsString BigNumber Constants MathUtils SolMath.
From S2P Require Import AddressArrayUtils Script Controller Erc20.

#[global] Instance module_state_eq_dec : EqDecision module_state.
Proof. solve_decision. Defined.

Module SetToken.

(** Call data: what [abi.encodeWithSignature] makes of a signature and its
    arguments, or any other bytes. *)
Inductive call_data :=
| encodeWithSignature (signature : string) (arguments : list value)
| raw_data (bytes : Bytes).

Record ExternalPosition := { external_virtualUnit : Z; external_data : Bytes }.

Record ComponentPosition := {
  virtualUnit : Z;
  externalPositionModules : list Address;
  externalPositions : gmap Address ExternalPosition;
}.

Inductive log_entry :=
| Invoked (_target : Address) (_value : Z) (_data : call_data) (_returnValue : value)
| ModuleAdded (_module : Address)
| ModuleRemoved (_module : Address)
| ModuleInitialized (_module : Address)
| ManagerEdited (_newManager _oldManager : Address)
| PendingModuleRemoved (_module : Address)
| PositionMultiplierEdited (_newMultiplier : Z)
| ComponentAdded (_component : Address)
| ComponentRemoved (_component : Address)
| DefaultPositionUnitEdited (_component : Address) (_realUnit : Z)
| ExternalPositionUnitEdited (_component _positionModule : Address) (_realUnit : Z)
| ExternalPositionDataEdited (_component _positionModule : Address) (_data : Bytes)
| PositionModuleAdded (_component _positionModule : Address)
| PositionModuleRemoved (_component _positionModule : Address).

(** What an unwritten slot of the mappings reads as. *)
Definition no_position : ComponentPosition :=
  {| virtualUnit := 0; externalPositionModules := []; externalPositions := ∅ |}.
Definition no_external : ExternalPosition :=
  {| external_virtualUnit := 0; external_data := EmptyString |}.

Section SetToken.
Context `{ERC20} `{SignedLib}.

Record State := {
  manager : Address;
  locker : Address;
  modules : list Address;
  moduleStates : gmap Address module_state;
  isLocked : bool;
  components : list Address;
  componentPositions : gmap Address ComponentPosition;
  positionMultiplier : Z;
  token : ledger;
  logs : list log_entry;
}.

(** ** Reading the mappings *)

Definition state_of_module (s : State) (m : Address) : module_state :=
  default NONE (moduleStates s !! m).
Definition position (s : State) (c : Address) : ComponentPosition :=
  default no_position (componentPositions s !! c).
Definition external_position (s : State) (c m : Address) : ExternalPosition :=
  default no_external (externalPositions (position s c) !! m).

(** ** Field updates *)

Definition set_manager (a : Address) (s : State) : State :=
  {| manager := a; locker := locker s; modules := modules s; moduleStates := moduleStates s;
     isLocked := isLocked s; components := components s;
     componentPositions := componentPositions s; positionMultiplier := positionMultiplier s;
     token := token s; logs := logs s |}.

Definition set_lock (l : Address) (b : bool) (s : State) : State :=
  {| manager := manager s; locker := l; modules := modules s; moduleStates := moduleStates s;
     isLocked := b; components := components s;
     componentPositions := componentPositions s; positionMultiplier := positionMultiplier s;
     token := token s; logs := logs s |}.

Definition set_modules (l : list Address) (s : State) : State :=
  {| manager := manager s; locker := locker s; modules := l; moduleStates := moduleStates s;
     isLocked := isLocked s; components := components s;
     componentPositions := componentPositions s; positionMultiplier := positionMultiplier s;
     token := token s; logs := logs s |}.

Definition set_moduleState (m : Address) (st : module_state) (s : State) : State :=
  {| manager := manager s; locker := locker s; modules := modules s;
     moduleStates := <[m := st]> (moduleStates s);
     isLocked := isLocked s; components := components s;
     componentPositions := componentPositions s; positionMultiplier := positionMultiplier s;
     token := token s; logs := logs s |}.

Definition set_components (l : list Address) (s : State) : State :=
  {| manager := manager s; locker := locker s; modules := modules s;
     moduleStates := moduleStates s; isLocked := isLocked s; components := l;
     componentPositions := componentPositions s; positionMultiplier := positionMultiplier s;
     token := token s; logs := logs s |}.

Definition set_position (c : Address) (p : ComponentPosition) (s : State) : State :=
  {| manager := manager s; locker := locker s; modules := modules s;
     moduleStates := moduleStates s; isLocked := isLocked s; components := components s;
     componentPositions := <[c := p]> (componentPositions s);
     positionMultiplier := positionMultiplier s; token := token s; logs := logs s |}.

Definition set_multiplier (z : Z) (s : State) : State :=
  {| manager := manager s; locker := locker s; modules := modules s;
     moduleStates := moduleStates s; isLocked := isLocked s; components := components s;
     componentPositions := componentPositions s; positionMultiplier := z;
     token := token s; logs := logs s |}.

Definition set_token (t : ledger) (s : State) : State :=
  {| manager := manager s; locker := locker s; modules := modules s;
     moduleStates := moduleStates s; isLocked := isLocked s; components := components s;
     componentPositions := componentPositions s; positionMultiplier := positionMultiplier s;
     token := t; logs := logs s |}.

Definition emit (e : log_entry) (s : State) : State :=
  {| manager := manager s; locker := locker s; modules := modules s;
     moduleStates := moduleStates s; isLocked := isLocked s; components := components s;
     componentPositions := componentPositions s; positionMultiplier := positionMultiplier s;
     token := token s; logs := logs s ++ [e] |}.

Definition with_virtualUnit (z : Z) (p : ComponentPosition) : ComponentPosition :=
  {| virtualUnit := z; externalPositionModules := externalPositionModules p;
     externalPositions := externalPositions p |}.

Definition with_external (l : list Address) (m : gmap Address ExternalPosition)
    (p : ComponentPosition) : ComponentPosition :=
  {| virtualUnit := virtualUnit p; externalPositionModules := l; externalPositions := m |}.

(** ** Construction *)

(** The modules of the argument become pending, one after the other. *)
Fixpoint pend_all (ms : list Address) (f : gmap Address module_state) : gmap Address module_state :=
  match ms with
  | [] => f
  | m :: ms' => pend_all ms' (<[m := PENDING]> f)
  end.

(** [_units[j]] fails when there are fewer units than components. *)
Fixpoint place_all (cs : list Address) (us : list Z) (p : gmap Address ComponentPosition)
    : result (gmap Address ComponentPosition) :=
  match cs, us with
  | [], _ => Ok p
  | c :: cs', u :: us' =>
      place_all cs' us' (<[c := with_virtualUnit u (default no_position (p !! c))]> p)
  | _ :: _, [] => Throw (Revert "invalid opcode")
  end.

Definition constructor (_components : list Address) (_units : list Z) (_modules : list Address)
    (_manager : Address) (_name _symbol : string) : result State :=
  ps ← place_all _components _units ∅;
  Ok {| manager := _manager; locker := Controller.address0; modules := [];
        moduleStates := pend_all _modules ∅; isLocked := false; components := _components;
        componentPositions := ps; positionMultiplier := PreciseUnitMath.PRECISE_UNIT_INT;
        token := new_ledger _name _symbol; logs := [] |}.

(** ** Units *)

Definition _convertVirtualToRealUnit (s : State) (_virtualUnit : Z) : result Z :=
  PreciseUnitMath.conservativePreciseMul _virtualUnit (positionMultiplier s).

Definition _convertRealToVirtualUnit (s : State) (_realUnit : Z) : result Z :=
  virtual ← PreciseUnitMath.conservativePreciseDiv _realUnit (positionMultiplier s);
  if (0 <? _realUnit) && (virtual =? 0) then
    Throw (Revert "Real to Virtual unit conversion invalid")
  else if 0 <? _realUnit then
    back ← _convertVirtualToRealUnit s virtual;
    if back =? 0 then Throw (Revert "Virtual to Real unit conversion invalid") else Ok virtual
  else Ok virtual.

(** ** Views *)

Definition getComponents (s : State) : list Address := components s.
Definition getModules (s : State) : list Address := modules s.
Definition isComponent (s : State) (c : Address) : bool := contains (components s) c.
Definition isInitializedModule (s : State) (m : Address) : bool :=
  bool_decide (state_of_module s m = INITIALIZED).
Definition isPendingModule (s : State) (m : Address) : bool :=
  bool_decide (state_of_module s m = PENDING).
Definition getExternalPositionModules (s : State) (c : Address) : list Address :=
  externalPositionModules (position s c).
Definition getExternalPositionData (s : State) (c m : Address) : Bytes :=
  external_data (external_position s c m).
Definition isExternalPositionModule (s : State) (c m : Address) : bool :=
  contains (getExternalPositionModules s c) m.

Definition getDefaultPositionRealUnit (s : State) (c : Address) : result Z :=
  _convertVirtualToRealUnit s (virtualUnit (position s c)).

Definition getExternalPositionRealUnit (s : State) (c m : Address) : result Z :=
  _convertVirtualToRealUnit s (external_virtualUnit (external_position s c m)).

(** A write to an array in memory fails past its end. *)
Definition write {A} (l : list A) (i : Z) (x : A) : result (list A) :=
  if i <? Z.of_nat (length l) then Ok (<[Z.to_nat i := x]> l)
  else Throw (Revert "invalid opcode").

Fixpoint count_loop (s : State) (cs : list Address) (positionCount : Z) : result Z :=
  match cs with
  | [] => Ok positionCount
  | c :: cs' =>
      let positionCount :=
        if 0 <? virtualUnit (position s c) then wrap_uint (positionCount + 1) else positionCount in
      let n := Z.of_nat (length (getExternalPositionModules s c)) in
      if 0 <? n then p ← SafeMath.add positionCount n; count_loop s cs' p
      else count_loop s cs' positionCount
  end.

Definition _getPositionCount (s : State) : result Z := count_loop s (components s) 0.

(** The inner loop of [getPositions], over the external modules of a component. *)
Fixpoint external_loop (s : State) (c : Address) (ms : list Address) (positions : list Position)
    (positionCount : Z) : result (list Position * Z) :=
  match ms with
  | [] => Ok (positions, positionCount)
  | m :: ms' =>
      u ← getExternalPositionRealUnit s c m;
      ps ← write positions positionCount
             {| component := c; module := m; unit_ := u; positionState := POSITION_STATE EXTERNAL;
                data := getExternalPositionData s c m |};
      external_loop s c ms' ps (wrap_uint (positionCount + 1))
  end.

Fixpoint positions_loop (s : State) (cs : list Address) (positions : list Position)
    (positionCount : Z) : result (list Position * Z) :=
  match cs with
  | [] => Ok (positions, positionCount)
  | c :: cs' =>
      '(ps, n) ←
        (if 0 <? virtualUnit (position s c) then
           u ← getDefaultPositionRealUnit s c;
           ps ← write positions positionCount
                  {| component := c; module := Controller.address0; unit_ := u;
                     positionState := POSITION_STATE DEFAULT; data := EmptyString |};
           Ok (ps, wrap_uint (positionCount + 1))
         else Ok (positions, positionCount));
      '(ps', n') ← external_loop s c (getExternalPositionModules s c) ps n;
      positions_loop s cs' ps' n'
  end.

(** An element of a new array of positions. *)
Definition blank_position : Position :=
  {| component := Controller.address0; module := Controller.address0; unit_ := 0;
     positionState := 0; data := EmptyString |}.

Definition getPositions (s : State) : result (list Position) :=
  n ← _getPositionCount s;
  '(ps, _) ← positions_loop s (components s) (replicate (Z.to_nat n) blank_position) 0;
  Ok ps.

Fixpoint total_loop (s : State) (c : Address) (ms : list Address) (totalUnits : Z) : result Z :=
  match ms with
  | [] => Ok totalUnits
  | m :: ms' => u ← getExternalPositionRealUnit s c m;
                t ← int_add totalUnits u; total_loop s c ms' t
  end.

Definition getTotalComponentRealUnits (s : State) (c : Address) : result Z :=
  totalUnits ← getDefaultPositionRealUnit s c;
  total_loop s c (getExternalPositionModules s c) totalUnits.

(** ** The smallest unit *)

Definition _absoluteValue (a : Z) : result Z :=
  if 0 <=? a then toUint256 a else toUint256 (wrap_int (- a)).

Fixpoint external_minimum (s : State) (c : Address) (ms : list Address) (minimumUnit : Z)
    : result Z :=
  match ms with
  | [] => Ok minimumUnit
  | m :: ms' =>
      u ← _absoluteValue (external_virtualUnit (external_position s c m));
      external_minimum s c ms' (if (0 <? u) && (u <? minimumUnit) then u else minimumUnit)
  end.

Fixpoint minimum_loop (s : State) (cs : list Address) (minimumUnit : Z) : result Z :=
  match cs with
  | [] => Ok minimumUnit
  | c :: cs' =>
      defaultUnit ← toUint256 (virtualUnit (position s c));
      m ← external_minimum s c (getExternalPositionModules s c)
            (if (0 <? defaultUnit) && (defaultUnit <? minimumUnit) then defaultUnit else minimumUnit);
      minimum_loop s cs' m
  end.

(** [uint256(-1)] starts the search. *)
Definition _getPositionsAbsMinimumVirtualUnit (s : State) : result Z :=
  minimumUnit ← minimum_loop s (components s) (wrap_uint (-1));
  toInt256 minimumUnit.

Definition _validateNewMultiplier (s : State) (_newMultiplier : Z) : result () :=
  minVirtualUnit ← _getPositionsAbsMinimumVirtualUnit s;
  u ← PreciseUnitMath.conservativePreciseMul minVirtualUnit _newMultiplier;
  require (0 <? u) "New multiplier too small".

(** ** Guards *)

Section Guards.
Context (ctl : Controller.State) (msg_sender : Address).

Definition _validateOnlyModule (s : State) : result () :=
  require (bool_decide (state_of_module s msg_sender = INITIALIZED)) "Only the module can call";;
  require (bool_decide (msg_sender ∈ Controller.isModule ctl))
    "Module must be enabled on controller".

Definition _validateOnlyManager (s : State) : result () :=
  require (bool_decide (msg_sender = manager s)) "Only manager can call".

Definition _validateWhenLockedOnlyLocker (s : State) : result () :=
  if isLocked s then
    require (bool_decide (msg_sender = locker s)) "When locked, only the locker can call"
  else Ok ().

(** [onlyModule whenLockedOnlyLocker]. *)
Definition privileged (s : State) : result () :=
  _validateOnlyModule s;; _validateWhenLockedOnlyLocker s.

(** ** Operations of modules *)

Definition addComponent (_component : Address) (s : State) : result State :=
  privileged s;;
  require (negb (isComponent s _component)) "Must not be component";;
  Ok (emit (ComponentAdded _component) (set_components (components s ++ [_component]) s)).

Definition removeComponent (_component : Address) (s : State) : result State :=
  privileged s;;
  l ← removeStorage (components s) _component;
  Ok (emit (ComponentRemoved _component) (set_components l s)).

Definition editDefaultPositionUnit (_component : Address) (_realUnit : Z) (s : State)
    : result State :=
  privileged s;;
  v ← _convertRealToVirtualUnit s _realUnit;
  Ok (emit (DefaultPositionUnitEdited _component _realUnit)
       (set_position _component (with_virtualUnit v (position s _component)) s)).

Definition addExternalPositionModule (_component _positionModule : Address) (s : State)
    : result State :=
  privileged s;;
  require (negb (isExternalPositionModule s _component _positionModule)) "Module already added";;
  let p := position s _component in
  Ok (emit (PositionModuleAdded _component _positionModule)
       (set_position _component
          (with_external (externalPositionModules p ++ [_positionModule]) (externalPositions p) p) s)).

Definition removeExternalPositionModule (_component _positionModule : Address) (s : State)
    : result State :=
  privileged s;;
  let p := position s _component in
  l ← removeStorage (externalPositionModules p) _positionModule;
  Ok (emit (PositionModuleRemoved _component _positionModule)
       (set_position _component
          (with_external l (base.delete _positionModule (externalPositions p)) p) s)).

(** Both edits write one field of an external position. *)
Definition put_external (_component _positionModule : Address) (e : ExternalPosition) (s : State)
    : State :=
  let p := position s _component in
  set_position _component
    (with_external (externalPositionModules p) (<[_positionModule := e]> (externalPositions p)) p) s.

Definition editExternalPositionUnit (_component _positionModule : Address) (_realUnit : Z)
    (s : State) : result State :=
  privileged s;;
  v ← _convertRealToVirtualUnit s _realUnit;
  Ok (emit (ExternalPositionUnitEdited _component _positionModule _realUnit)
       (put_external _component _positionModule
          {| external_virtualUnit := v;
             external_data := getExternalPositionData s _component _positionModule |} s)).

Definition editExternalPositionData (_component _positionModule : Address) (_data : Bytes)
    (s : State) : result State :=
  privileged s;;
  Ok (emit (ExternalPositionDataEdited _component _positionModule _data)
       (put_external _component _positionModule
          {| external_virtualUnit :=
               external_virtualUnit (external_position s _component _positionModule);
             external_data := _data |} s)).

Definition editPositionMultiplier (_newMultiplier : Z) (s : State) : result State :=
  privileged s;;
  _validateNewMultiplier s _newMultiplier;;
  Ok (emit (PositionMultiplierEdited _newMultiplier) (set_multiplier _newMultiplier s)).

Definition mint (_account : Address) (_quantity : Z) (s : State) : result State :=
  privileged s;;
  t ← _mint _account _quantity (token s);
  Ok (set_token t s).

Definition burn (_account : Address) (_quantity : Z) (s : State) : result State :=
  privileged s;;
  t ← _burn _account _quantity (token s);
  Ok (set_token t s).

Definition lock (s : State) : result State :=
  _validateOnlyModule s;;
  require (negb (isLocked s)) "Must not be locked";;
  Ok (set_lock msg_sender true s).

Definition unlock (s : State) : result State :=
  _validateOnlyModule s;;
  require (isLocked s) "Must be locked";;
  require (bool_decide (locker s = msg_sender)) "Must be locker";;
  Ok (set_lock Controller.address0 false s).

(** ** Operations of the manager *)

Definition addModule (_module : Address) (s : State) : result State :=
  _validateOnlyManager s;;
  require (bool_decide (state_of_module s _module = NONE)) "Module must not be added";;
  require (bool_decide (_module ∈ Controller.isModule ctl)) "Must be enabled on Controller";;
  Ok (emit (ModuleAdded _module) (set_moduleState _module PENDING s)).

(** What [removeModule] checks before it calls the module, and what it does
    after. *)
Definition removeModule_checks (_module : Address) (s : State) : result () :=
  _validateOnlyManager s;;
  require (negb (isLocked s)) "Only when unlocked";;
  require (bool_decide (state_of_module s _module = INITIALIZED)) "Module must be added".

Definition removeModule_effects (_module : Address) (s : State) : result State :=
  let s := set_moduleState _module NONE s in
  l ← removeStorage (modules s) _module;
  Ok (emit (ModuleRemoved _module) (set_modules l s)).

Definition removePendingModule (_module : Address) (s : State) : result State :=
  _validateOnlyManager s;;
  require (negb (isLocked s)) "Only when unlocked";;
  require (bool_decide (state_of_module s _module = PENDING)) "Module must be pending";;
  Ok (emit (PendingModuleRemoved _module) (set_moduleState _module NONE s)).

Definition initializeModule (s : State) : result State :=
  require (negb (isLocked s)) "Only when unlocked";;
  require (bool_decide (state_of_module s msg_sender = PENDING)) "Module must be pending";;
  Ok (emit (ModuleInitialized msg_sender)
       (set_modules (modules s ++ [msg_sender]) (set_moduleState msg_sender INITIALIZED s))).

Definition setManager (_manager : Address) (s : State) : result State :=
  _validateOnlyManager s;;
  require (negb (isLocked s)) "Only when unlocked";;
  let oldManager := manager s in
  Ok (emit (ManagerEdited _manager oldManager) (set_manager _manager s)).
End Guards.

(** ** Transactions *)

Inductive operation :=
| Invoke (_target : Address) (_value : Z) (_data : call_data) (_returnValue : value)
| AddComponent (_component : Address)
| RemoveComponent (_component : Address)
| EditDefaultPositionUnit (_component : Address) (_realUnit : Z)
| AddExternalPositionModule (_component _positionModule : Address)
| RemoveExternalPositionModule (_component _positionModule : Address)
| EditExternalPositionUnit (_component _positionModule : Address) (_realUnit : Z)
| EditExternalPositionData (_component _positionModule : Address) (_data : Bytes)
| EditPositionMultiplier (_newMultiplier : Z)
| Mint (_account : Address) (_quantity : Z)
| Burn (_account : Address) (_quantity : Z)
| Lock
| Unlock
| AddModule (_module : Address)
| RemoveModule (_module : Address)
| RemovePendingModule (_module : Address)
| InitializeModule
| SetManager (_manager : Address)
| Token (_call : erc20_call).

(** What [invoke] does to the set after its checks and the call. *)
Definition invoke_effects (_target : Address) (_value : Z) (_data : call_data)
    (_returnValue : value) (s : State) : result State :=
  Ok (emit (Invoked _target _value _data _returnValue) s).

(** What a transaction does to the set itself, in one piece.  [invoke] and
    [removeModule] call another contract between their checks and their effects,
    and what that contract does to the set are transactions of their own; so of
    these two only the effects are here, and [enter] below has the checks. *)
Definition execute (ctl : Controller.State) (msg_sender : Address) (o : operation) (s : State)
    : result State :=
  match o with
  | Invoke t v d r => invoke_effects t v d r s
  | AddComponent c => addComponent ctl msg_sender c s
  | RemoveComponent c => removeComponent ctl msg_sender c s
  | EditDefaultPositionUnit c u => editDefaultPositionUnit ctl msg_sender c u s
  | AddExternalPositionModule c m => addExternalPositionModule ctl msg_sender c m s
  | RemoveExternalPositionModule c m => removeExternalPositionModule ctl msg_sender c m s
  | EditExternalPositionUnit c m u => editExternalPositionUnit ctl msg_sender c m u s
  | EditExternalPositionData c m d => editExternalPositionData ctl msg_sender c m d s
  | EditPositionMultiplier z => editPositionMultiplier ctl msg_sender z s
  | Mint a q => mint ctl msg_sender a q s
  | Burn a q => burn ctl msg_sender a q s
  | Lock => lock ctl msg_sender s
  | Unlock => unlock ctl msg_sender s
  | AddModule m => addModule ctl msg_sender m s
  | RemoveModule m => removeModule_effects m s
  | RemovePendingModule m => removePendingModule msg_sender m s
  | InitializeModule => initializeModule msg_sender s
  | SetManager a => setManager msg_sender a s
  | Token o => t ← erc20_execute msg_sender o (token s); Ok (set_token t s)
  end.

(** The ranges the argument types guarantee. *)
Definition well_typed (o : operation) : Prop :=
  match o with
  | EditDefaultPositionUnit _ u | EditExternalPositionUnit _ _ u
  | EditPositionMultiplier u => is_int u
  | Mint _ q | Burn _ q => is_uint q
  | _ => True
  end.

(** One such piece, of any caller, under any controller. *)
Definition step (s s' : State) : Prop :=
  ∃ ctl msg_sender o, msg_sender ≠ Controller.address0 ∧ well_typed o ∧
    execute ctl msg_sender o s = Ok s'.

(** ** Transactions that call out

    The set is at work on a stack of calls: an invocation whose target runs, a
    removal whose module runs. *)

Inductive pending_call :=
| Invoking (_target : Address) (_value : Z) (_data : call_data)
| Removing (_module : Address).

Record machine := { the_set : State; stack : list pending_call }.

(** The checks with which a call out begins. *)
Definition enter (ctl : Controller.State) (msg_sender : Address) (k : pending_call) (s : State)
    : result () :=
  match k with
  | Invoking _ _ _ => privileged ctl msg_sender s
  | Removing m => removeModule_checks msg_sender m s
  end.

(** What is done once the contract called has answered. *)
Definition leave (k : pending_call) (_returnValue : value) (s : State) : result State :=
  match k with
  | Invoking t v d => invoke_effects t v d _returnValue s
  | Removing m => removeModule_effects m s
  end.

Definition calls_out (o : operation) : bool :=
  match o with Invoke _ _ _ _ | RemoveModule _ => true | _ => false end.

(** Transactions that do not call out run to their end at any time; the others
    are entered and left, and whatever happens between is any number of further
    transitions.  With [P], no module that a removal calls leaves the set locked. *)
Inductive transition (P : Prop) : machine → machine → Prop :=
| transition_whole ctl msg_sender o s s' ks :
    msg_sender ≠ Controller.address0 → well_typed o → calls_out o = false →
    execute ctl msg_sender o s = Ok s' →
    transition P {| the_set := s; stack := ks |} {| the_set := s'; stack := ks |}
| transition_enter ctl msg_sender k s u ks :
    msg_sender ≠ Controller.address0 → enter ctl msg_sender k s = Ok u →
    transition P {| the_set := s; stack := ks |} {| the_set := s; stack := k :: ks |}
| transition_leave k r s s' ks :
    (P → (∃ m, k = Removing m) → isLocked s = false) → leave k r s = Ok s' →
    transition P {| the_set := s; stack := k :: ks |} {| the_set := s'; stack := ks |}.
End SetToken.

Arguments State {_}.

(** ** The invariant *)
Section Invariant.
Context `{ERC20} `{SignedLib}.
Implicit Types (s : State) (a c m : Address).

(** The array of modules lists the initialized ones, each once. *)
Definition listed (l : list Address) (f : gmap Address module_state) : Prop :=
  NoDup l ∧ ∀ m, m ∈ l ↔ default NONE (f !! m) = INITIALIZED.

Definition modules_ok s : Prop := listed (modules s) (moduleStates s).

(** A locked set has a locker, an unlocked one none. *)
Definition lock_ok s : Prop :=
  if isLocked s then locker s ≠ Controller.address0 else locker s = Controller.address0.

(** The locker is an initialized module. *)
Definition lock_held s : Prop := isLocked s = true → locker s ∈ modules s.

Definition arrays_ok s : Prop :=
  NoDup (components s) ∧ ∀ c, NoDup (externalPositionModules (position s c)).

Definition units_ok s : Prop :=
  (∀ c, is_int (virtualUnit (position s c))) ∧
  (∀ c m, is_int (external_virtualUnit (external_position s c m))).

Definition consistent s : Prop :=
  modules_ok s ∧ lock_ok s ∧ arrays_ok s ∧ units_ok s ∧
  is_int (positionMultiplier s) ∧ 0 < positionMultiplier s ∧ is_uint (totalSupply (token s)).

Lemma position_set_position (s : State) (c c' : Address) (p : ComponentPosition) :
  position (set_position c p s) c' = if decide (c' = c) then p else position s c'.
Proof.
  unfold position. cbn. destruct (decide (c' = c)) as [->|].
  - by rewrite lookup_insert_eq.
  - by rewrite lookup_insert_ne by congruence.
Qed.

Lemma default_insert (f : gmap Address module_state) (m m' : Address) (st : module_state) :
  default NONE (<[m := st]> f !! m') = if decide (m' = m) then st else default NONE (f !! m').
Proof.
  destruct (decide (m' = m)) as [->|].
  - by rewrite lookup_insert_eq.
  - by rewrite lookup_insert_ne by congruence.
Qed.

Lemma listed_insert (l : list Address) (f : gmap Address module_state) (m : Address)
    (st : module_state) :
  listed l f → default NONE (f !! m) ≠ INITIALIZED → st ≠ INITIALIZED →
  listed l (<[m := st]> f).
Proof.
  intros [Hnd Hm] Hs Hst. split; [done|]. intros m'. rewrite default_insert, Hm.
  by destruct (decide (m' = m)) as [->|].
Qed.

Lemma listed_remove (l l' : list Address) (f : gmap Address module_state) (m : Address) :
  listed l f → removeStorage l m = Ok l' → listed l' (<[m := NONE]> f).
Proof.
  intros [Hnd Hm] E. apply removeStorage_nodup in E as (_ & Hnd' & Hx); [|done].
  split; [done|]. intros m'. rewrite default_insert, Hx, Hm.
  destruct (decide (m' = m)) as [->|]; [|tauto]. split; [tauto|done].
Qed.

Lemma listed_add (l : list Address) (f : gmap Address module_state) (m : Address) :
  listed l f → default NONE (f !! m) ≠ INITIALIZED → listed (l ++ [m]) (<[m := INITIALIZED]> f).
Proof.
  intros [Hnd Hm] Hs. split.
  - apply NoDup_app. split; [done|]. split; [|apply NoDup_singleton].
    intros x Hx. rewrite list_elem_of_singleton. intros ->. by apply Hm in Hx.
  - intros m'. rewrite elem_of_app, list_elem_of_singleton, Hm, default_insert.
    destruct (decide (m' = m)) as [->|]; [tauto|]. split; [by intros [?|?]|by left].
Qed.

(** What is stored after a conversion fits the word. *)
Lemma convertReal_int (s : State) (u v : Z) :
  is_int u → is_int (positionMultiplier s) → _convertRealToVirtualUnit s u = Ok v → 
  v = u * 10 ^ 18 / positionMultiplier s ∧ is_int (u * 10 ^ 18) ∧ is_int v ∧
  (0 < u → _convertVirtualToRealUnit s v ≠ Ok 0).
Proof.
  intros Hu Hm E. unfold _convertRealToVirtualUnit in E.
  apply result_bind_ok in E as (w & Ew & E).
  apply conservativePreciseDiv_inv in Ew as (_ & -> & Hw & Hp); [|done..].
  destruct (_ && _); [discriminate|]. destruct (Z.ltb_spec 0 u).
  2: { injection E as <-. split; [done|]. split; [done|]. split; [done|]. intros. lia. }
  apply result_bind_ok in E as (b & Eb & E). destruct (Z.eqb_spec b 0); [discriminate|].
  injection E as <-. split; [done|]. split; [done|]. split; [done|]. rewrite Eb. congruence.
Qed.

Lemma units_external (s : State) (c : Address) (l : list Address)
    (e : gmap Address ExternalPosition) :
  units_ok s → (∀ m x, e !! m = Some x → is_int (external_virtualUnit x)) →
  units_ok (set_position c (with_external l e (position s c)) s).
Proof.
  intros [Hd He] Hx. split.
  - intros c'. rewrite position_set_position. destruct (decide _) as [->|]; apply Hd.
  - intros c' m. unfold external_position. rewrite position_set_position.
    destruct (decide _) as [->|]; [|apply He]. cbn.
    destruct (e !! m) eqn:E; [by apply (Hx m)|by apply (bool_decide_unpack _)].
Qed.

Lemma external_int (s : State) (c m : Address) (x : ExternalPosition) :
  units_ok s → externalPositions (position s c) !! m = Some x → is_int (external_virtualUnit x).
Proof. intros [_ He] E. specialize (He c m). unfold external_position in He. by rewrite E in He. Qed.

Lemma arrays_external (s : State) (c : Address) (l : list Address)
    (e : gmap Address ExternalPosition) :
  arrays_ok s → NoDup l → arrays_ok (set_position c (with_external l e (position s c)) s).
Proof.
  intros [Hc He] Hl. split; [done|]. intros c'. rewrite position_set_position.
  by destruct (decide _).
Qed.

Lemma nodup_push (l : list Address) (a : Address) :
  NoDup l → contains l a = false → NoDup (l ++ [a]).
Proof.
  intros Hl Ha. apply NoDup_app. split; [done|]. split; [|apply NoDup_singleton].
  intros x Hx. rewrite list_elem_of_singleton. intros ->. apply contains_true in Hx. congruence.
Qed.

(** Opens a successful operation into its guards and its effect. *)
Ltac open_op E :=
  cbn [execute] in E;
  unfold addComponent, removeComponent, editDefaultPositionUnit, addExternalPositionModule,
    removeExternalPositionModule, editExternalPositionUnit, editExternalPositionData,
    editPositionMultiplier, mint, burn, lock, unlock, addModule, removeModule_checks,
    removeModule_effects, removePendingModule, invoke_effects, initializeModule, setManager, privileged,
    _validateOnlyModule, _validateOnlyManager in E;
  cbv zeta in E; result_inv;
  repeat match goal with
  | H : bool_decide _ = true |- _ => apply bool_decide_eq_true in H
  | H : negb _ = true |- _ => apply negb_true_iff in H
  end.

Lemma execute_modules (ctl : Controller.State) (caller : Address) (o : operation) s s' :
  modules_ok s → execute ctl caller o s = Ok s' → modules_ok s'.
Proof.
  intros Hok E. destruct o; open_op E; try exact Hok; unfold modules_ok, state_of_module in *;
    cbn in *; eauto using listed_remove.
  - apply listed_insert; [done|congruence|done].
  - apply listed_insert; [done|congruence|done].
  - apply listed_add; [done|congruence].
Qed.

(** No transaction but its removal leaves an initialized module uninitialized. *)
Lemma execute_initialized (ctl : Controller.State) (caller m : Address) (o : operation) s s' :
  o ≠ RemoveModule m → execute ctl caller o s = Ok s' →
  state_of_module s m = INITIALIZED → state_of_module s' m = INITIALIZED.
Proof.
  intros Ho E Hm. destruct o; open_op E; try exact Hm; unfold state_of_module in *; cbn in *;
    rewrite default_insert; destruct (decide _) as [->|]; try done; congruence.
Qed.

Lemma execute_lock (ctl : Controller.State) (caller : Address) (o : operation) s s' :
  caller ≠ Controller.address0 → lock_ok s → execute ctl caller o s = Ok s' → lock_ok s'.
Proof. intros Hc Hok E. destruct o; open_op E; try exact Hok; done. Qed.

(** Only a removal that ends in a locked set can take the locker away. *)
Lemma execute_held (ctl : Controller.State) (caller : Address) (o : operation) s s' :
  modules_ok s → lock_held s → execute ctl caller o s = Ok s' →
  (∀ m, o = RemoveModule m → isLocked s = false) → lock_held s'.
Proof.
  intros Hm Hok E Hr. destruct o; open_op E; try exact Hok; unfold lock_held in *; cbn in *;
    try (intros Hl; congruence).
  - intros _. by apply Hm.
  - intros Hl. rewrite (Hr _ eq_refl) in Hl. done.
Qed.

Lemma execute_arrays (ctl : Controller.State) (caller : Address) (o : operation) s s' :
  arrays_ok s → execute ctl caller o s = Ok s' → arrays_ok s'.
Proof.
  intros Hok E. pose proof Hok as [Hc He]. destruct o; open_op E; try exact Hok.
  - split; [|exact He]. by apply nodup_push.
  - split; [|exact He].
    match goal with H : removeStorage _ _ = Ok _ |- _ =>
      apply removeStorage_nodup in H as (_ & Hnd' & _); [done|done] end.
  - split; [exact Hc|]. intros c. cbn.
    change (NoDup (externalPositionModules (position (set_position _component
      (with_virtualUnit x0 (position s _component)) s) c))).
    rewrite position_set_position. destruct (decide _) as [->|]; apply He.
  - apply (arrays_external s _component); [done|]. by apply nodup_push.
  - apply (arrays_external s _component); [done|].
    match goal with H : removeStorage _ _ = Ok _ |- _ =>
      apply removeStorage_nodup in H as (_ & Hnd' & _); [done|apply He] end.
  - apply (arrays_external s _component); [done|apply He].
  - apply (arrays_external s _component); [done|apply He].
Qed.
Ltac stored_unit :=
  match goal with
  | H : _convertRealToVirtualUnit _ _ = Ok _ |- _ =>
      apply convertReal_int in H as (_ & _ & ? & _); [|done..]
  end.

Lemma execute_units (ctl : Controller.State) (caller : Address) (o : operation) s s' :
  units_ok s → is_int (positionMultiplier s) → well_typed o →
  execute ctl caller o s = Ok s' → units_ok s'.
Proof.
  intros Hok Hm Ho E. destruct o; open_op E; try exact Hok.
  - destruct Hok as [Hd He]. stored_unit.
    split; [intros c|intros c m; unfold external_position]; cbn;
      change (position (emit ?e ?x) c) with (position x c); rewrite position_set_position.
    + destruct (decide _); [done|apply Hd].
    + destruct (decide _) as [->|]; apply He.
  - apply units_external; [done|]. intros m y. by apply external_int.
  - apply units_external; [done|]. intros m y. rewrite lookup_delete_Some.
    intros [_ Hy]. by eapply external_int.
  - stored_unit. apply units_external; [done|]. intros m y. rewrite lookup_insert_Some.
    intros [[_ <-]|[_ Hy]]; [done|by eapply external_int].
  - apply units_external; [done|]. intros m y. rewrite lookup_insert_Some.
    intros [[_ <-]|[_ Hy]]; [apply Hok|by eapply external_int].
Qed.

(** ** The multiplier *)

Lemma absoluteValue_uint (z u : Z) : is_int z → _absoluteValue z = Ok u → is_uint u.
Proof.
  intros Hz E. unfold _absoluteValue in E. destruct (0 <=? z).
  - by apply toUint256_inv in E as (_ & _ & ?).
  - apply toUint256_inv in E as (_ & _ & ?); [done|apply wrap_int_int].
Qed.

(** The search keeps a positive word that is no larger than what it starts
    from. *)
Lemma external_minimum_pos s (c : Address) (ms : list Address) (z r : Z) :
  units_ok s → 0 < z → is_uint z → external_minimum s c ms z = Ok r →
  0 < r ≤ z ∧ is_uint r.
Proof.
  intros Hok. revert z. induction ms as [|m ms IH]; intros z Hz Hu E; cbn in E.
  { injection E as <-. split; [lia|done]. }
  apply result_bind_ok in E as (u & Eu & E).
  apply absoluteValue_uint in Eu as Hu'; [|apply Hok].
  destruct (Z.ltb_spec 0 u), (Z.ltb_spec u z); cbn in E;
    (apply IH in E as [? ?]; [split; [lia|done]|lia|done]).
Qed.

Lemma minimum_loop_pos s (cs : list Address) (z r : Z) :
  units_ok s → 0 < z → is_uint z → minimum_loop s cs z = Ok r →
  0 < r ≤ z ∧ is_uint r ∧
  (∀ c, c ∈ cs → 0 < virtualUnit (position s c) → r ≤ virtualUnit (position s c)).
Proof.
  intros Hok. revert z. induction cs as [|c cs IH]; intros z Hz Hu E; cbn in E.
  { injection E as <-. split; [lia|]. split; [done|]. intros c Hc. by apply elem_of_nil in Hc. }
  apply result_bind_ok in E as (u & Eu & E). apply result_bind_ok in E as (w & Ew & E).
  apply toUint256_inv in Eu as (-> & Hu0 & Huu); [|apply Hok].
  set (v := virtualUnit (position s c)) in *.
  assert (0 < w ≤ z ∧ is_uint w ∧ (0 < v → w ≤ v)) as (Hw & Hwu & Hwv).
  { destruct (Z.ltb_spec 0 v), (Z.ltb_spec v z); cbn in Ew;
      (apply external_minimum_pos in Ew as [? ?]; [split; [|split]; (lia || done)|done|lia|done]). }
  apply IH in E as (Hr & Hru & Hall); [|lia|done]. split; [lia|]. split; [done|].
  intros c' [->|Hin]%elem_of_cons Hv; [fold v; fold v in Hv; lia|by apply Hall].
Qed.

Lemma validateNewMultiplier_ok s (z : Z) (u : ()) :
  units_ok s → is_int z → _validateNewMultiplier s z = Ok u →
  0 < z ∧ ∀ c, c ∈ components s → 0 < virtualUnit (position s c) →
    0 < virtualUnit (position s c) * z / 10 ^ 18.
Proof.
  intros Hok Hz E. unfold _validateNewMultiplier, _getPositionsAbsMinimumVirtualUnit in E.
  apply result_bind_ok in E as (w & Ew & E). apply result_bind_ok in E as (r & Er & E).
  apply result_bind_ok in Ew as (v & Ev & Ew). apply require_ok, Z.ltb_lt in E.
  apply minimum_loop_pos in Ev as (Hv & Hvu & Hall); [|done|by vm_compute|auto with uint].
  apply toInt256_inv in Ew as (-> & _ & Hvi); [|done].
  apply conservativePreciseMul_inv in Er as (-> & _); [|done..].
  pose proof (Z.mul_div_le (v * z) (10 ^ 18)).
  assert (0 < z) as Hz0 by nia. split; [done|]. intros c Hc Hp.
  specialize (Hall c Hc Hp). eapply Z.lt_le_trans; [exact E|]. apply Z.div_le_mono; [done|nia].
Qed.

Lemma execute_multiplier (ctl : Controller.State) (caller : Address) (o : operation) s s' :
  units_ok s → is_int (positionMultiplier s) → 0 < positionMultiplier s → well_typed o →
  execute ctl caller o s = Ok s' →
  is_int (positionMultiplier s') ∧ 0 < positionMultiplier s'.
Proof.
  intros Hu Hm Hp Ho E. destruct o; open_op E; cbn; try (split; assumption).
  match goal with H : _validateNewMultiplier _ _ = Ok _ |- _ =>
    apply validateNewMultiplier_ok in H as [? _]; [|done..] end.
  by split.
Qed.

Lemma execute_supply (ctl : Controller.State) (caller : Address) (o : operation) s s' :
  is_uint (totalSupply (token s)) → well_typed o → execute ctl caller o s = Ok s' →
  is_uint (totalSupply (token s')).
Proof.
  intros Hs Ho E. destruct o; open_op E; try exact Hs; cbn.
  - match goal with H : _mint _ _ _ = Ok _ |- _ => apply mint_effect in H as (-> & ? & _) end;
      [|done..]. cbn in Ho. unfold is_uint in *. lia.
  - match goal with H : _burn _ _ _ = Ok _ |- _ => apply burn_effect in H as (_ & ? & -> & _) end;
      [|done..]. cbn in Ho. unfold is_uint in *. lia.
  - match goal with H : erc20_execute _ _ _ = Ok _ |- _ => by apply erc20_effect in H as [-> _] end.
Qed.

Lemma step_consistent s s' : consistent s → step s s' → consistent s'.
Proof.
  intros (Hm & Hl & Ha & Hu & Hi & Hp & Hs) (ctl & caller & o & Hc & Ho & E).
  split; [by eapply execute_modules|]. split; [by eapply execute_lock|].
  split; [by eapply execute_arrays|]. split; [by eapply execute_units|].
  split; [by eapply execute_multiplier|]. split; [by eapply execute_multiplier|].
  by eapply execute_supply.
Qed.

Lemma steps_consistent s s' : consistent s → rtc step s s' → consistent s'.
Proof. intros Hs. induction 1; [done|]. eauto using step_consistent. Qed.

Lemma leave_execute ctl caller (k : pending_call) (r : value) s s' :
  leave k r s = Ok s' → ∃ o, well_typed o ∧ execute ctl caller o s = Ok s' ∧
    ∀ m, o = RemoveModule m → k = Removing m.
Proof.
  destruct k as [t v d|m]; intros E.
  - by exists (Invoke t v d r).
  - exists (RemoveModule m). split; [done|]. split; [done|]. intros m' Hm. congruence.
Qed.

Lemma transition_ok (P : Prop) x y :
  transition P x y → consistent (the_set x) ∧ (P → lock_held (the_set x)) →
  consistent (the_set y) ∧ (P → lock_held (the_set y)).
Proof.
  intros [ctl caller o s s' ks Hc Ho Hout E|ctl caller k s u ks Hc E|k r s s' ks Hp E] [Hs Hl];
    cbn [the_set] in *; [|by split|].
  - split; [apply (step_consistent s); [done|by exists ctl, caller, o]|]. intros HP.
    eapply execute_held; [apply Hs|by apply Hl|exact E|]. by intros m ->.
  - destruct (leave_execute Controller.sample_initialized "anyone"%string k r s s' E)
      as (o & Ho & E' & Hk).
    split; [apply (step_consistent s); [done|by exists Controller.sample_initialized, "anyone"%string, o]|]. intros HP.
    eapply execute_held; [apply Hs|by apply Hl|exact E'|]. intros m Hm. eauto.
Qed.

Lemma transitions_ok (P : Prop) x y :
  rtc (transition P) x y → consistent (the_set x) ∧ (P → lock_held (the_set x)) →
  consistent (the_set y) ∧ (P → lock_held (the_set y)).
Proof. induction 1; [done|]. eauto using transition_ok. Qed.

(** ** Construction *)

Lemma pend_all_state (ms : list Address) (f : gmap Address module_state) (m : Address) :
  default NONE (f !! m) ≠ INITIALIZED → default NONE (pend_all ms f !! m) ≠ INITIALIZED.
Proof.
  revert f. induction ms as [|a ms IH]; intros f Hf; [done|]. cbn. apply IH.
  rewrite default_insert. by destruct (decide _).
Qed.

Lemma place_all_position (cs : list Address) (us : list Z) (p p' : gmap Address ComponentPosition) :
  Forall is_int us → place_all cs us p = Ok p' →
  (∀ c, is_int (virtualUnit (default no_position (p !! c))) ∧
        externalPositionModules (default no_position (p !! c)) = [] ∧
        externalPositions (default no_position (p !! c)) = ∅) →
  ∀ c, is_int (virtualUnit (default no_position (p' !! c))) ∧
       externalPositionModules (default no_position (p' !! c)) = [] ∧
       externalPositions (default no_position (p' !! c)) = ∅.
Proof.
  revert us p. induction cs as [|c cs IH]; intros [|u us] p Hus E Hp; cbn in E;
    try discriminate; try (injection E as <-; done).
  apply Forall_cons in Hus as [Hu Hus]. apply (IH us _ Hus E). intros c'.
  destruct (decide (c' = c)) as [->|Hne].
  - rewrite lookup_insert_eq. cbn. split; [done|]. apply Hp.
  - rewrite lookup_insert_ne by congruence. apply Hp.
Qed.

Lemma constructor_consistent (cs : list Address) (us : list Z) (ms : list Address)
    (owner : Address) (name symbol : string) s :
  NoDup cs → Forall is_int us → constructor cs us ms owner name symbol = Ok s → consistent s.
Proof.
  intros Hc Hus E. unfold constructor in E. apply result_bind_ok in E as (ps & Eps & E).
  injection E as <-. pose proof (place_all_position cs us ∅ ps Hus Eps) as Hps.
  assert (∀ c, is_int (virtualUnit (default no_position (ps !! c))) ∧
        externalPositionModules (default no_position (ps !! c)) = [] ∧
        externalPositions (default no_position (ps !! c)) = ∅) as Hps'.
  { apply Hps. intros c. rewrite lookup_empty. split; [apply int_0|done]. }
  split; [|split; [|split; [|split; [|split; [|split]]]]]; cbn.
  - split; [constructor|]. intros m. rewrite elem_of_nil. cbn. split; [done|].
    by apply pend_all_state.
  - done.
  - split; [done|]. intros c. unfold position. cbn. destruct (Hps' c) as (_ & -> & _). constructor.
  - split; [intros c; unfold position; apply Hps'|]. intros c m.
    unfold external_position, position. cbn. destruct (Hps' c) as (_ & _ & ->).
    rewrite lookup_empty. apply int_0.
  - apply int_unit.
  - done.
  - destruct (new_ledger_empty name symbol) as [-> _]. apply uint_0.
Qed.

Lemma constructor_unlocked (cs : list Address) (us : list Z) (ms : list Address)
    (owner : Address) (name symbol : string) s :
  constructor cs us ms owner name symbol = Ok s → isLocked s = false.
Proof.
  intros E. unfold constructor in E. apply result_bind_ok in E as (ps & _ & E).
  by injection E as <-.
Qed.

(** C16. Take a set constructed with distinct components, as its factory checks.
    In every state it can reach through transactions of any callers - also while
    it waits for the target of an invocation or for a module it is removing, which
    may send it any transactions in between - the array of modules lists exactly
    the initialized ones, an unlocked set has no locker and a locked one has, no
    array has duplicates, the stored units and the supply stay in their words, and
    the multiplier stays positive.  If no module that a removal calls leaves the
    set locked, the locker of a locked set is an initialized module. *)
Theorem set_token_consistent (unlocking : Prop) (cs : list Address) (us : list Z)
    (ms : list Address) (owner : Address) (name symbol : string) s y
    (Hc : NoDup cs) (Hu : Forall is_int us)
    (Hnew : constructor cs us ms owner name symbol = Ok s)
    (Hsteps : rtc (transition unlocking) {| the_set := s; stack := [] |} y) :
  consistent (the_set y) ∧ (unlocking → lock_held (the_set y)).
Proof.
  apply (transitions_ok _ _ _ Hsteps). split; [by eapply constructor_consistent|]. intros _ Hl.
  apply constructor_unlocked in Hnew. cbn in Hl. congruence.
Qed.

(** ** Units *)

(** A stored unit, read back; the rest of the set is untouched. *)
Lemma edited_unit (ctl : Controller.State) (caller c : Address) (u : Z) s s' :
  consistent s → is_int u → 0 ≤ u → editDefaultPositionUnit ctl caller c u s = Ok s' →
  ∃ r, getDefaultPositionRealUnit s' c = Ok r ∧ r ≤ u ∧
    u * 10 ^ 18 < (r + 1) * 10 ^ 18 + positionMultiplier s ∧ (0 < u → 0 < r).
Proof.
  intros Hs Hu Hu0 E. destruct Hs as (_ & _ & _ & _ & Hm & Hm0 & _). set (m := positionMultiplier s) in *.
  unfold editDefaultPositionUnit in E. apply result_bind_ok in E as (? & _ & E).
  apply result_bind_ok in E as (v & Ev & E). injection E as <-.
  apply convertReal_int in Ev as (Ev & Hp & Hv & Hpos); [|done..]. fold m in Ev.
  unfold getDefaultPositionRealUnit, _convertVirtualToRealUnit in *.
  change (position (emit ?e ?x) c) with (position x c). rewrite position_set_position.
  rewrite decide_True by done. cbn. fold m in Hpos |- *.
  pose proof (Z.mul_div_le (u * 10 ^ 18) m Hm0) as B.
  pose proof (Z.mul_succ_div_gt (u * 10 ^ 18) m Hm0) as B'. rewrite <- Ev in B, B'.
  assert (0 ≤ v) by (subst v; apply Z.div_pos; lia).
  assert (is_int (v * m)) as Hvm by (unfold is_int in *; nia).
  rewrite conservativePreciseMul_ok in Hpos |- * by done.
  exists (v * m / 10 ^ 18). split; [done|].
  pose proof (Z.mul_div_le (v * m) (10 ^ 18) ltac:(lia)).
  pose proof (Z.mul_succ_div_gt (v * m) (10 ^ 18) ltac:(lia)).
  split; [nia|]. split; [nia|]. intros Hu1. specialize (Hpos Hu1).
  assert (v * m / 10 ^ 18 ≠ 0) by congruence.
  pose proof (Z.div_pos (v * m) (10 ^ 18)). nia.
Qed.

(** Only the virtual unit of the component changes. *)
Lemma edited_frame (ctl : Controller.State) (caller c : Address) (u : Z) s s' :
  editDefaultPositionUnit ctl caller c u s = Ok s' →
  getComponents s' = getComponents s ∧ positionMultiplier s' = positionMultiplier s ∧
  token s' = token s ∧ (∀ c', c' ≠ c → position s' c' = position s c') ∧
  ∀ c', getExternalPositionModules s' c' = getExternalPositionModules s c'.
Proof.
  intros E. unfold editDefaultPositionUnit in E. apply result_bind_ok in E as (? & _ & E).
  apply result_bind_ok in E as (v & _ & E). injection E as <-.
  split; [done|]. split; [done|]. split; [done|]. unfold getExternalPositionModules.
  split; intros c'; change (position (emit ?e ?x) c') with (position x c');
    rewrite position_set_position; destruct (decide (c' = c)) as [->|]; done.
Qed.

(** A unit a module stores is read back rounded down, by less than one unit
    more than the multiplier is worth, and a positive unit never reads back as
    zero. *)
Theorem unit_roundtrip (ctl : Controller.State) (caller c : Address) (u : Z) s s'
    (Hs : consistent s) (Hu : is_int u) (Hu0 : 0 ≤ u)
    (E : editDefaultPositionUnit ctl caller c u s = Ok s') :
  ∃ r, getDefaultPositionRealUnit s' c = Ok r ∧ r ≤ u ∧
    u * 10 ^ 18 < (r + 1) * 10 ^ 18 + positionMultiplier s ∧ (0 < u → 0 < r).
Proof. by eapply edited_unit. Qed.

(** Storing a new multiplier succeeds only with a positive one under which
    no component's default position rounds down to nothing. *)
Theorem multiplier_keeps_positions (ctl : Controller.State) (caller : Address) (z : Z) s s'
    (Hs : consistent s) (Hz : is_int z) (E : editPositionMultiplier ctl caller z s = Ok s') :
  positionMultiplier s' = z ∧ 0 < z ∧ getComponents s' = getComponents s ∧
  ∀ c r, c ∈ getComponents s → 0 < virtualUnit (position s c) →
    getDefaultPositionRealUnit s' c = Ok r → 0 < r.
Proof.
  destruct Hs as (_ & _ & _ & Hu & _). unfold editPositionMultiplier in E.
  apply result_bind_ok in E as (? & _ & E). apply result_bind_ok in E as (? & Ev & E).
  injection E as <-. apply validateNewMultiplier_ok in Ev as [Hz0 Hall]; [|done..].
  split; [done|]. split; [done|]. split; [done|]. intros c r Hc Hv Er.
  unfold getDefaultPositionRealUnit, _convertVirtualToRealUnit in Er. cbn in Er.
  change (position (emit _ _) c) with (position s c) in Er.
  apply conservativePreciseMul_inv in Er as (-> & _); [by apply Hall|apply Hu|done].
Qed.

End Invariant.

(** ** The enumeration of positions *)
Section Positions.
Context `{ERC20} `{SignedLib}.
Implicit Types (s : State) (c m : Address).

(** The positions of one component, without array or counter. *)
Definition external_entry s c m : result Position :=
  u ← getExternalPositionRealUnit s c m;
  Ok {| component := c; module := m; unit_ := u; positionState := POSITION_STATE EXTERNAL;
        data := getExternalPositionData s c m |}.

Definition default_entry s c : result (list Position) :=
  if 0 <? virtualUnit (position s c) then
    u ← getDefaultPositionRealUnit s c;
    Ok [{| component := c; module := Controller.address0; unit_ := u;
           positionState := POSITION_STATE DEFAULT; data := EmptyString |}]
  else Ok [].

Definition positions_of s c : result (list Position) :=
  d ← default_entry s c;
  es ← mapM (external_entry s c) (getExternalPositionModules s c);
  Ok (d ++ es).

Definition entry_count s c : nat :=
  (if 0 <? virtualUnit (position s c) then 1 else 0) + length (getExternalPositionModules s c).

Definition total_count s (cs : list Address) : nat := sum_list (entry_count s <$> cs).

Lemma write_end {A} (d rest : list A) (x y : A) :
  write (d ++ x :: rest) (Z.of_nat (length d)) y = Ok (d ++ y :: rest).
Proof.
  unfold write. rewrite length_app, Nat2Z.id. cbn [length].
  destruct (Z.ltb_spec (Z.of_nat (length d)) (Z.of_nat (length d + S (length rest)))); [|lia].
  by rewrite insert_app_r_alt, Nat.sub_diag by lia.
Qed.

Lemma wrap_succ (n : nat) :
  Z.of_nat (S n) ≤ UINT_MAX → wrap_uint (Z.of_nat n + 1) = Z.of_nat (S n).
Proof. intros Hn. rewrite wrap_uint_small; [lia|]. unfold is_uint. lia. Qed.

Lemma count_loop_total s (cs : list Address) (n : nat) :
  Z.of_nat (n + total_count s cs) ≤ UINT_MAX →
  count_loop s cs (Z.of_nat n) = Ok (Z.of_nat (n + total_count s cs)).
Proof.
  revert n. induction cs as [|c cs IH]; intros n Hn; [by rewrite Nat.add_0_r|].
  change (total_count s (c :: cs)) with (entry_count s c + total_count s cs)%nat in *.
  cbn [count_loop]. unfold entry_count in *. set (k := length (getExternalPositionModules s c)) in *.
  set (n' := (n + if (0 <? virtualUnit (position s c))%Z then 1 else 0)%nat).
  assert ((if 0 <? virtualUnit (position s c) then wrap_uint (Z.of_nat n + 1) else Z.of_nat n)
            = Z.of_nat n') as ->.
  { unfold n' in *. destruct (0 <? _); [rewrite wrap_succ|]; lia. }
  replace (n + ((if (0 <? virtualUnit (position s c))%Z then 1 else 0) + k + total_count s cs))%nat
    with (n' + k + total_count s cs)%nat in * by (unfold n'; lia).
  destruct (Z.ltb_spec 0 (Z.of_nat k)).
  - rewrite safe_add_spec by (unfold is_uint in *; lia). unfold fits.
    destruct (Z.leb_spec (Z.of_nat n' + Z.of_nat k) UINT_MAX); [|lia].
    cbn [mbind result_bind]. rewrite <- Nat2Z.inj_add. by apply IH.
  - replace n' with (n' + k)%nat at 1 by lia. by apply IH.
Qed.

Lemma external_loop_entries s c (ms : list Address) (d rest : list Position) :
  (length ms ≤ length rest)%nat → Z.of_nat (length d + length ms) ≤ UINT_MAX →
  external_loop s c ms (d ++ rest) (Z.of_nat (length d)) =
    es ← mapM (external_entry s c) ms;
    Ok (d ++ es ++ drop (length ms) rest, Z.of_nat (length d + length ms)).
Proof.
  revert d rest. induction ms as [|m ms IH]; intros d rest Hr Hn.
  { cbn. by rewrite Nat.add_0_r. }
  destruct rest as [|x rest]; [cbn in Hr; lia|]. cbn [external_loop mapM] in *.
  set (f := mapM (external_entry s c) ms) in *. unfold external_entry.
  destruct (getExternalPositionRealUnit s c m) as [u|]; [|done].
  cbn [mbind result_bind]. rewrite write_end. cbn [mbind result_bind].
  set (p := {| component := c; module := m |}). cbn [length] in *.
  rewrite wrap_succ by lia.
  replace (d ++ p :: rest) with ((d ++ [p]) ++ rest) by (by rewrite <- app_assoc).
  replace (S (length d)) with (length (d ++ [p])) by (rewrite length_app; cbn; lia).
  rewrite IH by (rewrite ?length_app; cbn [length]; lia).
  fold f. destruct f as [es|]; [|done]. cbn. unfold mret, result_ret. cbn.
  rewrite <- app_assoc, length_app. cbn. do 2 f_equal. lia.
Qed.
Lemma external_entries_length s c (ms : list Address) (es : list Position) :
  mapM (external_entry s c) ms = Ok es → length es = length ms.
Proof.
  revert es. induction ms as [|m ms IH]; intros es E; cbn in E; [by injection E as <-|].
  apply result_bind_ok in E as (p & _ & E). apply result_bind_ok in E as (ps & Ep & E).
  injection E as <-. cbn. f_equal. by apply IH.
Qed.

(** Writing the default position of a component, if it has one. *)
Lemma default_step s c (d rest : list Position) :
  (entry_count s c ≤ length rest)%nat → Z.of_nat (length d + entry_count s c) ≤ UINT_MAX →
  (if 0 <? virtualUnit (position s c) then
     u ← getDefaultPositionRealUnit s c;
     ps ← write (d ++ rest) (Z.of_nat (length d))
            {| component := c; module := Controller.address0; unit_ := u;
               positionState := POSITION_STATE DEFAULT; data := EmptyString |};
     Ok (ps, wrap_uint (Z.of_nat (length d) + 1))
   else Ok (d ++ rest, Z.of_nat (length d))) =
    es ← default_entry s c;
    Ok (d ++ es ++ drop (length es) rest, Z.of_nat (length d + length es)).
Proof.
  unfold entry_count, default_entry. intros Hr Hn. destruct (0 <? _).
  2: { cbn. by rewrite Nat.add_0_r. }
  destruct (getDefaultPositionRealUnit s c); [|done]. cbn [mbind result_bind].
  destruct rest as [|x rest]; [cbn in Hr; lia|].
  rewrite write_end. cbn [mbind result_bind]. rewrite wrap_succ by lia.
  cbn. do 3 f_equal. lia.
Qed.

Lemma positions_loop_entries s (cs : list Address) (d rest : list Position) :
  (total_count s cs ≤ length rest)%nat → Z.of_nat (length d + total_count s cs) ≤ UINT_MAX →
  positions_loop s cs (d ++ rest) (Z.of_nat (length d)) =
    ls ← mapM (positions_of s) cs;
    Ok (d ++ concat ls ++ drop (total_count s cs) rest,
        Z.of_nat (length d + total_count s cs)).
Proof.
  revert d rest. induction cs as [|c cs IH]; intros d rest Hr Hn.
  { cbn. by rewrite Nat.add_0_r. }
  change (total_count s (c :: cs)) with (entry_count s c + total_count s cs)%nat in *.
  cbn [positions_loop mapM]. rewrite default_step by lia.
  set (f := mapM (positions_of s) cs) in *. unfold positions_of.
  destruct (default_entry s c) as [es|] eqn:Ed; [|done]. cbn [mbind result_bind].
  assert (entry_count s c = length es + length (getExternalPositionModules s c))%nat as Ec.
  { unfold entry_count, default_entry in *. destruct (0 <? _); [|by injection Ed as <-].
    apply result_bind_ok in Ed as (u & _ & Ed). by injection Ed as <-. }
  rewrite app_assoc, <- length_app.
  rewrite external_loop_entries by (rewrite ?length_drop, ?length_app; lia).
  destruct (mapM (external_entry s c) _) as [xs|] eqn:Ex; [|done]. cbn [mbind result_bind].
  apply external_entries_length in Ex. rewrite <- Ex in *.
  rewrite app_assoc, <- length_app, drop_drop.
  rewrite IH by (rewrite ?length_drop, ?length_app; lia).
  fold f. destruct f as [ls|]; [|done]. cbn [mbind result_bind].
  unfold mret, result_ret. cbn [mbind result_bind concat].
  rewrite drop_drop, !length_app, Ec, <- !app_assoc. do 3 f_equal. lia.
Qed.

(** C32. [getPositions] never writes past its array and leaves no element of it
    blank: it returns, for each component in order, its default position if the
    unit is positive and then its external positions, and reverts exactly when
    the conversion of one of their units does. *)
Theorem getPositions_enumerates s
    (Hn : Z.of_nat (total_count s (components s)) ≤ UINT_MAX) :
  _getPositionCount s = Ok (Z.of_nat (total_count s (components s))) ∧
  getPositions s = (ls ← mapM (positions_of s) (components s); Ok (concat ls)).
Proof.
  assert (_getPositionCount s = Ok (Z.of_nat (total_count s (components s)))) as E.
  { by apply (count_loop_total s (components s) 0). }
  split; [done|]. unfold getPositions. rewrite E. cbn [mbind result_bind]. rewrite Nat2Z.id.
  pose proof (positions_loop_entries s (components s) []
    (replicate (total_count s (components s)) blank_position)) as L.
  rewrite length_replicate in L. cbn [app length] in L. change (Z.of_nat 0) with 0 in L.
  rewrite L by done. destruct (mapM _ _) as [ls|]; [|done]. cbn [mbind result_bind].
  by rewrite drop_replicate, Nat.sub_diag, app_nil_r.
Qed.
End Positions.

(** ** Concrete instances *)

Definition ok_state (r : result State) (d : State) : State :=
  match r with Ok s => s | Throw _ => d end.

Lemma ok_state_eq (r : result State) (d : State) : is_ok r = true → r = Ok (ok_state r d).
Proof. by destruct r. Qed.

Definition blank : State :=
  {| manager := EmptyString; locker := EmptyString; modules := []; moduleStates := ∅;
     isLocked := false; components := []; componentPositions := ∅; positionMultiplier := 0;
     token := new_ledger EmptyString EmptyString; logs := [] |}.

Definition sample_new : State :=
  ok_state (constructor ["a"; "b"] [10 ^ 18; 3] ["m1"] "manager" "Set" "SET")%string blank.

(** The transactions of a list, each of its caller. *)
Definition play (os : list (Address * operation)) (s : State) : State :=
  foldl (λ s o, ok_state (execute Controller.sample_initialized o.1 o.2 s) blank) s os.

Fixpoint plays (os : list (Address * operation)) (s : State) : bool :=
  match os with
  | [] => true
  | o :: os' => is_ok (execute Controller.sample_initialized o.1 o.2 s) && plays os' (play [o] s)
  end.

Lemma play_steps (os : list (Address * operation)) (s : State) :
  Forall (λ o, o.1 ≠ Controller.address0 ∧ well_typed o.2) os → plays os s = true →
  rtc step s (play os s).
Proof.
  revert s. induction os as [|o os IH]; intros s Hos Hp; [apply rtc_refl|].
  apply Forall_cons in Hos as [[Ho Ht] Hos]. cbn [plays] in Hp.
  apply andb_true_iff in Hp as [E Hp]. apply (rtc_l _ _ (play [o] s)); [|by apply IH].
  exists Controller.sample_initialized, o.1, o.2. split; [done|]. split; [done|].
  unfold play. cbn [foldl]. by destruct (execute _ _ _ s).
Qed.

Definition sample_active : State := play [("m1", InitializeModule)]%string sample_new.

Definition sample_transactions : list (Address * operation) :=
  [("m1", InitializeModule); ("m1", Mint "x" (10 ^ 18));
   ("m1", EditPositionMultiplier (9 * 10 ^ 17))]%string.

Definition sample_fee : State := play sample_transactions sample_new.

Lemma sample_typed (os : list (Address * operation)) :
  Forall (λ o, o.1 ≠ Controller.address0 ∧ well_typed o.2) os →
  Forall (λ o, o.1 ≠ Controller.address0 ∧ well_typed o.2) (sample_transactions ++ os).
Proof.
  intros Hos. unfold sample_transactions. cbn [app].
  do 3 (apply Forall_cons; split; [split; [discriminate|cbn [well_typed fst snd]; (exact I || word)]|]).
  exact Hos.
Qed.

Lemma sample_nodup : NoDup ["a"; "b"]%string.
Proof. apply (bool_decide_unpack _). by vm_compute. Qed.

Lemma sample_units : Forall is_int [10 ^ 18; 3].
Proof. repeat constructor; word. Qed.

Lemma sample_new_consistent : consistent sample_new.
Proof.
  apply (constructor_consistent ["a"; "b"] [10 ^ 18; 3] ["m1"] "manager" "Set" "SET")%string;
    [apply sample_nodup|apply sample_units|].
  apply ok_state_eq. vm_compute. reflexivity.
Qed.

Lemma sample_fee_consistent : consistent sample_fee.
Proof.
  apply (steps_consistent sample_new); [apply sample_new_consistent|].
  apply (play_steps sample_transactions); [apply (sample_typed []), Forall_nil_2|].
  vm_compute. reflexivity.
Qed.

(** A run of the machine, its callers and answers given. *)
Inductive event :=
| Whole (msg_sender : Address) (o : operation)
| Enter (msg_sender : Address) (k : pending_call)
| Leave (_returnValue : value).

Definition advance (x : machine) (e : event) : result machine :=
  let ctl := Controller.sample_initialized in
  match e with
  | Whole a o => s ← execute ctl a o (the_set x); Ok {| the_set := s; stack := stack x |}
  | Enter a k => enter ctl a k (the_set x);; Ok {| the_set := the_set x; stack := k :: stack x |}
  | Leave r =>
      match stack x with
      | k :: ks => s ← leave k r (the_set x); Ok {| the_set := s; stack := ks |}
      | [] => Throw (Revert EmptyString)
      end
  end.

Fixpoint run_events (es : list event) (x : machine) : result machine :=
  match es with
  | [] => Ok x
  | e :: es' => y ← advance x e; run_events es' y
  end.

Definition event_ok (e : event) : Prop :=
  match e with
  | Whole a o => a ≠ Controller.address0 ∧ well_typed o ∧ calls_out o = false
  | Enter a _ => a ≠ Controller.address0
  | Leave _ => True
  end.

Lemma advance_transition (x y : machine) (e : event) :
  event_ok e → advance x e = Ok y → transition False x y.
Proof.
  destruct x as [s ks], e as [a o|a k|r]; cbn [advance event_ok the_set stack]; intros He E.
  - apply result_bind_ok in E as (s' & E & Ey). injection Ey as <-.
    destruct He as (Ha & Ho & Hout). by eapply transition_whole.
  - apply result_bind_ok in E as (u & E & Ey). injection Ey as <-. by eapply transition_enter.
  - destruct ks as [|k ks]; [done|]. apply result_bind_ok in E as (s' & E & Ey).
    injection Ey as <-. eapply transition_leave; [by intros []|exact E].
Qed.

Lemma run_transitions (es : list event) (x y : machine) :
  Forall event_ok es → run_events es x = Ok y → rtc (transition False) x y.
Proof.
  revert x. induction es as [|e es IH]; intros x Hes E; cbn in E.
  { injection E as ->. apply rtc_refl. }
  apply Forall_cons in Hes as [He Hes]. apply result_bind_ok in E as (z & Ez & E).
  eapply rtc_l; [by eapply advance_transition|by apply IH].
Qed.

(** A module that locks the set while it is removed: the set stays consistent but
    for ever locked. *)
Definition sample_events : list event :=
  [Whole "m1" InitializeModule; Enter "m1" (Invoking "a" 0 (encodeWithSignature "transfer(address,uint256)" [VAddr "x"; VNum 1]));
   Whole "m1" (Mint "x" (10 ^ 18)); Leave (VNum 1);
   Whole "x" (Token (Transfer "y" 3)); Enter "manager" (Removing "m1");
   Whole "m1" Lock; Leave (VNum 1)]%string.

Definition sample_end : machine :=
  match run_events sample_events {| the_set := sample_new; stack := [] |} with
  | Ok x => x
  | Throw _ => {| the_set := sample_new; stack := [] |}
  end.

Lemma sample_events_ok : Forall event_ok sample_events.
Proof.
  unfold sample_events. repeat (apply Forall_cons; split); try apply Forall_nil_2;
    cbn [event_ok well_typed]; try exact I; try (split; [|split]); try discriminate; try exact I;
    try reflexivity; word.
Qed.

Lemma sample_events_run :
  run_events sample_events {| the_set := sample_new; stack := [] |} = Ok sample_end.
Proof.
  unfold sample_end. destruct (run_events _ _) eqn:E; [done|]. exfalso. revert E.
  assert (is_ok (run_events sample_events {| the_set := sample_new; stack := [] |}) = true) as Hok
    by (vm_compute; reflexivity).
  by destruct (run_events _ _).
Qed.

Lemma set_token_consistent_witness :
  consistent (the_set sample_end) ∧ isLocked (the_set sample_end) = true ∧
  locker (the_set sample_end) = "m1"%string ∧ modules (the_set sample_end) = [] ∧
  balanceOf (token (the_set sample_end)) "y"%string = 3.
Proof.
  split; [|repeat split; vm_compute; reflexivity].
  refine (proj1 (set_token_consistent False ["a"; "b"]%string [10 ^ 18; 3] ["m1"]%string "manager"
    "Set" "SET" sample_new sample_end _ _ _ _)).
  - apply sample_nodup.
  - apply sample_units.
  - apply ok_state_eq. vm_compute. reflexivity.
  - apply (run_transitions sample_events).
    + apply sample_events_ok.
    + apply sample_events_run.
Defined.

Lemma unit_roundtrip_witness :
  ∃ r, getDefaultPositionRealUnit
         (play [("m1", EditDefaultPositionUnit "a" 7)]%string sample_fee) "a" = Ok r ∧ r = 6.
Proof.
  destruct (unit_roundtrip Controller.sample_initialized "m1" "a" 7 sample_fee
    (play [("m1", EditDefaultPositionUnit "a" 7)]%string sample_fee) sample_fee_consistent)
    as (r & E & _); [word|lia|apply ok_state_eq; vm_compute; reflexivity|].
  exists r. split; [exact E|]. vm_compute in E. injection E as <-. reflexivity.
Defined.

Lemma multiplier_keeps_positions_witness :
  positionMultiplier (play [("m1", EditPositionMultiplier (8 * 10 ^ 17))]%string sample_fee)
    = 8 * 10 ^ 17 ∧
  thrown (execute Controller.sample_initialized "m1" (EditPositionMultiplier (3 * 10 ^ 17))
            sample_fee) = Some (Revert "New multiplier too small").
Proof.
  split; [|vm_compute; reflexivity].
  apply (multiplier_keeps_positions Controller.sample_initialized "m1" (8 * 10 ^ 17) sample_fee);
    [apply sample_fee_consistent|word|apply ok_state_eq; vm_compute; reflexivity].
Defined.

Lemma getPositions_enumerates_witness :
  ∃ ps, getPositions sample_fee = Ok ps ∧ unit_ <$> ps = [9 * 10 ^ 17; 2].
Proof.
  destruct (getPositions_enumerates sample_fee) as [_ E]; [vm_compute; discriminate|].
  eexists. split; [rewrite E; vm_compute; reflexivity|vm_compute; reflexivity].
Defined.

(** A set without components can not change its multiplier. *)
Lemma empty_set_multiplier :
  thrown (execute Controller.sample_initialized "m1" (EditPositionMultiplier (10 ^ 18))
    (play [("m1", RemoveComponent "a"); ("m1", RemoveComponent "b")]%string sample_active))
  = Some (Revert "SafeCast: value doesn't fit in an int256").
Proof. vm_compute. reflexivity. Qed.
End SetToken.
