(* ===== verification/IntegrationRegistry.v ===== *)
(** * The registry of integrations

    [contracts/protocol/IntegrationRegistry.sol]: the adapters of each module, by
    the hash of their names. *)
From Stdlib Require Import String.
From S2P Require Import Prelude JsString BigNumber Constants MathUtils SolMath.
From S2P Require Import AddressArrayUtils Script AdapterUtils Controller.

Module IntegrationRegistry.

Inductive log_entry :=
| IntegrationAdded (_module _adapter : Address) (_integrationName : string)
| IntegrationRemoved (_module _adapter : Address) (_integrationName : string)
| IntegrationEdited (_module _newAdapter : Address) (_integrationName : string).

Record State := {
  integrations : gmap (Address * string) Address;
  logs : list log_entry;
}.

Definition new_registry : State := {| integrations := ∅; logs := [] |}.

Section IntegrationRegistry.
Context `{Keccak} (onlyOwner : Address → result ()) (ctl : Controller.State).
Implicit Types (r : State) (caller : Address).

Definition _nameHash (_name : string) : string := keccak256 _name.

(** An unwritten slot reads as the zero address. *)
Definition adapter_at r (_module : Address) (hash : string) : Address :=
  default Controller.address0 (integrations r !! (_module, hash)).

Definition put (_module : Address) (hash : string) (_adapter : Address) (e : log_entry) r : State :=
  {| integrations := <[(_module, hash) := _adapter]> (integrations r); logs := logs r ++ [e] |}.

Definition addIntegration caller (_module : Address) (_name : string) (_adapter : Address) r
    : result State :=
  onlyOwner caller;;
  let hashedName := _nameHash _name in
  require (bool_decide (_module ∈ Controller.isModule ctl)) "Must be valid module.";;
  require (bool_decide (adapter_at r _module hashedName = Controller.address0))
    "Integration exists already.";;
  require (negb (bool_decide (_adapter = Controller.address0))) "Adapter address must exist.";;
  Ok (put _module hashedName _adapter (IntegrationAdded _module _adapter _name) r).

Definition editIntegration caller (_module : Address) (_name : string) (_adapter : Address) r
    : result State :=
  onlyOwner caller;;
  let hashedName := _nameHash _name in
  require (bool_decide (_module ∈ Controller.isModule ctl)) "Must be valid module.";;
  require (negb (bool_decide (adapter_at r _module hashedName = Controller.address0)))
    "Integration does not exist.";;
  require (negb (bool_decide (_adapter = Controller.address0))) "Adapter address must exist.";;
  Ok (put _module hashedName _adapter (IntegrationEdited _module _adapter _name) r).

(** The loops of the batches; the lengths were compared before. *)
Fixpoint batch (f : Address → string → Address → State → result State)
    (_modules : list Address) (_names : list string) (_adapters : list Address) r
    : result State :=
  match _modules, _names, _adapters with
  | m :: ms, n :: ns, a :: adapters => r' ← f m n a r; batch f ms ns adapters r'
  | _, _, _ => Ok r
  end.

Definition same_lengths (_modules : list Address) (_names : list string)
    (_adapters : list Address) : result () :=
  require (0 <? length _modules)%nat "Modules must not be empty";;
  require (length _modules =? length _names)%nat "Module and name lengths mismatch";;
  require (length _modules =? length _adapters)%nat "Module and adapter lengths mismatch".

Definition batchAddIntegration caller (_modules : list Address) (_names : list string)
    (_adapters : list Address) r : result State :=
  onlyOwner caller;; same_lengths _modules _names _adapters;;
  batch (addIntegration caller) _modules _names _adapters r.

Definition batchEditIntegration caller (_modules : list Address) (_names : list string)
    (_adapters : list Address) r : result State :=
  onlyOwner caller;; same_lengths _modules _names _adapters;;
  batch (editIntegration caller) _modules _names _adapters r.

Definition removeIntegration caller (_module : Address) (_name : string) r : result State :=
  onlyOwner caller;;
  let hashedName := _nameHash _name in
  require (negb (bool_decide (adapter_at r _module hashedName = Controller.address0)))
    "Integration does not exist.";;
  let oldAdapter := adapter_at r _module hashedName in
  Ok {| integrations := base.delete (_module, hashedName) (integrations r);
        logs := logs r ++ [IntegrationRemoved _module oldAdapter _name] |}.

Definition getIntegrationAdapter r (_module : Address) (_name : string) : Address :=
  adapter_at r _module (_nameHash _name).
Definition getIntegrationAdapterWithHash r (_module : Address) (_nameHash : string) : Address :=
  adapter_at r _module _nameHash.
Definition isValidIntegration r (_module : Address) (_name : string) : bool :=
  negb (bool_decide (adapter_at r _module (_nameHash _name) = Controller.address0)).
End IntegrationRegistry.
End IntegrationRegistry.
