(* ===== verification/World.v ===== *)
(** * The contracts together

    The state in which modules act: the controller, the sets, the registries of
    integrations and an environment (the storage of a module, the tokens), with
    transactions as a state and error monad; the calls of [SetToken] to other
    contracts; [contracts/protocol/lib/ModuleBase.sol], [lib/Invoke.sol] and
    [contracts/lib/ExplicitERC20.sol]. *)
From Stdlib Require Import String.
From S2P Require Import Prelude JsString BigNumber Constants MathUtils SolMath.
From S2P Require Import AddressArrayUtils Script AdapterUtils Controller Erc20 SetToken.
From S2P Require Import IntegrationRegistry.

Section World.
Context `{ERC20}.

Record World (E : Type) := {
  controller : Controller.State;
  sets : gmap Address SetToken.State;
  registries : gmap Address IntegrationRegistry.State;
  block_timestamp : Z;
  env : E;
}.
End World.
Arguments controller {_ _} _.
Arguments sets {_ _} _.
Arguments registries {_ _} _.
Arguments block_timestamp {_ _} _.
Arguments env {_ _} _.

(** ** Transactions *)

(** A transaction returns a value and the world after it, or reverts. *)
Definition tx `{ERC20} (E A : Type) : Type := World E → result (A * World E).

#[export] Instance tx_ret `{ERC20} {E} : MRet (tx E) := λ A a w, Ok (a, w).
#[export] Instance tx_bind `{ERC20} {E} : MBind (tx E) := λ A B f t w,
  match t w with Ok (a, w') => f a w' | Throw e => Throw e end.

Section Transactions.
Context `{ERC20} {E : Type}.

Definition lift {A} (r : result A) : tx E A := λ w,
  match r with Ok a => Ok (a, w) | Throw e => Throw e end.
Definition asks {A} (f : World E → A) : tx E A := λ w, Ok (f w, w).
(** A question to a contract outside. *)
Definition query {A} (f : World E → result A) : tx E A := λ w,
  match f w with Ok a => Ok (a, w) | Throw e => Throw e end.
Definition revert {A} (reason : string) : tx E A := λ _, Throw (Revert reason).
Definition requires (b : bool) (reason : string) : tx E () := lift (require b reason).

Definition set_env (e : E) (w : World E) : World E :=
  {| controller := controller w; sets := sets w; registries := registries w;
     block_timestamp := block_timestamp w; env := e |}.
Definition set_sets (m : gmap Address SetToken.State) (w : World E) : World E :=
  {| controller := controller w; sets := m; registries := registries w;
     block_timestamp := block_timestamp w; env := env w |}.
Definition set_controller (c : Controller.State) (w : World E) : World E :=
  {| controller := c; sets := sets w; registries := registries w;
     block_timestamp := block_timestamp w; env := env w |}.

Definition modify (f : E → E) : tx E () := λ w, Ok ((), set_env (f (env w)) w).

(** A call that changes the state of a set. *)
Definition on_set (_setToken : Address)
    (f : Controller.State → SetToken.State → result SetToken.State) : tx E () := λ w,
  match sets w !! _setToken with
  | Some s => match f (controller w) s with
              | Ok s' => Ok ((), set_sets (<[_setToken := s']> (sets w)) w)
              | Throw e => Throw e
              end
  | None => Throw (Revert "function call to a non-contract account")
  end.

(** A call that reads it. *)
Definition view_set {A} (_setToken : Address) (f : SetToken.State → result A) : tx E A := λ w,
  match sets w !! _setToken with
  | Some s => match f s with Ok a => Ok (a, w) | Throw e => Throw e end
  | None => Throw (Revert "function call to a non-contract account")
  end.

Definition read_set {A} (_setToken : Address) (f : SetToken.State → A) : tx E A :=
  view_set _setToken (λ s, Ok (f s)).
End Transactions.

(** ** Contracts outside *)

(** What one transaction of other contracts can do to the sets: each goes through
    transactions of its own. *)
Definition sets_evolve `{ERC20} `{SignedLib} (m m' : gmap Address SetToken.State) : Prop :=
  ∀ a s, m !! a = Some s → ∃ s', m' !! a = Some s' ∧ rtc SetToken.step s s'.

(** The tokens, and any target of an invocation, called by the account of the
    first argument. *)
Class External `{ERC20} `{SignedLib} (E : Type) := {
  functionCallWithValue : Address → Address → Z → SetToken.call_data → tx E value;
  IERC20_balanceOf : Address → Address → World E → result Z;
  safeTransferFrom : Address → Address → Address → Address → Z → tx E ();
  call_evolves caller target v d w r w' :
    functionCallWithValue caller target v d w = Ok (r, w') → sets_evolve (sets w) (sets w');
  transfer_evolves caller token from to q w u w' :
    safeTransferFrom caller token from to q w = Ok (u, w') → sets_evolve (sets w) (sets w');
  balance_word token owner w z : IERC20_balanceOf token owner w = Ok z → is_uint z;
}.

(** The function of a module that a set calls to remove it; what it does to the
    sets it does by their transactions. *)
Class IModule `{ERC20} `{SignedLib} (E : Type) := {
  module_removeModule : Address → Address → tx E ();
  removeModule_evolves m _setToken w u w' :
    module_removeModule m _setToken w = Ok (u, w') → sets_evolve (sets w) (sets w');
}.

(** ** Calls of a set to other contracts *)
Section SetCalls.
Context `{ERC20} `{SignedLib} {E : Type}.

Definition SetToken_invoke `{!External E} (msg_sender _setToken _target : Address) (_value : Z)
    (_data : SetToken.call_data) : tx E value :=
  ctl ← asks controller;
  view_set _setToken (SetToken.privileged ctl msg_sender);;
  _returnValue ← functionCallWithValue _setToken _target _value _data;
  on_set _setToken (λ _, SetToken.invoke_effects _target _value _data _returnValue);;
  mret _returnValue.

Definition SetToken_removeModule `{!IModule E} (msg_sender _setToken _module : Address) : tx E () :=
  view_set _setToken (SetToken.removeModule_checks msg_sender _module);;
  module_removeModule _module _setToken;;
  on_set _setToken (λ _, SetToken.removeModule_effects _module).
End SetCalls.

(** ** Libraries of the modules *)
Section Libraries.
Context `{ERC20} `{SignedLib} `{Keccak} {E : Type} `{!External E}.
Implicit Types (this msg_sender _setToken : Address).

(** The balance another contract answers with. *)
Definition balance (token owner : Address) : tx E Z := λ w,
  match IERC20_balanceOf token owner w with Ok z => Ok (z, w) | Throw e => Throw e end.

Definition invokeApprove this _setToken (_token _spender : Address) (_quantity : Z) : tx E () :=
  SetToken_invoke this _setToken _token 0
    (SetToken.encodeWithSignature "approve(address,uint256)" [VAddr _spender; VNum _quantity]);;
  mret ().

Definition invokeTransfer this _setToken (_token _to : Address) (_quantity : Z) : tx E () :=
  if 0 <? _quantity then
    SetToken_invoke this _setToken _token 0
      (SetToken.encodeWithSignature "transfer(address,uint256)" [VAddr _to; VNum _quantity]);;
    mret ()
  else mret ().

Definition strictInvokeTransfer this _setToken (_token _to : Address) (_quantity : Z) : tx E () :=
  if 0 <? _quantity then
    existingBalance ← balance _token _setToken;
    invokeTransfer this _setToken _token _to _quantity;;
    newBalance ← balance _token _setToken;
    d ← lift (SafeMath.sub existingBalance _quantity);
    requires (newBalance =? d) "Invalid post transfer balance"
  else mret ().

Definition invokeUnwrapWETH this _setToken (_weth : Address) (_quantity : Z) : tx E () :=
  SetToken_invoke this _setToken _weth 0
    (SetToken.encodeWithSignature "withdraw(uint256)" [VNum _quantity]);;
  mret ().

Definition invokeWrapWETH this _setToken (_weth : Address) (_quantity : Z) : tx E () :=
  SetToken_invoke this _setToken _weth _quantity (SetToken.encodeWithSignature "deposit()" []);;
  mret ().

(** [ExplicitERC20.transferFrom], by the module. *)
Definition transferFrom this (_token _from _to : Address) (_quantity : Z) : tx E () :=
  if 0 <? _quantity then
    existingBalance ← balance _token _to;
    safeTransferFrom this _token _from _to _quantity;;
    newBalance ← balance _token _to;
    d ← lift (SafeMath.add existingBalance _quantity);
    requires (newBalance =? d) "Invalid post transfer balance"
  else mret ().

Definition INTEGRATION_REGISTRY_RESOURCE_ID : Z := 0.

Definition getIntegrationRegistry (ctl : Controller.State) : Address :=
  Controller.resource_at ctl INTEGRATION_REGISTRY_RESOURCE_ID.

Definition getNameHash (_name : string) : string := keccak256 _name.

Definition getAndValidateAdapterWithHash this (_integrationHash : string) : tx E Address := λ w,
  match registries w !! getIntegrationRegistry (controller w) with
  | Some r =>
      let adapter := IntegrationRegistry.getIntegrationAdapterWithHash r this _integrationHash in
      if negb (bool_decide (adapter = Controller.address0)) then Ok (adapter, w)
      else Throw (Revert "Must be valid adapter")
  | None => Throw (Revert "function call to a non-contract account")
  end.

Definition getAndValidateAdapter this (_integrationName : string) : tx E Address :=
  getAndValidateAdapterWithHash this (getNameHash _integrationName).

Definition getModuleFee this (_feeIndex _quantity : Z) : tx E Z :=
  ctl ← asks controller;
  let feePercentage := Controller.getModuleFee ctl this _feeIndex in
  lift (PreciseUnitMath.preciseMul_u _quantity feePercentage).

Definition payProtocolFeeFromSetToken this _setToken (_token : Address) (_feeQuantity : Z)
    : tx E () :=
  if 0 <? _feeQuantity then
    ctl ← asks controller;
    strictInvokeTransfer this _setToken _token (Controller.feeRecipient ctl) _feeQuantity
  else mret ().
End Libraries.

(** ** Guards of the modules *)
Section ModuleBase.
Context `{ERC20} `{SignedLib} {E : Type}.
Implicit Types (this msg_sender _setToken _toCheck : Address).

Definition isSetPendingInitialization this _setToken : tx E bool :=
  read_set _setToken (λ s, SetToken.isPendingModule s this).

Definition isSetManager _setToken _toCheck : tx E bool :=
  read_set _setToken (λ s, bool_decide (SetToken.manager s = _toCheck)).

(** [&&] does not ask the set when the controller does not know it. *)
Definition isSetValidAndInitialized this _setToken : tx E bool :=
  ctl ← asks controller;
  if bool_decide (_setToken ∈ Controller.isSet ctl) then
    read_set _setToken (λ s, SetToken.isInitializedModule s this)
  else mret false.

Definition _validateOnlyManagerAndValidSet this msg_sender _setToken : tx E () :=
  m ← isSetManager _setToken msg_sender;
  requires m "Must be the SetToken manager";;
  v ← isSetValidAndInitialized this _setToken;
  requires v "Must be a valid and initialized SetToken".

Definition _validateOnlySetManager _setToken (_caller : Address) : tx E () :=
  m ← isSetManager _setToken _caller;
  requires m "Must be the SetToken manager".

Definition _validateOnlyValidAndInitializedSet this _setToken : tx E () :=
  v ← isSetValidAndInitialized this _setToken;
  requires v "Must be a valid and initialized SetToken".

Definition _validateOnlyModule msg_sender _setToken : tx E () :=
  st ← read_set _setToken (λ s, SetToken.state_of_module s msg_sender);
  requires (bool_decide (st = INITIALIZED)) "Only the module can call";;
  ctl ← asks controller;
  requires (bool_decide (msg_sender ∈ Controller.isModule ctl))
    "Module must be enabled on controller".

Definition _validateOnlyValidAndPendingSet this _setToken : tx E () :=
  ctl ← asks controller;
  requires (bool_decide (_setToken ∈ Controller.isSet ctl)) "Must be controller-enabled SetToken";;
  p ← isSetPendingInitialization this _setToken;
  requires p "Must be pending initialization".
End ModuleBase.

(** ** Successful transactions *)
Section Inversion.
Context `{ERC20} `{SignedLib} {E : Type}.

Lemma tx_bind_ok {A B} (t : tx E A) (f : A → tx E B) (w w' : World E) (b : B) :
  (t ≫= f) w = Ok (b, w') ↔ ∃ a w1, t w = Ok (a, w1) ∧ f a w1 = Ok (b, w').
Proof.
  unfold mbind, tx_bind. destruct (t w) as [[a w1]|e]; split.
  - eauto.
  - by intros (? & ? & [= <- <-] & ?).
  - done.
  - by intros (? & ? & ? & _).
Qed.

Lemma tx_bind_run {A B} (t : tx E A) (f : A → tx E B) (w w' : World E) (a : A) :
  t w = Ok (a, w') → (t ≫= f) w = f a w'.
Proof. intros Ht. unfold mbind, tx_bind. by rewrite Ht. Qed.

Lemma tx_ret_ok {A} (a b : A) (w w' : World E) :
  (mret a : tx E A) w = Ok (b, w') ↔ a = b ∧ w = w'.
Proof. unfold mret, tx_ret. split; [by intros [= -> ->]|by intros [-> ->]]. Qed.

Lemma lift_ok {A} (r : result A) (b : A) (w w' : World E) :
  lift r w = Ok (b, w') ↔ r = Ok b ∧ w = w'.
Proof.
  unfold lift. destruct r; (split; [try done|by intros [[= ?] ?]; subst]). by intros [= -> ->].
Qed.

Lemma asks_ok {A} (f : World E → A) (b : A) (w w' : World E) :
  asks f w = Ok (b, w') ↔ b = f w ∧ w = w'.
Proof. unfold asks. split; [by intros [= <- <-]|by intros [-> ->]]. Qed.

Lemma query_ok {A} (f : World E → result A) (b : A) (w w' : World E) :
  query f w = Ok (b, w') ↔ f w = Ok b ∧ w = w'.
Proof.
  unfold query. destruct (f w); (split; [try done|by intros [[= ?] ?]; subst]). by intros [= -> ->].
Qed.

Lemma requires_ok (b : bool) (reason : string) (u : ()) (w w' : World E) :
  requires b reason w = Ok (u, w') ↔ b = true ∧ w = w'.
Proof. unfold requires. rewrite lift_ok, require_ok. done. Qed.

Lemma modify_ok (f : E → E) (u : ()) (w w' : World E) :
  modify f w = Ok (u, w') ↔ w' = set_env (f (env w)) w.
Proof. unfold modify. destruct u. split; [by intros [= <-]|by intros ->]. Qed.

Lemma view_set_ok {A} (st : Address) (f : SetToken.State → result A) (b : A) (w w' : World E) :
  view_set st f w = Ok (b, w') ↔ ∃ s, sets w !! st = Some s ∧ f s = Ok b ∧ w = w'.
Proof.
  unfold view_set. destruct (sets w !! st) as [s|]; [|split; [done|by intros (? & ? & _)]]. split.
  - destruct (f s) eqn:F; [|done]. intros [= -> ->]. eauto.
  - by intros (? & [= <-] & -> & ->).
Qed.

Lemma read_set_ok {A} (st : Address) (f : SetToken.State → A) (b : A) (w w' : World E) :
  read_set st f w = Ok (b, w') ↔ ∃ s, sets w !! st = Some s ∧ b = f s ∧ w = w'.
Proof.
  unfold read_set. rewrite view_set_ok. split.
  - intros (s & ? & [= <-] & ->). eauto.
  - intros (s & ? & -> & ->). eauto.
Qed.

Lemma on_set_ok (st : Address) (f : Controller.State → SetToken.State → result SetToken.State)
    (u : ()) (w w' : World E) :
  on_set st f w = Ok (u, w') ↔ ∃ s s', sets w !! st = Some s ∧ f (controller w) s = Ok s' ∧
    w' = set_sets (<[st := s']> (sets w)) w.
Proof.
  unfold on_set. destruct u.
  destruct (sets w !! st) as [s|]; [|split; [done|by intros (? & ? & ? & _)]]. split.
  - destruct (f (controller w) s) eqn:F; [|done]. intros [= <-]. eauto.
  - by intros (? & ? & [= <-] & -> & ->).
Qed.

Lemma on_set_run (st : Address) (f : Controller.State → SetToken.State → result SetToken.State)
    (w : World E) (s s' : SetToken.State) :
  sets w !! st = Some s → f (controller w) s = Ok s' →
  on_set st f w = Ok ((), set_sets (<[st := s']> (sets w)) w).
Proof. intros Es Ef. unfold on_set. by rewrite Es, Ef. Qed.

(** The world with one set in another state. *)
Definition put_set (st : Address) (s : SetToken.State) (w : World E) : World E :=
  set_sets (<[st := s]> (sets w)) w.

Lemma put_set_id (st : Address) (s : SetToken.State) (w : World E) :
  sets w !! st = Some s → put_set st s w = w.
Proof. intros Es. destruct w. unfold put_set, set_sets. cbn in *. by rewrite insert_id. Qed.

Lemma put_set_twice (st : Address) (s s' : SetToken.State) (w : World E) :
  put_set st s' (put_set st s w) = put_set st s' w.
Proof. unfold put_set, set_sets. cbn. by rewrite insert_insert_eq. Qed.

Lemma put_set_at (st : Address) (s : SetToken.State) (w : World E) :
  sets (put_set st s w) !! st = Some s.
Proof. apply lookup_insert_eq. Qed.

Lemma on_set_at (st : Address) (f : Controller.State → SetToken.State → result SetToken.State)
    (u : ()) (w w' : World E) (s : SetToken.State) :
  sets w !! st = Some s → on_set st f w = Ok (u, w') →
  ∃ s', f (controller w) s = Ok s' ∧ w' = put_set st s' w.
Proof.
  intros Es Hw. apply on_set_ok in Hw as (s0 & s' & Es' & Ef & ->). rewrite Es in Es'.
  injection Es' as <-. eauto.
Qed.
End Inversion.

(** Splits a successful transaction into its steps. *)
Ltac tx_step :=
  match goal with
  | H : (_ ≫= _) _ = Ok _ |- _ => apply tx_bind_ok in H as (? & ? & ? & H); cbn beta in H
  | H : mret _ _ = Ok _ |- _ => apply tx_ret_ok in H as [? ?]; subst
  | H : lift _ _ = Ok _ |- _ => apply lift_ok in H as [? ?]; subst
  | H : asks _ _ = Ok _ |- _ => apply asks_ok in H as [? ?]; subst
  | H : requires _ _ _ = Ok _ |- _ => apply requires_ok in H as [? ?]; subst
  | H : modify _ _ = Ok _ |- _ => apply modify_ok in H; subst
  | H : read_set _ _ _ = Ok _ |- _ => apply read_set_ok in H as (? & ? & ? & ?); subst
  | H : view_set _ _ _ = Ok _ |- _ => apply view_set_ok in H as (? & ? & ? & ?); subst
  end.
Ltac tx_inv := repeat tx_step.

(** ** Evolution of the sets *)

(** A transaction under which every set goes through transactions of its own. *)
Definition evolves `{ERC20} `{SignedLib} {E A} (t : tx E A) : Prop :=
  ∀ w a w', t w = Ok (a, w') → sets_evolve (sets w) (sets w').

Create HintDb evolve.

Section Evolution.
Context `{ERC20} `{SignedLib} {E : Type}.

Lemma sets_evolve_refl (m : gmap Address SetToken.State) : sets_evolve m m.
Proof. intros a s Es. exists s. split; [done|apply rtc_refl]. Qed.

Lemma sets_evolve_trans (m1 m2 m3 : gmap Address SetToken.State) :
  sets_evolve m1 m2 → sets_evolve m2 m3 → sets_evolve m1 m3.
Proof.
  intros H12 H23 a s Es. destruct (H12 a s Es) as (s' & Es' & Hs').
  destruct (H23 a s' Es') as (s'' & Es'' & Hs''). exists s''. split; [done|by etrans].
Qed.

Lemma evolves_bind {A B} (t : tx E A) (f : A → tx E B) :
  evolves t → (∀ a, evolves (f a)) → evolves (t ≫= f).
Proof.
  intros Ht Hf w b w' Hw. apply tx_bind_ok in Hw as (a & w1 & H1 & H2).
  eapply sets_evolve_trans; [by eapply Ht|by eapply Hf].
Qed.

(** Transactions that leave the sets alone. *)
Lemma evolves_same {A} (t : tx E A) :
  (∀ w a w', t w = Ok (a, w') → sets w' = sets w) → evolves t.
Proof. intros Ht w a w' Hw. rewrite (Ht _ _ _ Hw). apply sets_evolve_refl. Qed.

Lemma evolves_ret {A} (a : A) : evolves (mret a : tx E A).
Proof. apply evolves_same. intros w b w' Hw. by tx_inv. Qed.
Lemma evolves_lift {A} (r : result A) : evolves (lift r : tx E A).
Proof. apply evolves_same. intros w b w' Hw. by tx_inv. Qed.
Lemma evolves_asks {A} (f : World E → A) : evolves (asks f).
Proof. apply evolves_same. intros w b w' Hw. by tx_inv. Qed.
Lemma evolves_requires (b : bool) (reason : string) : evolves (requires b reason : tx E ()).
Proof. apply evolves_same. intros w u w' Hw. by tx_inv. Qed.
Lemma evolves_modify (f : E → E) : evolves (modify f).
Proof. apply evolves_same. intros w u w' Hw. by tx_inv. Qed.
Lemma evolves_view {A} (st : Address) (f : SetToken.State → result A) : evolves (view_set st f : tx E A).
Proof. apply evolves_same. intros w u w' Hw. by tx_inv. Qed.
Lemma evolves_read {A} (st : Address) (f : SetToken.State → A) : evolves (read_set st f : tx E A).
Proof. apply evolves_same. intros w u w' Hw. by tx_inv. Qed.
Lemma evolves_if {A} (b : bool) (t u : tx E A) :
  evolves t → evolves u → evolves (if b then t else u).
Proof. by destruct b. Qed.

Lemma evolves_on_set (st : Address)
    (f : Controller.State → SetToken.State → result SetToken.State) :
  (∀ ctl s s', f ctl s = Ok s' → rtc SetToken.step s s') → evolves (on_set st f : tx E ()).
Proof.
  intros Hf w u w' Hw. apply on_set_ok in Hw as (s & s' & Es & Ef & ->). cbn.
  intros a s0 E0. destruct (decide (a = st)) as [->|Hne].
  - rewrite lookup_insert_eq. rewrite Es in E0. injection E0 as <-. eauto.
  - rewrite lookup_insert_ne by congruence. exists s0. split; [done|apply rtc_refl].
Qed.

(** A privileged call of a module. *)
Lemma evolves_operation (st caller : Address) (o : SetToken.operation) :
  caller ≠ Controller.address0 → SetToken.well_typed o →
  evolves (on_set st (λ ctl, SetToken.execute ctl caller o) : tx E ()).
Proof.
  intros Hc Ho. apply evolves_on_set. intros ctl s s' Es. apply rtc_once. by exists ctl, caller, o.
Qed.
End Evolution.

#[export] Hint Resolve evolves_bind evolves_ret evolves_lift evolves_asks evolves_requires
  evolves_modify evolves_view evolves_read evolves_if : evolve.

(** ** Transactions that leave the environment alone *)

Definition env_kept `{ERC20} {E A} (t : tx E A) : Prop :=
  ∀ w a w', t w = Ok (a, w') → env w' = env w.

Create HintDb env_kept.

Section EnvKept.
Context `{ERC20} {E : Type}.

Lemma env_kept_bind {A B} (t : tx E A) (f : A → tx E B) :
  env_kept t → (∀ a, env_kept (f a)) → env_kept (t ≫= f).
Proof.
  intros Ht Hf w b w' Hw. apply tx_bind_ok in Hw as (a & w1 & H1 & H2).
  rewrite (Hf _ _ _ _ H2). by eapply Ht.
Qed.
Lemma env_kept_ret {A} (a : A) : env_kept (mret a : tx E A).
Proof. intros w b w' Hw. by tx_inv. Qed.
Lemma env_kept_lift {A} (r : result A) : env_kept (lift r : tx E A).
Proof. intros w b w' Hw. by tx_inv. Qed.
Lemma env_kept_asks {A} (f : World E → A) : env_kept (asks f).
Proof. intros w b w' Hw. by tx_inv. Qed.
Lemma env_kept_requires (b : bool) (reason : string) : env_kept (requires b reason : tx E ()).
Proof. intros w u w' Hw. by tx_inv. Qed.
Lemma env_kept_view {A} (st : Address) (f : SetToken.State → result A) :
  env_kept (view_set st f : tx E A).
Proof. intros w u w' Hw. by tx_inv. Qed.
Lemma env_kept_read {A} (st : Address) (f : SetToken.State → A) : env_kept (read_set st f : tx E A).
Proof. intros w u w' Hw. by tx_inv. Qed.
Lemma env_kept_on_set (st : Address)
    (f : Controller.State → SetToken.State → result SetToken.State) : env_kept (on_set st f : tx E ()).
Proof. intros w u w' Hw. by apply on_set_ok in Hw as (? & ? & _ & _ & ->). Qed.
Lemma env_kept_if {A} (b : bool) (t u : tx E A) :
  env_kept t → env_kept u → env_kept (if b then t else u).
Proof. by destruct b. Qed.
End EnvKept.

#[export] Hint Resolve env_kept_ret env_kept_lift env_kept_asks env_kept_requires env_kept_view
  env_kept_read env_kept_on_set : env_kept.

Ltac env_kept :=
  repeat match goal with
  | |- env_kept (mbind _ _) => apply env_kept_bind; [|intros ?]
  | |- env_kept (if _ then _ else _) => apply env_kept_if
  | |- env_kept (let '(_, _) := ?p in _) => destruct p
  | |- env_kept _ => solve [eauto with env_kept]
  end.

(** ** Transactions that only read *)

Definition reading `{ERC20} {E A} (t : tx E A) : Prop :=
  ∀ w a w', t w = Ok (a, w') → w' = w.

Create HintDb reading.

Section Reading.
Context `{ERC20} {E : Type}.

Lemma reading_bind {A B} (t : tx E A) (f : A → tx E B) :
  reading t → (∀ a, reading (f a)) → reading (t ≫= f).
Proof.
  intros Ht Hf w b w' Hw. apply tx_bind_ok in Hw as (a & w1 & H1 & H2).
  rewrite (Hf _ _ _ _ H2). by eapply Ht.
Qed.
Lemma reading_ret {A} (a : A) : reading (mret a : tx E A).
Proof. intros w b w' Hw. by tx_inv. Qed.
Lemma reading_lift {A} (r : result A) : reading (lift r : tx E A).
Proof. intros w b w' Hw. by tx_inv. Qed.
Lemma reading_asks {A} (f : World E → A) : reading (asks f).
Proof. intros w b w' Hw. by tx_inv. Qed.
Lemma reading_query {A} (f : World E → result A) : reading (query f).
Proof. intros w b w' Hw. by apply query_ok in Hw as [_ ->]. Qed.
Lemma reading_requires (b : bool) (reason : string) : reading (requires b reason : tx E ()).
Proof. intros w u w' Hw. by tx_inv. Qed.
Lemma reading_revert {A} (reason : string) : reading (revert reason : tx E A).
Proof. by intros w u w' Hw. Qed.
Lemma reading_view {A} (st : Address) (f : SetToken.State → result A) :
  reading (view_set st f : tx E A).
Proof. intros w u w' Hw. by tx_inv. Qed.
Lemma reading_read {A} (st : Address) (f : SetToken.State → A) : reading (read_set st f : tx E A).
Proof. intros w u w' Hw. by tx_inv. Qed.
Lemma reading_if {A} (b : bool) (t u : tx E A) : reading t → reading u → reading (if b then t else u).
Proof. by destruct b. Qed.
End Reading.

Lemma evolves_reading `{ERC20} `{SignedLib} {E A} (t : tx E A) : reading t → evolves t.
Proof. intros Ht. apply evolves_same. intros w a w' Hw. by rewrite (Ht _ _ _ Hw). Qed.

#[export] Hint Resolve reading_ret reading_lift reading_asks reading_query reading_requires reading_view
  reading_read reading_revert : reading.

Ltac reading :=
  repeat match goal with
  | |- reading (mbind _ _) => apply reading_bind; [|intros ?]
  | |- reading (if _ then _ else _) => apply reading_if
  | |- reading (let '(_, _) := ?p in _) => destruct p
  | |- reading (match ?x with _ => _ end) => destruct x
  | |- reading _ => solve [eauto with reading]
  end.

(** ** Triples *)

(** From a world with [P], a transaction that succeeds leaves one with [P] and a
    result with [Q]. *)
Definition gives `{ERC20} {E A} (P : World E → Prop) (t : tx E A) (Q : A → Prop) : Prop :=
  ∀ w a w', P w → t w = Ok (a, w') → P w' ∧ Q a.

Definition keeps `{ERC20} {E A} (P : World E → Prop) (t : tx E A) : Prop := gives P t (λ _, True).

Section Triples.
Context `{ERC20} {E : Type} (P : World E → Prop).

Lemma gives_bind {A B} (t : tx E A) (f : A → tx E B) (Q : A → Prop) (R : B → Prop) :
  gives P t Q → (∀ a, Q a → gives P (f a) R) → gives P (t ≫= f) R.
Proof.
  intros Ht Hf w b w' Hw E1. apply tx_bind_ok in E1 as (a & w1 & E1 & E2).
  destruct (Ht _ _ _ Hw E1) as [Hw1 Ha]. by apply (Hf a Ha _ _ _ Hw1).
Qed.

Lemma keeps_bind {A B} (t : tx E A) (f : A → tx E B) :
  keeps P t → (∀ a, keeps P (f a)) → keeps P (t ≫= f).
Proof. intros Ht Hf. refine (gives_bind t f _ _ Ht _). intros a _. apply Hf. Qed.

Lemma keeps_reading {A} (t : tx E A) : reading t → keeps P t.
Proof. intros Ht w a w' Hw E1. by rewrite (Ht _ _ _ E1). Qed.

Lemma keeps_if {A} (b : bool) (t u : tx E A) :
  keeps P t → keeps P u → keeps P (if b then t else u).
Proof. by destruct b. Qed.

Lemma keeps_env {A} (t : tx E A) :
  (∀ w w', env w' = env w → P w → P w') → env_kept t → keeps P t.
Proof. intros HP Ht w a w' Hw E1. split; [|done]. by eapply HP; [eapply Ht|]. Qed.

Lemma gives_asks {A} (f : World E → A) (Q : A → Prop) :
  (∀ w, P w → Q (f w)) → gives P (asks f) Q.
Proof. intros Hf w a w' Hw E1. apply asks_ok in E1 as [-> ->]. auto. Qed.
End Triples.

(** Splits off a first step that only reads. *)
Tactic Notation "read_step" hyp(Hw) "as" simple_intropattern(x) ident(Hx) :=
  let w1 := fresh "w" in
  apply tx_bind_ok in Hw as (x & w1 & Hx & Hw);
  match type of Hx with ?t ?w = Ok (_, _) =>
    let Hr := fresh in assert (reading t) as Hr by reading; pose proof (Hr _ _ _ Hx); clear Hr; subst w1
  end.

(** Splits off all of them, with what the guards and the reads among them say. *)
Ltac read_steps Hw :=
  repeat (let a := fresh "a" in let Ha := fresh "Ha" in
          read_step Hw as a Ha;
          first [ apply requires_ok in Ha as [Ha _] | apply asks_ok in Ha as [-> _]
                | apply lift_ok in Ha as [Ha _] | idtac ]).

Create HintDb keeps.

(** Splits a transaction into calls that keep the invariant. *)
Ltac keeping :=
  repeat match goal with
  | |- keeps _ (mbind _ _) => apply keeps_bind; [|intros ?]
  | |- keeps _ (if _ then _ else _) => apply keeps_if
  | |- keeps _ (let '(_, _) := ?p in _) => destruct p
  | |- keeps _ _ => solve [eauto with keeps | apply keeps_reading; solve [reading]]
  end.

(** Reduces the evolution of a transaction to that of its calls. *)
Ltac evolve :=
  repeat match goal with
  | |- evolves (mbind _ _) => apply evolves_bind; [|intros ?]
  | |- evolves (if _ then _ else _) => apply evolves_if
  | |- evolves (let '(_, _) := ?p in _) => destruct p
  | |- evolves _ => solve [eauto with evolve]
  end.

(** ** Evolution under the library calls *)
Section LibraryEvolution.
Context `{ERC20} `{SignedLib} `{Keccak} {E : Type} `{!External E}.
Implicit Types (this _setToken : Address).

Lemma evolves_balance (token owner : Address) : evolves (balance (E := E) token owner).
Proof.
  apply evolves_same. intros w z w' Hw. unfold balance in Hw.
  destruct (IERC20_balanceOf token owner w); [by injection Hw as _ <-|done].
Qed.

Lemma reading_balance (token owner : Address) : reading (balance (E := E) token owner).
Proof.
  intros w z w' Hw. unfold balance in Hw.
  destruct (IERC20_balanceOf token owner w); [by injection Hw as _ <-|done].
Qed.

Lemma reading_getAdapter this (name : string) : reading (getAndValidateAdapter (E := E) this name).
Proof.
  intros w a w' Hw. unfold getAndValidateAdapter, getAndValidateAdapterWithHash in Hw.
  destruct (registries w !! _); [|done]. destruct (negb _); [by injection Hw as _ <-|done].
Qed.

Lemma reading_getModuleFee this (i q : Z) : reading (getModuleFee (E := E) this i q).
Proof. unfold getModuleFee. reading. Qed.

Lemma evolves_invoke this _setToken (target : Address) (v : Z) (d : SetToken.call_data) :
  this ≠ Controller.address0 → evolves (SetToken_invoke (E := E) this _setToken target v d).
Proof.
  intros Ht. unfold SetToken_invoke. apply evolves_bind; [auto with evolve|]. intros ctl.
  apply evolves_bind; [auto with evolve|]. intros _.
  apply evolves_bind; [intros w r w'; apply call_evolves|]. intros r.
  apply evolves_bind; [|auto with evolve].
  by apply (evolves_operation _setToken this (SetToken.Invoke target v d r)).
Qed.

Lemma evolves_safeTransferFrom this (token from to : Address) (q : Z) :
  evolves (safeTransferFrom (E := E) this token from to q).
Proof. intros w u w'. apply transfer_evolves. Qed.

#[local] Hint Resolve evolves_balance evolves_invoke evolves_safeTransferFrom : evolve.

Lemma evolves_strictInvokeTransfer this _setToken (token to : Address) (q : Z) :
  this ≠ Controller.address0 → evolves (strictInvokeTransfer (E := E) this _setToken token to q).
Proof.
  intros Ht. unfold strictInvokeTransfer, invokeTransfer.
  evolve.
Qed.

Lemma evolves_transferFrom this (token from to : Address) (q : Z) :
  evolves (transferFrom (E := E) this token from to q).
Proof.
  unfold transferFrom. evolve.
Qed.

Lemma evolves_payProtocolFee this _setToken (token : Address) (q : Z) :
  this ≠ Controller.address0 →
  evolves (payProtocolFeeFromSetToken (E := E) this _setToken token q).
Proof.
  intros Ht. unfold payProtocolFeeFromSetToken.
  evolve. by apply evolves_strictInvokeTransfer.
Qed.

(** A set that exists and is consistent stays so. *)
Definition set_ok (_setToken : Address) (w : World E) : Prop :=
  ∃ s, sets w !! _setToken = Some s ∧ SetToken.consistent s.

Lemma set_ok_evolves {A} (t : tx E A) _setToken (w w' : World E) (a : A) :
  evolves t → set_ok _setToken w → t w = Ok (a, w') → set_ok _setToken w'.
Proof.
  intros Ht (s & Es & Hs) Hw. destruct (Ht _ _ _ Hw _ _ Es) as (s' & Es' & Hss).
  exists s'. split; [done|by eapply SetToken.steps_consistent].
Qed.
End LibraryEvolution.

#[export] Hint Resolve reading_balance reading_getAdapter reading_getModuleFee : reading.

#[export] Hint Resolve evolves_balance evolves_invoke evolves_safeTransferFrom
  evolves_strictInvokeTransfer evolves_transferFrom evolves_payProtocolFee : evolve.

(** ** Storage of a module *)

(** The guard against reentrancy of a package outside the repository: a
    modification of the storage before and after the body. *)
Class ReentrancyGuard (E : Type) := {
  guard_enter : E → result E;
  guard_leave : E → E;
}.

Section Guard.
Context `{ERC20} `{SignedLib} {E : Type} `{!ReentrancyGuard E}.

Definition enter : tx E () := λ w,
  match guard_enter (env w) with Ok e => Ok ((), set_env e w) | Throw x => Throw x end.

Definition nonReentrant {A} (body : tx E A) : tx E A :=
  enter;; a ← body; modify guard_leave;; mret a.

Lemma enter_ok (u : ()) (w w' : World E) :
  enter w = Ok (u, w') → ∃ e, guard_enter (env w) = Ok e ∧ w' = set_env e w.
Proof. unfold enter. destruct (guard_enter (env w)); [|done]. intros [= <- <-]. eauto. Qed.

Lemma evolves_enter : evolves enter.
Proof. apply evolves_same. intros w u w' Hw. by apply enter_ok in Hw as (e & _ & ->). Qed.

Lemma nonReentrant_ok {A} (body : tx E A) (a : A) (w w' : World E) :
  nonReentrant body w = Ok (a, w') → ∃ e w1, guard_enter (env w) = Ok e ∧
    body (set_env e w) = Ok (a, w1) ∧ w' = set_env (guard_leave (env w1)) w1.
Proof.
  intros Hw. unfold nonReentrant in Hw. apply tx_bind_ok in Hw as (u & w1 & He & Hw).
  apply enter_ok in He as (e & He & ->). apply tx_bind_ok in Hw as (b & w2 & Hb & Hw). tx_inv. eauto.
Qed.
End Guard.

(** ** A concrete environment *)

(** Balances by token and owner, next to the storage of a module. *)
Definition bank := gmap (Address * Address) Z.
Definition held (b : bank) (token owner : Address) : Z := default 0 (b !! (token, owner)).

Definition move (token from to : Address) (q : Z) (b : bank) : result bank :=
  require (q <=? held b token from) "ERC20: transfer amount exceeds balance";;
  let b := <[(token, from) := held b token from - q]> b in
  require (held b token to + q <=? UINT_MAX) "SafeMath: addition overflow";;
  Ok (<[(token, to) := held b token to + q]> b).

Section Bank.
Context `{ERC20} `{SignedLib} {S : Type}.

Definition bank_move (token from to : Address) (q : Z) : tx (S * bank) () := λ w,
  match move token from to q (snd (env w)) with
  | Ok b => Ok ((), set_env (fst (env w), b) w)
  | Throw e => Throw e
  end.

(** A token transfers on behalf of its caller and an exchange takes one token of its
    caller and gives another; every other call does nothing. *)
Definition bank_call (caller target : Address) (v : Z) (d : SetToken.call_data)
    : tx (S * bank) value :=
  match d with
  | SetToken.encodeWithSignature f [VAddr to; VNum q] =>
      if String.eqb f "transfer(address,uint256)" then
        bank_move target caller to q;; mret (VBool true)
      else mret (VBool true)
  | SetToken.encodeWithSignature f [VAddr give; VNum q; VAddr take; VNum r] =>
      if String.eqb f "swap(address,uint256,address,uint256)" then
        bank_move give caller target q;; bank_move take target caller r;; mret (VBool true)
      else mret (VBool true)
  | _ => mret (VBool true)
  end.

Definition bank_balance (token owner : Address) (w : World (S * bank)) : result Z :=
  let z := held (snd (env w)) token owner in
  if (0 <=? z) && (z <=? UINT_MAX) then Ok z else Throw (Revert "invalid balance").

Lemma bank_move_sets (token from to : Address) (q : Z) (u : ()) (w w' : World (S * bank)) :
  bank_move token from to q w = Ok (u, w') → sets w' = sets w.
Proof. unfold bank_move. destruct (move _ _ _ _ _); [|done]. by intros [= _ <-]. Qed.

Lemma bank_call_sets (caller target : Address) (v : Z) (d : SetToken.call_data) (r : value)
    (w w' : World (S * bank)) : bank_call caller target v d w = Ok (r, w') → sets w' = sets w.
Proof.
  intros Hw. unfold bank_call in Hw.
  repeat match type of Hw with (match ?x with _ => _ end) _ = _ => destruct x end; tx_inv;
    repeat match goal with Hm : bank_move _ _ _ _ _ = Ok _ |- _ => apply bank_move_sets in Hm end;
    congruence.
Qed.

#[export] Program Instance External_bank : External (S * bank) := {|
  functionCallWithValue := bank_call;
  IERC20_balanceOf := bank_balance;
  safeTransferFrom caller := bank_move;
|}.
Next Obligation.
  intros caller target v d w r w' Hw. rewrite (bank_call_sets _ _ _ _ _ _ _ Hw). apply sets_evolve_refl.
Qed.
Next Obligation.
  intros caller token from to q w u w' Hw. rewrite (bank_move_sets _ _ _ _ _ _ _ Hw).
  apply sets_evolve_refl.
Qed.
Next Obligation.
  intros token owner w z Hz. unfold bank_balance in Hz. destruct (_ && _) eqn:B; [|done].
  injection Hz as <-. unfold is_uint. lia.
Qed.
End Bank.
