(* ===== verification/SetTokenCreator.v ===== *)
(** * The factory of sets

    [contracts/protocol/SetTokenCreator.sol]: the checks of a new set, its
    construction and its registration with the controller. *)
From Stdlib Require Import String.
From S2P Require Import Prelude JsString BigNumber Constants MathUtils SolMath.
From S2P Require Import AddressArrayUtils Script AdapterUtils Controller Erc20 SetToken.
From S2P Require Import IntegrationRegistry World.

Module SetTokenCreator.
Section SetTokenCreator.
Context `{ERC20} `{SignedLib} {E : Type}.

(** The loops over the components with their units, and over the modules. *)
Fixpoint check_components (_components : list Address) (_units : list Z) : result () :=
  match _components, _units with
  | c :: cs, u :: us =>
      require (negb (bool_decide (c = Controller.address0))) "Component must not be null address";;
      require (0 <? u) "Units must be greater than 0";;
      check_components cs us
  | _ :: _, [] => Throw (Revert "invalid opcode")
  | [], _ => Ok ()
  end.

Fixpoint check_modules (ctl : Controller.State) (_modules : list Address) : result () :=
  match _modules with
  | m :: ms => require (bool_decide (m ∈ Controller.isModule ctl)) "Must be enabled module";;
               check_modules ctl ms
  | [] => Ok ()
  end.

(** The chain picks the address of the new contract. *)
Context (new_address : World E → Address).

Definition deploy (s : SetToken.State) : tx E Address := λ w,
  Ok (new_address w, set_sets (<[new_address w := s]> (sets w)) w).

Definition register (this _setToken : Address) : tx E () := λ w,
  match Controller.addSet this _setToken (controller w) with
  | Ok c => Ok ((), set_controller c w)
  | Throw e => Throw e
  end.

Definition create (this : Address) (_components : list Address) (_units : list Z)
    (_modules : list Address) (_manager : Address) (_name _symbol : string) : tx E Address :=
  requires (0 <? length _components)%nat "Must have at least 1 component";;
  requires (length _components =? length _units)%nat
    "Component and unit lengths must be the same";;
  d ← lift (hasDuplicate _components);
  requires (negb d) "Components must not have a duplicate";;
  requires (0 <? length _modules)%nat "Must have at least 1 module";;
  requires (negb (bool_decide (_manager = Controller.address0))) "Manager must not be empty";;
  lift (check_components _components _units);;
  ctl ← asks controller;
  lift (check_modules ctl _modules);;
  s ← lift (SetToken.constructor _components _units _modules _manager _name _symbol);
  setToken ← deploy s;
  register this setToken;;
  mret setToken.

(** ** Lemmas *)

Lemma check_components_ok (cs : list Address) (us : list Z) (u : ()) :
  check_components cs us = Ok u →
  Forall (λ c, c ≠ Controller.address0) cs ∧ Forall (λ z, 0 < z) (take (length cs) us).
Proof.
  revert us. induction cs as [|c cs IH]; intros [|z us] E1; cbn in E1; try discriminate;
    [by split; constructor..|].
  apply result_bind_ok in E1 as (? & Hc & E1). apply result_bind_ok in E1 as (? & Hz & E1).
  apply require_ok, negb_true_iff, bool_decide_eq_false in Hc. apply require_ok, Z.ltb_lt in Hz.
  apply IH in E1 as [? ?]. split; by constructor.
Qed.

Lemma check_modules_ok (ctl : Controller.State) (ms : list Address) (u : ()) :
  check_modules ctl ms = Ok u → ∀ m, m ∈ ms → m ∈ Controller.isModule ctl.
Proof.
  induction ms as [|m ms IH]; intros E1 a Ha; [by apply elem_of_nil in Ha|].
  cbn in E1. apply result_bind_ok in E1 as (? & Em & E1).
  apply require_ok, bool_decide_eq_true in Em. apply elem_of_cons in Ha as [->|Ha]; [done|].
  by apply IH.
Qed.

(** The pending modules are those of the argument. *)
Lemma pend_all_pending (ms : list Address) (f : gmap Address module_state) (m : Address) :
  default NONE (SetToken.pend_all ms f !! m) = if decide (m ∈ ms) then PENDING else default NONE (f !! m).
Proof.
  revert f. induction ms as [|a ms IH]; intros f; [done|]. cbn. rewrite IH, SetToken.default_insert.
  destruct (decide (m ∈ ms)), (decide (m ∈ a :: ms)), (decide (m = a)); try done; set_solver.
Qed.

(** Each component gets its unit. *)
Lemma place_all_other (cs : list Address) (us : list Z)
    (p p' : gmap Address SetToken.ComponentPosition) (c : Address) :
  SetToken.place_all cs us p = Ok p' → c ∉ cs → p' !! c = p !! c.
Proof.
  revert us p. induction cs as [|d cs IH]; intros [|z us] p E1 Hc; cbn in E1; try discriminate;
    try (by injection E1 as <-).
  rewrite (IH us _ E1) by set_solver. rewrite lookup_insert_ne; [done|set_solver].
Qed.

Lemma place_all_units (cs : list Address) (us : list Z)
    (p p' : gmap Address SetToken.ComponentPosition) (c : Address) (u : Z) :
  NoDup cs → SetToken.place_all cs us p = Ok p' →
  (c, u) ∈ zip cs us → SetToken.virtualUnit (default SetToken.no_position (p' !! c)) = u.
Proof.
  revert us p. induction cs as [|d cs IH]; intros [|z us] p Hnd E1 Hc; cbn in E1, Hc;
    try discriminate; try (by apply elem_of_nil in Hc).
  apply NoDup_cons in Hnd as [Hd Hnd]. apply elem_of_cons in Hc as [[= -> ->]|Hc].
  - rewrite (place_all_other cs us _ _ d E1 Hd). by rewrite lookup_insert_eq.
  - by eapply IH.
Qed.

(** What the constructor makes of its arguments. *)
Lemma constructed (cs : list Address) (us : list Z) (ms : list Address)
    (owner : Address) (name symbol : string) (s : SetToken.State) :
  NoDup cs → SetToken.constructor cs us ms owner name symbol = Ok s →
  SetToken.isLocked s = false ∧ SetToken.getComponents s = cs ∧
  totalSupply (SetToken.token s) = 0 ∧
  (∀ c u, (c, u) ∈ zip cs us → SetToken.virtualUnit (SetToken.position s c) = u) ∧
  (∀ m, SetToken.isPendingModule s m = true ↔ m ∈ ms).
Proof.
  intros Hnd E1. unfold SetToken.constructor in E1. apply result_bind_ok in E1 as (ps & Eps & E1).
  injection E1 as <-. split; [done|]. split; [done|].
  split; [apply new_ledger_empty|]. split.
  - intros c u Hc. unfold SetToken.position. cbn. by eapply place_all_units.
  - intros m. unfold SetToken.isPendingModule, SetToken.state_of_module. cbn.
    rewrite bool_decide_eq_true, pend_all_pending. by destruct (decide (m ∈ ms)).
Qed.

Lemma check_components_units (cs : list Address) (us : list Z) (x : ()) (c : Address) (u : Z) :
  length cs = length us → check_components cs us = Ok x → (c, u) ∈ zip cs us → 0 < u.
Proof.
  intros Hl E1 Hc. apply check_components_ok in E1 as [_ Hf]. rewrite Hl, take_ge in Hf by done.
  apply elem_of_zip_r in Hc. by eapply Forall_forall in Hf.
Qed.

Lemma hasDuplicate_false (l : list Address) (b : bool) :
  hasDuplicate l = Ok b → negb b = true → NoDup l.
Proof.
  intros E1 Hb. unfold hasDuplicate in E1. apply result_bind_ok in E1 as (? & _ & E1).
  injection E1 as <-. apply negb_true_iff in Hb. destruct (decide (NoDup l)) as [|Hn]; [done|].
  apply hasDuplicate_loop_true in Hn. congruence.
Qed.

(** A set the factory creates is registered with the controller, which knew
    the factory and no set at that address; it is consistent and unlocked, has
    the components of the call, none of them twice or the zero address, with
    their units, all positive, no supply, and exactly the modules of the call,
    all enabled, pending. *)
Theorem create_registers (this : Address) (cs : list Address) (us : list Z) (ms : list Address)
    (owner : Address) (name symbol : string) (w w' : World E) (a : Address)
    (Hu : Forall is_int us) (Hw : create this cs us ms owner name symbol w = Ok (a, w')) :
  (this ∈ Controller.isFactory (controller w)) ∧ (a ∉ Controller.isSet (controller w)) ∧
  a ∈ Controller.isSet (controller w') ∧
  ∃ s, sets w' !! a = Some s ∧ SetToken.consistent s ∧ SetToken.isLocked s = false ∧
    SetToken.getComponents s = cs ∧ Forall (λ c, c ≠ Controller.address0) cs ∧
    totalSupply (SetToken.token s) = 0 ∧
    (∀ c u, (c, u) ∈ zip cs us → 0 < u ∧ SetToken.virtualUnit (SetToken.position s c) = u) ∧
    (∀ m, SetToken.isPendingModule s m = true ↔ m ∈ ms) ∧
    (∀ m, m ∈ ms → m ∈ Controller.isModule (controller w)).
Proof.
  unfold create in Hw. tx_inv. rename select (deploy _ _ = _) into Hd.
  rename select (register _ _ _ = _) into Hr. rename select (SetToken.constructor _ _ _ _ _ _ = _) into Hs.
  rename select (hasDuplicate _ = _) into Hdup. rename select (check_components _ _ = _) into Hcc.
  rename select (check_modules _ _ = _) into Hcm.
  unfold deploy in Hd. injection Hd as <- <-. unfold register in Hr. cbn in Hr.
  destruct (Controller.addSet _ _ _) as [c|] eqn:Ea; [|discriminate]. injection Hr as _ <-.
  unfold Controller.addSet, Controller.onlyInitialized, Controller.onlyFactory in Ea.
  result_inv. repeat match goal with
  | H : bool_decide _ = true |- _ => apply bool_decide_eq_true in H
  | H : negb (bool_decide _) = true |- _ => apply negb_true_iff, bool_decide_eq_false in H end.
  eapply hasDuplicate_false in Hdup; [|done].
  destruct (constructed _ _ _ _ _ _ _ Hdup Hs) as (Hl & Hc & Ht & Hp & Hm).
  split; [done|]. split; [done|]. split; [cbn; set_solver|]. cbn.
  eexists. split; [apply lookup_insert_eq|]. split; [by eapply SetToken.constructor_consistent|].
  split; [done|]. split; [done|]. split; [by apply check_components_ok in Hcc as [? _]|].
  split; [done|]. split; [|split; [done|by eapply check_modules_ok]].
  intros c u Hin. split; [|by apply Hp].
  eapply check_components_units; [by apply Nat.eqb_eq|done|done].
Qed.
End SetTokenCreator.

(** ** Concrete instances *)

Definition sample_world : World () :=
  {| controller := Controller.sample_initialized; sets := ∅; registries := ∅;
     block_timestamp := 0; env := () |}.

Definition sample_create : result (Address * World ()) :=
  create (λ _, "set"%string) "f" ["a"; "b"]%string [10 ^ 18; 3] ["m1"%string] "manager" "Set" "SET"
    sample_world.

Definition created (r : result (Address * World ())) : World () :=
  match r with Ok (_, w) => w | Throw _ => sample_world end.

Definition address_of (r : result (Address * World ())) : Address :=
  match r with Ok (a, _) => a | Throw _ => EmptyString end.

Lemma sample_created : sample_create = Ok ("set"%string, created sample_create).
Proof.
  assert (is_ok sample_create = true) as E by (vm_compute; reflexivity).
  assert (address_of sample_create = "set"%string) as Ea by (vm_compute; reflexivity).
  destruct sample_create as [[a w]|]; [|discriminate]. cbn in *. by subst.
Qed.

Lemma create_registers_witness :
  "set"%string ∈ Controller.isSet (controller (created sample_create)) ∧
  thrown (create (λ _, "set"%string) "f" ["a"; "a"]%string [10 ^ 18; 3] ["m1"%string] "manager"
            "Set" "SET" sample_world)
    = Some (Revert "Components must not have a duplicate").
Proof.
  split; [|vm_compute; reflexivity].
  assert (sample_create = Ok ("set"%string, created sample_create)) as E by apply sample_created.
  destruct (create_registers (λ _, "set"%string) "f" ["a"; "b"]%string [10 ^ 18; 3] ["m1"%string]
    "manager" "Set" "SET" sample_world (created sample_create) "set" SetToken.sample_units E) as (_ & _ & H & _).
  exact H.
Defined.
End SetTokenCreator.
