(* ===== verification/Position.v ===== *)
(** * Editing positions

    [contracts/protocol/lib/Position.sol], called by a module on a set. *)
From Stdlib Require Import String.
From S2P Require Import Prelude JsString BigNumber Constants MathUtils SolMath.
From S2P Require Import AddressArrayUtils Script AdapterUtils Controller Erc20 SetToken.
From S2P Require Import IntegrationRegistry World.

Module PositionLib.
Section Position.
Context `{ERC20} `{SignedLib} {E : Type} `{!External E}.
Implicit Types (this _setToken _component _module : Address).

Definition hasDefaultPosition _setToken _component : tx E bool :=
  u ← view_set _setToken (λ s, SetToken.getDefaultPositionRealUnit s _component);
  mret (0 <? u).

Definition hasExternalPosition _setToken _component : tx E bool :=
  l ← read_set _setToken (λ s, SetToken.getExternalPositionModules s _component);
  mret (0 <? length l)%nat.

Definition hasSufficientDefaultUnits _setToken _component (_unit : Z) : tx E bool :=
  u ← view_set _setToken (λ s, SetToken.getDefaultPositionRealUnit s _component);
  i ← lift (toInt256 _unit);
  mret (i <=? u).

Definition hasSufficientExternalUnits _setToken _component _module (_unit : Z) : tx E bool :=
  u ← view_set _setToken (λ s, SetToken.getExternalPositionRealUnit s _component _module);
  i ← lift (toInt256 _unit);
  mret (i <=? u).

Definition addComponent this _setToken _component : tx E () :=
  on_set _setToken (λ ctl, SetToken.execute ctl this (SetToken.AddComponent _component)).
Definition removeComponent this _setToken _component : tx E () :=
  on_set _setToken (λ ctl, SetToken.execute ctl this (SetToken.RemoveComponent _component)).
Definition addExternalPositionModule this _setToken _component _module : tx E () :=
  on_set _setToken
    (λ ctl, SetToken.execute ctl this (SetToken.AddExternalPositionModule _component _module)).

Definition editDefaultPosition this _setToken _component (_newUnit : Z) : tx E () :=
  isPositionFound ← hasDefaultPosition _setToken _component;
  (if negb isPositionFound && (0 <? _newUnit) then
     x ← hasExternalPosition _setToken _component;
     if negb x then addComponent this _setToken _component else mret ()
   else if isPositionFound && (_newUnit =? 0) then
     x ← hasExternalPosition _setToken _component;
     if negb x then removeComponent this _setToken _component else mret ()
   else mret ());;
  u ← lift (toInt256 _newUnit);
  on_set _setToken (λ ctl, SetToken.execute ctl this (SetToken.EditDefaultPositionUnit _component u)).

Definition editExternalPosition this _setToken _component _module (_newUnit : Z) (_data : Bytes)
    : tx E () :=
  if negb (_newUnit =? 0) then
    c ← read_set _setToken (λ s, SetToken.isComponent s _component);
    (if negb c then
       addComponent this _setToken _component;;
       addExternalPositionModule this _setToken _component _module
     else
       m ← read_set _setToken (λ s, SetToken.isExternalPositionModule s _component _module);
       if negb m then addExternalPositionModule this _setToken _component _module else mret ());;
    on_set _setToken (λ ctl, SetToken.execute ctl this
      (SetToken.EditExternalPositionUnit _component _module _newUnit));;
    on_set _setToken (λ ctl, SetToken.execute ctl this
      (SetToken.EditExternalPositionData _component _module _data))
  else
    requires (String.length _data =? 0)%nat "Passed data must be null";;
    u ← view_set _setToken (λ s, SetToken.getExternalPositionRealUnit s _component _module);
    if negb (u =? 0) then
      positionModules ← read_set _setToken (λ s, SetToken.getExternalPositionModules s _component);
      d ← view_set _setToken (λ s, SetToken.getDefaultPositionRealUnit s _component);
      (if (d =? 0) && (length positionModules =? 1)%nat then
         requires (bool_decide (head positionModules = Some _module))
           "External positions must be 0 to remove component";;
         removeComponent this _setToken _component
       else mret ());;
      on_set _setToken (λ ctl, SetToken.execute ctl this
        (SetToken.RemoveExternalPositionModule _component _module))
    else mret ().

Definition getDefaultTotalNotional (_setTokenSupply _positionUnit : Z) : result Z :=
  PreciseUnitMath.preciseMul_u _setTokenSupply _positionUnit.

Definition getDefaultPositionUnit (_setTokenSupply _totalNotional : Z) : result Z :=
  PreciseUnitMath.preciseDiv_u _totalNotional _setTokenSupply.

Definition getDefaultTrackedBalance _setToken _component : tx E Z :=
  positionUnit ← view_set _setToken (λ s, SetToken.getDefaultPositionRealUnit s _component);
  supply ← read_set _setToken (λ s, totalSupply (SetToken.token s));
  u ← lift (toUint256 positionUnit);
  lift (PreciseUnitMath.preciseMul_u supply u).

Definition calculateDefaultEditPositionUnit
    (_setTokenSupply _preTotalNotional _postTotalNotional _prePositionUnit : Z) : result Z :=
  tracked ← PreciseUnitMath.preciseMul_u _prePositionUnit _setTokenSupply;
  airdroppedAmount ← SafeMath.sub _preTotalNotional tracked;
  d ← SafeMath.sub _postTotalNotional airdroppedAmount;
  PreciseUnitMath.preciseDiv_u d _setTokenSupply.

Definition calculateAndEditDefaultPosition this _setToken _component
    (_setTotalSupply _componentPreviousBalance : Z) : tx E (Z * Z * Z) :=
  currentBalance ← balance _component _setToken;
  i ← view_set _setToken (λ s, SetToken.getDefaultPositionRealUnit s _component);
  positionUnit ← lift (toUint256 i);
  newTokenUnit ←
    (if 0 <? currentBalance then
       lift (calculateDefaultEditPositionUnit _setTotalSupply _componentPreviousBalance
               currentBalance positionUnit)
     else mret 0);
  editDefaultPosition this _setToken _component newTokenUnit;;
  mret (currentBalance, positionUnit, newTokenUnit).
End Position.

(** ** Tracked components *)
Section Tracked.
Context `{ERC20} `{SignedLib}.

(** The real unit of a default position, when its product fits the word. *)
Definition real_unit (s : SetToken.State) (c : Address) : Z :=
  SetToken.virtualUnit (SetToken.position s c) * SetToken.positionMultiplier s / 10 ^ 18.

(** The array of components lists exactly those with a position. *)
Definition tracked (s : SetToken.State) : Prop :=
  ∀ c, c ∈ SetToken.getComponents s ↔
    0 < real_unit s c ∨ SetToken.getExternalPositionModules s c ≠ [].

Lemma getDefault_real (s : SetToken.State) (c : Address) (u : Z) :
  SetToken.consistent s → SetToken.getDefaultPositionRealUnit s c = Ok u →
  u = real_unit s c ∧ is_int u.
Proof.
  intros (_ & _ & _ & Hu & Hm & _) E1.
  unfold SetToken.getDefaultPositionRealUnit, SetToken._convertVirtualToRealUnit in E1.
  apply conservativePreciseMul_inv in E1 as (-> & _ & ?); [done|apply Hu|done].
Qed.
(** The first stage of [editDefaultPosition] lists the component, or drops it. *)
Definition relisted (s s1 : SetToken.State) (c : Address) (listed : Prop) : Prop :=
  SetToken.positionMultiplier s1 = SetToken.positionMultiplier s ∧
  SetToken.token s1 = SetToken.token s ∧
  (∀ c', SetToken.position s1 c' = SetToken.position s c') ∧
  ∀ c', c' ∈ SetToken.getComponents s1 ↔
    if decide (c' = c) then listed else c' ∈ SetToken.getComponents s.

Lemma relisted_add (ctl : Controller.State) (this c : Address) (s s1 : SetToken.State) :
  SetToken.execute ctl this (SetToken.AddComponent c) s = Ok s1 → relisted s s1 c True.
Proof.
  cbn. unfold SetToken.addComponent. intros E1. apply result_bind_ok in E1 as (? & _ & E1).
  apply result_bind_ok in E1 as (? & _ & E1). injection E1 as <-.
  split; [done|]. split; [done|]. split; [done|]. intros c'. cbn.
  rewrite elem_of_app, list_elem_of_singleton. destruct (decide _) as [->|]; tauto.
Qed.

Lemma relisted_remove (ctl : Controller.State) (this c : Address) (s s1 : SetToken.State) :
  SetToken.consistent s →
  SetToken.execute ctl this (SetToken.RemoveComponent c) s = Ok s1 → relisted s s1 c False.
Proof.
  intros (_ & _ & [Hnd _] & _). cbn. unfold SetToken.removeComponent. intros E1.
  apply result_bind_ok in E1 as (? & _ & E1). apply result_bind_ok in E1 as (l & El & E1).
  injection E1 as <-. apply removeStorage_nodup in El as (_ & _ & Hx); [|done].
  split; [done|]. split; [done|]. split; [done|]. intros c'. cbn. rewrite Hx.
  destruct (decide _) as [->|]; tauto.
Qed.

Lemma relisted_same (s : SetToken.State) (c : Address) (P : Prop) :
  (c ∈ SetToken.getComponents s ↔ P) → relisted s s c P.
Proof.
  intros HP. split; [done|]. split; [done|]. split; [done|]. intros c'.
  by destruct (decide _) as [->|].
Qed.
End Tracked.

Section EditDefault.
Context `{ERC20} `{SignedLib} {E : Type}.
Implicit Types (this st c : Address) (w : World E) (s : SetToken.State).

Lemma execute_ok (ctl : Controller.State) this (o : SetToken.operation) s s' :
  this ≠ Controller.address0 → SetToken.well_typed o → SetToken.consistent s →
  SetToken.execute ctl this o s = Ok s' → SetToken.consistent s'.
Proof. intros Ht Ho Hs E1. eapply SetToken.step_consistent; [done|by exists ctl, this, o]. Qed.

Lemma hasExternal_ok st c (b : bool) w w' s :
  sets w !! st = Some s → hasExternalPosition st c w = Ok (b, w') →
  w' = w ∧ (b = true ↔ SetToken.getExternalPositionModules s c ≠ []).
Proof.
  intros Es Hb. unfold hasExternalPosition in Hb. tx_inv. rewrite Es in *. simplify_eq.
  split; [done|]. by destruct (SetToken.getExternalPositionModules _ c).
Qed.

Lemma hasDefault_ok st c (b : bool) w w' s :
  sets w !! st = Some s → SetToken.consistent s → hasDefaultPosition st c w = Ok (b, w') →
  w' = w ∧ b = (0 <? real_unit s c).
Proof.
  intros Es Hs Hb. unfold hasDefaultPosition in Hb. tx_inv. rewrite Es in *. simplify_eq.
  split; [done|]. rename select (SetToken.getDefaultPositionRealUnit _ _ = _) into Hu.
  apply getDefault_real in Hu as [-> _]; done.
Qed.

Definition relist this st c (isPositionFound : bool) (_newUnit : Z) : tx E () :=
  if negb isPositionFound && (0 <? _newUnit) then
    x ← hasExternalPosition st c;
    if negb x then addComponent this st c else mret ()
  else if isPositionFound && (_newUnit =? 0) then
    x ← hasExternalPosition st c;
    if negb x then removeComponent this st c else mret ()
  else mret ().

Lemma relist_ok this st c (u : Z) (x : ()) w w' s :
  this ≠ Controller.address0 → sets w !! st = Some s → SetToken.consistent s → tracked s →
  0 ≤ u → relist this st c (0 <? real_unit s c) u w = Ok (x, w') →
  ∃ s', w' = put_set st s' w ∧ SetToken.consistent s' ∧
    relisted s s' c (0 < u ∨ SetToken.getExternalPositionModules s c ≠ []).
Proof.
  intros Ht Es Hs Htr Hu Hw. unfold relist in Hw. specialize (Htr c).
  assert (∀ P : Prop, (c ∈ SetToken.getComponents s ↔ P) →
            ∃ s', w = put_set st s' w ∧ SetToken.consistent s' ∧ relisted s s' c P) as Hsame.
  { intros P HP. exists s. rewrite put_set_id by done. split; [done|]. split; [done|].
    by apply relisted_same. }
  destruct (Z.ltb_spec 0 (real_unit s c)), (Z.ltb_spec 0 u), (Z.eqb_spec u 0); cbn in Hw; try lia;
    tx_inv; try (apply Hsame; rewrite Htr; intuition lia).
  - match goal with H : hasExternalPosition _ _ _ = _ |- _ =>
      apply (hasExternal_ok _ _ _ _ _ s) in H as [-> Hx]; [|done] end.
    destruct x0; cbn in Hw; tx_inv; [apply Hsame; tauto|].
    apply (on_set_at _ _ _ _ _ s) in Hw as (s1 & E1 & ->); [|done]. exists s1. split; [done|].
    split; [by eapply (execute_ok _ this (SetToken.RemoveComponent c))|].
    apply relisted_remove in E1 as (? & ? & ? & Hl); [|done].
    split; [done|]. split; [done|]. split; [done|]. intros c'. rewrite Hl.
    destruct (decide _); [|done]. split; [done|]. intros [?|Hn]; [lia|]. by apply Hx in Hn.
  - match goal with H : hasExternalPosition _ _ _ = _ |- _ =>
      apply (hasExternal_ok _ _ _ _ _ s) in H as [-> Hx]; [|done] end.
    destruct x0; cbn in Hw; tx_inv; [apply Hsame; tauto|].
    apply (on_set_at _ _ _ _ _ s) in Hw as (s1 & E1 & ->); [|done]. exists s1. split; [done|].
    split; [by eapply (execute_ok _ this (SetToken.AddComponent c))|].
    apply relisted_add in E1 as (? & ? & ? & Hl).
    split; [done|]. split; [done|]. split; [done|]. intros c'. rewrite Hl.
    destruct (decide _); [tauto|done].
Qed.

Lemma editDefaultPosition_eq this st c (u : Z) :
  editDefaultPosition (E := E) this st c u =
    (found ← hasDefaultPosition st c; relist this st c found u;;
     i ← lift (toInt256 u);
     on_set st (λ ctl, SetToken.execute ctl this (SetToken.EditDefaultPositionUnit c i))).
Proof. done. Qed.

(** The effect of [editDefaultPosition] on a set whose components are tracked. *)
Lemma editDefaultPosition_ok this st c (u : Z) (x : ()) w w' s :
  this ≠ Controller.address0 → sets w !! st = Some s → SetToken.consistent s → tracked s →
  is_uint u → editDefaultPosition this st c u w = Ok (x, w') →
  ∃ s', w' = put_set st s' w ∧ SetToken.consistent s' ∧ tracked s' ∧
    SetToken.token s' = SetToken.token s ∧
    SetToken.positionMultiplier s' = SetToken.positionMultiplier s ∧
    (∀ c', c' ≠ c → SetToken.position s' c' = SetToken.position s c') ∧
    real_unit s' c ≤ u ∧
    u * 10 ^ 18 < (real_unit s' c + 1) * 10 ^ 18 + SetToken.positionMultiplier s.
Proof.
  intros Ht Es Hs Htr Hu Hw. rewrite editDefaultPosition_eq in Hw.
  apply tx_bind_ok in Hw as (found & w1 & Hf & Hw). apply (hasDefault_ok _ _ _ _ _ s) in Hf as [-> ->];
    [|done..].
  apply tx_bind_ok in Hw as (? & w2 & Hr & Hw).
  apply (relist_ok _ _ _ _ _ _ _ s) in Hr as (s1 & -> & Hs1 & Hm & Htok & Hpos & Hl); [|done..|apply Hu].
  apply tx_bind_ok in Hw as (i & w3 & Hi & Hw). apply lift_ok in Hi as [Hi <-].
  apply toInt256_inv in Hi as (-> & _ & Hi); [|done].
  apply (on_set_at _ _ _ _ _ s1) in Hw as (s2 & E2 & ->); [|apply put_set_at].
  rewrite put_set_twice. exists s2. split; [done|].
  assert (SetToken.consistent s2) as Hs2 by (by eapply (execute_ok _ this (SetToken.EditDefaultPositionUnit c u))).
  split; [done|]. cbn in E2. pose proof (SetToken.edited_frame _ _ _ _ _ _ E2) as (Hc & Hm2 & Ht2 & Hp2 & He2).
  apply SetToken.edited_unit in E2 as (r & Er & Hr1 & Hr2 & Hr3); [|done|done|apply Hu].
  apply getDefault_real in Er as [-> _]; [|done]. rewrite Hm in Hr2.
  split; [|by rewrite Ht2, Htok, Hm2, Hm; (repeat split); [intros; rewrite Hp2, Hpos by done|..]].
  intros c'. rewrite Hc, Hl, He2. unfold SetToken.getExternalPositionModules, real_unit.
  rewrite Hpos. destruct (decide (c' = c)) as [->|Hne].
  - fold (real_unit s2 c). assert (0 < u ↔ 0 < real_unit s2 c) as <-; [|done].
    split; [done|]. lia.
  - rewrite Hp2, Hpos, Hm2, Hm by done. apply Htr.
Qed.
(** What it stores: the virtual unit, and the external positions as they were. *)
Lemma editDefaultPosition_stores this st c (u : Z) (x : ()) w w' s :
  this ≠ Controller.address0 → sets w !! st = Some s → SetToken.consistent s → tracked s →
  is_uint u → editDefaultPosition this st c u w = Ok (x, w') →
  ∃ s', w' = put_set st s' w ∧ (0 < u → 0 < real_unit s' c) ∧
    SetToken.virtualUnit (SetToken.position s' c) = u * 10 ^ 18 / SetToken.positionMultiplier s ∧
    ∀ c', SetToken.getExternalPositionModules s' c' = SetToken.getExternalPositionModules s c'.
Proof.
  intros Ht Es Hs Htr Hu Hw. rewrite editDefaultPosition_eq in Hw.
  apply tx_bind_ok in Hw as (found & w1 & Hf & Hw). apply (hasDefault_ok _ _ _ _ _ s) in Hf as [-> ->];
    [|done..].
  apply tx_bind_ok in Hw as (? & w2 & Hr & Hw).
  apply (relist_ok _ _ _ _ _ _ _ s) in Hr as (s1 & -> & Hs1 & Hm & Htok & Hpos & Hl); [|done..|apply Hu].
  apply tx_bind_ok in Hw as (i & w3 & Hi & Hw). apply lift_ok in Hi as [Hi <-].
  apply toInt256_inv in Hi as (-> & _ & Hi); [|done].
  apply (on_set_at _ _ _ _ _ s1) in Hw as (s2 & E2 & ->); [|apply put_set_at].
  rewrite put_set_twice. exists s2. split; [done|].
  assert (SetToken.consistent s2) as Hs2 by (by eapply (execute_ok _ this (SetToken.EditDefaultPositionUnit c u))).
  cbn in E2. pose proof (SetToken.edited_frame _ _ _ _ _ _ E2) as (_ & _ & _ & _ & He2).
  pose proof (SetToken.edited_unit _ _ _ _ _ _ Hs1 Hi (proj1 Hu) E2) as (r & Er & _ & _ & Hr3).
  apply getDefault_real in Er as [-> _]; [|done]. split; [done|]. split.
  - unfold SetToken.editDefaultPositionUnit in E2. apply result_bind_ok in E2 as (? & _ & E2).
    apply result_bind_ok in E2 as (v & Ev & E2). injection E2 as <-.
    apply SetToken.convertReal_int in Ev as (-> & _); [|done|apply Hs1]. rewrite Hm.
    change (SetToken.position (SetToken.emit ?e ?y) c) with (SetToken.position y c).
    rewrite SetToken.position_set_position. by rewrite decide_True.
  - intros c'. rewrite He2. unfold SetToken.getExternalPositionModules. by rewrite Hpos.
Qed.

(** On a consistent set whose array of components lists exactly those with a
    position, [editDefaultPosition] keeps the array that way, stores a unit that
    reads back rounded down and touches no other position, the supply, the
    multiplier or any other contract. *)
Theorem editDefaultPosition_tracks this st c (u : Z) (x : ()) w w' s
    (Ht : this ≠ Controller.address0) (Es : sets w !! st = Some s)
    (Hs : SetToken.consistent s) (Htr : tracked s) (Hu : is_uint u)
    (Hw : editDefaultPosition this st c u w = Ok (x, w')) :
  ∃ s', w' = put_set st s' w ∧ SetToken.consistent s' ∧ tracked s' ∧
    SetToken.token s' = SetToken.token s ∧
    SetToken.positionMultiplier s' = SetToken.positionMultiplier s ∧
    (∀ c', c' ≠ c → SetToken.position s' c' = SetToken.position s c') ∧
    real_unit s' c ≤ u ∧
    u * 10 ^ 18 < (real_unit s' c + 1) * 10 ^ 18 + SetToken.positionMultiplier s.
Proof. by eapply editDefaultPosition_ok. Qed.

(** ** Collateral *)

(** The unit an action leaves behind claims no more than what the set holds
    beyond what it held untracked before. *)
Lemma calculate_unit (supply prev cur old new : Z) :
  is_uint supply → is_uint prev → is_uint cur → is_uint old →
  calculateDefaultEditPositionUnit supply prev cur old = Ok new →
  is_uint new ∧ 0 ≤ prev - Z.quot (old * supply) (10 ^ 18) ∧
  new * supply + (prev - Z.quot (old * supply) (10 ^ 18)) * 10 ^ 18 ≤ cur * 10 ^ 18.
Proof.
  intros Hs Hp Hc Ho E1. unfold calculateDefaultEditPositionUnit in E1.
  apply result_bind_ok in E1 as (t & Et & E1). apply preciseMul_u_inv in Et as [-> Ht]; [|done..].
  apply result_bind_ok in E1 as (a & Ea & E1). apply safe_sub_inv in Ea as (-> & Ha & Ha'); [|done..].
  apply result_bind_ok in E1 as (d & Ed & E1). apply safe_sub_inv in Ed as (-> & Hd & Hd'); [|done..].
  apply preciseDiv_u_inv in E1 as (-> & Hs0 & Hn); [|done..].
  split; [done|]. split; [lia|].
  set (k := Z.quot (old * supply) (10 ^ 18)) in *. unfold is_uint in *.
  pose proof (quot_bounds ((cur - (prev - k)) * 10 ^ 18) supply). lia.
Qed.

Context `{!External E}.

Lemma balance_ok (token owner : Address) (z : Z) w w' :
  balance token owner w = Ok (z, w') → w' = w ∧ IERC20_balanceOf token owner w = Ok z ∧ is_uint z.
Proof.
  unfold balance. destruct (IERC20_balanceOf token owner w) eqn:Eb; [|done]. intros [= <- <-].
  split; [done|]. split; [done|]. by eapply balance_word.
Qed.

Lemma calculateAndEdit_ok this st c (supply prev cur old new : Z) w w' s :
  this ≠ Controller.address0 → sets w !! st = Some s → SetToken.consistent s → tracked s →
  is_uint supply → is_uint prev →
  calculateAndEditDefaultPosition this st c supply prev w = Ok ((cur, old, new), w') →
  ∃ s', w' = put_set st s' w ∧ SetToken.consistent s' ∧ tracked s' ∧
    SetToken.token s' = SetToken.token s ∧
    SetToken.positionMultiplier s' = SetToken.positionMultiplier s ∧
    (∀ c', c' ≠ c → SetToken.position s' c' = SetToken.position s c') ∧
    IERC20_balanceOf c st w = Ok cur ∧ is_uint cur ∧ old = real_unit s c ∧ is_uint old ∧
    real_unit s' c ≤ new ∧
    new * 10 ^ 18 < (real_unit s' c + 1) * 10 ^ 18 + SetToken.positionMultiplier s ∧
    (if 0 <? cur then calculateDefaultEditPositionUnit supply prev cur old = Ok new else new = 0).
Proof.
  intros Ht Es Hs Htr Hsu Hp Hw. unfold calculateAndEditDefaultPosition in Hw.
  apply tx_bind_ok in Hw as (z & w1 & Hb & Hw). apply balance_ok in Hb as (-> & Hb & Hz).
  apply tx_bind_ok in Hw as (i & w1 & Hi & Hw). apply view_set_ok in Hi as (s0 & E0 & Hi & <-).
  rewrite Es in E0. injection E0 as <-. apply getDefault_real in Hi as [-> Hi]; [|done].
  apply tx_bind_ok in Hw as (o & w1 & Ho & Hw). apply lift_ok in Ho as [Ho <-].
  apply toUint256_inv in Ho as (-> & _ & Ho); [|done].
  apply tx_bind_ok in Hw as (n & w1 & Hn & Hw).
  assert (w1 = w ∧ is_uint n ∧ if 0 <? z then
    calculateDefaultEditPositionUnit supply prev z (real_unit s c) = Ok n else n = 0) as (-> & Hnu & Hn').
  { clear Hw. destruct (0 <? z).
    - apply lift_ok in Hn as [Hn <-]. split; [done|]. split; [|done].
      by apply calculate_unit in Hn as [? _].
    - apply tx_ret_ok in Hn as [<- <-]. split; [done|]. split; [apply uint_0|done]. }
  apply tx_bind_ok in Hw as (x & w2 & He & Hw).
  eapply (editDefaultPosition_ok _ _ _ _ _ _ _ s) in He as (s' & -> & ? & ? & ? & ? & ? & ? & ?); [|done..].
  apply tx_ret_ok in Hw as [Hw <-]. injection Hw as <- <- <-.
  exists s'. by repeat (split; [done|]).
Qed.

(** After [calculateAndEditDefaultPosition] the unit of the component claims
    no more than the set's balance, whatever the token did before; what the set
    held untracked before the action stays untracked. *)
Theorem edited_position_collateralized this st c (supply prev cur old new : Z) w w' s
    (Ht : this ≠ Controller.address0) (Es : sets w !! st = Some s)
    (Hs : SetToken.consistent s) (Htr : tracked s) (Hsu : is_uint supply) (Hp : is_uint prev)
    (Hw : calculateAndEditDefaultPosition this st c supply prev w = Ok ((cur, old, new), w')) :
  ∃ s', sets w' !! st = Some s' ∧ SetToken.consistent s' ∧ tracked s' ∧
    IERC20_balanceOf c st w = Ok cur ∧
    real_unit s' c * supply ≤ cur * 10 ^ 18 ∧
    (0 < cur → real_unit s' c * supply + (prev - real_unit s c * supply / 10 ^ 18) * 10 ^ 18
                 ≤ cur * 10 ^ 18).
Proof.
  eapply calculateAndEdit_ok in Hw as (s' & -> & Hs' & Htr' & _ & _ & _ & Hb & Hc & -> & Ho & Hr & _ & Hn);
    [|done..].
  exists s'. split; [apply put_set_at|]. split; [done|]. split; [done|]. split; [done|].
  pose proof Ho as [Ho0 _]. pose proof Hsu as [Hs0 _]. pose proof Hc as [Hc0 _].
  rewrite <- quot_floor by nia.
  destruct (Z.ltb_spec 0 cur).
  - apply calculate_unit in Hn as (Hnu & Ha & Hn); [|done..]. split; [nia|]. intros _. nia.
  - subst new. split; [nia|lia].
Qed.
End EditDefault.

(** ** Deciding whether components are tracked *)
Section Decide.
Context `{ERC20} `{SignedLib}.

Definition tracked_check (s : SetToken.State) : bool :=
  forallb (λ c, Bool.eqb (contains (SetToken.getComponents s) c)
                  ((0 <? real_unit s c) || (0 <? length (SetToken.getExternalPositionModules s c))%nat))
    (SetToken.getComponents s ++ (map_to_list (SetToken.componentPositions s)).*1).

Lemma tracked_check_ok (s : SetToken.State) : tracked_check s = true → tracked s.
Proof.
  intros Hc c. unfold tracked_check in Hc. rewrite forallb_forall in Hc.
  set (l := SetToken.getComponents s ++ (map_to_list (SetToken.componentPositions s)).*1) in *.
  destruct (decide (c ∈ l)) as [Hin|Hout].
  - specialize (Hc c (proj1 (list_elem_of_In _ _) Hin)). apply Bool.eqb_prop in Hc.
    rewrite <- contains_true, Hc, orb_true_iff, Z.ltb_lt.
    by destruct (SetToken.getExternalPositionModules s c); split; intros [?|?]; auto.
  - unfold l in Hout. rewrite elem_of_app in Hout.
    assert (SetToken.position s c = SetToken.no_position) as Hp.
    { unfold SetToken.position. destruct (SetToken.componentPositions s !! c) as [p|] eqn:Ep; [|done].
      destruct Hout. right. apply list_elem_of_fmap. exists (c, p). split; [done|].
      by apply elem_of_map_to_list. }
    unfold real_unit, SetToken.getExternalPositionModules. rewrite Hp.
    cbn [SetToken.no_position SetToken.virtualUnit SetToken.externalPositionModules].
    rewrite Z.mul_0_l, Z.div_0_l by done. split; [tauto|]. by intros [?|?].
Qed.
End Decide.

(** ** Concrete instances *)

Definition sample_controller : Controller.State :=
  Controller.state_of (Controller.execute Controller.owner_only "f" (Controller.AddSet "set")
                         Controller.sample_initialized)%string.

(** A set with two components, the first of them also held untracked, and a
    third component that was just bought. *)
Definition sample_world : World (() * bank) :=
  {| controller := sample_controller; sets := {[ "set"%string := SetToken.sample_fee ]};
     registries := ∅; block_timestamp := 0;
     env := ((), {[ ("a", "set")%string := 10 ^ 18; ("b", "set")%string := 3;
                    ("c", "set")%string := 500 ]}) |}.

Definition after {A E} (w : World E) (r : result (A * World E)) : World E :=
  match r with Ok (_, w') => w' | Throw _ => w end.
Definition returned {A E} (a : A) (r : result (A * World E)) : A :=
  match r with Ok (x, _) => x | Throw _ => a end.

Lemma ran {A E} (a : A) (w : World E) (r : result (A * World E)) :
  is_ok r = true → r = Ok (returned a r, after w r).
Proof. by destruct r as [[??]|]. Qed.

Lemma ran_unit {E} (w : World E) (r : result (() * World E)) :
  is_ok r = true → r = Ok ((), after w r).
Proof. by destruct r as [[[] ?]|]. Qed.

Lemma sample_fee_tracked : tracked SetToken.sample_fee.
Proof. apply tracked_check_ok. vm_compute. reflexivity. Qed.

Definition set_after (w : World (() * bank)) : option SetToken.State := sets w !! "set"%string.

Definition sample_dropped : World (() * bank) :=
  after sample_world (editDefaultPosition "m1" "set" "b" 0 sample_world).

Lemma editDefaultPosition_tracks_witness :
  (∃ s', set_after sample_dropped = Some s' ∧ tracked s') ∧
  SetToken.getComponents <$> set_after sample_dropped = Some ["a"%string].
Proof.
  split; [|vm_compute; reflexivity].
  destruct (editDefaultPosition_tracks "m1" "set" "b" 0 () sample_world sample_dropped
    SetToken.sample_fee) as (s' & E1 & _ & Htr & _);
    [discriminate|reflexivity|apply SetToken.sample_fee_consistent|
      apply sample_fee_tracked|apply uint_0|apply (ran_unit _ _); vm_compute; reflexivity|].
  exists s'. split; [rewrite E1; apply put_set_at|exact Htr].
Defined.

(** The set holds 500 of a component it did not have; the supply is one set. *)
Definition sample_edit : result (Z * Z * Z * World (() * bank)) :=
  calculateAndEditDefaultPosition "m1" "set" "c" (10 ^ 18) 0 sample_world.

Lemma edited_position_collateralized_witness :
  returned (0, 0, 0) sample_edit = (500, 0, 500) ∧
  ∃ s', set_after (after sample_world sample_edit) = Some s' ∧ tracked s' ∧
    real_unit s' "c" * 10 ^ 18 ≤ 500 * 10 ^ 18.
Proof.
  split; [vm_compute; reflexivity|].
  assert (sample_edit = Ok ((500, 0, 500), after sample_world sample_edit)) as E1.
  { apply (ran (0, 0, 0)). vm_compute. reflexivity. }
  destruct (edited_position_collateralized "m1" "set" "c" (10 ^ 18) 0 500 0 500 sample_world
    (after sample_world sample_edit) SetToken.sample_fee) as (s' & Es & _ & Htr & _ & Hc & _);
    [discriminate|reflexivity|apply SetToken.sample_fee_consistent|apply sample_fee_tracked|word|
     apply uint_0|exact E1|].
  exists s'. split; [exact Es|]. split; [exact Htr|exact Hc].
Defined.
End PositionLib.
