(* ===== verification/Tokens.v ===== *)
(** * Tokens that mind their own business

    What a module may rely on when it moves tokens in and out of a set: calls that
    leave a set alone but for its log ([quiet]), tokens whose transfers touch no
    other balance of the set ([Isolated]), and what transfers then do to the
    balances of the set ([shifted]).  With it the claim of the holders:
    [collateralized]. *)
From Stdlib Require Import String.
From S2P Require Import Prelude JsString BigNumber Constants MathUtils SolMath.
From S2P Require Import AddressArrayUtils Script AdapterUtils Controller Erc20 SetToken.
From S2P Require Import IntegrationRegistry World Position.

(** ** Calls that leave a set alone but for its log *)

Definition with_logs `{ERC20} (l : list SetToken.log_entry) (s : SetToken.State) : SetToken.State :=
  {| SetToken.manager := SetToken.manager s; SetToken.locker := SetToken.locker s;
     SetToken.modules := SetToken.modules s; SetToken.moduleStates := SetToken.moduleStates s;
     SetToken.isLocked := SetToken.isLocked s; SetToken.components := SetToken.components s;
     SetToken.componentPositions := SetToken.componentPositions s;
     SetToken.positionMultiplier := SetToken.positionMultiplier s;
     SetToken.token := SetToken.token s; SetToken.logs := l |}.

Definition quiet `{ERC20} {E A} (_setToken : Address) (t : tx E A) : Prop :=
  ∀ w a w' s, sets w !! _setToken = Some s → t w = Ok (a, w') →
    ∃ l, sets w' !! _setToken = Some (with_logs l s).

(** What a set calls on a token it sends. *)
Definition transfer_data (to : Address) (q : Z) : SetToken.call_data :=
  SetToken.encodeWithSignature "transfer(address,uint256)" [VAddr to; VNum q].

Section Quiet.
Context `{ERC20} `{SignedLib} {E : Type} `{!External E}.
Implicit Types (this _setToken : Address) (w : World E) (s : SetToken.State).

Lemma with_logs_id s : with_logs (SetToken.logs s) s = s.
Proof. by destruct s. Qed.

Lemma consistent_logs (l : list SetToken.log_entry) s :
  SetToken.consistent s → SetToken.consistent (with_logs l s).
Proof. done. Qed.

Lemma tracked_logs (l : list SetToken.log_entry) s :
  PositionLib.tracked s → PositionLib.tracked (with_logs l s).
Proof. done. Qed.

Lemma quiet_bind {A B} _setToken (t : tx E A) (f : A → tx E B) :
  quiet _setToken t → (∀ a, quiet _setToken (f a)) → quiet _setToken (t ≫= f).
Proof.
  intros Ht Hf w b w' s Es Hw. apply tx_bind_ok in Hw as (a & w1 & H1 & H2).
  destruct (Ht _ _ _ _ Es H1) as (l & E1). by apply (Hf a _ _ _ _ E1) in H2.
Qed.

Lemma quiet_reading {A} _setToken (t : tx E A) : reading t → quiet _setToken t.
Proof.
  intros Ht w a w' s Es Hw. rewrite (Ht _ _ _ Hw). exists (SetToken.logs s). by rewrite with_logs_id.
Qed.

Lemma quiet_if {A} _setToken (b : bool) (t u : tx E A) :
  quiet _setToken t → quiet _setToken u → quiet _setToken (if b then t else u).
Proof. by destruct b. Qed.

Lemma quiet_log _setToken (target : Address) (v : Z) (d : SetToken.call_data) (r : value) :
  quiet _setToken (on_set _setToken (λ _, SetToken.invoke_effects target v d r) : tx E ()).
Proof.
  intros w u w' s Es Hw. apply (on_set_at _ _ _ _ _ s) in Hw as (s' & E1 & ->); [|done].
  injection E1 as <-. eexists. apply put_set_at.
Qed.
End Quiet.

Ltac quiet :=
  repeat match goal with
  | |- quiet _ (mbind _ _) => apply quiet_bind; [|intros ?]
  | |- quiet _ (if _ then _ else _) => apply quiet_if
  | |- quiet _ _ => solve [eauto using quiet_log | apply quiet_reading; reading]
  end.

Section QuietTransfers.
Context `{ERC20} `{SignedLib} {E : Type} `{!External E}.
Context (_setToken : Address).
(** Tokens that do not call back into the set. *)
Context (Hcall : ∀ token to q,
  quiet _setToken (functionCallWithValue (E := E) _setToken token 0 (transfer_data to q))).
Context (Htransfer : ∀ this token from to q,
  quiet _setToken (safeTransferFrom (E := E) this token from to q)).

Lemma quiet_strictInvokeTransfer this (token to : Address) (q : Z) :
  quiet _setToken (strictInvokeTransfer this _setToken token to q).
Proof. unfold strictInvokeTransfer, invokeTransfer, SetToken_invoke. quiet. Qed.

Lemma quiet_invokeTransfer this (token to : Address) (q : Z) :
  quiet _setToken (invokeTransfer this _setToken token to q).
Proof. unfold invokeTransfer, SetToken_invoke. quiet. Qed.

Lemma quiet_transferFrom this (token from to : Address) (q : Z) :
  quiet _setToken (transferFrom this token from to q).
Proof. unfold transferFrom. quiet. Qed.

End QuietTransfers.

Lemma reading_hasExternal `{ERC20} {E} (_setToken _component : Address) :
  reading (PositionLib.hasExternalPosition (E := E) _setToken _component).
Proof. unfold PositionLib.hasExternalPosition. reading. Qed.

(** ** The guards of the modules only read *)
Section Guards.
Context `{ERC20} {E : Type}.
Implicit Types (this msg_sender _setToken : Address).

Lemma reading_setManager _setToken (a : Address) :
  reading (_validateOnlySetManager (E := E) _setToken a).
Proof. unfold _validateOnlySetManager, isSetManager. reading. Qed.

Lemma reading_valid this _setToken :
  reading (_validateOnlyValidAndInitializedSet (E := E) this _setToken).
Proof. unfold _validateOnlyValidAndInitializedSet, isSetValidAndInitialized. reading. Qed.

Lemma reading_pending this _setToken :
  reading (_validateOnlyValidAndPendingSet (E := E) this _setToken).
Proof. unfold _validateOnlyValidAndPendingSet, isSetPendingInitialization. reading. Qed.

Lemma reading_manager this msg_sender _setToken :
  reading (_validateOnlyManagerAndValidSet (E := E) this msg_sender _setToken).
Proof. unfold _validateOnlyManagerAndValidSet, isSetManager, isSetValidAndInitialized. reading. Qed.

Lemma reading_module msg_sender _setToken : reading (_validateOnlyModule (E := E) msg_sender _setToken).
Proof. unfold _validateOnlyModule. reading. Qed.
(** Only the manager of a set passes. *)
Lemma managed_by this msg_sender _setToken (u : ()) (w w' : World E) s :
  sets w !! _setToken = Some s →
  _validateOnlyManagerAndValidSet this msg_sender _setToken w = Ok (u, w') →
  SetToken.manager s = msg_sender.
Proof.
  intros Es Hw. unfold _validateOnlyManagerAndValidSet, isSetManager in Hw.
  read_step Hw as m Hm. apply read_set_ok in Hm as (s0 & E0 & -> & _). rewrite Es in E0. injection E0 as <-.
  read_step Hw as u1 Hu. apply requires_ok in Hu as [Hu _]. by apply bool_decide_eq_true in Hu.
Qed.
End Guards.

#[export] Hint Resolve reading_hasExternal reading_setManager reading_valid reading_pending
  reading_manager reading_module : reading.

(** ** Minting and burning *)
Section Supply.
Context `{ERC20} `{SignedLib} {E : Type}.
Implicit Types (this _setToken a b : Address) (w : World E) (s : SetToken.State).

Lemma set_mint_ok this _setToken a (q : Z) (u : ()) w w' s :
  sets w !! _setToken = Some s → is_uint q → is_uint (totalSupply (SetToken.token s)) →
  on_set _setToken (λ ctl, SetToken.execute ctl this (SetToken.Mint a q)) w = Ok (u, w') →
  ∃ t, w' = put_set _setToken (SetToken.set_token t s) w ∧
    totalSupply t = totalSupply (SetToken.token s) + q ∧ is_uint (totalSupply t) ∧
    ∀ b, balanceOf t b = balanceOf (SetToken.token s) b + if decide (b = a) then q else 0.
Proof.
  intros Es Hq Hs Hw. apply (on_set_at _ _ _ _ _ s) in Hw as (s' & E1 & ->); [|done].
  cbn in E1. unfold SetToken.mint in E1. apply result_bind_ok in E1 as (? & _ & E1).
  apply result_bind_ok in E1 as (t & Et & E1). injection E1 as <-.
  apply mint_effect in Et as (Ht & Hm & Hb); [|done..]. exists t. split; [done|]. split; [done|].
  split; [unfold is_uint in *; lia|done].
Qed.

Lemma set_burn_ok this _setToken a (q : Z) (u : ()) w w' s :
  sets w !! _setToken = Some s → is_uint q → is_uint (totalSupply (SetToken.token s)) →
  on_set _setToken (λ ctl, SetToken.execute ctl this (SetToken.Burn a q)) w = Ok (u, w') →
  ∃ t, w' = put_set _setToken (SetToken.set_token t s) w ∧
    totalSupply t = totalSupply (SetToken.token s) - q ∧ is_uint (totalSupply t) ∧
    q ≤ balanceOf (SetToken.token s) a ∧
    ∀ b, balanceOf t b = balanceOf (SetToken.token s) b - if decide (b = a) then q else 0.
Proof.
  intros Es Hq Hs Hw. apply (on_set_at _ _ _ _ _ s) in Hw as (s' & E1 & ->); [|done].
  cbn in E1. unfold SetToken.burn in E1. apply result_bind_ok in E1 as (? & _ & E1).
  apply result_bind_ok in E1 as (t & Et & E1). injection E1 as <-.
  apply burn_effect in Et as (Ha & Hle & Ht & Hb); [|done..]. exists t. split; [done|]. split; [done|].
  split; [unfold is_uint in *; lia|done].
Qed.

(** Neither changes a position. *)
Lemma set_token_consistent' (t : ledger) s :
  SetToken.consistent s → is_uint (totalSupply t) → SetToken.consistent (SetToken.set_token t s).
Proof. intros (? & ? & ? & ? & ? & ? & _) Ht. by repeat (split; [done|]). Qed.
End Supply.

(** ** Tokens whose transfers touch one balance of the set *)

(** What the modules that issue and redeem rely on: a transfer of a token, by a
    module or by the set, leaves the set alone but for its log, and its balances of
    other tokens; balances depend neither on the guard of a module nor on the state
    of a set that is not the token itself. *)
Class Isolated `{ERC20} `{SignedLib} (E : Type) `{!External E} `{!ReentrancyGuard E}
    (_setToken : Address) := {
  call_quiet token to q :
    quiet _setToken (functionCallWithValue (E := E) _setToken token 0 (transfer_data to q));
  call_frame token to q c w r w' :
    functionCallWithValue _setToken token 0 (transfer_data to q) w = Ok (r, w') → c ≠ token →
    c ≠ _setToken → IERC20_balanceOf c _setToken w' = IERC20_balanceOf c _setToken w;
  transfer_quiet this token from to q :
    quiet _setToken (safeTransferFrom (E := E) this token from to q);
  transfer_frame this token from to q c w u w' :
    safeTransferFrom this token from to q w = Ok (u, w') → c ≠ token → c ≠ _setToken →
    IERC20_balanceOf c _setToken w' = IERC20_balanceOf c _setToken w;
  balance_put c s w : c ≠ _setToken →
    IERC20_balanceOf c _setToken (put_set _setToken s w) = IERC20_balanceOf c _setToken w;
  balance_enter c w e : guard_enter (env w) = Ok e →
    IERC20_balanceOf c _setToken (set_env e w) = IERC20_balanceOf c _setToken w;
  balance_leave c w :
    IERC20_balanceOf c _setToken (set_env (guard_leave (env w)) w) = IERC20_balanceOf c _setToken w;
}.

Section Shifted.
Context `{ERC20} `{SignedLib} {E : Type} `{!External E}.
Implicit Types (this _setToken c token : Address) (w : World E) (s : SetToken.State).

(** The set is the same up to its log, and its balance of every other token has
    moved by [f]. *)
Definition shifted _setToken (f : Address → Z) w w' : Prop :=
  (∀ s, sets w !! _setToken = Some s → ∃ l, sets w' !! _setToken = Some (with_logs l s)) ∧
  ∀ c z, c ≠ _setToken → IERC20_balanceOf c _setToken w = Ok z →
    IERC20_balanceOf c _setToken w' = Ok (z + f c).

(** A shift of one token. *)
Definition only token (q : Z) c : Z := if decide (c = token) then q else 0.

Lemma shifted_refl _setToken (f : Address → Z) w :
  (∀ c, c ≠ _setToken → f c = 0) → shifted _setToken f w w.
Proof.
  intros Hf. split.
  - intros s Es. exists (SetToken.logs s). by rewrite with_logs_id.
  - intros c z Hc Ez. by rewrite Hf, Z.add_0_r.
Qed.

Lemma shifted_trans _setToken (f g h : Address → Z) w1 w2 w3 :
  shifted _setToken f w1 w2 → shifted _setToken g w2 w3 →
  (∀ c, c ≠ _setToken → h c = f c + g c) → shifted _setToken h w1 w3.
Proof.
  intros [Hs1 Hb1] [Hs2 Hb2] Hh. split.
  - intros s Es. destruct (Hs1 s Es) as (l & E1). by apply Hs2 in E1.
  - intros c z Hc Ez. rewrite Hh, Z.add_assoc by done. by apply Hb2, Hb1.
Qed.

Lemma shifted_quiet {A} _setToken (t : tx E A) (f : Address → Z) (a : A) w w' :
  quiet _setToken t → t w = Ok (a, w') →
  (∀ c z, c ≠ _setToken → IERC20_balanceOf c _setToken w = Ok z →
    IERC20_balanceOf c _setToken w' = Ok (z + f c)) → shifted _setToken f w w'.
Proof. intros Ht Hw Hf. split; [|done]. intros s Es. by eapply Ht. Qed.

Context `{!ReentrancyGuard E}.

(** A token that arrives. *)
Lemma transferFrom_shifts _setToken `{!Isolated E _setToken} this token from (q : Z) (u : ()) w w' :
  is_uint q → transferFrom this token from _setToken q w = Ok (u, w') →
  shifted _setToken (only token q) w w'.
Proof.
  intros Hq Hw. eapply shifted_quiet; [|exact Hw|].
  { apply quiet_transferFrom. intros. apply transfer_quiet. }
  unfold transferFrom in Hw. intros c z Hc Ez. unfold only. destruct (Z.ltb_spec 0 q).
  - apply tx_bind_ok in Hw as (b & w1 & Hb & Hw). apply PositionLib.balance_ok in Hb as (-> & Hb & Hbu).
    apply tx_bind_ok in Hw as ([] & w1 & Ht & Hw).
    apply tx_bind_ok in Hw as (n & w2 & Hn & Hw). apply PositionLib.balance_ok in Hn as (-> & Hn & _).
    apply tx_bind_ok in Hw as (d & w2 & Hd & Hw). apply lift_ok in Hd as [Hd <-].
    apply safe_add_inv in Hd as [-> _]; [|done..]. apply requires_ok in Hw as [Hz <-].
    apply Z.eqb_eq in Hz as ->. destruct (decide (c = token)) as [->|Hne].
    + rewrite Ez in Hb. by injection Hb as ->.
    + by rewrite (transfer_frame _ _ _ _ _ _ _ _ _ Ht Hne Hc), Z.add_0_r.
  - apply tx_ret_ok in Hw as [_ <-]. unfold is_uint in Hq.
    replace (if decide _ then q else 0) with 0 by (destruct (decide _); lia). by rewrite Z.add_0_r.
Qed.

Lemma log_balance _setToken `{!Isolated E _setToken} c (target : Address) (v : Z)
    (d : SetToken.call_data) (r : value) (u : ()) w w' :
  on_set _setToken (λ _, SetToken.invoke_effects target v d r) w = Ok (u, w') → c ≠ _setToken →
  IERC20_balanceOf c _setToken w' = IERC20_balanceOf c _setToken w.
Proof.
  intros Hw Hc. apply on_set_ok in Hw as (s & s' & Es & E1 & ->). by apply balance_put.
Qed.

(** The call by which a set sends a token. *)
Lemma invokeTransfer_frame _setToken `{!Isolated E _setToken} this token to (q : Z) c (u : ()) w w' :
  invokeTransfer this _setToken token to q w = Ok (u, w') → c ≠ token → c ≠ _setToken →
  IERC20_balanceOf c _setToken w' = IERC20_balanceOf c _setToken w.
Proof.
  intros Hw Hne Hc. unfold invokeTransfer in Hw. destruct (0 <? q); [|by tx_inv].
  apply tx_bind_ok in Hw as (r & w1 & Hi & Hw). apply tx_ret_ok in Hw as [_ <-].
  unfold SetToken_invoke in Hi. do 2 (read_step Hi as ? Hr; clear Hr).
  apply tx_bind_ok in Hi as (r' & w2 & Hcall & Hi). apply tx_bind_ok in Hi as (? & w3 & Hlog & Hi).
  apply tx_ret_ok in Hi as [_ <-]. rewrite (log_balance _ _ _ _ _ _ _ _ _ Hlog Hc).
  eapply call_frame; [exact Hcall|done|done].
Qed.

(** A token that leaves. *)
Lemma send_shifts _setToken `{!Isolated E _setToken} this token to (q : Z) (u : ()) w w' :
  0 ≤ q → strictInvokeTransfer this _setToken token to q w = Ok (u, w') →
  shifted _setToken (only token (- q)) w w'.
Proof.
  intros Hq Hw. eapply shifted_quiet; [|exact Hw|].
  { apply quiet_strictInvokeTransfer. intros. apply call_quiet. }
  unfold strictInvokeTransfer in Hw. intros c z Hc Ez. unfold only. destruct (Z.ltb_spec 0 q).
  - apply tx_bind_ok in Hw as (b & w1 & Hb & Hw). apply PositionLib.balance_ok in Hb as (-> & Hb & Hbu).
    apply tx_bind_ok in Hw as ([] & w1 & Ht & Hw).
    apply tx_bind_ok in Hw as (n & w2 & Hn & Hw). apply PositionLib.balance_ok in Hn as (-> & Hn & _).
    apply tx_bind_ok in Hw as (d & w2 & Hd & Hw). apply lift_ok in Hd as [Hd <-].
    assert (q ≤ b) as Hle by (apply result_bind_ok in Hd as (? & Hd & _); apply require_ok in Hd; lia).
    apply safe_sub_inv in Hd as (-> & _); [|done|unfold is_uint in *; lia].
    apply requires_ok in Hw as [Hz <-].
    apply Z.eqb_eq in Hz as ->. destruct (decide (c = token)) as [->|Hne].
    + rewrite Ez in Hb. by injection Hb as ->.
    + by rewrite (invokeTransfer_frame _ _ _ _ _ _ _ _ _ Ht Hne Hc), Z.add_0_r.
  - apply tx_ret_ok in Hw as [_ <-].
    replace (if decide _ then - q else 0) with 0 by (destruct (decide _); lia). by rewrite Z.add_0_r.
Qed.

Lemma strictInvokeTransfer_shifts _setToken `{!Isolated E _setToken} this token to (q : Z) (u : ()) w w' :
  is_uint q → strictInvokeTransfer this _setToken token to q w = Ok (u, w') →
  shifted _setToken (only token (- q)) w w'.
Proof. intros [Hq _]. by apply send_shifts. Qed.
End Shifted.

(** ** Collateral *)
Section Collateral.
Context `{ERC20} `{SignedLib} {E : Type} `{!External E}.
Implicit Types (this _setToken c token : Address) (w : World E) (s : SetToken.State).

(** The balances of the set cover what [supply] tokens claim of each component. *)
Definition backed _setToken w s (supply : Z) : Prop :=
  ∀ c, c ∈ SetToken.getComponents s → ∃ z, IERC20_balanceOf c _setToken w = Ok z ∧
    PositionLib.real_unit s c * supply ≤ z * 10 ^ 18.

(** A consistent set that is not a component of itself and holds, of every
    component, what its holders can claim. *)
Definition collateralized _setToken w : Prop :=
  ∃ s, sets w !! _setToken = Some s ∧ SetToken.consistent s ∧
    (_setToken ∉ SetToken.getComponents s) ∧
    backed _setToken w s (totalSupply (SetToken.token s)).

(** The claim of a component after an edit, by the balance that was read. *)
Lemma edited_claim (supply prev cur old new claim : Z) :
  is_uint supply → is_uint prev → is_uint cur → is_uint old → claim ≤ new →
  (if 0 <? cur then PositionLib.calculateDefaultEditPositionUnit supply prev cur old = Ok new
   else new = 0) →
  claim * supply ≤ cur * 10 ^ 18.
Proof.
  intros Hs Hp Hc Ho Hle Hn. pose proof Hs as [Hs0 _]. pose proof Hc as [Hc0 _].
  destruct (0 <? cur).
  - apply PositionLib.calculate_unit in Hn as (_ & Ha & Hn); [nia|done..].
  - subst new. nia.
Qed.

(** [backed] can be computed. *)
Definition backed_check _setToken w s (supply : Z) : bool :=
  let covered c :=
    match IERC20_balanceOf c _setToken w with
    | Ok z => PositionLib.real_unit s c * supply <=? z * 10 ^ 18
    | Throw _ => false
    end in
  forallb covered (SetToken.getComponents s).

Lemma backed_check_ok _setToken w s (supply : Z) :
  backed_check _setToken w s supply = true → backed _setToken w s supply.
Proof.
  unfold backed_check. cbv zeta. rewrite forallb_forall. intros Hb c Hc.
  specialize (Hb c (proj1 (list_elem_of_In _ _) Hc)).
  destruct (IERC20_balanceOf c _setToken w) as [z|]; [|done]. exists z. split; [done|]. by apply Z.leb_le.
Qed.
End Collateral.

(** ** What only the environment matters to *)

(** A property of the environment survives what a module does to a set, as long as the
    tokens keep it. *)
Section Untouched.
Context `{ERC20} `{SignedLib} {E : Type} `{!External E} `{!ReentrancyGuard E}.
Context (P : World E → Prop) (HP : ∀ w w', env w' = env w → P w → P w').
Context (Henter : ∀ w e, guard_enter (env w) = Ok e → P w → P (set_env e w)).
Context (Hleave : ∀ w, P w → P (set_env (guard_leave (env w)) w)).
Implicit Types (this _setToken c token : Address).

Lemma untouched_on_set _setToken (f : Controller.State → SetToken.State → result SetToken.State) :
  keeps P (on_set _setToken f).
Proof. apply keeps_env; [apply HP|apply env_kept_on_set]. Qed.

Lemma untouched_guard {A} (body : tx E A) : keeps P body → keeps P (nonReentrant body).
Proof.
  intros Hb w a w' Hv Hw. apply nonReentrant_ok in Hw as (e & w1 & He & Hw & ->).
  apply Hb in Hw as [Hv1 _]; [|by apply Henter]. split; [by apply Hleave|done].
Qed.

#[local] Hint Resolve untouched_on_set : keeps.

Lemma untouched_calculateAndEdit this _setToken c (supply prev : Z) :
  keeps P (PositionLib.calculateAndEditDefaultPosition (E := E) this _setToken c supply prev).
Proof.
  unfold PositionLib.calculateAndEditDefaultPosition, PositionLib.editDefaultPosition,
    PositionLib.hasDefaultPosition, PositionLib.hasExternalPosition, PositionLib.addComponent,
    PositionLib.removeComponent.
  keeping.
Qed.

Context (Hcall : ∀ caller target v d, keeps P (functionCallWithValue (E := E) caller target v d)).

Lemma untouched_invoke this _setToken (target : Address) (v : Z) (d : SetToken.call_data) :
  keeps P (SetToken_invoke (E := E) this _setToken target v d).
Proof. unfold SetToken_invoke. keeping. Qed.

#[local] Hint Resolve untouched_invoke : keeps.

Lemma untouched_approve this _setToken token (spender : Address) (q : Z) :
  keeps P (invokeApprove (E := E) this _setToken token spender q).
Proof. unfold invokeApprove. keeping. Qed.

Lemma untouched_strict this _setToken token (to : Address) (q : Z) :
  keeps P (strictInvokeTransfer (E := E) this _setToken token to q).
Proof. unfold strictInvokeTransfer, invokeTransfer. keeping. Qed.
End Untouched.

(** ** A concrete environment *)

(** The storage of a module, its guard, and the balances of all accounts. *)
Abbreviation module_env S := (S * bool * bank)%type.

#[export] Instance module_guard {S} : ReentrancyGuard (module_env S) := {|
  guard_enter (e : module_env S) :=
    if e.1.2 then Throw (Revert "ReentrancyGuard: reentrant call") else Ok (e.1.1, true, e.2);
  guard_leave (e : module_env S) := (e.1.1, false, e.2);
|}.

Section BankTokens.
Context `{ERC20} `{SignedLib} {S : Type}.
Implicit Types (_setToken c token to : Address) (w : World (module_env S)).

Lemma bank_quiet {A} _setToken (t : tx (module_env S) A) :
  (∀ w a w', t w = Ok (a, w') → sets w' = sets w) → quiet _setToken t.
Proof.
  intros Ht w a w' s Es Hw. exists (SetToken.logs s). by rewrite (Ht _ _ _ Hw), with_logs_id.
Qed.

Lemma move_frame token from to (q : Z) (b b' : bank) c owner :
  move token from to q b = Ok b' → c ≠ token → held b' c owner = held b c owner.
Proof.
  intros Hm Hc. unfold move in Hm. cbv zeta in Hm. apply result_bind_ok in Hm as (? & _ & Hm).
  apply result_bind_ok in Hm as (? & _ & Hm). injection Hm as <-.
  assert (∀ o (z : Z) (m : bank), <[(token, o) := z]> m !! (c, owner) = m !! (c, owner)) as Hne.
  { intros o z m. apply (lookup_insert_ne (M := gmap (Address * Address))). congruence. }
  unfold held. by rewrite !Hne.
Qed.

Lemma bank_move_frame token from to (q : Z) c owner (u : ()) w w' :
  bank_move token from to q w = Ok (u, w') → c ≠ token →
  IERC20_balanceOf c owner w' = IERC20_balanceOf c owner w.
Proof.
  unfold bank_move. destruct (move token from to q (env w).2) as [b|] eqn:Em; [|done].
  intros [= _ <-] Hc. cbn. unfold bank_balance. cbn. by rewrite (move_frame _ _ _ _ _ _ _ _ Em Hc).
Qed.

#[export] Instance Isolated_bank _setToken : Isolated (module_env S) _setToken.
Proof.
  split.
  - intros token to q. apply bank_quiet. intros w r w'. apply bank_call_sets.
  - intros token to q c w r w' Hw Hc _. cbn in Hw. apply tx_bind_ok in Hw as (u & w1 & Hm & Hw).
    apply tx_ret_ok in Hw as [_ <-]. by eapply bank_move_frame.
  - intros this token from to q. apply bank_quiet. intros w u w'. apply bank_move_sets.
  - intros this token from to q c w u w' Hw Hc _.
    apply (bank_move_frame token from to q c _setToken u); [exact Hw|exact Hc].
  - done.
  - intros c w e. cbn. destruct (env w).1.2; [done|]. by intros [= <-].
  - done.
Qed.

(** What does not look at the balances survives transfers. *)
Context (P : World (module_env S) → Prop) (HP : ∀ w b, P w → P (set_env ((env w).1, b) w)).

Lemma keeps_bank_move token from to (q : Z) : keeps P (bank_move token from to q).
Proof.
  intros w u w' Hw Hm. split; [|done]. unfold bank_move in Hm.
  destruct (move token from to q (env w).2) as [b|]; [|done]. injection Hm as _ <-. by apply HP.
Qed.

Lemma keeps_bank_call (caller target : Address) (v : Z) (d : SetToken.call_data) :
  keeps P (bank_call caller target v d).
Proof.
  unfold bank_call.
  repeat match goal with |- keeps _ (match ?x with _ => _ end) => destruct x end;
    try (apply keeps_reading; solve [reading]).
  all: repeat (apply keeps_bind; [apply keeps_bank_move|intros _]); apply keeps_reading; reading.
Qed.
End BankTokens.
