(* ===== verification/Holdings.v ===== *)
(** * The holdings of those a set deals with

    What a module takes from an account and pays to it: tokens whose transfers move
    what they are told to ([Accounting]), and bounds on how the balances of the
    account change ([dealt]) through the transfers of the modules. *)
From Stdlib Require Import String.
From S2P Require Import Prelude JsString BigNumber Constants MathUtils SolMath.
From S2P Require Import AddressArrayUtils Script AdapterUtils Controller Erc20 SetToken.
From S2P Require Import IntegrationRegistry World Position Tokens.

(** What a transfer of [q] of a token adds to the balance that [a] has of [c]. *)
Definition moved (token from to : Address) (q : Z) (a c : Address) : Z :=
  if decide (c = token) then
    (if decide (a = to) then q else 0) - if decide (a = from) then q else 0
  else 0.

(** Transfers of tokens other than the set, by a module or by the set, move what
    they are told to in the balances of the account [a] and nothing else of it. *)
Class Accounting `{ERC20} `{SignedLib} (E : Type) `{!External E} `{!ReentrancyGuard E}
    (st a : Address) := {
  account_transfer this token from to q c z u w w' :
    token ≠ st → c ≠ st → 0 ≤ q → safeTransferFrom this token from to q w = Ok (u, w') →
    IERC20_balanceOf c a w = Ok z →
    IERC20_balanceOf c a w' = Ok (z + moved token from to q a c);
  account_call token to q c z r w w' :
    token ≠ st → c ≠ st → 0 ≤ q →
    functionCallWithValue st token 0 (transfer_data to q) w = Ok (r, w') →
    IERC20_balanceOf c a w = Ok z →
    IERC20_balanceOf c a w' = Ok (z + moved token st to q a c);
  account_put c s w : c ≠ st →
    IERC20_balanceOf c a (put_set st s w) = IERC20_balanceOf c a w;
  account_enter c w e : guard_enter (env w) = Ok e →
    IERC20_balanceOf c a (set_env e w) = IERC20_balanceOf c a w;
  account_leave c w :
    IERC20_balanceOf c a (set_env (guard_leave (env w)) w) = IERC20_balanceOf c a w;
}.

Section Holdings.
Context `{ERC20} `{SignedLib} {E : Type} `{!External E} `{!ReentrancyGuard E}.
Context (st a : Address) `{!Accounting E st a}.
Implicit Types (this c token : Address) (w : World E) (s : SetToken.State).

(** Every balance the account can read has changed by between [lo] and [hi]. *)
Definition dealt (lo hi : Address → Z) w w' : Prop :=
  ∀ c z, c ≠ st → IERC20_balanceOf c a w = Ok z →
    ∃ z', IERC20_balanceOf c a w' = Ok z' ∧ z + lo c ≤ z' ≤ z + hi c.

Lemma dealt_same (lo hi : Address → Z) w w' :
  (∀ c, c ≠ st → IERC20_balanceOf c a w' = IERC20_balanceOf c a w) →
  (∀ c, lo c ≤ 0 ≤ hi c) → dealt lo hi w w'.
Proof. intros Hb Hl c z Hc Ez. exists z. rewrite Hb by done. specialize (Hl c). split; [done|lia]. Qed.

Lemma dealt_trans (lo hi lo' hi' : Address → Z) w w1 w' :
  dealt lo hi w w1 → dealt lo' hi' w1 w' → dealt (λ c, lo c + lo' c) (λ c, hi c + hi' c) w w'.
Proof.
  intros H1 H2 c z Hc Ez. destruct (H1 c z Hc Ez) as (z1 & E1 & ?).
  destruct (H2 c z1 Hc E1) as (z' & E' & ?). exists z'. split; [done|lia].
Qed.

Lemma dealt_weaken (lo hi lo' hi' : Address → Z) w w' :
  dealt lo hi w w' → (∀ c, lo' c ≤ lo c ∧ hi c ≤ hi' c) → dealt lo' hi' w w'.
Proof.
  intros Hd Hl c z Hc Ez. destruct (Hd c z Hc Ez) as (z' & E' & ?). exists z'.
  specialize (Hl c). split; [done|lia].
Qed.

(** The transfer of a module. *)
Lemma transferFrom_dealt this token from to (q : Z) (u : ()) w w' :
  token ≠ st → 0 ≤ q → transferFrom this token from to q w = Ok (u, w') →
  dealt (moved token from to q a) (moved token from to q a) w w'.
Proof.
  intros Ht Hq Hw c z Hc Ez. exists (z + moved token from to q a c). split; [|lia].
  unfold transferFrom in Hw. destruct (Z.ltb_spec 0 q).
  - apply tx_bind_ok in Hw as (b & w1 & Hb & Hw). apply PositionLib.balance_ok in Hb as (-> & _).
    apply tx_bind_ok in Hw as ([] & w1 & Hx & Hw). read_steps Hw. apply requires_ok in Hw as [_ ->].
    by eapply account_transfer.
  - apply tx_ret_ok in Hw as [_ <-]. rewrite Ez. f_equal. unfold moved.
    destruct (decide _); [|lia]. destruct (decide _), (decide _); lia.
Qed.

(** The transfer of the set, checked or not. *)
Lemma invokeTransfer_dealt this token to (q : Z) (u : ()) w w' :
  token ≠ st → 0 ≤ q → invokeTransfer this st token to q w = Ok (u, w') →
  dealt (moved token st to q a) (moved token st to q a) w w'.
Proof.
  intros Ht Hq Hx c z Hc Ez. exists (z + moved token st to q a c). split; [|lia].
  unfold invokeTransfer in Hx. destruct (Z.ltb_spec 0 q).
  - apply tx_bind_ok in Hx as (r & w2 & Hi & Hx). apply tx_ret_ok in Hx as [_ <-].
    unfold SetToken_invoke in Hi. do 2 (read_step Hi as ? Hr; clear Hr).
    apply tx_bind_ok in Hi as (r' & w3 & Hcall & Hi). apply tx_bind_ok in Hi as (? & w4 & Hlog & Hi).
    apply tx_ret_ok in Hi as [_ <-]. apply on_set_ok in Hlog as (s & s' & Es & E1 & ->).
    change (set_sets _ w3) with (put_set st s' w3). rewrite account_put by done.
    by eapply account_call.
  - apply tx_ret_ok in Hx as [_ <-]. rewrite Ez. f_equal. unfold moved.
    destruct (decide _); [|lia]. destruct (decide _), (decide _); lia.
Qed.

Lemma send_dealt this token to (q : Z) (u : ()) w w' :
  token ≠ st → 0 ≤ q → strictInvokeTransfer this st token to q w = Ok (u, w') →
  dealt (moved token st to q a) (moved token st to q a) w w'.
Proof.
  intros Ht Hq Hw. unfold strictInvokeTransfer in Hw. destruct (0 <? q) eqn:B.
  - apply tx_bind_ok in Hw as (b & w1 & Hb & Hw). apply PositionLib.balance_ok in Hb as (-> & _).
    apply tx_bind_ok in Hw as ([] & w1 & Hx & Hw). read_steps Hw. apply requires_ok in Hw as [_ ->].
    by eapply invokeTransfer_dealt.
  - apply (invokeTransfer_dealt this token to q u); [done..|]. unfold invokeTransfer. by rewrite B.
Qed.

(** Of a transfer to whomever: who pays it pays no more, and no one else gets more. *)
Lemma moved_bounds token from to (q : Z) c :
  0 ≤ q →
  only token (if decide (a = from) then - q else 0) c ≤ moved token from to q a c ≤
  only token (if decide (a = from) then 0 else q) c.
Proof.
  intros Hq. unfold moved, only. destruct (decide (c = token)); [|lia].
  destruct (decide (a = to)), (decide (a = from)); lia.
Qed.

Lemma payProtocolFee_dealt this token (q : Z) (u : ()) w w' :
  a ≠ st → token ≠ st → 0 ≤ q → payProtocolFeeFromSetToken this st token q w = Ok (u, w') →
  dealt (λ _, 0) (only token q) w w'.
Proof.
  intros Ha Ht Hq Hw. unfold payProtocolFeeFromSetToken in Hw. destruct (0 <? q).
  - read_step Hw as ctl Hctl. apply send_dealt in Hw; [|done..]. eapply dealt_weaken; [exact Hw|].
    intros c. pose proof (moved_bounds token st (Controller.feeRecipient ctl) q c Hq) as B.
    rewrite !decide_False in B by done. unfold only in *. destruct (decide _); lia.
  - apply tx_ret_ok in Hw as [_ <-]. apply dealt_same; [done|]. intros c. unfold only.
    destruct (decide _); lia.
Qed.
End Holdings.

(** ** The concrete tokens *)

Lemma held_insert (m : bank) (token o y : Address) (v : Z) :
  held (<[(token, o) := v]> m) token y = if decide (y = o) then v else held m token y.
Proof.
  unfold held. destruct (decide (y = o)) as [->|Hne].
  - assert (<[(token, o) := v]> m !! (token, o) = Some v) as ->
      by apply (lookup_insert_eq (M := gmap (Address * Address))). done.
  - assert (<[(token, o) := v]> m !! (token, y) = m !! (token, y)) as ->; [|done].
    apply (lookup_insert_ne (M := gmap (Address * Address))). congruence.
Qed.

(** A transfer moves nothing of those it does not concern. *)
Lemma bank_move_others `{ERC20} `{SignedLib} {S : Type} (token from to a c : Address) (q : Z) (u : ())
    (w w' : World (module_env S)) :
  bank_move token from to q w = Ok (u, w') → a ≠ from → a ≠ to →
  IERC20_balanceOf c a w' = IERC20_balanceOf c a w.
Proof.
  intros Hw Hf Ht. destruct (decide (c = token)) as [->|Hc]; [|by eapply bank_move_frame].
  unfold bank_move in Hw. destruct (move token from to q (env w).2) as [b|] eqn:Em; [|done].
  injection Hw as _ <-. cbn. unfold bank_balance. cbn [env set_env snd].
  unfold move in Em. cbv zeta in Em. apply result_bind_ok in Em as (? & _ & Em).
  apply result_bind_ok in Em as (? & _ & Em). injection Em as <-.
  by rewrite !held_insert, !decide_False.
Qed.

Lemma bank_account `{ERC20} `{SignedLib} {S : Type} (token from to a c : Address) (q z : Z) (u : ())
    (w w' : World (module_env S)) :
  0 ≤ q → bank_move token from to q w = Ok (u, w') → IERC20_balanceOf c a w = Ok z →
  IERC20_balanceOf c a w' = Ok (z + moved token from to q a c).
Proof.
  intros Hq Hw Ez. unfold moved. destruct (decide (c = token)) as [->|Hc].
  2: { rewrite (bank_move_frame _ _ _ _ c a _ _ _ Hw Hc), Z.add_0_r. exact Ez. }
  unfold bank_move in Hw. destruct (move token from to q (env w).2) as [b|] eqn:Em; [|done].
  injection Hw as _ <-. cbn in Ez |- *. unfold bank_balance in *. cbn [env set_env snd] in *.
  unfold move in Em. cbv zeta in Em. apply result_bind_ok in Em as (? & Hle & Em).
  apply result_bind_ok in Em as (? & Hfit & Em). injection Em as <-. apply require_ok in Hle, Hfit.
  destruct ((0 <=? held (env w).2 token a) && (held (env w).2 token a <=? UINT_MAX)) eqn:B;
    [|discriminate]. injection Ez as <-. rewrite !held_insert in *.
  repeat match goal with
  | |- context [decide (?x = ?y)] => destruct (decide (x = y)); subst; try done
  | He : context [decide (?x = ?y)] |- _ => destruct (decide (x = y)); subst; try done
  end;
    match goal with |- (if ?g then Ok ?x else _) = Ok ?y =>
      replace y with x by lia; replace g with true by lia end; done.
Qed.

#[export] Instance Accounting_bank `{ERC20} `{SignedLib} {S : Type} (st a : Address) :
  Accounting (module_env S) st a.
Proof.
  split.
  - intros this token from to q c z u w w' _ _ Hq Hw. by eapply bank_account.
  - intros token to q c z r w w' _ _ Hq Hw. cbn in Hw. apply tx_bind_ok in Hw as (u & w1 & Hm & Hw).
    apply tx_ret_ok in Hw as [_ <-]. by eapply bank_account.
  - done.
  - intros c w e. cbn. destruct (env w).1.2; [done|]. by intros [= <-].
  - done.
Qed.
