(* ===== verification/Exchange.v ===== *)
(** * Exchanging what a set holds

    What the modules share that trade the components of a set, wrap them or absorb
    new ones: a set that covers its claims ([covered_set]), calls that touch its
    holdings of given tokens only ([spares]), and edits of its positions by its
    balances. *)
From Stdlib Require Import String.
From S2P Require Import Prelude JsString BigNumber Constants MathUtils SolMath.
From S2P Require Import AddressArrayUtils Script AdapterUtils Controller Erc20 SetToken.
From S2P Require Import IntegrationRegistry World Position Tokens.

(** What a set calls on a token to let another spend it. *)
Definition approve_data (spender : Address) (q : Z) : SetToken.call_data :=
  SetToken.encodeWithSignature "approve(address,uint256)" [VAddr spender; VNum q].

(** ** Calls that touch given tokens only *)
Section Spares.
Context `{ERC20} `{SignedLib} {E : Type} `{!External E}.
Implicit Types (this st c token : Address) (w : World E) (s : SetToken.State).

(** The set is the same up to its log and holds, of every token but those of [X], at
    least what it held. *)
Definition left_alone st (X : list Address) w w' : Prop :=
  (∀ s, sets w !! st = Some s → ∃ l, sets w' !! st = Some (with_logs l s)) ∧
  ∀ c z, c ∉ X → c ≠ st → IERC20_balanceOf c st w = Ok z →
    ∃ z', IERC20_balanceOf c st w' = Ok z' ∧ z ≤ z'.

Definition spares {A} st (X : list Address) (t : tx E A) : Prop :=
  ∀ w a w', t w = Ok (a, w') → left_alone st X w w'.

Lemma left_alone_refl st X w : left_alone st X w w.
Proof.
  split; [|eauto with lia]. intros s Es. exists (SetToken.logs s). by rewrite with_logs_id.
Qed.

Lemma left_alone_trans st X w1 w2 w3 :
  left_alone st X w1 w2 → left_alone st X w2 w3 → left_alone st X w1 w3.
Proof.
  intros [Hs1 Hb1] [Hs2 Hb2]. split.
  - intros s Es. destruct (Hs1 s Es) as (l & E1). by apply Hs2 in E1.
  - intros c z Hc Hne Ez. destruct (Hb1 c z Hc Hne Ez) as (z1 & Ez1 & Hz1).
    destruct (Hb2 c z1 Hc Hne Ez1) as (z2 & Ez2 & Hz2). exists z2. split; [done|lia].
Qed.

Lemma left_alone_mono st X Y w w' : X ⊆ Y → left_alone st X w w' → left_alone st Y w w'.
Proof. intros HXY [Hs Hb]. split; [done|]. intros c z Hc. apply Hb. by intros Hx; apply Hc, HXY. Qed.

Lemma spares_bind {A B} st X (t : tx E A) (f : A → tx E B) :
  spares st X t → (∀ a, spares st X (f a)) → spares st X (t ≫= f).
Proof.
  intros Ht Hf w b w' Hw. apply tx_bind_ok in Hw as (a & w1 & H1 & H2).
  eapply left_alone_trans; [by eapply Ht|by eapply Hf].
Qed.

Lemma spares_reading {A} st X (t : tx E A) : reading t → spares st X t.
Proof. intros Ht w a w' Hw. rewrite (Ht _ _ _ Hw). apply left_alone_refl. Qed.

Lemma spares_if {A} st X (b : bool) (t u : tx E A) :
  spares st X t → spares st X u → spares st X (if b then t else u).
Proof. by destruct b. Qed.

Lemma spares_mono {A} st X Y (t : tx E A) : X ⊆ Y → spares st X t → spares st Y t.
Proof. intros HXY Ht w a w' Hw. by eapply left_alone_mono; [|eapply Ht]. Qed.

Context `{!ReentrancyGuard E}.

Lemma spares_log st `{!Isolated E st} X (target : Address) (v : Z) (d : SetToken.call_data) (r : value) :
  spares st X (on_set st (λ _, SetToken.invoke_effects target v d r) : tx E ()).
Proof.
  intros w u w' Hw. split; [intros s Es; by eapply quiet_log|]. intros c z _ Hne Ez. exists z.
  split; [|lia]. by rewrite (log_balance st c target v d r u w w' Hw Hne).
Qed.

(** A call from the set, by what the target does. *)
Lemma spares_invoke st `{!Isolated E st} X this (target : Address) (v : Z) (d : SetToken.call_data) :
  spares st X (functionCallWithValue (E := E) st target v d) →
  spares st X (SetToken_invoke this st target v d).
Proof.
  intros Hcall. unfold SetToken_invoke.
  do 2 (apply spares_bind; [apply spares_reading; reading|intros ?]).
  apply spares_bind; [exact Hcall|intros r]. apply spares_bind; [by apply spares_log|intros ?].
  apply spares_reading; reading.
Qed.

(** A call that an adapter has encoded. *)
Lemma spares_encoded st `{!Isolated E st} X this (f : World E → result (Address * Z * SetToken.call_data)) :
  (∀ w target v d, f w = Ok (target, v, d) →
    spares st X (functionCallWithValue (E := E) st target v d)) →
  spares st X ('(target, v, d) ← query f; SetToken_invoke this st target v d;; mret ()).
Proof.
  intros Hf w u w' Hw. apply tx_bind_ok in Hw as ([[target v] d] & w1 & Hq & Hw).
  apply query_ok in Hq as [Hq <-]. apply tx_bind_ok in Hw as (r & w2 & Hc & Hw).
  apply tx_ret_ok in Hw as [_ <-]. eapply spares_invoke; [done|by eapply Hf|exact Hc].
Qed.

(** Tokens that the set sends. *)
Lemma shifted_left_alone st token (q : Z) w w' :
  shifted st (only token q) w w' → left_alone st [token] w w'.
Proof.
  intros [Hs Hb]. split; [done|]. intros c z Hc Hne Ez. exists z. split; [|lia].
  rewrite (Hb c z Hne Ez). unfold only. rewrite decide_False by set_solver. by rewrite Z.add_0_r.
Qed.

Lemma spares_send st `{!Isolated E st} this token to (q : Z) :
  spares st [token] (strictInvokeTransfer (E := E) this st token to q).
Proof.
  intros w u w' Hw. destruct (Z.le_gt_cases 0 q) as [Hq|Hq].
  - eapply shifted_left_alone. by eapply send_shifts.
  - unfold strictInvokeTransfer in Hw. destruct (Z.ltb_spec 0 q); [lia|].
    apply tx_ret_ok in Hw as [_ <-]. apply left_alone_refl.
Qed.

Lemma spares_payProtocolFee st `{!Isolated E st} this token (q : Z) :
  spares st [token] (payProtocolFeeFromSetToken (E := E) this st token q).
Proof.
  unfold payProtocolFeeFromSetToken. apply spares_if; [|apply spares_reading; reading].
  apply spares_bind; [apply spares_reading; reading|intros ctl]. by apply spares_send.
Qed.

(** The protocol fee takes its amount from the set. *)
Lemma payProtocolFee_shifts st `{!Isolated E st} this token (q : Z) (u : ()) w w' :
  0 ≤ q → payProtocolFeeFromSetToken this st token q w = Ok (u, w') →
  shifted st (only token (- q)) w w'.
Proof.
  intros Hq Hw. unfold payProtocolFeeFromSetToken in Hw. destruct (Z.ltb_spec 0 q).
  - read_step Hw as ctl Hctl. by apply (send_shifts st) in Hw.
  - apply tx_ret_ok in Hw as [_ <-]. apply shifted_refl. intros c _. unfold only.
    destruct (decide _); lia.
Qed.

(** What is asked of the tokens a set approves: their function leaves the set and
    its holdings alone. *)
Class Approving st := approve_spares token spender q :
  spares st [] (functionCallWithValue (E := E) st token 0 (approve_data spender q)).

Lemma spares_approve st `{!Isolated E st} `{!Approving st} X this token spender (q : Z) :
  spares st X (invokeApprove this st token spender q).
Proof.
  unfold invokeApprove. apply spares_bind; [|intros r; apply spares_reading; reading].
  apply spares_invoke; [done|]. eapply spares_mono; [apply list_subseteq_nil|apply approve_spares].
Qed.
End Spares.
Arguments Approving {_ _} E {_} st.

Create HintDb spares.

(** Splits a transaction into calls that spare the other tokens. *)
Ltac sparing :=
  repeat match goal with
  | |- spares _ _ (mbind _ _) => apply spares_bind; [|intros ?]
  | |- spares _ _ (if _ then _ else _) => apply spares_if
  | |- spares _ _ (let '(_, _) := ?p in _) => destruct p
  | |- spares _ _ _ => solve [eauto with spares | apply spares_reading; reading]
  end.

(** ** The adapter a name stands for *)
Section Named.
Context `{ERC20} `{SignedLib} `{Keccak} {E : Type}.
Implicit Types (this : Address) (w : World E).

Definition named_adapter this (name : string) (a : Address) w : Prop :=
  a ≠ Controller.address0 ∧ ∃ r, registries w !! getIntegrationRegistry (controller w) = Some r ∧
    a = IntegrationRegistry.getIntegrationAdapterWithHash r this (getNameHash name).

Lemma getAdapter_ok this (name : string) (a : Address) w w' :
  getAndValidateAdapter this name w = Ok (a, w') → named_adapter this name a w.
Proof.
  unfold getAndValidateAdapter, getAndValidateAdapterWithHash, named_adapter.
  destruct (registries w !! _) as [r|]; [|done].
  destruct (bool_decide_reflect (IntegrationRegistry.getIntegrationAdapterWithHash r this
    (getNameHash name) = Controller.address0)); [done|].
  intros [= <- _]. split; [done|]. by exists r.
Qed.

End Named.

(** ** Sets that cover their claims *)
Section Covered.
Context `{ERC20} `{SignedLib} {E : Type} `{!External E} `{!ReentrancyGuard E}.
Context (st : Address) `{!Isolated E st}.
Implicit Types (this c token : Address) (w : World E) (s : SetToken.State) (X : list Address).

(** The holding of a component covers what the tokens claim of it. *)
Definition covers w s c : Prop := ∃ z, IERC20_balanceOf c st w = Ok z ∧
  PositionLib.real_unit s c * totalSupply (SetToken.token s) ≤ z * 10 ^ 18.

(** A consistent set that lists the components it has positions of, not itself, and
    covers the claims on them, those on [X] excepted. *)
Definition covered_but X w s : Prop :=
  sets w !! st = Some s ∧ SetToken.consistent s ∧ PositionLib.tracked s ∧
  (st ∉ SetToken.getComponents s) ∧
  ∀ c, c ∈ SetToken.getComponents s → c ∉ X → covers w s c.

Definition covered_set w : Prop := ∃ s, covered_but [] w s.

Lemma covered_set_collateralized w : covered_set w → collateralized st w.
Proof.
  intros (s & Es & Hs & _ & Hout & Hb). exists s. repeat (split; [done|]).
  intros c Hc. apply Hb; [done|]. apply not_elem_of_nil.
Qed.

(** Calls that spare the other tokens. *)
Lemma covered_left_alone X w w' s :
  left_alone st X w w' → covered_but X w s → ∃ l, covered_but X w' (with_logs l s).
Proof.
  intros [Hl Hb] (Es & Hs & Htr & Hout & Hc). destruct (Hl s Es) as (l & El). exists l.
  split; [done|]. split; [by apply consistent_logs|]. split; [by apply tracked_logs|]. split; [done|].
  intros c Hcs HX. assert (c ≠ st) as Hne by (intros ->; done).
  destruct (Hc c Hcs HX) as (z & Ez & Hz). destruct (Hb c z HX Hne Ez) as (z' & Ez' & Hle).
  exists z'. split; [done|].
  change (PositionLib.real_unit s c * totalSupply (SetToken.token s) ≤ z' * 10 ^ 18). lia.
Qed.

Lemma covered_weaken X Y w s : X ⊆ Y → covered_but X w s → covered_but Y w s.
Proof.
  intros HXY (? & ? & ? & ? & Hc). repeat (split; [done|]). intros c Hcs HY. apply Hc; [done|].
  intros Hx. by apply HY, HXY.
Qed.

(** An edit of the position of [c] to a claim that its balance covers. *)
Lemma covered_edit X c (z : Z) w s s' :
  covered_but (c :: X) w s → c ≠ st → SetToken.consistent s' → PositionLib.tracked s' →
  SetToken.token s' = SetToken.token s → SetToken.positionMultiplier s' = SetToken.positionMultiplier s →
  (∀ c', c' ≠ c → SetToken.position s' c' = SetToken.position s c') →
  IERC20_balanceOf c st w = Ok z →
  PositionLib.real_unit s' c * totalSupply (SetToken.token s) ≤ z * 10 ^ 18 →
  covered_but X (put_set st s' w) s'.
Proof.
  intros (Es & Hs & Htr & Hout & Hc) Hne Hs' Htr' Et Em Hpos Ez Hz.
  assert (∀ c', c' ≠ c → PositionLib.real_unit s' c' = PositionLib.real_unit s c') as Hunit.
  { intros c' Hc'. unfold PositionLib.real_unit. by rewrite Hpos, Em. }
  assert (∀ c', c' ≠ c → c' ∈ SetToken.getComponents s' → c' ∈ SetToken.getComponents s) as Hin.
  { intros c' Hc'. rewrite (Htr c'), (Htr' c'), Hunit by done.
    unfold SetToken.getExternalPositionModules. by rewrite Hpos. }
  split; [apply put_set_at|]. split; [done|]. split; [done|]. split.
  { intros Hst. apply Hout. by apply Hin. }
  intros c' Hc' HX. unfold covers. rewrite Et. destruct (decide (c' = c)) as [->|Hd].
  - rewrite balance_put by done. eauto.
  - assert (c' ≠ st) by (intros ->; by apply Hout, Hin). rewrite balance_put, Hunit by done.
    apply Hc; [by apply Hin|]. rewrite not_elem_of_cons. done.
Qed.

(** By its balance, as after a trade. *)
Lemma covered_calculate X this c (supply prev cur old new : Z) w w' s :
  covered_but (c :: X) w s → this ≠ Controller.address0 → c ≠ st → is_uint prev →
  supply = totalSupply (SetToken.token s) →
  PositionLib.calculateAndEditDefaultPosition this st c supply prev w = Ok ((cur, old, new), w') →
  ∃ s', w' = put_set st s' w ∧ covered_but X w' s' ∧ SetToken.token s' = SetToken.token s ∧
    IERC20_balanceOf c st w = Ok cur ∧ is_uint cur.
Proof.
  intros Hc Ht Hne Hp -> Hw. pose proof Hc as (Es & Hs & Htr & _).
  assert (is_uint (totalSupply (SetToken.token s))) as Hsu by apply Hs.
  apply (PositionLib.calculateAndEdit_ok _ _ _ _ _ _ _ _ _ _ s) in Hw
    as (s' & -> & Hs' & Htr' & Et & Em & Hpos & Hb & Hcu & _ & Ho & Hr & _ & Hn); [|done..].
  apply edited_claim with (claim := PositionLib.real_unit s' c) in Hn; [|done..].
  exists s'. split; [done|]. split; [|done]. by eapply covered_edit.
Qed.

(** Both positions of an exchange, by the balances there are after it. *)
Lemma covered_exchange this send receive (supply pre pre' sent received : Z) w w' s :
  this ≠ Controller.address0 → send ≠ st → receive ≠ st → supply = totalSupply (SetToken.token s) →
  is_uint pre → is_uint pre' → covered_but [send; receive] w s →
  ('(current, _, _) ← PositionLib.calculateAndEditDefaultPosition this st send supply pre;
   '(current', _, _) ← PositionLib.calculateAndEditDefaultPosition this st receive supply pre';
   x ← lift (SafeMath.sub pre current);
   y ← lift (SafeMath.sub current' pre');
   mret (x, y)) w = Ok ((sent, received), w') →
  ∃ s', w' = put_set st s' w ∧ covered_but [] w' s' ∧ SetToken.token s' = SetToken.token s ∧
  IERC20_balanceOf send st w = Ok (pre - sent) ∧
  IERC20_balanceOf receive st w = Ok (pre' + received) ∧ 0 ≤ sent ∧ 0 ≤ received.
Proof.
  intros Ht Hs1 Hs2 Esu Hu1 Hu2 Hc Hw.
  apply tx_bind_ok in Hw as ([[b1 o1] n1] & w1 & He1 & Hw).
  apply (covered_calculate [receive] _ _ _ _ _ _ _ _ _ s) in He1
    as (s1 & -> & Hc1 & Et1 & Hb1 & Hbu1); [|done..].
  apply tx_bind_ok in Hw as ([[b2 o2] n2] & w2 & He2 & Hw). rewrite <- Et1 in Esu.
  apply (covered_calculate [] _ _ _ _ _ _ _ _ _ s1) in He2
    as (s2 & -> & Hc2 & Et2 & Hb2 & Hbu2); [|done..].
  rewrite balance_put in Hb2 by done. rewrite put_set_twice in Hc2, Hw.
  read_step Hw as d1 Hd1. read_step Hw as d2 Hd2. apply tx_ret_ok in Hw as [Hw <-].
  injection Hw as <- <-.
  apply lift_ok in Hd1 as [Hd1 _]. apply safe_sub_inv in Hd1 as (-> & ? & _); [|done..].
  apply lift_ok in Hd2 as [Hd2 _]. apply safe_sub_inv in Hd2 as (-> & ? & _); [|done..].
  exists s2. split; [done|]. split; [done|]. split; [congruence|].
  split; [rewrite Hb1; f_equal; lia|]. split; [rewrite Hb2; f_equal; lia|]. lia.
Qed.

(** New positions of two tokens, covered by what there is of them. *)
Lemma covered_two a b w w' s s' :
  a ≠ st → b ≠ st → covered_but [] w s → sets w' !! st = Some s' → SetToken.consistent s' →
  PositionLib.tracked s' → SetToken.token s' = SetToken.token s →
  SetToken.positionMultiplier s' = SetToken.positionMultiplier s →
  (∀ c, c ≠ a → c ≠ b → SetToken.position s' c = SetToken.position s c) →
  (∀ c z, c ≠ a → c ≠ b → c ≠ st → IERC20_balanceOf c st w = Ok z → IERC20_balanceOf c st w' = Ok z) →
  covers w' s' a → covers w' s' b → covered_but [] w' s'.
Proof.
  intros Ha Hb (Es & Hs & Htr & Hout & Hc) Es' Hs' Htr' Et Em Hpos Hbal Hca Hcb.
  assert (∀ c, c ≠ a → c ≠ b → c ∈ SetToken.getComponents s' → c ∈ SetToken.getComponents s) as Hin.
  { intros c Hca' Hcb'. rewrite (Htr c), (Htr' c). unfold PositionLib.real_unit,
      SetToken.getExternalPositionModules. by rewrite Hpos, Em. }
  repeat (split; [done|]). split; [intros Hst; apply Hout; by apply Hin|].
  intros c Hcs _. destruct (decide (c = a)) as [->|Hna]; [done|].
  destruct (decide (c = b)) as [->|Hnb]; [done|]. apply Hin in Hcs; [|done..].
  destruct (Hc c Hcs (not_elem_of_nil c)) as (z & Ez & Hz). exists z.
  split; [apply Hbal; [done..| |done]; by intros ->|]. unfold PositionLib.real_unit.
  by rewrite Hpos, Em, Et.
Qed.

(** Changes of the environment that the balances do not depend on. *)
Lemma covered_env X e w s :
  (∀ c, IERC20_balanceOf c st (set_env e w) = IERC20_balanceOf c st w) →
  covered_but X w s → covered_but X (set_env e w) s.
Proof.
  intros Hb (Es & ? & ? & ? & Hc). repeat (split; [done|]). intros c Hcs HX. unfold covers.
  rewrite Hb. by apply Hc.
Qed.

Lemma covered_enter X e w s :
  guard_enter (env w) = Ok e → covered_but X w s → covered_but X (set_env e w) s.
Proof. intros He. apply covered_env. intros c. by apply balance_enter. Qed.

Lemma covered_leave X w s :
  covered_but X w s → covered_but X (set_env (guard_leave (env w)) w) s.
Proof. apply covered_env. intros c. apply balance_leave. Qed.

(** A guarded body that keeps the set covered. *)
Lemma guarded_covered {A} (body : tx E A) (a : A) w w' :
  covered_set w → nonReentrant body w = Ok (a, w') →
  (∀ w1 w2, covered_set w1 → body w1 = Ok (a, w2) → covered_set w2) → covered_set w'.
Proof.
  intros (s & Hc) Hw Hbody. apply nonReentrant_ok in Hw as (e & w2 & He & Hw & ->).
  apply Hbody in Hw as (s' & Hc'); [exists s'; by apply covered_leave|].
  exists s. by apply covered_enter.
Qed.
End Covered.

(** ** In the concrete environment *)

(** What a set calls on an exchange there. *)
Definition swap_data (give : Address) (q : Z) (take : Address) (r : Z) : SetToken.call_data :=
  SetToken.encodeWithSignature "swap(address,uint256,address,uint256)"
    [VAddr give; VNum q; VAddr take; VNum r].

Section Bank.
Context `{ERC20} `{SignedLib} {S : Type}.
Implicit Types (st c token : Address) (w : World (module_env S)).

Lemma bank_spares {A} st X (t : tx (module_env S) A) :
  (∀ w a w', t w = Ok (a, w') → sets w' = sets w) →
  (∀ w a w' c, t w = Ok (a, w') → c ∉ X → IERC20_balanceOf c st w' = IERC20_balanceOf c st w) →
  spares st X t.
Proof.
  intros Hs Hb w a w' Hw. split.
  - intros s Es. exists (SetToken.logs s). by rewrite (Hs _ _ _ Hw), with_logs_id.
  - intros c z Hc _ Ez. exists z. split; [|lia]. by rewrite (Hb _ _ _ c Hw Hc).
Qed.

#[export] Instance Approving_bank st : Approving (module_env S) st.
Proof.
  intros token spender q. apply bank_spares; [intros w r w'; apply bank_call_sets|].
  intros w r w' c Hw _. cbn in Hw. by injection Hw as _ <-.
Qed.

Lemma swap_spares st (caller target : Address) (v : Z) give (q : Z) take (r : Z) :
  spares st [give; take]
    (functionCallWithValue (E := module_env S) caller target v (swap_data give q take r)).
Proof.
  apply bank_spares; [intros w x w'; apply bank_call_sets|]. intros w x w' c Hw Hc. cbn in Hw.
  apply tx_bind_ok in Hw as (u1 & w1 & H1 & Hw). apply tx_bind_ok in Hw as (u2 & w2 & H2 & Hw).
  apply tx_ret_ok in Hw as [_ <-].
  rewrite (bank_move_frame _ _ _ _ c st _ _ _ H2) by (intros ->; apply Hc; by repeat constructor).
  apply (bank_move_frame _ _ _ _ c st _ _ _ H1). intros ->. apply Hc. by repeat constructor.
Qed.
End Bank.
