(* ===== verification/StreamingFee.v ===== *)
(** * The streaming fee module

    [contracts/protocol/modules/v1/StreamingFeeModule.sol] with its storage: the
    accrual, its management and its removal.  The fee computations are those of
    FeeUtils.v.  What a transaction returns is the payload of its event. *)
From Stdlib Require Import String.
From S2P Require Import Prelude JsString BigNumber Constants MathUtils SolMath.
From S2P Require Import AddressArrayUtils Script FeeUtils AdapterUtils Controller Erc20.
From S2P Require Import SetToken IntegrationRegistry World Position Tokens.

(** The mapping [feeStates] in the storage of the module, and the guard that
    shares it. *)
Class FeeStorage (E : Type) `{!ReentrancyGuard E} := {
  feeStates : E → gmap Address StreamingFeeState;
  put_feeStates : gmap Address StreamingFeeState → E → E;
  feeStates_put m e : feeStates (put_feeStates m e) = m;
  feeStates_enter e e' : guard_enter e = Ok e' → feeStates e' = feeStates e;
  feeStates_leave e : feeStates (guard_leave e) = feeStates e;
}.

Module StreamingFees.
Section StreamingFees.
Context `{ERC20} `{SignedLib} {E : Type} `{!ReentrancyGuard E} `{!FeeStorage E}.
Implicit Types (this msg_sender _setToken : Address).

Definition PROTOCOL_STREAMING_FEE_INDEX : Z := 0.

(** An unwritten slot of the mapping. *)
Definition no_fee_state : StreamingFeeState :=
  {| feeRecipient := Controller.address0; streamingFeePercentage := 0;
     maxStreamingFeePercentage := 0; lastStreamingFeeTimestamp := 0 |}.

Definition feeState _setToken (w : World E) : StreamingFeeState :=
  default no_fee_state (feeStates (env w) !! _setToken).

Definition put_feeState _setToken (f : StreamingFeeState) : tx E () :=
  modify (λ e, put_feeStates (<[_setToken := f]> (feeStates e)) e).

Definition with_timestamp (t : Z) (f : StreamingFeeState) : StreamingFeeState :=
  {| feeRecipient := feeRecipient f; streamingFeePercentage := streamingFeePercentage f;
     maxStreamingFeePercentage := maxStreamingFeePercentage f; lastStreamingFeeTimestamp := t |}.
Definition with_fee (z : Z) (f : StreamingFeeState) : StreamingFeeState :=
  {| feeRecipient := feeRecipient f; streamingFeePercentage := z;
     maxStreamingFeePercentage := maxStreamingFeePercentage f;
     lastStreamingFeeTimestamp := lastStreamingFeeTimestamp f |}.
Definition with_recipient (a : Address) (f : StreamingFeeState) : StreamingFeeState :=
  {| feeRecipient := a; streamingFeePercentage := streamingFeePercentage f;
     maxStreamingFeePercentage := maxStreamingFeePercentage f;
     lastStreamingFeeTimestamp := lastStreamingFeeTimestamp f |}.

Definition mint this _setToken (_account : Address) (_quantity : Z) : tx E () :=
  on_set _setToken (λ ctl, SetToken.execute ctl this (SetToken.Mint _account _quantity)).

Definition _mintManagerAndProtocolFee this _setToken (_feeQuantity : Z) : tx E (Z * Z) :=
  ctl ← asks controller;
  let protocolFeeRecipient := Controller.feeRecipient ctl in
  let protocolFee := Controller.getModuleFee ctl this PROTOCOL_STREAMING_FEE_INDEX in
  protocolFeeAmount ← lift (PreciseUnitMath.preciseMul_u _feeQuantity protocolFee);
  managerFeeAmount ← lift (SafeMath.sub _feeQuantity protocolFeeAmount);
  f ← asks (feeState _setToken);
  mint this _setToken (feeRecipient f) managerFeeAmount;;
  (if 0 <? protocolFeeAmount then mint this _setToken protocolFeeRecipient protocolFeeAmount
   else mret ());;
  mret (managerFeeAmount, protocolFeeAmount).

Definition _editPositionMultiplier this _setToken (_inflationFee : Z) : tx E () :=
  currentMultipler ← read_set _setToken SetToken.positionMultiplier;
  newMultiplier ← lift (StreamingFeeModule.newMultiplier currentMultipler _inflationFee);
  on_set _setToken (λ ctl, SetToken.execute ctl this (SetToken.EditPositionMultiplier newMultiplier)).

Definition accrueFee this _setToken : tx E (Z * Z) :=
  nonReentrant (
    _validateOnlyValidAndInitializedSet this _setToken;;
    f ← asks (feeState _setToken);
    now ← asks block_timestamp;
    fees ←
      (if 0 <? streamingFeePercentage f then
         inflationFeePercentage ← lift (StreamingFeeModule._calculateStreamingFee now f);
         supply ← read_set _setToken (λ s, totalSupply (SetToken.token s));
         feeQuantity ← lift (StreamingFeeModule._calculateStreamingFeeInflation supply
                               inflationFeePercentage);
         fees ← _mintManagerAndProtocolFee this _setToken feeQuantity;
         _editPositionMultiplier this _setToken inflationFeePercentage;;
         mret fees
       else mret (0, 0));
    f' ← asks (feeState _setToken);
    put_feeState _setToken (with_timestamp now f');;
    mret fees).

Definition initialize this msg_sender _setToken (_settings : StreamingFeeState) : tx E () :=
  _validateOnlySetManager _setToken msg_sender;;
  _validateOnlyValidAndPendingSet this _setToken;;
  requires (negb (bool_decide (feeRecipient _settings = Controller.address0)))
    "Fee Recipient must be non-zero address.";;
  requires (maxStreamingFeePercentage _settings <? PreciseUnitMath.preciseUnit)
    "Max fee must be < 100%.";;
  requires (streamingFeePercentage _settings <=? maxStreamingFeePercentage _settings)
    "Fee must be <= max.";;
  now ← asks block_timestamp;
  put_feeState _setToken (with_timestamp now _settings);;
  on_set _setToken (λ ctl, SetToken.execute ctl this SetToken.InitializeModule).

(** Called by a set, whose slot is deleted. *)
Definition removeModule msg_sender : tx E () :=
  modify (λ e, put_feeStates (base.delete msg_sender (feeStates e)) e).

Definition updateStreamingFee this msg_sender _setToken (_newFee : Z) : tx E () :=
  _validateOnlySetManager _setToken msg_sender;;
  _validateOnlyValidAndInitializedSet this _setToken;;
  f ← asks (feeState _setToken);
  requires (_newFee <? maxStreamingFeePercentage f) "Fee must be less than max";;
  accrueFee this _setToken;;
  f' ← asks (feeState _setToken);
  put_feeState _setToken (with_fee _newFee f').

Definition updateFeeRecipient this msg_sender _setToken (_newFeeRecipient : Address) : tx E () :=
  _validateOnlySetManager _setToken msg_sender;;
  _validateOnlyValidAndInitializedSet this _setToken;;
  requires (negb (bool_decide (_newFeeRecipient = Controller.address0)))
    "Fee Recipient must be non-zero address.";;
  f ← asks (feeState _setToken);
  put_feeState _setToken (with_recipient _newFeeRecipient f).

Definition getFee _setToken : tx E Z :=
  f ← asks (feeState _setToken);
  now ← asks block_timestamp;
  lift (StreamingFeeModule._calculateStreamingFee now f).

(** ** Accrual *)
Implicit Types (w : World E) (s : SetToken.State).

Lemma mint_ok this _setToken (a : Address) (q : Z) (u : ()) w w' s :
  sets w !! _setToken = Some s → is_uint q → is_uint (totalSupply (SetToken.token s)) →
  mint this _setToken a q w = Ok (u, w') →
  ∃ t, w' = put_set _setToken (SetToken.set_token t s) w ∧
    totalSupply t = totalSupply (SetToken.token s) + q ∧ is_uint (totalSupply t) ∧
    ∀ b, balanceOf t b = balanceOf (SetToken.token s) b + if decide (b = a) then q else 0.
Proof. apply set_mint_ok. Qed.

(** [m] tokens more for the manager's recipient, [p] for that of the protocol, and for no
    one else. *)
Definition shared_between (manager protocol : Address) (m p : Z) (t t' : ledger) : Prop :=
  ∀ b, balanceOf t' b = balanceOf t b +
    (if decide (b = manager) then m else 0) + (if decide (b = protocol) then p else 0).

Lemma mintFees_ok this _setToken (q m p : Z) w w' s :
  sets w !! _setToken = Some s → is_uint q → is_uint (totalSupply (SetToken.token s)) →
  is_uint (Controller.getModuleFee (controller w) this PROTOCOL_STREAMING_FEE_INDEX) →
  _mintManagerAndProtocolFee this _setToken q w = Ok ((m, p), w') →
  ∃ t, w' = put_set _setToken (SetToken.set_token t s) w ∧ m + p = q ∧
    p = Z.quot (q * Controller.getModuleFee (controller w) this PROTOCOL_STREAMING_FEE_INDEX) (10 ^ 18) ∧
    totalSupply t = totalSupply (SetToken.token s) + q ∧ is_uint (totalSupply t) ∧
    shared_between (feeRecipient (feeState _setToken w)) (Controller.feeRecipient (controller w)) m p
      (SetToken.token s) t.
Proof.
  intros Es Hq Hs Hf Hw. unfold _mintManagerAndProtocolFee in Hw.
  apply tx_bind_ok in Hw as (ctl & w1 & Hc & Hw). apply asks_ok in Hc as [-> <-]. cbv zeta in Hw.
  apply tx_bind_ok in Hw as (p' & w1 & Hp & Hw). apply lift_ok in Hp as [Hp <-].
  apply preciseMul_u_inv in Hp as [Ep Hp]; [|done..].
  apply tx_bind_ok in Hw as (m' & w1 & Hm & Hw). apply lift_ok in Hm as [Hm <-].
  apply safe_sub_inv in Hm as (Em & _ & Hm); [|done..].
  apply tx_bind_ok in Hw as (f & w1 & Hfs & Hw). apply asks_ok in Hfs as [-> <-].
  apply tx_bind_ok in Hw as (u & w1 & H1 & Hw).
  apply (mint_ok _ _ _ _ _ _ _ s) in H1 as (t & -> & Ht & Htu & Hb); [|done..].
  apply tx_bind_ok in Hw as (u' & w2 & H2 & Hw). apply tx_ret_ok in Hw as [Hw <-].
  injection Hw as <- <-. destruct (Z.ltb_spec 0 p').
  - apply (mint_ok _ _ _ _ _ _ _ (SetToken.set_token t s)) in H2 as (t' & -> & Ht' & Htu' & Hb');
      [|by apply put_set_at|done..].
    exists t'. rewrite put_set_twice. split; [done|]. split; [lia|]. split; [done|].
    cbn in Ht'. split; [lia|]. split; [done|]. intros b. rewrite Hb'. cbn. by rewrite Hb.
  - apply tx_ret_ok in H2 as [_ <-]. exists t. split; [done|]. split; [lia|]. split; [done|].
    unfold is_uint in Hp. split; [lia|]. split; [done|]. intros b. rewrite Hb.
    destruct (decide (b = Controller.feeRecipient _)); lia.
Qed.

Lemma editMultiplier_ok this _setToken (infl : Z) (u : ()) w w' s :
  sets w !! _setToken = Some s → is_int (SetToken.positionMultiplier s) → is_uint infl →
  _editPositionMultiplier this _setToken infl w = Ok (u, w') →
  ∃ s', w' = put_set _setToken s' w ∧ infl ≤ 10 ^ 18 ∧
    SetToken.positionMultiplier s' =
      Z.quot (SetToken.positionMultiplier s * (10 ^ 18 - infl)) (10 ^ 18) ∧
    SetToken.execute (controller w) this
      (SetToken.EditPositionMultiplier (SetToken.positionMultiplier s')) s = Ok s' ∧
    is_int (SetToken.positionMultiplier s') ∧
    SetToken.token s' = SetToken.token s ∧
    SetToken.getComponents s' = SetToken.getComponents s ∧
    ∀ c, SetToken.position s' c = SetToken.position s c.
Proof.
  intros Es Hm Hi Hw. unfold _editPositionMultiplier in Hw.
  apply tx_bind_ok in Hw as (cm & w1 & Hc & Hw). apply read_set_ok in Hc as (s0 & E0 & -> & <-).
  rewrite Es in E0. injection E0 as <-.
  apply tx_bind_ok in Hw as (nm & w1 & Hn & Hw). apply lift_ok in Hn as [Hn <-].
  unfold StreamingFeeModule.newMultiplier in Hn. apply result_bind_ok in Hn as (d & Hd & Hn).
  apply safe_sub_inv in Hd as (-> & Hle & Hd); [|auto using precise_unit_uint..].
  apply result_bind_ok in Hn as (i & Hi' & Hn). apply toInt256_inv in Hi' as (-> & _ & Hi'); [|done].
  apply preciseMul_i_inv in Hn as [-> Hn]; [|done..].
  apply (on_set_at _ _ _ _ _ s) in Hw as (s' & E1 & ->); [|done]. pose proof E1 as E2. cbn in E2.
  unfold SetToken.editPositionMultiplier in E2. apply result_bind_ok in E2 as (? & _ & E2).
  apply result_bind_ok in E2 as (? & _ & E2). injection E2 as <-. by eexists.
Qed.

Lemma calculateStreamingFee_inv (now infl : Z) (f : StreamingFeeState) :
  is_uint now → is_uint (lastStreamingFeeTimestamp f) → is_uint (streamingFeePercentage f) →
  StreamingFeeModule._calculateStreamingFee now f = Ok infl →
  infl = (now - lastStreamingFeeTimestamp f) * streamingFeePercentage f / 31557600 ∧
  lastStreamingFeeTimestamp f ≤ now ∧ is_uint infl.
Proof.
  intros Hn Hl Hr E1. unfold StreamingFeeModule._calculateStreamingFee in E1.
  apply result_bind_ok in E1 as (d & Hd & E1). apply safe_sub_inv in Hd as (-> & Hle & Hd); [|done..].
  apply result_bind_ok in E1 as (p & Hp & E1). apply safe_mul_inv in Hp as [-> Hp]; [|done..].
  change StreamingFeeModule.ONE_YEAR_IN_SECONDS with 31557600 in E1.
  apply safe_div_inv in E1 as (-> & _ & Hi); [|done|unfold is_uint, UINT_MAX; lia].
  rewrite quot_floor in * by (unfold is_uint in *; lia). done.
Qed.

Lemma calculateInflation_inv (supply infl n : Z) :
  is_uint supply → is_uint infl →
  StreamingFeeModule._calculateStreamingFeeInflation supply infl = Ok n →
  n = Z.quot (infl * supply) (10 ^ 18 - infl) ∧ infl < 10 ^ 18 ∧ is_uint n.
Proof.
  intros Hs Hi E1. unfold StreamingFeeModule._calculateStreamingFeeInflation in E1.
  apply result_bind_ok in E1 as (a & Ha & E1). apply safe_mul_inv in Ha as [-> Ha]; [|done..].
  apply result_bind_ok in E1 as (b & Hb & E1).
  apply safe_sub_inv in Hb as (-> & _ & Hb); [|auto using precise_unit_uint..].
  apply safe_div_inv in E1 as (-> & Hpos & Hn); [|done..].
  change PreciseUnitMath.preciseUnit with (10 ^ 18) in *. split; [done|]. split; [lia|done].
Qed.

(** What an accrual at a positive rate does to the set: [infl] is the inflation,
    [m] and [p] go to the recipients of the manager and of the protocol. *)
Definition accrued (manager protocol : Address) (fee : Z) (infl m p : Z) (s s' : SetToken.State) : Prop :=
  0 ≤ infl < 10 ^ 18 ∧
  m + p = Z.quot (infl * totalSupply (SetToken.token s)) (10 ^ 18 - infl) ∧
  p = Z.quot ((m + p) * fee) (10 ^ 18) ∧
  totalSupply (SetToken.token s') = totalSupply (SetToken.token s) + (m + p) ∧
  SetToken.positionMultiplier s' = Z.quot (SetToken.positionMultiplier s * (10 ^ 18 - infl)) (10 ^ 18) ∧
  shared_between manager protocol m p (SetToken.token s) (SetToken.token s') ∧
  SetToken.getComponents s' = SetToken.getComponents s ∧
  ∀ c, SetToken.position s' c = SetToken.position s c.

(** The branch of [accrueFee] that mints. *)
Definition accruing this _setToken (f : StreamingFeeState) (now : Z) : tx E (Z * Z) :=
  if 0 <? streamingFeePercentage f then
    inflationFeePercentage ← lift (StreamingFeeModule._calculateStreamingFee now f);
    supply ← read_set _setToken (λ s, totalSupply (SetToken.token s));
    feeQuantity ← lift (StreamingFeeModule._calculateStreamingFeeInflation supply
                          inflationFeePercentage);
    fees ← _mintManagerAndProtocolFee this _setToken feeQuantity;
    _editPositionMultiplier this _setToken inflationFeePercentage;;
    mret fees
  else mret (0, 0).

Lemma accrueFee_eq this _setToken :
  accrueFee this _setToken = nonReentrant (
    _validateOnlyValidAndInitializedSet this _setToken;;
    f ← asks (feeState _setToken);
    now ← asks block_timestamp;
    fees ← accruing this _setToken f now;
    f' ← asks (feeState _setToken);
    put_feeState _setToken (with_timestamp now f');;
    mret fees).
Proof. done. Qed.

Lemma consistent_token s (t : ledger) :
  SetToken.consistent s → is_uint (totalSupply t) → SetToken.consistent (SetToken.set_token t s).
Proof. by intros (? & ? & ? & ? & ? & ? & _) ?. Qed.

Lemma accruing_ok this _setToken (m p now : Z) w w' s f :
  this ≠ Controller.address0 → sets w !! _setToken = Some s → SetToken.consistent s →
  is_uint now → is_uint (lastStreamingFeeTimestamp f) → is_uint (streamingFeePercentage f) →
  is_uint (Controller.getModuleFee (controller w) this PROTOCOL_STREAMING_FEE_INDEX) →
  accruing this _setToken f now w = Ok ((m, p), w') →
  ∃ s', w' = put_set _setToken s' w ∧ SetToken.consistent s' ∧
    if 0 <? streamingFeePercentage f then
      accrued (feeRecipient (feeState _setToken w)) (Controller.feeRecipient (controller w))
        (Controller.getModuleFee (controller w) this PROTOCOL_STREAMING_FEE_INDEX)
        ((now - lastStreamingFeeTimestamp f) * streamingFeePercentage f / 31557600) m p s s' ∧
      lastStreamingFeeTimestamp f ≤ now
    else m = 0 ∧ p = 0 ∧ s' = s.
Proof.
  intros Ht Es Hs Hnow Hlast Hrate Hfee Hw. unfold accruing in Hw.
  destruct (0 <? streamingFeePercentage f).
  2: { apply tx_ret_ok in Hw as [Hw <-]. injection Hw as <- <-. exists s.
       by rewrite put_set_id. }
  pose proof Hs as (_ & _ & _ & _ & Hm & _ & Hsu).
  apply tx_bind_ok in Hw as (infl & w1 & Hi & Hw). apply lift_ok in Hi as [Hi <-].
  apply calculateStreamingFee_inv in Hi as (Ei & Hle & Hi); [|done..].
  apply tx_bind_ok in Hw as (su & w1 & Hsup & Hw). apply read_set_ok in Hsup as (s0 & E0 & -> & <-).
  rewrite Es in E0. injection E0 as <-.
  apply tx_bind_ok in Hw as (n & w1 & Hn & Hw). apply lift_ok in Hn as [Hn <-].
  apply calculateInflation_inv in Hn as (En & Hlt & Hn); [|done..].
  apply tx_bind_ok in Hw as ([m' p'] & w1 & Hf & Hw).
  apply (mintFees_ok _ _ _ _ _ _ _ s) in Hf as (t & -> & Hmp & Hp & Htot & Htu & Hsh); [|done..].
  apply tx_bind_ok in Hw as (u & w2 & He & Hw). apply tx_ret_ok in Hw as [Hw <-].
  injection Hw as <- <-.
  apply (editMultiplier_ok _ _ _ _ _ _ (SetToken.set_token t s)) in He
    as (s' & -> & _ & Hmul & Hex & Hmi & Htok & Hc & Hpos); [|by apply put_set_at|done..].
  exists s'. rewrite put_set_twice, <- Ei. split; [done|].
  assert (SetToken.consistent s') as Hs'.
  { apply (SetToken.step_consistent (SetToken.set_token t s)); [by apply consistent_token|].
    by exists (controller w), this, (SetToken.EditPositionMultiplier (SetToken.positionMultiplier s')). }
  split; [done|]. split; [|done]. split; [unfold is_uint in Hi; lia|].
  split; [by rewrite Hmp|]. split; [by rewrite Hmp|]. split; [by rewrite Htok, Hmp|].
  split; [done|]. split; [by rewrite Htok|done].
Qed.

Lemma validate_same this _setToken (u : ()) w w' :
  _validateOnlyValidAndInitializedSet this _setToken w = Ok (u, w') → w' = w.
Proof.
  intros Hw. unfold _validateOnlyValidAndInitializedSet, isSetValidAndInitialized in Hw.
  apply tx_bind_ok in Hw as (v & w1 & Hv & Hw). apply requires_ok in Hw as [_ <-].
  apply tx_bind_ok in Hv as (c & w2 & Hc & Hv). apply asks_ok in Hc as [-> <-].
  destruct (bool_decide _); by tx_inv.
Qed.

Lemma feeState_enter _setToken (e : E) w :
  guard_enter (env w) = Ok e → feeState _setToken (set_env e w) = feeState _setToken w.
Proof. intros He. unfold feeState. cbn. by rewrite (feeStates_enter _ _ He). Qed.

Lemma feeState_put_set _setToken (a : Address) s w :
  feeState _setToken (put_set a s w) = feeState _setToken w.
Proof. done. Qed.

Lemma accrueFee_ok this _setToken (m p : Z) w w' s f :
  this ≠ Controller.address0 → sets w !! _setToken = Some s → SetToken.consistent s →
  f = feeState _setToken w → is_uint (block_timestamp w) →
  is_uint (lastStreamingFeeTimestamp f) → is_uint (streamingFeePercentage f) →
  is_uint (Controller.getModuleFee (controller w) this PROTOCOL_STREAMING_FEE_INDEX) →
  accrueFee this _setToken w = Ok ((m, p), w') →
  ∃ s', sets w' = <[_setToken := s']> (sets w) ∧ SetToken.consistent s' ∧
    feeState _setToken w' = with_timestamp (block_timestamp w) f ∧
    if 0 <? streamingFeePercentage f then
      accrued (feeRecipient f) (Controller.feeRecipient (controller w))
        (Controller.getModuleFee (controller w) this PROTOCOL_STREAMING_FEE_INDEX)
        ((block_timestamp w - lastStreamingFeeTimestamp f) * streamingFeePercentage f / 31557600)
        m p s s' ∧ lastStreamingFeeTimestamp f ≤ block_timestamp w
    else m = 0 ∧ p = 0 ∧ s' = s.
Proof.
  intros Ht Es Hs Ef Hnow Hlast Hrate Hfee Hw. rewrite accrueFee_eq in Hw.
  apply nonReentrant_ok in Hw as (e & w1 & He & Hw & ->).
  apply tx_bind_ok in Hw as (u & w2 & Hv & Hw). apply validate_same in Hv as ->.
  apply tx_bind_ok in Hw as (f0 & w2 & Hf0 & Hw). apply asks_ok in Hf0 as [-> <-].
  rewrite (feeState_enter _ _ _ He), <- Ef in Hw.
  apply tx_bind_ok in Hw as (now & w2 & Hn & Hw). apply asks_ok in Hn as [-> <-]. cbn in Hw.
  apply tx_bind_ok in Hw as ([m' p'] & w2 & Hacc & Hw).
  apply (accruing_ok _ _ _ _ _ _ _ s) in Hacc as (s' & -> & Hs' & Hif); [|done..].
  rewrite (feeState_enter _ _ _ He), <- Ef in Hif. cbn in Hif.
  apply tx_bind_ok in Hw as (f1 & w2 & Hf1 & Hw). apply asks_ok in Hf1 as [-> <-].
  apply tx_bind_ok in Hw as (u1 & w2 & Hput & Hw). apply tx_ret_ok in Hw as [Hw <-].
  injection Hw as <- <-. apply modify_ok in Hput as ->.
  rewrite feeState_put_set, (feeState_enter _ _ _ He), <- Ef. cbn.
  exists s'. split; [done|]. split; [done|]. split; [|done].
  unfold feeState. cbn. rewrite feeStates_leave, feeStates_put. by rewrite lookup_insert_eq.
Qed.

(** C33. An accrual turns the clock of the set's fee and, at a positive rate,
    mints the number of tokens the tool chain predicts for the inflation since
    the last accrual: the module's fee of it to the recipient of the protocol, the
    rest to the recipient the set's manager has named, nothing to anyone else; and it
    scales the multiplier by what the inflation leaves; positions and components stay,
    and so does every other set. *)
Theorem accrueFee_predicted `{Ethers} this _setToken (m p : Z) w w' s f
    (Ht : this ≠ Controller.address0) (Es : sets w !! _setToken = Some s)
    (Hs : SetToken.consistent s) (Ef : f = feeState _setToken w)
    (Hnow : is_uint (block_timestamp w)) (Hlast : is_uint (lastStreamingFeeTimestamp f))
    (Hrate : is_uint (streamingFeePercentage f))
    (Hfee : is_uint (Controller.getModuleFee (controller w) this PROTOCOL_STREAMING_FEE_INDEX))
    (Hw : accrueFee this _setToken w = Ok ((m, p), w')) :
  ∃ s' infl, sets w' = <[_setToken := s']> (sets w) ∧ SetToken.consistent s' ∧
    feeState _setToken w' = with_timestamp (block_timestamp w) f ∧
    if 0 <? streamingFeePercentage f then
      infl = (block_timestamp w - lastStreamingFeeTimestamp f) * streamingFeePercentage f / 31557600 ∧
      getStreamingFeeInflationAmount infl (totalSupply (SetToken.token s)) = Ok (m + p) ∧
      accrued (feeRecipient f) (Controller.feeRecipient (controller w))
        (Controller.getModuleFee (controller w) this PROTOCOL_STREAMING_FEE_INDEX) infl m p s s'
    else m = 0 ∧ p = 0 ∧ s' = s.
Proof.
  destruct (accrueFee_ok this _setToken m p w w' s f) as (s' & Hset & Hs' & Hfs & Hif); [done..|].
  eexists s', _. split; [done|]. split; [done|]. split; [done|].
  destruct (0 <? streamingFeePercentage f); [|done].
  destruct Hif as [Hacc _]. split; [done|]. split; [|done].
  destruct Hacc as ((? & ?) & -> & _). unfold getStreamingFeeInflationAmount. by bn_simpl.
Qed.

(** Minting [infl] of the supply and scaling the multiplier by the rest. *)
Lemma dilution (mul supply infl : Z) :
  0 ≤ mul → 0 ≤ supply → 0 ≤ infl < 10 ^ 18 →
  Z.quot (mul * (10 ^ 18 - infl)) (10 ^ 18) *
    (supply + Z.quot (infl * supply) (10 ^ 18 - infl)) ≤ mul * supply.
Proof.
  intros Hm Hs Hi. set (b := 10 ^ 18 - infl). set (m' := Z.quot (mul * b) (10 ^ 18)).
  set (n := Z.quot (infl * supply) b).
  pose proof (quot_bounds (mul * b) (10 ^ 18)) as B1. fold m' in B1.
  pose proof (quot_bounds (infl * supply) b) as B2. fold n in B2.
  assert (0 ≤ m') by (apply Z.quot_pos; unfold b; nia).
  assert (0 ≤ n) by (apply Z.quot_pos; unfold b; nia).
  assert ((supply + n) * b ≤ supply * 10 ^ 18) by (unfold b in *; nia).
  assert (m' * 10 ^ 18 * (supply + n) ≤ mul * (supply * 10 ^ 18)) by nia. nia.
Qed.

(** C30. An accrual never increases the holders' claim: for a positive supply the
    product of the multiplier and the supply, by which the claim on each virtual
    unit is measured, does not grow. *)
Theorem accrueFee_dilutes this _setToken (m p : Z) w w' s f
    (Ht : this ≠ Controller.address0) (Es : sets w !! _setToken = Some s)
    (Hs : SetToken.consistent s) (Ef : f = feeState _setToken w)
    (Hnow : is_uint (block_timestamp w)) (Hlast : is_uint (lastStreamingFeeTimestamp f))
    (Hrate : is_uint (streamingFeePercentage f))
    (Hfee : is_uint (Controller.getModuleFee (controller w) this PROTOCOL_STREAMING_FEE_INDEX))
    (Hw : accrueFee this _setToken w = Ok ((m, p), w')) :
  ∃ s', sets w' !! _setToken = Some s' ∧
    SetToken.positionMultiplier s' * totalSupply (SetToken.token s')
      ≤ SetToken.positionMultiplier s * totalSupply (SetToken.token s).
Proof.
  destruct (accrueFee_ok this _setToken m p w w' s f) as (s' & Hset & Hs' & Hfs & Hif); [done..|].
  exists s'. rewrite Hset. split; [apply lookup_insert_eq|].
  destruct Hs as (_ & _ & _ & _ & _ & Hm & Hsu).
  destruct (0 <? streamingFeePercentage f); [|by destruct Hif as (_ & _ & ->)].
  destruct Hif as [(Hi & Hmp & _ & -> & -> & _) _]. rewrite Hmp.
  apply dilution; [lia|apply Hsu|done].
Qed.

(** ** The fee parameters *)

Definition valid_fee (f : StreamingFeeState) : Prop :=
  0 ≤ streamingFeePercentage f ≤ maxStreamingFeePercentage f ∧
  maxStreamingFeePercentage f < 10 ^ 18 ∧
  (0 < maxStreamingFeePercentage f → feeRecipient f ≠ Controller.address0).

(** A transaction of the module, by any caller, or one that leaves its mapping
    alone. *)
Inductive fee_step this : World E → World E → Prop :=
| fee_accrue _setToken r w w' : accrueFee this _setToken w = Ok (r, w') → fee_step this w w'
| fee_initialize msg_sender _setToken _settings u w w' :
    0 ≤ streamingFeePercentage _settings →
    initialize this msg_sender _setToken _settings w = Ok (u, w') → fee_step this w w'
| fee_remove msg_sender u w w' : removeModule msg_sender w = Ok (u, w') → fee_step this w w'
| fee_update msg_sender _setToken _newFee u w w' :
    0 ≤ _newFee → updateStreamingFee this msg_sender _setToken _newFee w = Ok (u, w') →
    fee_step this w w'
| fee_recipient msg_sender _setToken _newFeeRecipient u w w' :
    updateFeeRecipient this msg_sender _setToken _newFeeRecipient w = Ok (u, w') → fee_step this w w'
| fee_other w w' : feeStates (env w') = feeStates (env w) → fee_step this w w'.

Definition fees_valid w : Prop := ∀ a f, feeStates (env w) !! a = Some f → valid_fee f.

Lemma no_fee_valid : valid_fee no_fee_state.
Proof. done. Qed.

Lemma feeState_valid _setToken w : fees_valid w → valid_fee (feeState _setToken w).
Proof.
  intros Hw. unfold feeState. destruct (feeStates (env w) !! _setToken) eqn:Ef; [by eapply Hw|].
  apply no_fee_valid.
Qed.

Lemma put_valid _setToken (f : StreamingFeeState) (u : ()) w w' :
  fees_valid w → valid_fee f → put_feeState _setToken f w = Ok (u, w') → fees_valid w'.
Proof.
  intros Hw Hf Hp. apply modify_ok in Hp as ->. intros a g. cbn. rewrite feeStates_put.
  rewrite lookup_insert_Some. intros [[_ <-]|[_ Hg]]; [done|by eapply Hw].
Qed.

Lemma accruing_env this _setToken f now : env_kept (accruing this _setToken f now).
Proof.
  unfold accruing, _mintManagerAndProtocolFee, _editPositionMultiplier, mint. env_kept.
Qed.

Lemma feeState_env _setToken w w' :
  feeStates (env w') = feeStates (env w) → feeState _setToken w' = feeState _setToken w.
Proof. intros Hw. unfold feeState. by rewrite Hw. Qed.

(** An accrual writes the time into the slot of its set and nothing else. *)
Lemma accrueFee_writes this _setToken (r : Z * Z) w w' :
  accrueFee this _setToken w = Ok (r, w') →
  feeStates (env w') =
    <[_setToken := with_timestamp (block_timestamp w) (feeState _setToken w)]> (feeStates (env w)).
Proof.
  intros Hw. rewrite accrueFee_eq in Hw. apply nonReentrant_ok in Hw as (e & w1 & He & Hw & ->).
  apply tx_bind_ok in Hw as (u & w2 & Hu & Hw). apply validate_same in Hu as ->.
  do 2 (apply tx_bind_ok in Hw as (? & w2 & Ha & Hw); apply asks_ok in Ha as [-> <-]).
  apply tx_bind_ok in Hw as (fees & w2 & Hacc & Hw). apply accruing_env in Hacc.
  apply tx_bind_ok in Hw as (? & w3 & Ha & Hw). apply asks_ok in Ha as [-> <-].
  apply tx_bind_ok in Hw as (? & w3 & Hput & Hw). apply tx_ret_ok in Hw as [_ <-].
  apply modify_ok in Hput as ->. cbn. rewrite feeStates_leave, feeStates_put, Hacc. cbn.
  assert (feeState _setToken w2 = feeState _setToken w) as ->; [|by rewrite (feeStates_enter _ _ He)].
  apply feeState_env. rewrite Hacc. cbn. by apply feeStates_enter.
Qed.

Lemma valid_timestamp (t : Z) f : valid_fee f → valid_fee (with_timestamp t f).
Proof. done. Qed.

Lemma accrueFee_valid this _setToken (r : Z * Z) w w' :
  fees_valid w → accrueFee this _setToken w = Ok (r, w') → fees_valid w'.
Proof.
  intros Hv Hw a f. rewrite (accrueFee_writes _ _ _ _ _ Hw), lookup_insert_Some.
  intros [[_ <-]|[_ Hf]]; [|by eapply Hv]. by apply valid_timestamp, feeState_valid.
Qed.

(** The guards of the management functions change nothing. *)
Lemma manager_same _setToken (a : Address) (u : ()) w w' :
  _validateOnlySetManager _setToken a w = Ok (u, w') → w' = w.
Proof. intros Hw. unfold _validateOnlySetManager, isSetManager in Hw. by tx_inv. Qed.

Lemma fee_step_valid this w w' : fees_valid w → fee_step this w w' → fees_valid w'.
Proof.
  intros Hv Hst. destruct Hst as [st r w w' Hw|a st f u w w' Hf Hw|a u w w' Hw|a st z u w w' Hz Hw|
    a st b u w w' Hw|w w' Hw].
  - by eapply accrueFee_valid.
  - unfold initialize in Hw. apply tx_bind_ok in Hw as (? & w1 & Hm & Hw).
    apply manager_same in Hm as ->. unfold _validateOnlyValidAndPendingSet, isSetPendingInitialization in Hw.
    tx_inv. rename select (put_feeState _ _ _ = _) into Hp.
    apply on_set_ok in Hw as (? & ? & _ & _ & ->).
    eapply put_valid in Hp; [exact Hp|done|].
    rename select ((_ <? _) = true) into Hmax. rename select ((_ <=? _) = true) into Hle.
    rename select (negb _ = true) into Hrec. apply Z.ltb_lt in Hmax. apply Z.leb_le in Hle.
    apply negb_true_iff, bool_decide_eq_false in Hrec. by split; [split|].
  - apply modify_ok in Hw as ->. intros b f. cbn. rewrite feeStates_put, lookup_delete_Some.
    intros [_ Hf]. by eapply Hv.
  - unfold updateStreamingFee in Hw. apply tx_bind_ok in Hw as (? & w1 & Hm & Hw).
    apply manager_same in Hm as ->. apply tx_bind_ok in Hw as (? & w1 & Hm & Hw).
    apply validate_same in Hm as ->. apply tx_bind_ok in Hw as (f & w1 & Hf & Hw).
    apply asks_ok in Hf as [-> <-]. apply tx_bind_ok in Hw as (? & w1 & Hr & Hw).
    apply requires_ok in Hr as [Hr <-]. apply Z.ltb_lt in Hr.
    apply tx_bind_ok in Hw as (r & w1 & Hacc & Hw).
    apply tx_bind_ok in Hw as (g & w2 & Hg & Hw). apply asks_ok in Hg as [-> <-].
    eapply put_valid in Hw; [exact Hw|by eapply accrueFee_valid|].
    pose proof (feeState_valid st w Hv) as (_ & Hmax & Hrec).
    assert (feeState st w1 = with_timestamp (block_timestamp w) (feeState st w)) as ->.
    { unfold feeState at 1. rewrite (accrueFee_writes _ _ _ _ _ Hacc). by rewrite lookup_insert_eq. }
    split; [cbn; lia|]. by split.
  - unfold updateFeeRecipient in Hw. apply tx_bind_ok in Hw as (? & w1 & Hm & Hw).
    apply manager_same in Hm as ->. apply tx_bind_ok in Hw as (? & w1 & Hm & Hw).
    apply validate_same in Hm as ->. tx_inv. rename select (negb _ = true) into Hrec.
    apply negb_true_iff, bool_decide_eq_false in Hrec.
    eapply put_valid in Hw; [exact Hw|done|]. apply (feeState_valid st) in Hv as (? & ? & _).
    by split.
  - intros a f. rewrite Hw. apply Hv.
Qed.

(** Whatever transactions of any callers the module goes through, the rate
    of every set stays at most its maximum, the maximum below one, and a set
    that can be charged has a recipient. *)
Theorem fee_parameters_valid this w w'
    (Hempty : feeStates (env w) = ∅) (Hsteps : rtc (fee_step this) w w') : fees_valid w'.
Proof.
  assert (fees_valid w) as Hv by (intros a f; rewrite Hempty, lookup_empty; done).
  clear Hempty. induction Hsteps; [done|]. eauto using fee_step_valid.
Qed.
End StreamingFees.

(** ** Concrete instances *)

Definition storage : Type := gmap Address StreamingFeeState * bool.

#[export] Instance guard_flag : ReentrancyGuard storage := {|
  guard_enter := λ e : storage,
    if snd e then Throw (Revert "ReentrancyGuard: reentrant call") else Ok (fst e, true);
  guard_leave := λ e : storage, (fst e, false);
|}.

#[local] Obligation Tactic := try done; cbv beta.
#[export] Program Instance storage_fees : FeeStorage storage := {|
  feeStates := λ e : storage, fst e;
  put_feeStates := λ m (e : storage), (m, snd e);
|}.
Next Obligation. intros e e' He. cbn in He. destruct (snd e); [done|]. by injection He as <-. Qed.

Definition sample_fee_state : StreamingFeeState :=
  {| feeRecipient := "r"%string; streamingFeePercentage := 2 * 10 ^ 16;
     maxStreamingFeePercentage := 10 ^ 17; lastStreamingFeeTimestamp := 1000 |}.

(** One year after the last accrual. *)
Definition sample_world : World storage :=
  {| controller := PositionLib.sample_controller;
     sets := {[ "set"%string := SetToken.sample_fee ]}; registries := ∅;
     block_timestamp := 31558600; env := ({[ "set"%string := sample_fee_state ]}, false) |}.

Definition sample_accrual : result (Z * Z * World storage) := accrueFee "m1" "set" sample_world.
Definition sample_accrued : World storage := PositionLib.after sample_world sample_accrual.

Lemma sample_accrual_ran : sample_accrual = Ok ((20408163265306122, 0), sample_accrued).
Proof. apply (PositionLib.ran (0, 0)). vm_compute. reflexivity. Qed.

Lemma accrueFee_predicted_witness :
  getStreamingFeeInflationAmount (2 * 10 ^ 16) (10 ^ 18) = Ok 20408163265306122 ∧
  ∃ s', sets sample_accrued = <["set"%string := s']> (sets sample_world) ∧
    SetToken.consistent s' ∧
    balanceOf (SetToken.token s') "r"%string =
      balanceOf (SetToken.token SetToken.sample_fee) "r"%string + 20408163265306122.
Proof.
  destruct (accrueFee_predicted "m1" "set" 20408163265306122 0 sample_world sample_accrued
    SetToken.sample_fee sample_fee_state) as (s' & infl & Es & Hs & _ & Hif);
    [discriminate|reflexivity|apply SetToken.sample_fee_consistent|reflexivity|cbn; word..|
     vm_compute; split; discriminate|exact sample_accrual_ran|].
  cbn in Hif. destruct Hif as (-> & Hn & _ & _ & _ & _ & _ & Hsh & _). split; [exact Hn|].
  exists s'. split; [exact Es|]. split; [exact Hs|]. rewrite (Hsh "r"%string).
  rewrite decide_True by reflexivity. destruct (decide _); cbn; lia.
Defined.

(** What the holders of the set could claim before and after. *)
Definition claim (w : World storage) : option Z :=
  (λ s, SetToken.positionMultiplier s * totalSupply (SetToken.token s)) <$> sets w !! ("set"%string : Address).

Lemma accrueFee_dilutes_witness :
  (∃ c, claim sample_accrued = Some c ∧ c ≤ 9 * 10 ^ 35) ∧ claim sample_world = Some (9 * 10 ^ 35).
Proof.
  split; [|vm_compute; reflexivity].
  destruct (accrueFee_dilutes "m1" "set" 20408163265306122 0 sample_world sample_accrued
    SetToken.sample_fee sample_fee_state) as (s' & Es & Hc);
    [discriminate|reflexivity|apply SetToken.sample_fee_consistent|reflexivity|cbn; word..|
     vm_compute; split; discriminate|exact sample_accrual_ran|].
  eexists. split; [unfold claim; rewrite Es; reflexivity|]. etrans; [exact Hc|].
  vm_compute. discriminate.
Defined.

Definition sample_pending : World storage :=
  {| controller := PositionLib.sample_controller;
     sets := {[ "set"%string := SetToken.sample_new ]}; registries := ∅;
     block_timestamp := 1000; env := (∅, false) |}.

Definition sample_initialized : World storage :=
  PositionLib.after sample_pending
    (initialize "m1" "manager" "set" sample_fee_state sample_pending).

Lemma fee_parameters_valid_witness :
  fees_valid sample_initialized ∧
  feeStates (env sample_initialized) !! "set"%string = Some sample_fee_state.
Proof.
  split; [|vm_compute; reflexivity].
  apply (fee_parameters_valid "m1" sample_pending); [reflexivity|]. apply rtc_once.
  apply (fee_initialize "m1" "manager" "set" sample_fee_state () sample_pending); [cbn; lia|].
  apply (PositionLib.ran_unit _ _). vm_compute. reflexivity.
Defined.

(** When more than the whole supply would have to be minted, nothing can be
    accrued any more. *)
Lemma accrual_too_late :
  thrown (accrueFee "m1" "set"
    {| controller := controller sample_world; sets := sets sample_world; registries := ∅;
       block_timestamp := 1000 + 51 * 31557600; env := env sample_world |})
  = Some (Revert "SafeMath: subtraction overflow").
Proof. vm_compute. reflexivity. Qed.
End StreamingFees.
