(* ===== verification/AuctionPrice.v ===== *)
(** * The price adapters of the auctions

    [contracts/protocol/integration/auction-price/]: the constant price and the
    bounded stepwise prices, linear, exponential and logarithmic in time, with
    the encoding of their parameters.  These contracts use checked arithmetic of
    the language; the library of the exponential and the logarithm is outside the
    repository and is the class [FixedPointMath]. *)
From Stdlib Require Import String.
From S2P Require Import Prelude JsString BigNumber Constants MathUtils SolMath.

(** ** Encoded parameters *)

Module Abi.
(** A word as 32 bytes, the most significant first. *)
Definition word_bytes (z : Z) : list Z :=
  let d := digits 256 z in replicate (32 - length d) 0 ++ d.

(** [abi.encode] of static values. *)
Definition encode (words : list Z) : list Z := concat (word_bytes <$> words).

(** [abi.decode] of [n] static values; bytes after them are ignored. *)
Fixpoint decode (n : nat) (bytes : list Z) : result (list Z) :=
  match n with
  | O => Ok []
  | S n' =>
      require (32 <=? length bytes)%nat EmptyString;;
      ws ← decode n' (drop 32 bytes);
      Ok (undigits 256 (take 32 bytes) :: ws)
  end.

Definition of_bool (b : bool) : Z := if b then 1 else 0.

(** A word that is neither 0 nor 1 is no boolean. *)
Definition to_bool (w : Z) : result bool :=
  if w =? 0 then Ok false else if w =? 1 then Ok true else Throw (Revert EmptyString).
End Abi.

(** ** Checked arithmetic *)

Module Checked.
Definition overflow {A} : result A := Throw (Revert "Panic(0x11)").

Definition add (a b : Z) : result Z := if fits (a + b) then Ok (a + b) else overflow.
Definition sub (a b : Z) : result Z := if b <=? a then Ok (a - b) else overflow.
Definition mul (a b : Z) : result Z := if fits (a * b) then Ok (a * b) else overflow.
Definition div (a b : Z) : result Z :=
  if b =? 0 then Throw (Revert "Panic(0x12)") else Ok (a / b).
Definition add_int (a b : Z) : result Z :=
  if (INT_MIN <=? a + b) && (a + b <=? INT_MAX) then Ok (a + b) else overflow.
End Checked.

(** [FixedPointMathLib]: the larger and the smaller word, and the exponential and
    the logarithm of numbers scaled by [10 ^ 18], which are monotone. *)
Definition EXP_LIMIT : Z := 135305999368893231589.

Class FixedPointMath := {
  fp_max : Z → Z → Z;
  fp_min : Z → Z → Z;
  expWad : Z → result Z;
  lnWad : Z → result Z;
  fp_max_spec a b : fp_max a b = Z.max a b;
  fp_min_spec a b : fp_min a b = Z.min a b;
  expWad_ok x : x < EXP_LIMIT → ∃ y, expWad x = Ok y ∧ 0 ≤ y ≤ INT_MAX;
  expWad_mono x y a b : x ≤ y → expWad x = Ok a → expWad y = Ok b → a ≤ b;
  expWad_0 : expWad 0 = Ok (10 ^ 18);
  lnWad_ok x : 0 < x → x ≤ INT_MAX → ∃ y, lnWad x = Ok y ∧ is_int y;
  lnWad_undefined x : x ≤ 0 → is_ok (lnWad x) = false;
  lnWad_mono x y a b : x ≤ y → lnWad x = Ok a → lnWad y = Ok b → a ≤ b;
  lnWad_1 : lnWad (10 ^ 18) = Ok 0;
}.

(** ** The interface *)

Record IAuctionPriceAdapterV1 := {
  getPrice : Address → Address → Z → Z → Z → list Z → result Z;
  isPriceAdapterConfigDataValid : list Z → result bool;
}.

(** ** [ConstantPriceAdapter] *)

Module ConstantPrice.
Definition getEncodedData (_price : Z) : list Z := Abi.encode [_price].

Definition getDecodedData (_data : list Z) : result Z :=
  ws ← Abi.decode 1 _data;
  match ws with [p] => Ok p | _ => Throw (Revert EmptyString) end.

Definition getPrice (_priceAdapterConfigData : list Z) : result Z :=
  price ← getDecodedData _priceAdapterConfigData;
  require (0 <? price) "ConstantPriceAdapter: Price must be greater than 0";;
  Ok price.

Definition isPriceAdapterConfigDataValid (_priceAdapterConfigData : list Z) : result bool :=
  price ← getDecodedData _priceAdapterConfigData; Ok (0 <? price).

Definition adapter : IAuctionPriceAdapterV1 :=
  Build_IAuctionPriceAdapterV1 (λ _ _ _ _ _, getPrice) isPriceAdapterConfigDataValid.
End ConstantPrice.

(** ** The bounds of the stepwise prices *)

Section Bounded.
Context `{FixedPointMath}.

Definition _getBoundaryPrice (isDecreasing : bool) (maxPrice minPrice : Z) : Z :=
  if isDecreasing then minPrice else maxPrice.

(** The last statement of the three functions. *)
Definition bounded_price (isDecreasing : bool) (priceChange initialPrice maxPrice minPrice : Z)
    : result Z :=
  if isDecreasing then
    if initialPrice <? priceChange then Ok minPrice
    else d ← Checked.sub initialPrice priceChange; Ok (fp_max d minPrice)
  else
    room ← Checked.sub UINT_MAX initialPrice;
    if room <? priceChange then Ok maxPrice
    else s ← Checked.add initialPrice priceChange; Ok (fp_min s maxPrice).
End Bounded.

(** ** [BoundedStepwiseLinearPriceAdapter] *)

Module LinearPrice.
Record params := {
  initialPrice : Z; slope : Z; bucketSize : Z; isDecreasing : bool; maxPrice : Z; minPrice : Z;
}.

Definition areParamsValid (_initialPrice _slope _bucketSize _maxPrice _minPrice : Z) : bool :=
  (0 <? _initialPrice) && (0 <? _slope) && (0 <? _bucketSize)
  && (_initialPrice <=? _maxPrice) && (_minPrice <=? _initialPrice).

Definition valid (p : params) : bool :=
  areParamsValid (initialPrice p) (slope p) (bucketSize p) (maxPrice p) (minPrice p).

Definition getEncodedData (p : params) : list Z :=
  Abi.encode [initialPrice p; slope p; bucketSize p; Abi.of_bool (isDecreasing p); maxPrice p;
              minPrice p].

Definition getDecodedData (_data : list Z) : result params :=
  ws ← Abi.decode 6 _data;
  match ws with
  | [i; s; b; d; M; m] =>
      dec ← Abi.to_bool d;
      Ok {| initialPrice := i; slope := s; bucketSize := b; isDecreasing := dec; maxPrice := M;
            minPrice := m |}
  | _ => Throw (Revert EmptyString)
  end.

Section Price.
Context `{FixedPointMath}.

Definition getPrice (_timeElapsed : Z) (_priceAdapterConfigData : list Z) : result Z :=
  p ← getDecodedData _priceAdapterConfigData;
  require (valid p) "BoundedStepwiseLinearPriceAdapter: Invalid params";;
  bucket ← Checked.div _timeElapsed (bucketSize p);
  limit ← Checked.div UINT_MAX (slope p);
  if limit <? bucket then Ok (if isDecreasing p then minPrice p else maxPrice p)
  else
    priceChange ← Checked.mul bucket (slope p);
    bounded_price (isDecreasing p) priceChange (initialPrice p) (maxPrice p) (minPrice p).

Definition isPriceAdapterConfigDataValid (_priceAdapterConfigData : list Z) : result bool :=
  p ← getDecodedData _priceAdapterConfigData; Ok (valid p).

Definition adapter : IAuctionPriceAdapterV1 :=
  Build_IAuctionPriceAdapterV1 (λ _ _ _ t _, getPrice t) isPriceAdapterConfigDataValid.
End Price.
End LinearPrice.

(** ** The two adapters with a transcendental price *)

Module CurvePrice.
Record params := {
  initialPrice : Z; scalingFactor : Z; timeCoefficient : Z; bucketSize : Z; isDecreasing : bool;
  maxPrice : Z; minPrice : Z;
}.

Definition areParamsValid
    (_initialPrice _scalingFactor _timeCoefficient _bucketSize _maxPrice _minPrice : Z) : bool :=
  (0 <? _initialPrice) && (0 <? _scalingFactor) && (0 <? _timeCoefficient) && (0 <? _bucketSize)
  && (_initialPrice <=? _maxPrice) && (_minPrice <=? _initialPrice).

Definition valid (p : params) : bool :=
  areParamsValid (initialPrice p) (scalingFactor p) (timeCoefficient p) (bucketSize p)
    (maxPrice p) (minPrice p).

Definition getEncodedData (p : params) : list Z :=
  Abi.encode [initialPrice p; scalingFactor p; timeCoefficient p; bucketSize p;
              Abi.of_bool (isDecreasing p); maxPrice p; minPrice p].

Definition getDecodedData (_data : list Z) : result params :=
  ws ← Abi.decode 7 _data;
  match ws with
  | [i; s; t; b; d; M; m] =>
      dec ← Abi.to_bool d;
      Ok {| initialPrice := i; scalingFactor := s; timeCoefficient := t; bucketSize := b;
            isDecreasing := dec; maxPrice := M; minPrice := m |}
  | _ => Throw (Revert EmptyString)
  end.

Definition isPriceAdapterConfigDataValid (_priceAdapterConfigData : list Z) : result bool :=
  p ← getDecodedData _priceAdapterConfigData; Ok (valid p).
End CurvePrice.

(** ** [BoundedStepwiseExponentialPriceAdapter] *)

Module ExponentialPrice.
Definition WAD : Z := 10 ^ 18.
Definition MAX_EXP_ARG : Z := 100 * 10 ^ 18.

Section Price.
Context `{FixedPointMath}.
Import CurvePrice.

Definition getPrice (_timeElapsed : Z) (_priceAdapterConfigData : list Z) : result Z :=
  p ← getDecodedData _priceAdapterConfigData;
  require (valid p) "BoundedStepwiseExponentialPriceAdapter: Invalid params";;
  timeBucket ← Checked.div _timeElapsed (bucketSize p);
  limit ← Checked.div UINT_MAX (timeCoefficient p);
  if limit <? timeBucket then Ok (_getBoundaryPrice (isDecreasing p) (maxPrice p) (minPrice p))
  else
    product ← Checked.mul (timeCoefficient p) timeBucket;
    let expArgument := wrap_int product in
    if MAX_EXP_ARG <? expArgument then
      Ok (_getBoundaryPrice (isDecreasing p) (maxPrice p) (minPrice p))
    else
      e ← expWad expArgument;
      let expExpression := wrap_uint e in
      limit ← Checked.div UINT_MAX expExpression;
      if limit <? scalingFactor p then
        Ok (_getBoundaryPrice (isDecreasing p) (maxPrice p) (minPrice p))
      else
        product ← Checked.mul (scalingFactor p) expExpression;
        priceChange ← Checked.sub product WAD;
        bounded_price (isDecreasing p) priceChange (initialPrice p) (maxPrice p) (minPrice p).

Definition adapter : IAuctionPriceAdapterV1 :=
  Build_IAuctionPriceAdapterV1 (λ _ _ _ t _, getPrice t) isPriceAdapterConfigDataValid.
End Price.
End ExponentialPrice.

(** ** [BoundedStepwiseLogarithmicPriceAdapter] *)

Module LogarithmicPrice.
Definition WAD : Z := 10 ^ 18.
Definition MAX_LOG_ARG : Z := 2 ^ 254 - 1.

Section Price.
Context `{FixedPointMath}.
Import CurvePrice.

Definition getPrice (_timeElapsed : Z) (_priceAdapterConfigData : list Z) : result Z :=
  p ← getDecodedData _priceAdapterConfigData;
  require (valid p) "BoundedStepwiseLogarithmicPriceAdapter: Invalid params";;
  timeBucket ← Checked.div _timeElapsed (bucketSize p);
  limit ← Checked.div UINT_MAX (timeCoefficient p);
  if limit <? timeBucket then Ok (_getBoundaryPrice (isDecreasing p) (maxPrice p) (minPrice p))
  else
    product ← Checked.mul timeBucket (timeCoefficient p);
    let lnArgument := wrap_int product in
    if MAX_LOG_ARG <? lnArgument then
      Ok (_getBoundaryPrice (isDecreasing p) (maxPrice p) (minPrice p))
    else
      argument ← Checked.add_int lnArgument WAD;
      l ← lnWad argument;
      let lnExpression := wrap_uint l in
      limit ← Checked.div UINT_MAX (scalingFactor p);
      if limit <? lnExpression then
        Ok (_getBoundaryPrice (isDecreasing p) (maxPrice p) (minPrice p))
      else
        priceChange ← Checked.mul (scalingFactor p) lnExpression;
        bounded_price (isDecreasing p) priceChange (initialPrice p) (maxPrice p) (minPrice p).

Definition adapter : IAuctionPriceAdapterV1 :=
  Build_IAuctionPriceAdapterV1 (λ _ _ _ t _, getPrice t) isPriceAdapterConfigDataValid.
End Price.
End LogarithmicPrice.

(** ** The encoding *)
Section AbiLemmas.

Lemma word_undigits (z : Z) : 0 ≤ z → undigits 256 (Abi.word_bytes z) = z.
Proof.
  intros Hz. unfold Abi.word_bytes. cbv zeta.
  assert (∀ n l, undigits 256 (replicate n 0 ++ l) = undigits 256 l) as Hzeros.
  { intros n l. induction n as [|n IH]; [done|]. cbn [replicate app].
    rewrite undigits_cons by lia. lia. }
  rewrite Hzeros. apply digits_undigits; lia.
Qed.

Lemma digits_length (base n : Z) (k : nat) :
  2 ≤ base → 0 ≤ n < base ^ Z.of_nat k → (1 ≤ k)%nat → (length (digits base n) ≤ k)%nat.
Proof.
  intros Hb Hn Hk. destruct (decide (n = 0)) as [->|Hne].
  { unfold digits. cbn. by destruct (Z.ltb_spec 0 base); [|lia]. }
  destruct (digits_head base Hb n) as (d & l & E & Hd); [lia|].
  pose proof (digits_undigits base Hb n) as U. rewrite E, undigits_cons in U by lia.
  pose proof (digits_range base Hb n ltac:(lia)) as R. rewrite E in R.
  apply Forall_cons in R as [_ Hl]. pose proof (undigits_bound base Hb l Hl).
  rewrite E. cbn [length]. apply Nat.lt_nge. intros Hlt.
  assert (base ^ Z.of_nat k ≤ base ^ Z.of_nat (length l)) by (apply Z.pow_le_mono_r; lia). nia.
Qed.

Lemma word_length (z : Z) : is_uint z → length (Abi.word_bytes z) = 32%nat.
Proof.
  intros Hz. unfold Abi.word_bytes. cbv zeta. rewrite length_app, length_replicate.
  assert (length (digits 256 z) ≤ 32)%nat; [|lia]. apply digits_length; [lia| |lia].
  change (256 ^ Z.of_nat 32) with (2 ^ 256). unfold is_uint, UINT_MAX in Hz. lia.
Qed.

Lemma decode_encode (ws : list Z) :
  Forall is_uint ws → Abi.decode (length ws) (Abi.encode ws) = Ok ws.
Proof.
  induction 1 as [|w ws Hw Hws IH]; [done|]. cbn [length Abi.decode].
  change (Abi.encode (w :: ws)) with (Abi.word_bytes w ++ Abi.encode ws).
  rewrite length_app, drop_app, take_app, !word_length by done. rewrite Nat.sub_diag.
  change ((32 <=? 32 + ?n)%nat) with true. cbn [require mbind result_bind].
  rewrite (drop_ge (Abi.word_bytes w)), (take_ge (Abi.word_bytes w)) by (by rewrite word_length).
  rewrite drop_0, take_0, app_nil_r. cbn [app]. rewrite IH. cbn [mbind result_bind].
  rewrite word_undigits; [done|apply Hw].
Qed.

Lemma to_bool_of_bool (b : bool) : Abi.to_bool (Abi.of_bool b) = Ok b.
Proof. by destruct b. Qed.

Lemma of_bool_uint (b : bool) : is_uint (Abi.of_bool b).
Proof. destruct b; unfold Abi.of_bool, is_uint, UINT_MAX; lia. Qed.
End AbiLemmas.

Ltac words :=
  repeat first [apply Forall_nil_2
               |apply Forall_cons_2; [first [assumption|apply of_bool_uint]|]].

Definition linear_typed (p : LinearPrice.params) : Prop :=
  is_uint (LinearPrice.initialPrice p) ∧ is_uint (LinearPrice.slope p) ∧
  is_uint (LinearPrice.bucketSize p) ∧ is_uint (LinearPrice.maxPrice p) ∧
  is_uint (LinearPrice.minPrice p).

Definition curve_typed (p : CurvePrice.params) : Prop :=
  is_uint (CurvePrice.initialPrice p) ∧ is_uint (CurvePrice.scalingFactor p) ∧
  is_uint (CurvePrice.timeCoefficient p) ∧ is_uint (CurvePrice.bucketSize p) ∧
  is_uint (CurvePrice.maxPrice p) ∧ is_uint (CurvePrice.minPrice p).

Lemma linear_decodes (p : LinearPrice.params) :
  linear_typed p → LinearPrice.getDecodedData (LinearPrice.getEncodedData p) = Ok p.
Proof.
  intros (? & ? & ? & ? & ?). unfold LinearPrice.getDecodedData, LinearPrice.getEncodedData.
  set (ws := [_; _; _; _; _; _]). change 6%nat with (length ws).
  rewrite decode_encode by (unfold ws; words).
  unfold ws. cbn [mbind result_bind]. rewrite to_bool_of_bool. by destruct p.
Qed.

Lemma curve_decodes (p : CurvePrice.params) :
  curve_typed p → CurvePrice.getDecodedData (CurvePrice.getEncodedData p) = Ok p.
Proof.
  intros (? & ? & ? & ? & ? & ?). unfold CurvePrice.getDecodedData, CurvePrice.getEncodedData.
  set (ws := [_; _; _; _; _; _; _]). change 7%nat with (length ws).
  rewrite decode_encode by (unfold ws; words).
  unfold ws. cbn [mbind result_bind]. rewrite to_bool_of_bool. by destruct p.
Qed.

(** ** Prices *)
Section Prices.
Context `{FixedPointMath}.

(** The price a change of any size leads to. *)
Definition clamp (isDecreasing : bool) (change initialPrice maxPrice minPrice : Z) : Z :=
  if isDecreasing then Z.max (initialPrice - change) minPrice
  else Z.min (initialPrice + change) maxPrice.

Lemma clamp_bounds (dec : bool) (ch i M m : Z) :
  0 ≤ ch → m ≤ i ≤ M → m ≤ clamp dec ch i M m ≤ M.
Proof. unfold clamp. destruct dec; lia. Qed.

Lemma clamp_boundary (dec : bool) (ch i M m : Z) :
  UINT_MAX < ch → is_uint i → is_uint M → is_uint m → m ≤ i ≤ M →
  clamp dec ch i M m = _getBoundaryPrice dec M m.
Proof. unfold clamp, _getBoundaryPrice, is_uint. destruct dec; lia. Qed.

Lemma clamp_mono (dec : bool) (ch ch' i M m : Z) :
  ch ≤ ch' → if dec then clamp dec ch' i M m ≤ clamp dec ch i M m
             else clamp dec ch i M m ≤ clamp dec ch' i M m.
Proof. unfold clamp. destruct dec; lia. Qed.

Lemma bounded_price_clamp (dec : bool) (ch i M m : Z) :
  0 ≤ ch → is_uint i → is_uint M → is_uint m → m ≤ i ≤ M →
  bounded_price dec ch i M m = Ok (clamp dec ch i M m).
Proof.
  intros Hch Hi HM Hm Hb. unfold bounded_price, clamp, Checked.sub, Checked.add, is_uint in *.
  destruct dec.
  - destruct (Z.ltb_spec i ch); [f_equal; lia|].
    destruct (Z.leb_spec ch i); [|lia]. cbn [mbind result_bind]. by rewrite fp_max_spec.
  - destruct (Z.leb_spec i UINT_MAX); [|lia]. cbn [mbind result_bind].
    destruct (Z.ltb_spec (UINT_MAX - i) ch); [f_equal; lia|].
    unfold fits. destruct (Z.leb_spec (i + ch) UINT_MAX); [|lia]. cbn [mbind result_bind].
    by rewrite fp_min_spec.
Qed.

(** A product is too large for the word exactly when the guard of the contracts
    says so. *)
Lemma product_guard (a b : Z) : 0 ≤ a → 0 < b → (UINT_MAX / b <? a) = negb (fits (a * b)).
Proof.
  intros Ha Hb. unfold fits. pose proof (Z.mul_div_le UINT_MAX b Hb).
  pose proof (Z.mul_succ_div_gt UINT_MAX b Hb).
  destruct (Z.ltb_spec (UINT_MAX / b) a), (Z.leb_spec (a * b) UINT_MAX); try done; nia.
Qed.

Lemma checked_div_ok (a b : Z) : 0 < b → Checked.div a b = Ok (a / b).
Proof. intros Hb. unfold Checked.div. by destruct (Z.eqb_spec b 0); [lia|]. Qed.

Lemma checked_mul_ok (a b : Z) : fits (a * b) = true → Checked.mul a b = Ok (a * b).
Proof. intros F. unfold Checked.mul. by rewrite F. Qed.

Lemma linear_valid (p : LinearPrice.params) :
  LinearPrice.valid p = true →
  0 < LinearPrice.slope p ∧ 0 < LinearPrice.bucketSize p ∧
  LinearPrice.minPrice p ≤ LinearPrice.initialPrice p ≤ LinearPrice.maxPrice p.
Proof. unfold LinearPrice.valid, LinearPrice.areParamsValid. lia. Qed.

Lemma linear_price (p : LinearPrice.params) (t : Z) :
  linear_typed p → LinearPrice.valid p = true → is_uint t →
  LinearPrice.getPrice t (LinearPrice.getEncodedData p) =
    Ok (clamp (LinearPrice.isDecreasing p) (t / LinearPrice.bucketSize p * LinearPrice.slope p)
          (LinearPrice.initialPrice p) (LinearPrice.maxPrice p) (LinearPrice.minPrice p)).
Proof.
  intros Ht Hv Htime. unfold LinearPrice.getPrice. rewrite linear_decodes by done.
  cbn [mbind result_bind]. rewrite Hv. cbn [mbind result_bind require]. apply linear_valid in Hv as (Hs & Hb & Hbounds).
  destruct Ht as (Hi & Hsu & Hbu & HM & Hm). pose proof Htime as [Ht0 _].
  rewrite !checked_div_ok by done. cbn [mbind result_bind].
  assert (0 ≤ t / LinearPrice.bucketSize p) by (apply Z.div_pos; lia).
  rewrite product_guard by done. unfold Checked.mul.
  destruct (fits _) eqn:F; cbn [negb mbind result_bind].
  - apply bounded_price_clamp; (done || nia).
  - unfold fits in F. apply Z.leb_gt in F. by rewrite clamp_boundary.
Qed.

(** The change of the exponential price after [b] buckets; beyond the word it
    stands for any change that reaches the bound. *)
Definition exp_change (p : CurvePrice.params) (b : Z) : Z :=
  let arg := CurvePrice.timeCoefficient p * b in
  if ExponentialPrice.MAX_EXP_ARG <? arg then 2 ^ 256
  else match expWad arg with
       | Ok e => if fits (CurvePrice.scalingFactor p * e)
                 then CurvePrice.scalingFactor p * e - 10 ^ 18 else 2 ^ 256
       | Throw _ => 2 ^ 256
       end.

Definition ln_change (p : CurvePrice.params) (b : Z) : Z :=
  let arg := b * CurvePrice.timeCoefficient p in
  if LogarithmicPrice.MAX_LOG_ARG <? arg then 2 ^ 256
  else match lnWad (arg + 10 ^ 18) with
       | Ok l => if fits (CurvePrice.scalingFactor p * l) then CurvePrice.scalingFactor p * l
                 else 2 ^ 256
       | Throw _ => 2 ^ 256
       end.

Lemma curve_valid (p : CurvePrice.params) :
  CurvePrice.valid p = true →
  0 < CurvePrice.scalingFactor p ∧ 0 < CurvePrice.timeCoefficient p ∧ 0 < CurvePrice.bucketSize p ∧
  CurvePrice.minPrice p ≤ CurvePrice.initialPrice p ≤ CurvePrice.maxPrice p.
Proof. unfold CurvePrice.valid, CurvePrice.areParamsValid. lia. Qed.

Lemma exp_value (x : Z) :
  0 ≤ x ≤ ExponentialPrice.MAX_EXP_ARG → ∃ e, expWad x = Ok e ∧ 10 ^ 18 ≤ e ≤ INT_MAX.
Proof.
  intros Hx. destruct (expWad_ok x) as (e & E & He).
  { unfold ExponentialPrice.MAX_EXP_ARG, EXP_LIMIT in *. lia. }
  exists e. split; [done|]. split; [|lia]. by apply (expWad_mono 0 x _ _ ltac:(lia) expWad_0).
Qed.

Lemma ln_value (x : Z) :
  0 ≤ x ≤ LogarithmicPrice.MAX_LOG_ARG →
  ∃ l, lnWad (x + 10 ^ 18) = Ok l ∧ 0 ≤ l ≤ INT_MAX.
Proof.
  unfold LogarithmicPrice.MAX_LOG_ARG. intros Hx.
  destruct (lnWad_ok (x + 10 ^ 18)) as (l & E & Hl); [lia|unfold INT_MAX; lia|].
  exists l. split; [done|]. split; [|apply Hl].
  by apply (lnWad_mono (10 ^ 18) (x + 10 ^ 18) _ _ ltac:(lia) lnWad_1).
Qed.

Lemma exp_change_mono (p : CurvePrice.params) (b b' : Z) :
  CurvePrice.valid p = true → 0 ≤ b ≤ b' → 0 ≤ exp_change p b ≤ exp_change p b'.
Proof.
  intros (Hs & Hc & _)%curve_valid Hb. unfold exp_change. cbv zeta.
  set (c := CurvePrice.timeCoefficient p) in *. set (s := CurvePrice.scalingFactor p) in *.
  assert (0 ≤ c * b ≤ c * b') by nia.
  destruct (Z.ltb_spec ExponentialPrice.MAX_EXP_ARG (c * b)).
  { destruct (Z.ltb_spec ExponentialPrice.MAX_EXP_ARG (c * b')); lia. }
  destruct (exp_value (c * b)) as (e & E & He); [lia|]. rewrite E.
  assert (s * e ≤ UINT_MAX → s * e - 10 ^ 18 ≤ 2 ^ 256) by (unfold UINT_MAX; lia).
  unfold fits. destruct (Z.ltb_spec ExponentialPrice.MAX_EXP_ARG (c * b')).
  { destruct (Z.leb_spec (s * e) UINT_MAX); nia. }
  destruct (exp_value (c * b')) as (e' & E' & He'); [lia|]. rewrite E'.
  assert (e ≤ e') by (eapply expWad_mono; [|done..]; lia).
  destruct (Z.leb_spec (s * e) UINT_MAX), (Z.leb_spec (s * e') UINT_MAX); nia.
Qed.

Lemma ln_change_mono (p : CurvePrice.params) (b b' : Z) :
  CurvePrice.valid p = true → 0 ≤ b ≤ b' → 0 ≤ ln_change p b ≤ ln_change p b'.
Proof.
  intros (Hs & Hc & _)%curve_valid Hb. unfold ln_change. cbv zeta.
  set (c := CurvePrice.timeCoefficient p) in *. set (s := CurvePrice.scalingFactor p) in *.
  assert (0 ≤ b * c ≤ b' * c) by nia.
  destruct (Z.ltb_spec LogarithmicPrice.MAX_LOG_ARG (b * c)).
  { destruct (Z.ltb_spec LogarithmicPrice.MAX_LOG_ARG (b' * c)); lia. }
  destruct (ln_value (b * c)) as (l & E & Hl); [lia|]. rewrite E.
  assert (s * l ≤ UINT_MAX → s * l ≤ 2 ^ 256) by (unfold UINT_MAX; lia).
  unfold fits. destruct (Z.ltb_spec LogarithmicPrice.MAX_LOG_ARG (b' * c)).
  { destruct (Z.leb_spec (s * l) UINT_MAX); nia. }
  destruct (ln_value (b' * c)) as (l' & E' & Hl'); [lia|]. rewrite E'.
  assert (l ≤ l') by (eapply lnWad_mono; [|done..]; lia).
  destruct (Z.leb_spec (s * l) UINT_MAX), (Z.leb_spec (s * l') UINT_MAX); nia.
Qed.

(** The number of buckets the arguments of the curves can take. *)
Definition in_range (p : CurvePrice.params) (t : Z) : Prop :=
  CurvePrice.timeCoefficient p * (t / CurvePrice.bucketSize p) ≤ INT_MAX.

Definition curve_clamp (p : CurvePrice.params) (ch : Z) : Z :=
  clamp (CurvePrice.isDecreasing p) ch (CurvePrice.initialPrice p) (CurvePrice.maxPrice p)
    (CurvePrice.minPrice p).

Lemma exponential_price (p : CurvePrice.params) (t : Z) :
  curve_typed p → CurvePrice.valid p = true → is_uint t → in_range p t →
  ExponentialPrice.getPrice t (CurvePrice.getEncodedData p) =
    Ok (curve_clamp p (exp_change p (t / CurvePrice.bucketSize p))).
Proof.
  intros Ht Hv Htime Hr. unfold ExponentialPrice.getPrice, curve_clamp, in_range in *.
  rewrite curve_decodes by done. cbn [mbind result_bind]. rewrite Hv. cbn [mbind result_bind require].
  pose proof (exp_change_mono p) as Hch. specialize (Hch 0 (t / CurvePrice.bucketSize p) Hv).
  apply curve_valid in Hv as (Hs & Hc & Hb & Hbounds).
  destruct Ht as (Hi & Hsu & Hcu & Hbu & HM & Hm). pose proof Htime as [Ht0 _].
  rewrite !checked_div_ok by done. cbn [mbind result_bind].
  set (b := t / CurvePrice.bucketSize p) in *. set (c := CurvePrice.timeCoefficient p) in *.
  assert (0 ≤ b) as Hb0 by (apply Z.div_pos; lia). destruct Hch as [Hch0 Hch]; [lia|].
  rewrite product_guard, (Z.mul_comm b c) by done.
  assert (is_uint (c * b)) as Hcb by (apply uint_of_int; nia).
  assert (fits (c * b) = true) as F by (apply Z.leb_le, Hcb).
  rewrite F, checked_mul_ok by done. cbn [negb mbind result_bind]. clear F.
  rewrite wrap_int_small by (unfold is_int, INT_MIN; nia). unfold exp_change in *. cbv zeta in *.
  fold c in Hch0, Hch |- *. destruct (Z.ltb_spec ExponentialPrice.MAX_EXP_ARG (c * b)).
  { by rewrite clamp_boundary by (done || unfold UINT_MAX; lia). }
  destruct (exp_value (c * b)) as (e & E & He); [nia|]. rewrite E in *. cbn [mbind result_bind].
  rewrite wrap_uint_small by (apply uint_of_int; lia).
  rewrite checked_div_ok by lia. cbn [mbind result_bind]. rewrite product_guard by lia.
  destruct (fits _) eqn:F; cbn [negb mbind result_bind].
  - rewrite checked_mul_ok by done. cbn [mbind result_bind]. unfold Checked.sub, ExponentialPrice.WAD.
    destruct (Z.leb_spec (10 ^ 18) (CurvePrice.scalingFactor p * e)); [|nia].
    cbn [mbind result_bind]. apply bounded_price_clamp; (done || nia).
  - by rewrite clamp_boundary by (done || unfold UINT_MAX; lia).
Qed.

Lemma logarithmic_price (p : CurvePrice.params) (t : Z) :
  curve_typed p → CurvePrice.valid p = true → is_uint t → in_range p t →
  LogarithmicPrice.getPrice t (CurvePrice.getEncodedData p) =
    Ok (curve_clamp p (ln_change p (t / CurvePrice.bucketSize p))).
Proof.
  intros Ht Hv Htime Hr. unfold LogarithmicPrice.getPrice, curve_clamp, in_range in *.
  rewrite curve_decodes by done. cbn [mbind result_bind]. rewrite Hv. cbn [mbind result_bind require].
  apply curve_valid in Hv as (Hs & Hc & Hb & Hbounds).
  destruct Ht as (Hi & Hsu & Hcu & Hbu & HM & Hm). pose proof Htime as [Ht0 _].
  rewrite !checked_div_ok by done. cbn [mbind result_bind].
  set (b := t / CurvePrice.bucketSize p) in *. set (c := CurvePrice.timeCoefficient p) in *.
  rewrite (Z.mul_comm c b) in Hr. assert (0 ≤ b) as Hb0 by (apply Z.div_pos; lia).
  rewrite product_guard by done. assert (is_uint (b * c)) as Hcb by (apply uint_of_int; nia).
  assert (fits (b * c) = true) as F by (apply Z.leb_le, Hcb).
  rewrite F, checked_mul_ok by done. cbn [negb mbind result_bind]. clear F.
  rewrite wrap_int_small by (unfold is_int, INT_MIN; nia). unfold ln_change. cbv zeta. fold c.
  destruct (Z.ltb_spec LogarithmicPrice.MAX_LOG_ARG (b * c)).
  { by rewrite clamp_boundary by (done || unfold UINT_MAX; lia). }
  assert (Checked.add_int (b * c) LogarithmicPrice.WAD = Ok (b * c + 10 ^ 18)) as ->.
  { unfold Checked.add_int, LogarithmicPrice.WAD, LogarithmicPrice.MAX_LOG_ARG in *.
    destruct (Z.leb_spec INT_MIN (b * c + 10 ^ 18)), (Z.leb_spec (b * c + 10 ^ 18) INT_MAX);
      unfold INT_MIN, INT_MAX in *; (done || nia). }
  destruct (ln_value (b * c)) as (l & E & Hl); [nia|]. cbn [mbind result_bind]. rewrite E.
  cbn [mbind result_bind]. rewrite wrap_uint_small by (apply uint_of_int; lia).
  rewrite product_guard, (Z.mul_comm l) by lia.
  destruct (fits _) eqn:F; cbn [negb mbind result_bind].
  - rewrite checked_mul_ok by done. cbn [mbind result_bind]. apply bounded_price_clamp; (done || nia).
  - by rewrite clamp_boundary by (done || unfold UINT_MAX; lia).
Qed.

(** ** Bounds *)

Lemma boundary_bounds (dec : bool) (i M m : Z) :
  m ≤ i ≤ M → m ≤ _getBoundaryPrice dec M m ≤ M.
Proof. unfold _getBoundaryPrice. destruct dec; lia. Qed.

Lemma bounded_price_bounds (dec : bool) (ch i M m x : Z) :
  0 ≤ ch → is_uint i → is_uint M → is_uint m → m ≤ i ≤ M →
  bounded_price dec ch i M m = Ok x → m ≤ x ≤ M.
Proof.
  intros Hch Hi HM Hm Hb. rewrite bounded_price_clamp by done. intros [= <-].
  by apply clamp_bounds.
Qed.

Lemma checked_mul_nonneg (a b c : Z) : 0 ≤ a → 0 ≤ b → Checked.mul a b = Ok c → 0 ≤ c.
Proof. unfold Checked.mul. destruct (fits _); [|done]. intros Ha Hb [= <-]. nia. Qed.

Lemma checked_sub_nonneg (a b c : Z) : Checked.sub a b = Ok c → 0 ≤ c.
Proof. unfold Checked.sub. destruct (Z.leb_spec b a); [|done]. intros [= <-]. lia. Qed.

Lemma exponential_bounds (p : CurvePrice.params) (t x : Z) :
  curve_typed p → CurvePrice.valid p = true →
  ExponentialPrice.getPrice t (CurvePrice.getEncodedData p) = Ok x →
  CurvePrice.minPrice p ≤ x ≤ CurvePrice.maxPrice p.
Proof.
  intros Ht Hv E. unfold ExponentialPrice.getPrice in E.
  rewrite curve_decodes in E by done. cbn [mbind result_bind] in E. rewrite Hv in E.
  cbn [mbind result_bind require] in E. apply curve_valid in Hv as (_ & _ & _ & Hb).
  destruct Ht as (Hi & _ & _ & _ & HM & Hm).
  apply result_bind_ok in E as (b & _ & E). apply result_bind_ok in E as (l & _ & E).
  destruct (_ <? _); [injection E as <-; by eapply boundary_bounds|].
  apply result_bind_ok in E as (q & _ & E). cbv zeta in E.
  destruct (_ <? _); [injection E as <-; by eapply boundary_bounds|].
  apply result_bind_ok in E as (e & _ & E). cbv zeta in E.
  apply result_bind_ok in E as (l' & _ & E).
  destruct (_ <? _); [injection E as <-; by eapply boundary_bounds|].
  apply result_bind_ok in E as (r & _ & E). apply result_bind_ok in E as (ch & Hch & E).
  apply checked_sub_nonneg in Hch. by eapply bounded_price_bounds in E.
Qed.

Lemma logarithmic_bounds (p : CurvePrice.params) (t x : Z) :
  curve_typed p → CurvePrice.valid p = true →
  LogarithmicPrice.getPrice t (CurvePrice.getEncodedData p) = Ok x →
  CurvePrice.minPrice p ≤ x ≤ CurvePrice.maxPrice p.
Proof.
  intros Ht Hv E. unfold LogarithmicPrice.getPrice in E.
  rewrite curve_decodes in E by done. cbn [mbind result_bind] in E. rewrite Hv in E.
  cbn [mbind result_bind require] in E. apply curve_valid in Hv as (_ & _ & _ & Hb).
  destruct Ht as (Hi & Hs & _ & _ & HM & Hm).
  apply result_bind_ok in E as (b & _ & E). apply result_bind_ok in E as (l & _ & E).
  destruct (_ <? _); [injection E as <-; by eapply boundary_bounds|].
  apply result_bind_ok in E as (q & _ & E). cbv zeta in E.
  destruct (_ <? _); [injection E as <-; by eapply boundary_bounds|].
  apply result_bind_ok in E as (a & _ & E). apply result_bind_ok in E as (e & _ & E). cbv zeta in E.
  apply result_bind_ok in E as (l' & _ & E).
  destruct (_ <? _); [injection E as <-; by eapply boundary_bounds|].
  apply result_bind_ok in E as (ch & Hch & E).
  apply checked_mul_nonneg in Hch; [|apply Hs|apply wrap_uint_uint].
  by eapply bounded_price_bounds in E.
Qed.

(** C25. Encoded parameters are accepted by the check of the adapter exactly when
    they are valid, and every price of a valid configuration lies between its
    minimum and its maximum.  The linear price never reverts; the exponential and
    the logarithmic price do not while the argument of the curve fits a signed
    word. *)
Theorem price_within_bounds (l : LinearPrice.params) (p : CurvePrice.params) (t : Z)
    (Hl : linear_typed l) (Hp : curve_typed p) (Ht : is_uint t) :
  LinearPrice.isPriceAdapterConfigDataValid (LinearPrice.getEncodedData l)
    = Ok (LinearPrice.valid l) ∧
  CurvePrice.isPriceAdapterConfigDataValid (CurvePrice.getEncodedData p)
    = Ok (CurvePrice.valid p) ∧
  (LinearPrice.valid l = true →
     ∃ x, LinearPrice.getPrice t (LinearPrice.getEncodedData l) = Ok x ∧
       LinearPrice.minPrice l ≤ x ≤ LinearPrice.maxPrice l) ∧
  (CurvePrice.valid p = true →
     (∀ x, ExponentialPrice.getPrice t (CurvePrice.getEncodedData p) = Ok x ∨
           LogarithmicPrice.getPrice t (CurvePrice.getEncodedData p) = Ok x →
           CurvePrice.minPrice p ≤ x ≤ CurvePrice.maxPrice p) ∧
     (in_range p t → is_ok (ExponentialPrice.getPrice t (CurvePrice.getEncodedData p)) = true ∧
                     is_ok (LogarithmicPrice.getPrice t (CurvePrice.getEncodedData p)) = true)).
Proof.
  split; [unfold LinearPrice.isPriceAdapterConfigDataValid; by rewrite linear_decodes|].
  split; [unfold CurvePrice.isPriceAdapterConfigDataValid; by rewrite curve_decodes|]. split.
  - intros Hv. rewrite linear_price by done. eexists. split; [done|].
    apply linear_valid in Hv as (? & ? & ?). apply clamp_bounds; [|done].
    pose proof (Z.div_pos t (LinearPrice.bucketSize l)). unfold is_uint in Ht. nia.
  - intros Hv. split.
    + intros x [E|E]; [by eapply exponential_bounds|by eapply logarithmic_bounds].
    + intros Hr. by rewrite exponential_price, logarithmic_price by done.
Qed.

(** As time passes a price moves in one direction only, down when it is
    decreasing and up otherwise: the linear price always, the exponential and the
    logarithmic price while the argument of the curve fits a signed word. *)
Theorem price_moves_one_way (l : LinearPrice.params) (p : CurvePrice.params) (t t' : Z)
    (Hl : linear_typed l) (Hp : curve_typed p) (Hvl : LinearPrice.valid l = true)
    (Hvp : CurvePrice.valid p = true) (Ht : is_uint t) (Ht' : is_uint t') (Hle : t ≤ t')
    (Hr : in_range p t') :
  let ordered (dec : bool) (r r' : result Z) :=
    ∃ x x', r = Ok x ∧ r' = Ok x' ∧ if dec then x' ≤ x else x ≤ x' in
  ordered (LinearPrice.isDecreasing l)
    (LinearPrice.getPrice t (LinearPrice.getEncodedData l))
    (LinearPrice.getPrice t' (LinearPrice.getEncodedData l)) ∧
  ordered (CurvePrice.isDecreasing p)
    (ExponentialPrice.getPrice t (CurvePrice.getEncodedData p))
    (ExponentialPrice.getPrice t' (CurvePrice.getEncodedData p)) ∧
  ordered (CurvePrice.isDecreasing p)
    (LogarithmicPrice.getPrice t (CurvePrice.getEncodedData p))
    (LogarithmicPrice.getPrice t' (CurvePrice.getEncodedData p)).
Proof.
  cbv zeta. pose proof (linear_valid l Hvl) as (Hs & Hb & _).
  pose proof (curve_valid p Hvp) as (_ & Hc & Hcb & _).
  pose proof (Z.div_le_mono t t' (LinearPrice.bucketSize l) Hb Hle) as Hlb.
  pose proof (Z.div_le_mono t t' (CurvePrice.bucketSize p) Hcb Hle) as Hpb.
  assert (0 ≤ t / CurvePrice.bucketSize p) by (apply Z.div_pos; [apply Ht|lia]).
  assert (in_range p t) as Hr0 by (unfold in_range in *; nia).
  rewrite !linear_price, !exponential_price, !logarithmic_price by done.
  split; [|split]; do 2 eexists; (split; [done|]); (split; [done|]); apply clamp_mono.
  - nia.
  - by apply exp_change_mono.
  - by apply ln_change_mono.
Qed.
End Prices.

(** ** Concrete instances *)

#[local] Obligation Tactic := try done; cbv beta.

(** The tangents of the two curves at one. *)
#[export] Program Instance FixedPointMath_tangent : FixedPointMath := {|
  fp_max := Z.max;
  fp_min := Z.min;
  expWad x := if EXP_LIMIT <=? x then Throw (Revert "ExpOverflow()") else Ok (Z.max 0 (10 ^ 18 + x));
  lnWad x := if x <=? 0 then Throw (Revert "LnWadUndefined()") else Ok (x - 10 ^ 18);
|}.
Next Obligation.
  intros x Hx. destruct (Z.leb_spec EXP_LIMIT x); [lia|]. eexists. split; [done|].
  unfold EXP_LIMIT, INT_MAX in *. lia.
Qed.
Next Obligation.
  intros x y a b Hxy. destruct (Z.leb_spec EXP_LIMIT x), (Z.leb_spec EXP_LIMIT y); try done.
  intros [= <-] [= <-]. lia.
Qed.
Next Obligation.
  intros x Hx Hm. destruct (Z.leb_spec x 0); [lia|]. eexists. split; [done|].
  unfold is_int, INT_MIN, INT_MAX in *. lia.
Qed.
Next Obligation. intros x Hx. by destruct (Z.leb_spec x 0); [|lia]. Qed.
Next Obligation.
  intros x y a b Hxy. destruct (Z.leb_spec x 0), (Z.leb_spec y 0); try done.
  intros [= <-] [= <-]. lia.
Qed.

Definition sample_linear : LinearPrice.params :=
  {| LinearPrice.initialPrice := 100; LinearPrice.slope := 7; LinearPrice.bucketSize := 3600;
     LinearPrice.isDecreasing := true; LinearPrice.maxPrice := 110; LinearPrice.minPrice := 90 |}.

Definition sample_curve : CurvePrice.params :=
  {| CurvePrice.initialPrice := 5 * 10 ^ 18; CurvePrice.scalingFactor := 1;
     CurvePrice.timeCoefficient := 10 ^ 18; CurvePrice.bucketSize := 3600;
     CurvePrice.isDecreasing := false; CurvePrice.maxPrice := 8 * 10 ^ 18;
     CurvePrice.minPrice := 10 ^ 18 |}.

Lemma sample_linear_typed : linear_typed sample_linear.
Proof. unfold linear_typed, is_uint, UINT_MAX. cbn. lia. Qed.
Lemma sample_curve_typed : curve_typed sample_curve.
Proof. unfold curve_typed, is_uint, UINT_MAX. cbn. lia. Qed.

Lemma price_within_bounds_witness :
  (∃ x, LinearPrice.getPrice 10000 (LinearPrice.getEncodedData sample_linear) = Ok x ∧ 90 ≤ x ≤ 110) ∧
  LinearPrice.getPrice 3600 (LinearPrice.getEncodedData sample_linear) = Ok 93.
Proof.
  split; [|vm_compute; reflexivity].
  destruct (price_within_bounds sample_linear sample_curve 10000 sample_linear_typed
    sample_curve_typed) as (_ & _ & H & _); [word|]. apply H. reflexivity.
Defined.

Lemma price_moves_one_way_witness :
  ∃ x x', ExponentialPrice.getPrice 0 (CurvePrice.getEncodedData sample_curve) = Ok x ∧
    ExponentialPrice.getPrice 7200 (CurvePrice.getEncodedData sample_curve) = Ok x' ∧ x ≤ x'.
Proof.
  destruct (price_moves_one_way sample_linear sample_curve 0 7200 sample_linear_typed
    sample_curve_typed) as (_ & H & _);
    [reflexivity|reflexivity|word|word|lia|vm_compute; discriminate|]. exact H.
Defined.

(** Without the condition on the argument the exponential price can revert: the
    argument is taken for a negative number, whose exponential is zero. *)
Lemma exponential_reverts :
  thrown (ExponentialPrice.getPrice (2 ^ 255) (CurvePrice.getEncodedData
    {| CurvePrice.initialPrice := 5; CurvePrice.scalingFactor := 1;
       CurvePrice.timeCoefficient := 1; CurvePrice.bucketSize := 1;
       CurvePrice.isDecreasing := false; CurvePrice.maxPrice := 8; CurvePrice.minPrice := 1 |}))
  = Some (Revert "Panic(0x12)").
Proof. vm_compute. reflexivity. Qed.

(** A scaling factor above one moves the exponential price before any time has
    passed. *)
Lemma exponential_jump :
  ExponentialPrice.getPrice 0 (CurvePrice.getEncodedData
    {| CurvePrice.initialPrice := 5 * 10 ^ 18; CurvePrice.scalingFactor := 2;
       CurvePrice.timeCoefficient := 1; CurvePrice.bucketSize := 1;
       CurvePrice.isDecreasing := false; CurvePrice.maxPrice := 8 * 10 ^ 18;
       CurvePrice.minPrice := 1 |}) = Ok (6 * 10 ^ 18).
Proof. vm_compute. reflexivity. Qed.
