(* ===== verification/AuctionRebalance.v ===== *)
(** * The auction rebalance module

    [contracts/protocol/modules/v1/AuctionRebalanceModuleV1.sol]: the storage of
    the module and every function of it.  What a transaction returns is the
    payload of its event. *)
From Stdlib Require Import String.
From S2P Require Import Prelude JsString BigNumber Constants MathUtils SolMath.
From S2P Require Import AddressArrayUtils Script AdapterUtils Controller Erc20 SetToken.
From S2P Require Import IntegrationRegistry World Position AuctionPrice.

Module AuctionRebalance.

Record AuctionExecutionParams := {
  targetUnit : Z;
  priceAdapterName : string;
  priceAdapterConfigData : list Z;
}.

Record BidPermissionInfo := {
  isAnyoneAllowedToBid : bool;
  biddersHistory : list Address;
  bidAllowList : gset Address;
}.

Record RebalanceInfo := {
  quoteAsset : Address;
  rebalanceStartTime : Z;
  rebalanceDuration : Z;
  positionMultiplier : Z;
  raiseTargetPercentage : Z;
  rebalanceComponents : list Address;
}.

Record BidInfo := {
  setToken : Address;
  sendToken : Address;
  receiveToken : Address;
  priceAdapter : Address;
  bid_priceAdapterConfigData : list Z;
  isSellAuction : bool;
  auctionQuantity : Z;
  componentPrice : Z;
  quantitySentBySet : Z;
  quantityReceivedBySet : Z;
  preBidTokenSentBalance : Z;
  preBidTokenReceivedBalance : Z;
  setTotalSupply : Z;
}.

(** The three mappings. *)
Record Storage := {
  executionInfo : gmap (Address * Address) AuctionExecutionParams;
  permissionInfo : gmap Address BidPermissionInfo;
  rebalanceInfo : gmap Address RebalanceInfo;
}.

(** Unwritten slots. *)
Definition no_params : AuctionExecutionParams :=
  {| targetUnit := 0; priceAdapterName := EmptyString; priceAdapterConfigData := [] |}.
Definition no_permission : BidPermissionInfo :=
  {| isAnyoneAllowedToBid := false; biddersHistory := []; bidAllowList := ∅ |}.
Definition no_rebalance : RebalanceInfo :=
  {| quoteAsset := Controller.address0; rebalanceStartTime := 0; rebalanceDuration := 0;
     positionMultiplier := 0; raiseTargetPercentage := 0; rebalanceComponents := [] |}.

(** Updates of one field. *)
Definition with_target (z : Z) (p : AuctionExecutionParams) : AuctionExecutionParams :=
  {| targetUnit := z; priceAdapterName := priceAdapterName p;
     priceAdapterConfigData := priceAdapterConfigData p |}.
Definition with_duration (z : Z) (r : RebalanceInfo) : RebalanceInfo :=
  {| quoteAsset := quoteAsset r; rebalanceStartTime := rebalanceStartTime r;
     rebalanceDuration := z; positionMultiplier := positionMultiplier r;
     raiseTargetPercentage := raiseTargetPercentage r; rebalanceComponents := rebalanceComponents r |}.
Definition with_multiplier (z : Z) (r : RebalanceInfo) : RebalanceInfo :=
  {| quoteAsset := quoteAsset r; rebalanceStartTime := rebalanceStartTime r;
     rebalanceDuration := rebalanceDuration r; positionMultiplier := z;
     raiseTargetPercentage := raiseTargetPercentage r; rebalanceComponents := rebalanceComponents r |}.
Definition with_raise (z : Z) (r : RebalanceInfo) : RebalanceInfo :=
  {| quoteAsset := quoteAsset r; rebalanceStartTime := rebalanceStartTime r;
     rebalanceDuration := rebalanceDuration r; positionMultiplier := positionMultiplier r;
     raiseTargetPercentage := z; rebalanceComponents := rebalanceComponents r |}.
Definition with_anyone (b : bool) (p : BidPermissionInfo) : BidPermissionInfo :=
  {| isAnyoneAllowedToBid := b; biddersHistory := biddersHistory p; bidAllowList := bidAllowList p |}.
Definition with_history (l : list Address) (p : BidPermissionInfo) : BidPermissionInfo :=
  {| isAnyoneAllowedToBid := isAnyoneAllowedToBid p; biddersHistory := l; bidAllowList := bidAllowList p |}.
Definition with_allowed (s : gset Address) (p : BidPermissionInfo) : BidPermissionInfo :=
  {| isAnyoneAllowedToBid := isAnyoneAllowedToBid p; biddersHistory := biddersHistory p;
     bidAllowList := s |}.

Definition put_params (st c : Address) (p : AuctionExecutionParams) (s : Storage) : Storage :=
  {| executionInfo := <[(st, c) := p]> (executionInfo s); permissionInfo := permissionInfo s;
     rebalanceInfo := rebalanceInfo s |}.
Definition put_permission (st : Address) (p : BidPermissionInfo) (s : Storage) : Storage :=
  {| executionInfo := executionInfo s; permissionInfo := <[st := p]> (permissionInfo s);
     rebalanceInfo := rebalanceInfo s |}.
Definition put_rebalance (st : Address) (r : RebalanceInfo) (s : Storage) : Storage :=
  {| executionInfo := executionInfo s; permissionInfo := permissionInfo s;
     rebalanceInfo := <[st := r]> (rebalanceInfo s) |}.
End AuctionRebalance.

(** The storage of the module in the environment, and the guard that shares it. *)
Class AuctionStorage (E : Type) `{!ReentrancyGuard E} := {
  auction : E → AuctionRebalance.Storage;
  put_auction : AuctionRebalance.Storage → E → E;
  auction_put s e : auction (put_auction s e) = s;
  auction_enter e e' : guard_enter e = Ok e' → auction e' = auction e;
  auction_leave e : auction (guard_leave e) = auction e;
}.

Module AuctionModule.
Import AuctionRebalance.

Section AuctionModule.
Context `{ERC20} `{SignedLib} `{Keccak} {E : Type} `{!External E} `{!ReentrancyGuard E}
  `{!AuctionStorage E}.
(** The price adapters that are deployed. *)
Context (adapter_at : Address → option IAuctionPriceAdapterV1).
Implicit Types (this msg_sender _setToken _component : Address).

Definition AUCTION_MODULE_V1_PROTOCOL_FEE_INDEX : Z := 0.

(** ** Reading and writing the mappings *)

Definition params_of _setToken _component (w : World E) : AuctionExecutionParams :=
  default no_params (executionInfo (auction (env w)) !! (_setToken, _component)).
Definition permission_of _setToken (w : World E) : BidPermissionInfo :=
  default no_permission (permissionInfo (auction (env w)) !! _setToken).
Definition rebalance_of _setToken (w : World E) : RebalanceInfo :=
  default no_rebalance (rebalanceInfo (auction (env w)) !! _setToken).

Definition store (f : Storage → Storage) : tx E () :=
  modify (λ e, put_auction (f (auction e)) e).

(** ** Internal functions *)

Definition _isAllowedBidder _setToken (_bidder : Address) : tx E bool :=
  permissions ← asks (permission_of _setToken);
  mret (isAnyoneAllowedToBid permissions || bool_decide (_bidder ∈ bidAllowList permissions)).

Definition _validateOnlyAllowedBidder msg_sender _setToken : tx E () :=
  b ← _isAllowedBidder _setToken msg_sender;
  requires b "Address not permitted to bid".

Definition _isRebalanceDurationElapsed _setToken : tx E bool :=
  rebalance ← asks (rebalance_of _setToken);
  now ← asks block_timestamp;
  finish ← lift (SafeMath.add (rebalanceStartTime rebalance) (rebalanceDuration rebalance));
  mret (finish <=? now).

Definition _getDefaultPositionRealUnit _setToken _component : tx E Z :=
  u ← view_set _setToken (λ s, SetToken.getDefaultPositionRealUnit s _component);
  lift (toUint256 u).

Definition _getNormalizedTargetUnit _setToken _component : tx E Z :=
  p ← asks (params_of _setToken _component);
  m ← read_set _setToken SetToken.positionMultiplier;
  m' ← lift (toUint256 m);
  t ← lift (SafeMath.mul (targetUnit p) m');
  rebalance ← asks (rebalance_of _setToken);
  lift (SafeMath.div t (positionMultiplier rebalance)).

Definition _targetUnmet _setToken _component : tx E bool :=
  rebalance ← asks (rebalance_of _setToken);
  if bool_decide (_component = quoteAsset rebalance) then mret false
  else
    normalizedTargetUnit ← _getNormalizedTargetUnit _setToken _component;
    currentUnit ← _getDefaultPositionRealUnit _setToken _component;
    if 0 <? normalizedTargetUnit then
      b ← lift (PreciseUnitMath.approximatelyEquals normalizedTargetUnit currentUnit 1);
      mret (negb b)
    else mret (negb (normalizedTargetUnit =? currentUnit)).

(** The loop of [_allTargetsMet], which stops at the first unmet target. *)
Fixpoint targets_loop _setToken (components : list Address) : tx E bool :=
  match components with
  | [] => mret true
  | c :: cs => unmet ← _targetUnmet _setToken c;
               if (unmet : bool) then mret false else targets_loop _setToken cs
  end.

Definition _allTargetsMet _setToken : tx E bool :=
  rebalance ← asks (rebalance_of _setToken);
  targets_loop _setToken (rebalanceComponents rebalance).

Definition _isQuoteAssetExcessOrAtTarget _setToken : tx E bool :=
  rebalance ← asks (rebalance_of _setToken);
  u ← _getDefaultPositionRealUnit _setToken (quoteAsset rebalance);
  t ← _getNormalizedTargetUnit _setToken (quoteAsset rebalance);
  isAtTarget ← lift (PreciseUnitMath.approximatelyEquals u t 1);
  mret ((t <? u) || isAtTarget).

Definition _canUnlockEarly _setToken : tx E bool :=
  rebalance ← asks (rebalance_of _setToken);
  met ← _allTargetsMet _setToken;
  if (met : bool) then
    q ← _isQuoteAssetExcessOrAtTarget _setToken;
    mret (q && (raiseTargetPercentage rebalance =? 0))
  else mret false.

Definition _canRaiseAssetTargets _setToken : tx E bool :=
  rebalance ← asks (rebalance_of _setToken);
  u ← _getDefaultPositionRealUnit _setToken (quoteAsset rebalance);
  t ← _getNormalizedTargetUnit _setToken (quoteAsset rebalance);
  met ← _allTargetsMet _setToken;
  mret (met && (t <? u)).

Definition _getAuctionPriceAdapter this _setToken _component : tx E Address :=
  p ← asks (params_of _setToken _component);
  getAndValidateAdapter this (priceAdapterName p).

(** A call of the adapter at an address. *)
Definition call_adapter {A} (a : Address) (f : IAuctionPriceAdapterV1 → result A) : tx E A :=
  match adapter_at a with
  | Some i => lift (f i)
  | None => revert "function call to a non-contract account"
  end.

Definition _validateAuctionExecutionPriceParams this (p : AuctionExecutionParams) : tx E () :=
  adapter ← getAndValidateAdapter this (priceAdapterName p);
  v ← call_adapter adapter (λ i, isPriceAdapterConfigDataValid i (priceAdapterConfigData p));
  requires v "Price adapter config data invalid".

Fixpoint validate_old this (ps : list AuctionExecutionParams) : tx E () :=
  match ps with
  | [] => mret ()
  | p :: ps' => _validateAuctionExecutionPriceParams this p;; validate_old this ps'
  end.

Fixpoint validate_new this (ps : list AuctionExecutionParams) : tx E () :=
  match ps with
  | [] => mret ()
  | p :: ps' =>
      requires (0 <? targetUnit p) "New component target unit must be greater than 0";;
      _validateAuctionExecutionPriceParams this p;; validate_new this ps'
  end.

Definition _concatAndValidateAuctionParams this
    (_oldAuctionParams _newAuctionParams : list AuctionExecutionParams)
    : tx E (list AuctionExecutionParams) :=
  validate_old this _oldAuctionParams;;
  validate_new this _newAuctionParams;;
  mret (_oldAuctionParams ++ _newAuctionParams).

Definition _aggregateComponentsAndAuctionParams this (_currentComponents _newComponents : list Address)
    (_newComponentsAuctionParams _oldComponentsAuctionParams : list AuctionExecutionParams)
    : tx E (list Address * list AuctionExecutionParams) :=
  requires (length _newComponents =? length _newComponentsAuctionParams)%nat
    "New components and params length mismatch";;
  requires (length _currentComponents =? length _oldComponentsAuctionParams)%nat
    "Old components and params length mismatch";;
  let aggregateComponents := extend _currentComponents _newComponents in
  d ← lift (hasDuplicate aggregateComponents);
  requires (negb d) "Cannot have duplicate components";;
  aggregateAuctionParams ← _concatAndValidateAuctionParams this _oldComponentsAuctionParams
                             _newComponentsAuctionParams;
  mret (aggregateComponents, aggregateAuctionParams).

Definition _validateBidTargets _setToken _component : tx E () :=
  rebalance ← asks (rebalance_of _setToken);
  requires (negb (bool_decide (_component = quoteAsset rebalance)))
    "Cannot bid explicitly on Quote Asset";;
  requires (contains (rebalanceComponents rebalance) _component) "Component not part of rebalance";;
  x ← PositionLib.hasExternalPosition _setToken _component;
  requires (negb x) "External positions not allowed";;
  elapsed ← _isRebalanceDurationElapsed _setToken;
  requires (negb elapsed) "Rebalance must be in progress".

Definition _getUnitsAndNotionalAmounts _setToken _component (_totalSupply : Z)
    : tx E (Z * Z * Z * Z) :=
  currentUnit ← _getDefaultPositionRealUnit _setToken _component;
  targetUnit ← _getNormalizedTargetUnit _setToken _component;
  currentNotionalAmount ← lift (PositionLib.getDefaultTotalNotional _totalSupply currentUnit);
  targetNotionalAmount ← lift (PreciseUnitMath.preciseMulCeil_u _totalSupply targetUnit);
  mret (currentUnit, targetUnit, currentNotionalAmount, targetNotionalAmount).

(** The direction and the size, from the notional amounts. *)
Definition auction_size (protocolFee currentNotional targetNotional : Z) : result (bool * Z) :=
  let isSellAuction := targetNotional <? currentNotional in
  maxComponentQty ←
    (if isSellAuction then SafeMath.sub currentNotional targetNotional
     else d ← SafeMath.sub targetNotional currentNotional;
          r ← SafeMath.sub PreciseUnitMath.preciseUnit protocolFee;
          PreciseUnitMath.preciseDiv_u d r);
  Ok (isSellAuction, maxComponentQty).

Definition _calculateAuctionSizeAndDirection this _setToken _component (_totalSupply : Z)
    : tx E (bool * Z) :=
  ctl ← asks controller;
  let protocolFee := Controller.getModuleFee ctl this AUCTION_MODULE_V1_PROTOCOL_FEE_INDEX in
  '(currentUnit, targetUnit, currentNotional, targetNotional) ←
    _getUnitsAndNotionalAmounts _setToken _component _totalSupply;
  requires (negb (currentUnit =? targetUnit)) "Target already met";;
  lift (auction_size protocolFee currentNotional targetNotional).

Definition _getSendAndReceiveTokens (isSellAuction : bool) _setToken _component
    : tx E (Address * Address) :=
  rebalance ← asks (rebalance_of _setToken);
  mret (if isSellAuction then (_component, quoteAsset rebalance)
        else (quoteAsset rebalance, _component)).

Definition _calculateQuoteAssetQuantity (isSellAuction : bool)
    (_componentQuantity _componentPrice : Z) : result Z :=
  if isSellAuction then PreciseUnitMath.preciseMulCeil_u _componentQuantity _componentPrice
  else PreciseUnitMath.preciseMul_u _componentQuantity _componentPrice.

Definition _validateQuoteAssetQuantity (isSellAuction : bool)
    (quoteAssetQuantity _quoteQuantityLimit preBidTokenSentBalance : Z) : result () :=
  if isSellAuction then
    require (quoteAssetQuantity <=? _quoteQuantityLimit) "Quote asset quantity exceeds limit"
  else
    require (_quoteQuantityLimit <=? quoteAssetQuantity) "Quote asset quantity below limit";;
    require (quoteAssetQuantity <=? preBidTokenSentBalance) "Insufficient quote asset balance".

Definition _calculateQuantitiesForBid (isSellAuction : bool)
    (_componentQuantity quoteAssetQuantity : Z) : Z * Z :=
  if isSellAuction then (_componentQuantity, quoteAssetQuantity)
  else (quoteAssetQuantity, _componentQuantity).

Definition _createBidInfo this _setToken _component (_componentQuantity _quoteQuantityLimit : Z)
    : tx E BidInfo :=
  supply ← read_set _setToken (λ s, totalSupply (SetToken.token s));
  adapter ← _getAuctionPriceAdapter this _setToken _component;
  p ← asks (params_of _setToken _component);
  '(isSell, auctionQty) ← _calculateAuctionSizeAndDirection this _setToken _component supply;
  requires (_componentQuantity <=? auctionQty) "Bid size exceeds auction quantity";;
  '(send, receive) ← _getSendAndReceiveTokens isSell _setToken _component;
  rebalance ← asks (rebalance_of _setToken);
  now ← asks block_timestamp;
  elapsed ← lift (SafeMath.sub now (rebalanceStartTime rebalance));
  price ← call_adapter adapter (λ i, getPrice i _setToken _component _componentQuantity elapsed
                                       (rebalanceDuration rebalance) (priceAdapterConfigData p));
  quoteAssetQuantity ← lift (_calculateQuoteAssetQuantity isSell _componentQuantity price);
  preSent ← balance send _setToken;
  preReceived ← balance receive _setToken;
  lift (_validateQuoteAssetQuantity isSell quoteAssetQuantity _quoteQuantityLimit preSent);;
  let '(sent, received) := _calculateQuantitiesForBid isSell _componentQuantity quoteAssetQuantity in
  mret {| setToken := _setToken; sendToken := send; receiveToken := receive;
          priceAdapter := adapter; bid_priceAdapterConfigData := priceAdapterConfigData p;
          isSellAuction := isSell; auctionQuantity := auctionQty; componentPrice := price;
          quantitySentBySet := sent; quantityReceivedBySet := received;
          preBidTokenSentBalance := preSent; preBidTokenReceivedBalance := preReceived;
          setTotalSupply := supply |}.

Definition _executeBid this msg_sender (_bidInfo : BidInfo) : tx E () :=
  transferFrom this (receiveToken _bidInfo) msg_sender (setToken _bidInfo)
    (quantityReceivedBySet _bidInfo);;
  strictInvokeTransfer this (setToken _bidInfo) (sendToken _bidInfo) msg_sender
    (quantitySentBySet _bidInfo).

Definition _accrueProtocolFee this (_bidInfo : BidInfo) : tx E Z :=
  b ← balance (receiveToken _bidInfo) (setToken _bidInfo);
  exchangedQuantity ← lift (SafeMath.sub b (preBidTokenReceivedBalance _bidInfo));
  protocolFee ← getModuleFee this AUCTION_MODULE_V1_PROTOCOL_FEE_INDEX exchangedQuantity;
  payProtocolFeeFromSetToken this (setToken _bidInfo) (receiveToken _bidInfo) protocolFee;;
  mret protocolFee.

Definition _updatePositionState this (_bidInfo : BidInfo) : tx E (Z * Z) :=
  '(postBidSendTokenBalance, _, _) ←
    PositionLib.calculateAndEditDefaultPosition this (setToken _bidInfo) (sendToken _bidInfo)
      (setTotalSupply _bidInfo) (preBidTokenSentBalance _bidInfo);
  '(postBidReceiveTokenBalance, _, _) ←
    PositionLib.calculateAndEditDefaultPosition this (setToken _bidInfo) (receiveToken _bidInfo)
      (setTotalSupply _bidInfo) (preBidTokenReceivedBalance _bidInfo);
  netSendAmount ← lift (SafeMath.sub (preBidTokenSentBalance _bidInfo) postBidSendTokenBalance);
  netReceiveAmount ←
    lift (SafeMath.sub postBidReceiveTokenBalance (preBidTokenReceivedBalance _bidInfo));
  mret (netSendAmount, netReceiveAmount).

Definition _updateBiddersHistory _setToken (_bidder : Address) (_status : bool) : tx E () :=
  p ← asks (permission_of _setToken);
  if _status && negb (contains (biddersHistory p) _bidder) then
    store (put_permission _setToken (with_history (biddersHistory p ++ [_bidder]) p))
  else if negb _status && contains (biddersHistory p) _bidder then
    l ← lift (removeStorage (biddersHistory p) _bidder);
    store (put_permission _setToken (with_history l p))
  else mret ().

(** ** External functions *)

Fixpoint open_auctions _setToken (components : list Address) (ps : list AuctionExecutionParams)
    : tx E () :=
  match components, ps with
  | c :: cs, p :: ps' =>
      x ← PositionLib.hasExternalPosition _setToken c;
      requires (negb x) "External positions not allowed";;
      store (put_params _setToken c p);;
      open_auctions _setToken cs ps'
  | _, _ => mret ()
  end.

Definition startRebalance this msg_sender _setToken (_quoteAsset : Address)
    (_newComponents : list Address)
    (_newComponentsAuctionParams _oldComponentsAuctionParams : list AuctionExecutionParams)
    (_shouldLockSetToken : bool) (_rebalanceDuration _initialPositionMultiplier : Z) : tx E () :=
  _validateOnlyManagerAndValidSet this msg_sender _setToken;;
  (if _shouldLockSetToken then
     l ← read_set _setToken SetToken.locker;
     if negb (bool_decide (l = this)) then
       on_set _setToken (λ ctl, SetToken.execute ctl this SetToken.Lock)
     else mret ()
   else mret ());;
  currentComponents ← read_set _setToken SetToken.getComponents;
  '(allComponents, allAuctionParams) ←
    _aggregateComponentsAndAuctionParams this currentComponents _newComponents
      _newComponentsAuctionParams _oldComponentsAuctionParams;
  open_auctions _setToken allComponents allAuctionParams;;
  now ← asks block_timestamp;
  rebalance ← asks (rebalance_of _setToken);
  store (put_rebalance _setToken
    {| quoteAsset := _quoteAsset; rebalanceStartTime := now;
       rebalanceDuration := _rebalanceDuration; positionMultiplier := _initialPositionMultiplier;
       raiseTargetPercentage := raiseTargetPercentage rebalance;
       rebalanceComponents := allComponents |}).

Definition bid this msg_sender _setToken _component (_componentAmount _quoteAssetLimit : Z)
    : tx E (BidInfo * (Z * Z * Z)) :=
  nonReentrant (
    _validateOnlyAllowedBidder msg_sender _setToken;;
    _validateBidTargets _setToken _component;;
    bidInfo ← _createBidInfo this _setToken _component _componentAmount _quoteAssetLimit;
    _executeBid this msg_sender bidInfo;;
    protocolFeeAmount ← _accrueProtocolFee this bidInfo;
    '(netAmountSent, netAmountReceived) ← _updatePositionState this bidInfo;
    mret (bidInfo, (netAmountSent, netAmountReceived, protocolFeeAmount))).

Definition raiseAssetTargets msg_sender _setToken : tx E Z :=
  _validateOnlyAllowedBidder msg_sender _setToken;;
  elapsed ← _isRebalanceDurationElapsed _setToken;
  requires (negb elapsed) "Rebalance must be in progress";;
  can ← _canRaiseAssetTargets _setToken;
  requires can "Targets not met or quote asset =~ 0";;
  rebalance ← asks (rebalance_of _setToken);
  d ← lift (SafeMath.add PreciseUnitMath.preciseUnit (raiseTargetPercentage rebalance));
  newPositionMultiplier ← lift (PreciseUnitMath.preciseDiv_u (positionMultiplier rebalance) d);
  store (put_rebalance _setToken (with_multiplier newPositionMultiplier rebalance));;
  mret newPositionMultiplier.

Definition unlock this _setToken : tx E () :=
  isRebalanceDurationElapsed ← _isRebalanceDurationElapsed _setToken;
  canUnlockEarly ← _canUnlockEarly _setToken;
  requires (isRebalanceDurationElapsed || canUnlockEarly)
    "Cannot unlock early unless all targets are met and raiseTargetPercentage is zero";;
  (if (canUnlockEarly : bool) then
     rebalance ← asks (rebalance_of _setToken);
     store (put_rebalance _setToken (with_duration 0 rebalance))
   else mret ());;
  on_set _setToken (λ ctl, SetToken.execute ctl this SetToken.Unlock).

Definition setRaiseTargetPercentage this msg_sender _setToken (_raiseTargetPercentage : Z)
    : tx E () :=
  _validateOnlyManagerAndValidSet this msg_sender _setToken;;
  requires (0 <? _raiseTargetPercentage) "Target percentage must be greater than 0";;
  rebalance ← asks (rebalance_of _setToken);
  store (put_rebalance _setToken (with_raise _raiseTargetPercentage rebalance)).

Fixpoint bidder_loop _setToken (_bidders : list Address) (_statuses : list bool) : tx E () :=
  match _bidders, _statuses with
  | b :: bs, s :: ss =>
      _updateBiddersHistory _setToken b s;;
      p ← asks (permission_of _setToken);
      store (put_permission _setToken (with_allowed
        (if (s : bool) then {[ b ]} ∪ bidAllowList p else bidAllowList p ∖ {[ b ]}) p));;
      bidder_loop _setToken bs ss
  | _, _ => mret ()
  end.

Definition setBidderStatus this msg_sender _setToken (_bidders : list Address)
    (_statuses : list bool) : tx E () :=
  _validateOnlyManagerAndValidSet this msg_sender _setToken;;
  lift (validatePairsWithArray _bidders _statuses);;
  bidder_loop _setToken _bidders _statuses.

Definition setAnyoneBid this msg_sender _setToken (_status : bool) : tx E () :=
  _validateOnlyManagerAndValidSet this msg_sender _setToken;;
  p ← asks (permission_of _setToken);
  store (put_permission _setToken (with_anyone _status p)).

Fixpoint initialize_loop _setToken (positions : list Position) : tx E () :=
  match positions with
  | [] => mret ()
  | p :: ps =>
      requires (positionState p =? 0) "External positions not allowed";;
      u ← lift (toUint256 (unit_ p));
      e ← asks (params_of _setToken (component p));
      store (put_params _setToken (component p) (with_target u e));;
      initialize_loop _setToken ps
  end.

Definition initialize this msg_sender _setToken : tx E () :=
  _validateOnlySetManager _setToken msg_sender;;
  _validateOnlyValidAndPendingSet this _setToken;;
  positions ← view_set _setToken SetToken.getPositions;
  initialize_loop _setToken positions;;
  m ← read_set _setToken SetToken.positionMultiplier;
  m' ← lift (toUint256 m);
  rebalance ← asks (rebalance_of _setToken);
  store (put_rebalance _setToken (with_multiplier m' rebalance));;
  on_set _setToken (λ ctl, SetToken.execute ctl this SetToken.InitializeModule).

(** Deleting a struct leaves its mapping: the loop clears the entries of the
    history. *)
Definition removeModule msg_sender : tx E () :=
  tokenPermissionInfo ← asks (permission_of msg_sender);
  let cleared := bidAllowList tokenPermissionInfo ∖ list_to_set (biddersHistory tokenPermissionInfo) in
  store (put_rebalance msg_sender no_rebalance);;
  store (put_permission msg_sender (with_allowed cleared no_permission)).

(** ** Views *)

Definition isRebalanceDurationElapsed _setToken : tx E bool := _isRebalanceDurationElapsed _setToken.

Definition getRebalanceComponents this _setToken : tx E (list Address) :=
  _validateOnlyValidAndInitializedSet this _setToken;;
  rebalance ← asks (rebalance_of _setToken); mret (rebalanceComponents rebalance).

Definition getAuctionSizeAndDirection this _setToken _component : tx E (bool * Z) :=
  _validateOnlyValidAndInitializedSet this _setToken;;
  rebalance ← asks (rebalance_of _setToken);
  requires (contains (rebalanceComponents rebalance) _component) "Component not part of rebalance";;
  supply ← read_set _setToken (λ s, totalSupply (SetToken.token s));
  _calculateAuctionSizeAndDirection this _setToken _component supply.

Definition getQuoteAssetBalance _setToken : tx E Z :=
  rebalance ← asks (rebalance_of _setToken); balance (quoteAsset rebalance) _setToken.

Definition getBidPreview this _setToken _component (_componentQuantity _quoteQuantityLimit : Z)
    : tx E BidInfo :=
  _validateOnlyValidAndInitializedSet this _setToken;;
  _validateBidTargets _setToken _component;;
  _createBidInfo this _setToken _component _componentQuantity _quoteQuantityLimit.

Definition canUnlockEarly _setToken : tx E bool := _canUnlockEarly _setToken.
Definition canRaiseAssetTargets _setToken : tx E bool := _canRaiseAssetTargets _setToken.
Definition allTargetsMet _setToken : tx E bool := _allTargetsMet _setToken.
Definition isQuoteAssetExcessOrAtTarget _setToken : tx E bool :=
  _isQuoteAssetExcessOrAtTarget _setToken.

Definition isAllowedBidder this _setToken (_bidder : Address) : tx E bool :=
  _validateOnlyValidAndInitializedSet this _setToken;; _isAllowedBidder _setToken _bidder.

Definition getAllowedBidders this _setToken : tx E (list Address) :=
  _validateOnlyValidAndInitializedSet this _setToken;;
  p ← asks (permission_of _setToken); mret (biddersHistory p).
End AuctionModule.
End AuctionModule.
