(* ===== verification/AuctionSample.v ===== *)
(** * A concrete rebalance

    An instance of the interfaces of the auction module, and a world in which a
    set is being rebalanced: the inputs on which the theorems are applied. *)
From Stdlib Require Import String.
From S2P Require Import Prelude JsString BigNumber Constants MathUtils SolMath.
From S2P Require Import AddressArrayUtils Script AdapterUtils Controller Erc20 SetToken.
From S2P Require Import IntegrationRegistry World Position Tokens AuctionPrice AuctionRebalance.

(** The storage of the module, its guard, and the balances of all accounts. *)
Abbreviation auction_env := (module_env AuctionRebalance.Storage).

#[export] Instance auction_storage : AuctionStorage auction_env.
Proof.
  refine {| auction (e : auction_env) := e.1.1; put_auction s (e : auction_env) := (s, e.1.2, e.2) |};
    [done| |done].
  intros e e'. cbn. destruct e.1.2; [done|]. by intros [= <-].
Defined.

Module AuctionSample.
Import AuctionRebalance AuctionModule.
#[local] Open Scope string_scope.

Definition controller_after (os : list Controller.operation) (c : Controller.State)
    : Controller.State :=
  foldl (λ c o, Controller.state_of (Controller.execute Controller.owner_only "owner" o c)) c os.

(** A protocol fee of a tenth of a percent. *)
Definition sample_controller : Controller.State :=
  controller_after [Controller.AddFee "m1" 0 (10 ^ 15)]
    PositionLib.sample_controller.

Definition sample_registry : IntegrationRegistry.State :=
  match IntegrationRegistry.addIntegration (λ _, Ok ()) sample_controller "owner" "m1"
          "ConstantPriceAdapter" "constant" IntegrationRegistry.new_registry with
  | Ok r => r
  | Throw _ => IntegrationRegistry.new_registry
  end.

Definition sample_adapters (a : Address) : option IAuctionPriceAdapterV1 :=
  if String.eqb a "constant" then Some ConstantPrice.adapter else None.

Definition no_storage : Storage :=
  {| executionInfo := ∅; permissionInfo := ∅; rebalanceInfo := ∅ |}.

(** One set in circulation, with two components; a bidder with 5 of [c] and 1 of
    [q]. *)
Definition sample_world : World auction_env :=
  {| controller := sample_controller; sets := {[ "set" := SetToken.sample_fee ]};
     registries := {[ "r" := sample_registry ]}; block_timestamp := 1000;
     env := ((no_storage, false),
             {[ ("a", "set") := 10 ^ 18; ("b", "set") := 3; ("q", "bidder") := 10 ^ 18;
                ("c", "bidder") := 5 * 10 ^ 18 ]}) |}.

Definition sample_params (target price : Z) : AuctionExecutionParams :=
  {| targetUnit := target; priceAdapterName := "ConstantPriceAdapter";
     priceAdapterConfigData := ConstantPrice.getEncodedData price |}.

(** Sell [a] for [q], buy [c]. *)
Definition sample_start : result (() * World auction_env) :=
  startRebalance sample_adapters "m1" "manager" "set" "q" ["c"] [sample_params (10 ^ 17) (10 ^ 18)]
    [sample_params (4 * 10 ^ 17) (2 * 10 ^ 18); sample_params 2 (10 ^ 18)] true 100 (9 * 10 ^ 17)
    sample_world.

Definition sample_started : World auction_env := PositionLib.after sample_world sample_start.

Definition sample_open : World auction_env :=
  PositionLib.after sample_started (setBidderStatus "m1" "manager" "set" ["bidder"] [true] sample_started).

(** A tenth of [a] for at most a fifth of [q]. *)
Definition sample_bid : result (BidInfo * (Z * Z * Z) * World auction_env) :=
  bid sample_adapters "m1" "bidder" "set" "a" (10 ^ 17) (2 * 10 ^ 17) sample_open.

Definition at_time (t : Z) (w : World auction_env) : World auction_env :=
  {| controller := controller w; sets := sets w; registries := registries w; block_timestamp := t;
     env := env w |}.

(** A rebalance whose targets are what the set holds, with a quote asset it does
    not hold. *)
Definition sample_still_start : result (() * World auction_env) :=
  startRebalance sample_adapters "m1" "manager" "set" "q" [] []
    [sample_params (9 * 10 ^ 17) (2 * 10 ^ 18); sample_params 2 (10 ^ 18)] true 100 (9 * 10 ^ 17)
    sample_world.

Definition sample_still : World auction_env :=
  at_time 1100 (PositionLib.after sample_world sample_still_start).

(** The same with an excess of the quote asset, open to all, and a raise of a
    tenth. *)
Definition sample_excess_start : result (() * World auction_env) :=
  (startRebalance sample_adapters "m1" "manager" "set" "b" [] []
     [sample_params (9 * 10 ^ 17) (2 * 10 ^ 18); sample_params 0 (10 ^ 18)] true 100 (9 * 10 ^ 17);;
   setAnyoneBid "m1" "manager" "set" true;;
   setRaiseTargetPercentage "m1" "manager" "set" (10 ^ 17)) sample_world.

Definition sample_excess : World auction_env := PositionLib.after sample_world sample_excess_start.
End AuctionSample.
