(* ===== verification/AuctionTheorems.v ===== *)
(** * Properties of the auctions

    Theorems on AuctionRebalance.v: the size of an auction, what a bid does to the
    positions, who may bid, when a locked set is released. *)
From Stdlib Require Import String.
From S2P Require Import Prelude JsString BigNumber Constants MathUtils SolMath.
From S2P Require Import AddressArrayUtils Script AdapterUtils Controller Erc20 SetToken.
From S2P Require Import IntegrationRegistry World Position Tokens Holdings Exchange AuctionPrice AuctionRebalance.
From S2P Require Import AuctionSample.

Module AuctionTheorems.
Import AuctionRebalance AuctionModule.

(** ** The size of an auction *)

(** What the set keeps of [q] tokens it receives. *)
Definition net_of_fee (fee q : Z) : Z := q - Z.quot (q * fee) (10 ^ 18).

Lemma auction_size_inv (fee current target maxQty : Z) (sell : bool) :
  is_uint fee → is_uint current → is_uint target →
  auction_size fee current target = Ok (sell, maxQty) →
  sell = (target <? current) ∧ is_uint maxQty ∧
  if sell then maxQty = current - target
  else fee < 10 ^ 18 ∧ current ≤ target ∧ maxQty = Z.quot ((target - current) * 10 ^ 18) (10 ^ 18 - fee).
Proof.
  intros Hf Hc Ht E. unfold auction_size in E. apply result_bind_ok in E as (m & Em & E).
  injection E as <- <-. split; [done|]. destruct (target <? current).
  - apply safe_sub_inv in Em as (-> & _ & ?); [|done..]. done.
  - apply result_bind_ok in Em as (d & Ed & Em). apply safe_sub_inv in Ed as (-> & Hle & Hd); [|done..].
    apply result_bind_ok in Em as (r & Er & Em).
    apply safe_sub_inv in Er as (-> & _ & Hr); [|auto using precise_unit_uint..].
    apply preciseDiv_u_inv in Em as (-> & Hpos & Hm); [|done..].
    change PreciseUnitMath.preciseUnit with (10 ^ 18) in *.
    split; [done|]. split; [lia|done].
Qed.

(** What is left of a purchase after the fee: at most the amount wanted, and
    exactly that for a purchase of the full size. *)
Lemma net_of_fee_le (fee d q : Z) :
  0 ≤ fee < 10 ^ 18 → 0 ≤ d → 0 ≤ q ≤ Z.quot (d * 10 ^ 18) (10 ^ 18 - fee) → net_of_fee fee q ≤ d.
Proof.
  intros Hf Hd Hq. unfold net_of_fee. pose proof (quot_bounds (d * 10 ^ 18) (10 ^ 18 - fee)).
  pose proof (quot_bounds (q * fee) (10 ^ 18)). nia.
Qed.

Lemma net_of_fee_full (fee d : Z) :
  0 ≤ fee < 10 ^ 18 → 0 ≤ d → net_of_fee fee (Z.quot (d * 10 ^ 18) (10 ^ 18 - fee)) = d.
Proof.
  intros Hf Hd. set (q := Z.quot (d * 10 ^ 18) (10 ^ 18 - fee)).
  assert (0 ≤ q) by (apply Z.quot_pos; lia).
  pose proof (net_of_fee_le fee d q Hf Hd). unfold net_of_fee in *.
  pose proof (quot_bounds (d * 10 ^ 18) (10 ^ 18 - fee)) as B. fold q in B.
  pose proof (quot_bounds (q * fee) (10 ^ 18)). nia.
Qed.

(** C7. No bid within the size of an auction takes the tracked balance of the
    component past its target, the protocol's share of a purchase taken into
    account, and a bid of the full size takes it exactly there. *)
Theorem bid_never_overshoots (fee current target maxQty q : Z) (sell : bool)
    (Hf : is_uint fee) (Hc : is_uint current) (Ht : is_uint target) (Hq : 0 ≤ q ≤ maxQty)
    (E : auction_size fee current target = Ok (sell, maxQty)) :
  if sell then target ≤ current - q ∧ target = current - maxQty
  else current + net_of_fee fee q ≤ target ∧ current + net_of_fee fee maxQty = target.
Proof.
  apply auction_size_inv in E as (_ & _ & E); [|done..]. destruct sell; [lia|].
  destruct E as (Hlt & Hle & ->). destruct Hf as [Hf0 _].
  pose proof (net_of_fee_le fee (target - current) q ltac:(lia) ltac:(lia) Hq).
  pose proof (net_of_fee_full fee (target - current) ltac:(lia) ltac:(lia)). lia.
Qed.

(** ** Functions of the module that only read *)
Section Views.
Context `{ERC20} `{SignedLib} `{Keccak} {E : Type} `{!External E} `{!ReentrancyGuard E}
  `{!AuctionStorage E}.
Context (adapter_at : Address → option IAuctionPriceAdapterV1).
Implicit Types (this msg_sender _setToken _component : Address).

Lemma reading_allowed msg_sender _setToken : reading (_validateOnlyAllowedBidder (E := E) msg_sender _setToken).
Proof. unfold _validateOnlyAllowedBidder, _isAllowedBidder. reading. Qed.

Lemma reading_elapsed _setToken : reading (_isRebalanceDurationElapsed (E := E) _setToken).
Proof. unfold _isRebalanceDurationElapsed. reading. Qed.

Lemma reading_realUnit _setToken _component :
  reading (_getDefaultPositionRealUnit (E := E) _setToken _component).
Proof. unfold _getDefaultPositionRealUnit. reading. Qed.

Lemma reading_target _setToken _component :
  reading (_getNormalizedTargetUnit (E := E) _setToken _component).
Proof. unfold _getNormalizedTargetUnit. reading. Qed.

#[local] Hint Resolve reading_allowed reading_elapsed reading_realUnit
  reading_target : reading.

Lemma reading_unmet _setToken _component : reading (_targetUnmet (E := E) _setToken _component).
Proof. unfold _targetUnmet. reading. Qed.

#[local] Hint Resolve reading_unmet : reading.

Lemma reading_targets _setToken (cs : list Address) : reading (targets_loop (E := E) _setToken cs).
Proof. induction cs as [|c cs IH]; cbn [targets_loop]; reading. Qed.

#[local] Hint Resolve reading_targets : reading.

Lemma reading_allTargets _setToken : reading (_allTargetsMet (E := E) _setToken).
Proof. unfold _allTargetsMet. reading. Qed.

#[local] Hint Resolve reading_allTargets : reading.

Lemma reading_quote _setToken : reading (_isQuoteAssetExcessOrAtTarget (E := E) _setToken).
Proof. unfold _isQuoteAssetExcessOrAtTarget. reading. Qed.

#[local] Hint Resolve reading_quote : reading.

Lemma reading_canUnlock _setToken : reading (_canUnlockEarly (E := E) _setToken).
Proof. unfold _canUnlockEarly. reading. Qed.

Lemma reading_canRaise _setToken : reading (_canRaiseAssetTargets (E := E) _setToken).
Proof. unfold _canRaiseAssetTargets. reading. Qed.

Lemma reading_bidTargets _setToken _component :
  reading (_validateBidTargets (E := E) _setToken _component).
Proof. unfold _validateBidTargets. reading. Qed.

Lemma reading_size this _setToken _component (supply : Z) :
  reading (_calculateAuctionSizeAndDirection (E := E) this _setToken _component supply).
Proof. unfold _calculateAuctionSizeAndDirection, _getUnitsAndNotionalAmounts. reading. Qed.

Lemma reading_call {A} (a : Address) (f : IAuctionPriceAdapterV1 → result A) :
  reading (call_adapter (E := E) adapter_at a f).
Proof. unfold call_adapter. reading. Qed.

Lemma reading_adapter this _setToken _component :
  reading (_getAuctionPriceAdapter (E := E) this _setToken _component).
Proof. unfold _getAuctionPriceAdapter. reading. Qed.

Lemma reading_tokens (sell : bool) _setToken _component :
  reading (_getSendAndReceiveTokens (E := E) sell _setToken _component).
Proof. unfold _getSendAndReceiveTokens. reading. Qed.

#[local] Hint Resolve reading_size reading_call reading_adapter reading_tokens : reading.

Lemma reading_bidInfo this _setToken _component (q limit : Z) :
  reading (_createBidInfo (E := E) adapter_at this _setToken _component q limit).
Proof.
  unfold _createBidInfo. reading.
Qed.
End Views.

#[export] Hint Resolve reading_allowed reading_elapsed reading_realUnit
  reading_target reading_unmet reading_targets reading_allTargets reading_quote reading_canUnlock
  reading_canRaise reading_bidTargets reading_size reading_call reading_adapter
  reading_tokens reading_bidInfo : reading.

(** ** Bids *)

Lemma quoteQuantity_word (sell : bool) (q price z : Z) :
  _calculateQuoteAssetQuantity sell q price = Ok z → is_uint z.
Proof.
  unfold _calculateQuoteAssetQuantity. destruct sell; intros E;
    [by eapply preciseMulCeil_u_word|by eapply preciseMul_u_word].
Qed.

Section Bids.
Context `{ERC20} `{SignedLib} `{Keccak} {E : Type} `{!External E} `{!ReentrancyGuard E}
  `{!AuctionStorage E}.
Context (adapter_at : Address → option IAuctionPriceAdapterV1).
Implicit Types (this msg_sender _setToken _component : Address) (w : World E)
  (s : SetToken.State) (bi : BidInfo).

(** What the fields of a bid record of the world it is made in. *)
Definition bid_describes _setToken _component (q limit : Z) bi w s : Prop :=
  setToken bi = _setToken ∧
  setTotalSupply bi = totalSupply (SetToken.token s) ∧
  (sendToken bi, receiveToken bi) =
    (if isSellAuction bi then (_component, quoteAsset (rebalance_of _setToken w))
     else (quoteAsset (rebalance_of _setToken w), _component)) ∧
  q ≤ auctionQuantity bi ∧
  (if isSellAuction bi then quantitySentBySet bi = q ∧ quantityReceivedBySet bi ≤ limit
   else quantityReceivedBySet bi = q ∧ limit ≤ quantitySentBySet bi) ∧
  is_uint (quantitySentBySet bi) ∧ is_uint (quantityReceivedBySet bi) ∧
  IERC20_balanceOf (sendToken bi) _setToken w = Ok (preBidTokenSentBalance bi) ∧
  IERC20_balanceOf (receiveToken bi) _setToken w = Ok (preBidTokenReceivedBalance bi).

Lemma createBidInfo_ok this _setToken _component (q limit : Z) bi w w' s :
  is_uint q → sets w !! _setToken = Some s →
  _createBidInfo adapter_at this _setToken _component q limit w = Ok (bi, w') →
  w' = w ∧ bid_describes _setToken _component q limit bi w s.
Proof.
  intros Hqu Es Hw. split; [by eapply reading_bidInfo|]. unfold _createBidInfo in Hw.
  read_step Hw as supply Hsup. apply read_set_ok in Hsup as (s0 & E0 & -> & _).
  rewrite Es in E0. injection E0 as <-.
  read_step Hw as ad Had.
  read_step Hw as p Hp. read_step Hw as [sell size] Hdir.
  read_step Hw as u Hu. apply requires_ok in Hu as [Hu _]. apply Z.leb_le in Hu.
  read_step Hw as [send recv] Htok.
  unfold _getSendAndReceiveTokens in Htok. read_step Htok as r Hr. apply asks_ok in Hr as [-> _].
  apply tx_ret_ok in Htok as [Htok _].
  read_step Hw as r Hr. read_step Hw as now Hnow. read_step Hw as el Hel. read_step Hw as price Hpr.
  read_step Hw as quote Hq. read_step Hw as pre Hpre. read_step Hw as prer Hprer.
  apply PositionLib.balance_ok in Hpre as (_ & Hpre & _).
  apply PositionLib.balance_ok in Hprer as (_ & Hprer & _).
  apply lift_ok in Hq as [Hq _]. apply quoteQuantity_word in Hq.
  read_step Hw as u' Hv. apply lift_ok in Hv as [Hv _].
  destruct (_calculateQuantitiesForBid sell q quote) as [sent rcvd] eqn:Ecq.
  apply tx_ret_ok in Hw as [<- _]. unfold bid_describes. cbn.
  split; [done|]. split; [done|]. split; [done|]. split; [done|].
  unfold _calculateQuantitiesForBid, _validateQuoteAssetQuantity in *.
  destruct sell; injection Ecq as <- <-; (split; [split; [done|]|done]).
  - apply require_ok in Hv. lia.
  - apply result_bind_ok in Hv as (? & Hv & _). apply require_ok in Hv. lia.
Qed.

Lemma validateBidTargets_ok _setToken _component (u : ()) w w' :
  _validateBidTargets _setToken _component w = Ok (u, w') →
  w' = w ∧ _component ≠ quoteAsset (rebalance_of _setToken w) ∧
  _component ∈ rebalanceComponents (rebalance_of _setToken w).
Proof.
  intros Hw. pose proof (reading_bidTargets _ _ _ _ _ Hw) as ->. split; [done|].
  unfold _validateBidTargets in Hw. read_step Hw as r Hr. apply asks_ok in Hr as [-> _].
  read_step Hw as u1 Hq. apply requires_ok in Hq as [Hq _].
  read_step Hw as u2 Hc. apply requires_ok in Hc as [Hc _].
  apply negb_true_iff, bool_decide_eq_false in Hq. by apply contains_true in Hc.
Qed.

Context (_setToken : Address) `{!Isolated E _setToken}.

Lemma updatePositionState_ok this bi (sent received : Z) w w' s :
  this ≠ Controller.address0 → setToken bi = _setToken → sets w !! _setToken = Some s →
  SetToken.consistent s → PositionLib.tracked s → setTotalSupply bi = totalSupply (SetToken.token s) →
  sendToken bi ≠ receiveToken bi → receiveToken bi ≠ _setToken →
  is_uint (preBidTokenSentBalance bi) → is_uint (preBidTokenReceivedBalance bi) →
  _updatePositionState this bi w = Ok ((sent, received), w') →
  ∃ s', w' = put_set _setToken s' w ∧ SetToken.consistent s' ∧ PositionLib.tracked s' ∧
    SetToken.token s' = SetToken.token s ∧
    SetToken.positionMultiplier s' = SetToken.positionMultiplier s ∧
    (∀ c, c ≠ sendToken bi → c ≠ receiveToken bi → SetToken.position s' c = SetToken.position s c) ∧
    IERC20_balanceOf (sendToken bi) _setToken w = Ok (preBidTokenSentBalance bi - sent) ∧
    IERC20_balanceOf (receiveToken bi) _setToken w =
      Ok (preBidTokenReceivedBalance bi + received) ∧
    PositionLib.real_unit s' (sendToken bi) * setTotalSupply bi
      ≤ (preBidTokenSentBalance bi - sent) * 10 ^ 18 ∧
    PositionLib.real_unit s' (receiveToken bi) * setTotalSupply bi
      ≤ (preBidTokenReceivedBalance bi + received) * 10 ^ 18.
Proof.
  intros Ht Eb Es Hs Htr Hsup Hne Hrt Hp1 Hp2 Hw. unfold _updatePositionState in Hw. rewrite Eb in Hw.
  assert (is_uint (setTotalSupply bi)) as Hsu by (rewrite Hsup; apply Hs).
  apply tx_bind_ok in Hw as ([[b1 o1] n1] & w1 & He1 & Hw).
  apply (PositionLib.calculateAndEdit_ok _ _ _ _ _ _ _ _ _ _ s) in He1
    as (s1 & -> & Hs1 & Htr1 & Ht1 & Hm1 & Hpos1 & Hr1b & Hb1 & _ & Ho1 & Hr1 & _ & Hn1); [|done..].
  apply tx_bind_ok in Hw as ([[b2 o2] n2] & w2 & He2 & Hw).
  apply (PositionLib.calculateAndEdit_ok _ _ _ _ _ _ _ _ _ _ s1) in He2
    as (s2 & -> & Hs2 & Htr2 & Ht2 & Hm2 & Hpos2 & Hr2b & Hb2 & _ & Ho2 & Hr2 & _ & Hn2);
    [|done|apply put_set_at|done..].
  rewrite balance_put in Hr2b by done. rewrite put_set_twice in Hw. read_step Hw as d1 Hd1. read_step Hw as d2 Hd2.
  apply tx_ret_ok in Hw as [Hw <-]. injection Hw as <- <-.
  apply lift_ok in Hd1 as [Hd1 _]. apply safe_sub_inv in Hd1 as (-> & _); [|done..].
  apply lift_ok in Hd2 as [Hd2 _]. apply safe_sub_inv in Hd2 as (-> & _); [|done..].
  exists s2. split; [done|]. split; [done|]. split; [done|]. split; [congruence|].
  split; [congruence|]. split; [intros c Hc1 Hc2; by rewrite Hpos2, Hpos1|].
  assert (PositionLib.real_unit s2 (sendToken bi) = PositionLib.real_unit s1 (sendToken bi)) as ->.
  { unfold PositionLib.real_unit. by rewrite Hpos2, Hm2. }
  apply edited_claim with (claim := PositionLib.real_unit s1 (sendToken bi)) in Hn1; [|done..].
  apply edited_claim with (claim := PositionLib.real_unit s2 (receiveToken bi)) in Hn2; [|done..].
  split; [rewrite Hr1b; f_equal; lia|]. split; [rewrite Hr2b; f_equal; lia|]. split; lia.
Qed.
(** The exchange of the two tokens, as the set and the bidder see it. *)
Lemma executeBid_ok this msg_sender `{!Accounting E _setToken msg_sender} bi (u : ()) w w' :
  setToken bi = _setToken → msg_sender ≠ _setToken → sendToken bi ≠ _setToken →
  receiveToken bi ≠ _setToken → is_uint (quantitySentBySet bi) →
  is_uint (quantityReceivedBySet bi) → _executeBid this msg_sender bi w = Ok (u, w') →
  shifted _setToken (λ c, only (receiveToken bi) (quantityReceivedBySet bi) c
                        - only (sendToken bi) (quantitySentBySet bi) c) w w' ∧
  dealt _setToken msg_sender
    (λ c, only (sendToken bi) (quantitySentBySet bi) c - only (receiveToken bi) (quantityReceivedBySet bi) c)
    (λ c, only (sendToken bi) (quantitySentBySet bi) c - only (receiveToken bi) (quantityReceivedBySet bi) c)
    w w'.
Proof.
  intros Eb Hm Hst Hrt Hq1 Hq2 Hw. pose proof Hq1 as [? _]. pose proof Hq2 as [? _].
  unfold _executeBid in Hw. rewrite Eb in Hw. apply tx_bind_ok in Hw as (? & w1 & Hx1 & Hx2). split.
  - eapply shifted_trans; [exact (transferFrom_shifts _ _ _ _ _ _ _ _ Hq2 Hx1)|
      exact (strictInvokeTransfer_shifts _ _ _ _ _ _ _ _ Hq1 Hx2)|].
    intros c _. unfold only. destruct (decide _), (decide _); lia.
  - apply (transferFrom_dealt _ msg_sender) in Hx1; [|done..].
    apply (send_dealt _ msg_sender) in Hx2; [|done..].
    eapply dealt_weaken; [by eapply dealt_trans|].
    intros c. unfold moved, only.
    repeat match goal with |- context [decide ?P] => destruct (decide P); try done end; lia.
Qed.

Definition auction_fee_rate this w : Z :=
  Controller.getModuleFee (controller w) this AUCTION_MODULE_V1_PROTOCOL_FEE_INDEX.

(** The fee is a share of what has been added to the balance, and leaves the set. *)
Lemma accrueAuctionFee_ok this a `{!Accounting E _setToken a} bi (z fee : Z) w w' :
  setToken bi = _setToken → a ≠ _setToken → receiveToken bi ≠ _setToken →
  IERC20_balanceOf (receiveToken bi) _setToken w = Ok z → is_uint (preBidTokenReceivedBalance bi) →
  _accrueProtocolFee this bi w = Ok (fee, w') →
  0 ≤ fee ∧ shifted _setToken (only (receiveToken bi) (- fee)) w w' ∧
  dealt _setToken a (λ _, 0) (only (receiveToken bi) fee) w w' ∧
  (is_uint (auction_fee_rate this w) →
   fee = (z - preBidTokenReceivedBalance bi) * auction_fee_rate this w / 10 ^ 18).
Proof.
  intros Eb Ha Hrt Ez Hpre Hw. unfold _accrueProtocolFee in Hw. rewrite Eb in Hw.
  read_step Hw as b Hb. apply PositionLib.balance_ok in Hb as (_ & Hb & Hbu). rewrite Ez in Hb.
  injection Hb as <-. read_step Hw as d Hd. apply lift_ok in Hd as [Hd _].
  apply safe_sub_inv in Hd as (-> & _ & Hdu); [|done..].
  read_step Hw as f Hf. unfold getModuleFee in Hf. read_step Hf as ctl Hctl.
  apply asks_ok in Hctl as [-> _]. fold (auction_fee_rate this w) in Hf. apply lift_ok in Hf as [Hf _].
  apply tx_bind_ok in Hw as (u & w1 & Hpay & Hw). apply tx_ret_ok in Hw as [<- <-].
  pose proof (preciseMul_u_word _ _ _ Hf) as [Hf0 _]. split; [done|]. split; [|split].
  - by apply (payProtocolFee_shifts _setToken) in Hpay.
  - by eapply payProtocolFee_dealt.
  - intros Hp. by apply preciseMul_u_floor in Hf as [-> _].
Qed.

(** The steps of a successful bid: the world is only read up to the record of
    the bid, then come the exchange, the fee and the edits of the two positions. *)
Lemma bid_steps this msg_sender _component (q limit : Z) bi (sent received fee : Z) w w' s :
  is_uint q → sets w !! _setToken = Some s →
  bid adapter_at this msg_sender _setToken _component q limit w
    = Ok ((bi, (sent, received, fee)), w') →
  _component ≠ quoteAsset (rebalance_of _setToken w) ∧
  bid_describes _setToken _component q limit bi w s ∧
  ∃ e w1 w2 w3, guard_enter (env w) = Ok e ∧
    _executeBid this msg_sender bi (set_env e w) = Ok ((), w1) ∧
    _accrueProtocolFee this bi w1 = Ok (fee, w2) ∧
    _updatePositionState this bi w2 = Ok ((sent, received), w3) ∧
    w' = set_env (guard_leave (env w3)) w3.
Proof.
  intros Hqu Es Hw. unfold bid in Hw. apply nonReentrant_ok in Hw as (e & w3 & He & Hw & ->).
  assert (rebalance_of _setToken (set_env e w) = rebalance_of _setToken w) as Er.
  { unfold rebalance_of. cbn. by rewrite (auction_enter _ _ He). }
  read_step Hw as u Hallowed.
  apply tx_bind_ok in Hw as (u2 & wt & Hu & Hw). apply validateBidTargets_ok in Hu as (-> & Hne & _).
  apply tx_bind_ok in Hw as (bi0 & wb & Hb & Hw).
  apply (createBidInfo_ok _ _ _ _ _ _ _ _ s) in Hb as (-> & Hb); [|done..].
  rewrite Er in Hne. unfold bid_describes in Hb. rewrite Er in Hb.
  rewrite !(balance_enter _ _ _ He) in Hb.
  apply tx_bind_ok in Hw as ([] & wx & Hx & Hw). apply tx_bind_ok in Hw as (f & wf & Hf & Hw).
  apply tx_bind_ok in Hw as ([ns nr] & wp & Hp & Hw). apply tx_ret_ok in Hw as [Hw <-].
  injection Hw as -> -> -> ->. split; [done|]. split; [done|]. by exists e, wx, wf, wp.
Qed.

(** What a bid does to the balances: the set and the bidder exchange the quantities
    of the record, less a fee that the set pays. *)
Lemma bid_balances this msg_sender `{!Accounting E _setToken msg_sender} bi (fee : Z) e w w1 w2 :
  setToken bi = _setToken → msg_sender ≠ _setToken → sendToken bi ≠ receiveToken bi →
  sendToken bi ≠ _setToken → receiveToken bi ≠ _setToken → is_uint (quantitySentBySet bi) →
  is_uint (quantityReceivedBySet bi) →
  IERC20_balanceOf (receiveToken bi) _setToken w = Ok (preBidTokenReceivedBalance bi) →
  guard_enter (env w) = Ok e → _executeBid this msg_sender bi (set_env e w) = Ok ((), w1) →
  _accrueProtocolFee this bi w1 = Ok (fee, w2) →
  0 ≤ fee ∧ shifted _setToken (λ c, only (receiveToken bi) (quantityReceivedBySet bi - fee) c
                        - only (sendToken bi) (quantitySentBySet bi) c) (set_env e w) w2 ∧
  dealt _setToken msg_sender
    (λ c, only (sendToken bi) (quantitySentBySet bi) c
          - only (receiveToken bi) (quantityReceivedBySet bi) c)
    (λ c, only (sendToken bi) (quantitySentBySet bi) c
          - only (receiveToken bi) (quantityReceivedBySet bi - fee) c) (set_env e w) w2 ∧
  (is_uint (auction_fee_rate this w1) →
   fee = quantityReceivedBySet bi * auction_fee_rate this w1 / 10 ^ 18).
Proof.
  intros Eb Hm Hd Hst Hrt Hq1 Hq2 Ez He Hx Hf.
  apply executeBid_ok in Hx as [Hx1 Hx2]; [|done..].
  assert (is_uint (preBidTokenReceivedBalance bi)) as Hpu by (by eapply balance_word).
  rewrite <- (balance_enter _ _ _ He) in Ez. apply (proj2 Hx1) in Ez as Ez1; [|done].
  apply (accrueAuctionFee_ok this msg_sender _ _ _ _ _ Eb Hm Hrt Ez1 Hpu) in Hf
    as (Hf0 & Hf1 & Hf2 & Hf3).
  unfold only in Hf3 at 1 2. rewrite decide_True, decide_False in Hf3 by congruence.
  split; [done|]. split; [|split].
  - eapply shifted_trans; [exact Hx1|exact Hf1|]. intros c _. unfold only.
    destruct (decide _), (decide _); lia.
  - eapply dealt_weaken; [eapply dealt_trans; [exact Hx2|exact Hf2]|].
    intros c. unfold only. destruct (decide _), (decide _); lia.
  - intros Hr. rewrite Hf3 by done. do 2 f_equal. lia.
Qed.

(** The two tokens of a bid are other than the set. *)
Lemma bid_tokens bi _component (q limit : Z) w s :
  bid_describes _setToken _component q limit bi w s →
  _component ≠ quoteAsset (rebalance_of _setToken w) → _component ≠ _setToken →
  quoteAsset (rebalance_of _setToken w) ≠ _setToken →
  sendToken bi ≠ receiveToken bi ∧ sendToken bi ≠ _setToken ∧ receiveToken bi ≠ _setToken.
Proof.
  intros (_ & _ & Etok & _) Hne Hc Hqa.
  destruct (isSellAuction bi); injection Etok as -> ->; repeat split; congruence.
Qed.

(** The amounts reported are those of the record, less the fee. *)
Lemma bid_amounts bi (fee sent received : Z) w w2 :
  sendToken bi ≠ receiveToken bi → sendToken bi ≠ _setToken → receiveToken bi ≠ _setToken →
  IERC20_balanceOf (sendToken bi) _setToken w = Ok (preBidTokenSentBalance bi) →
  IERC20_balanceOf (receiveToken bi) _setToken w = Ok (preBidTokenReceivedBalance bi) →
  (∀ c z, c ≠ _setToken → IERC20_balanceOf c _setToken w = Ok z →
    IERC20_balanceOf c _setToken w2 = Ok (z + only (receiveToken bi) (quantityReceivedBySet bi - fee) c
      - only (sendToken bi) (quantitySentBySet bi) c)) →
  IERC20_balanceOf (sendToken bi) _setToken w2 = Ok (preBidTokenSentBalance bi - sent) →
  IERC20_balanceOf (receiveToken bi) _setToken w2 = Ok (preBidTokenReceivedBalance bi + received) →
  sent = quantitySentBySet bi ∧ received = quantityReceivedBySet bi - fee.
Proof.
  intros Hd Hst Hrt Hp1 Hp2 Hall Hb1 Hb2.
  rewrite (Hall _ _ Hst Hp1) in Hb1. rewrite (Hall _ _ Hrt Hp2) in Hb2.
  injection Hb1 as Hb1. injection Hb2 as Hb2. unfold only in Hb1, Hb2.
  repeat match goal with Hx : context [decide (?x = ?y)] |- _ => destruct (decide (x = y)) end;
    try congruence; lia.
Qed.

(** C1. A bid that succeeds exchanges the two tokens of its record, in quantities that
    respect the auction and the bidder's limit: the set's balance of one falls by the
    quantity sent, that of the other rises by the quantity received less the
    protocol's share, its other balances stay, and the bidder gets and pays just these
    quantities.  The set stays consistent, its supply is unchanged, its units of both
    tokens claim no more than its balances of them, its other positions are as before,
    and a set that covered its claims still does.  The bidder is not the set, and the
    set's own token is neither the component nor the quote asset. *)
Theorem bid_collateralized this msg_sender `{!Accounting E _setToken msg_sender} _component
    (q limit : Z) bi (sent received fee : Z) w w' s
    (Ht : this ≠ Controller.address0) (Hm : msg_sender ≠ _setToken) (Hq : is_uint q)
    (Hc : _component ≠ _setToken) (Hqa : quoteAsset (rebalance_of _setToken w) ≠ _setToken)
    (Es : sets w !! _setToken = Some s) (Hs : SetToken.consistent s) (Htr : PositionLib.tracked s)
    (Hw : bid adapter_at this msg_sender _setToken _component q limit w
            = Ok ((bi, (sent, received, fee)), w')) :
  bid_describes _setToken _component q limit bi w s ∧
  sent = quantitySentBySet bi ∧ received + fee = quantityReceivedBySet bi ∧ 0 ≤ fee ∧
  (∃ e w1, guard_enter (env w) = Ok e ∧ _executeBid this msg_sender bi (set_env e w) = Ok ((), w1) ∧
    (is_uint (auction_fee_rate this w1) →
     fee = quantityReceivedBySet bi * auction_fee_rate this w1 / 10 ^ 18)) ∧
  (∀ c z, c ≠ _setToken → IERC20_balanceOf c _setToken w = Ok z →
    IERC20_balanceOf c _setToken w' =
      Ok (z + only (receiveToken bi) received c - only (sendToken bi) sent c)) ∧
  (∀ c z, c ≠ _setToken → IERC20_balanceOf c msg_sender w = Ok z →
    ∃ z', IERC20_balanceOf c msg_sender w' = Ok z' ∧
      z + only (sendToken bi) sent c - only (receiveToken bi) (received + fee) c ≤ z' ≤
      z + only (sendToken bi) sent c - only (receiveToken bi) received c) ∧
  ∃ s', sets w' !! _setToken = Some s' ∧ SetToken.consistent s' ∧ PositionLib.tracked s' ∧
    SetToken.token s' = SetToken.token s ∧
    covers _setToken w' s' (sendToken bi) ∧ covers _setToken w' s' (receiveToken bi) ∧
    (∀ c, c ≠ sendToken bi → c ≠ receiveToken bi → SetToken.position s' c = SetToken.position s c) ∧
    (covered_set _setToken w → covered_set _setToken w').
Proof.
  apply (bid_steps _ _ _ _ _ _ _ _ _ _ _ s) in Hw
    as (Hne & Hb & e & w1 & w2 & w3 & He & Hx & Hf & Hp & ->); [|done..].
  split; [done|]. pose proof Hb as (Eb & Esup & Etok & _ & _ & Hq1 & Hq2 & Hpre1 & Hpre2).
  destruct (bid_tokens _ _ _ _ _ _ Hb Hne Hc Hqa) as (Hd & Hst & Hrt).
  destruct (bid_balances _ _ _ _ _ _ _ _ Eb Hm Hd Hst Hrt Hq1 Hq2 Hpre2 He Hx Hf)
    as (Hf0 & Hsh & Hdl & Hfr).
  destruct (proj1 Hsh s Es) as (l & E1).
  apply (updatePositionState_ok _ _ _ _ _ _ (with_logs l s)) in Hp
    as (s' & -> & Hs' & Htr' & Etk & Em & Hpos & Hb1 & Hb2 & Hc1 & Hc2);
    [|done || by eapply balance_word..].
  pose proof Hsh as [_ Hsh'].
  assert (∀ c z, c ≠ _setToken → IERC20_balanceOf c _setToken w = Ok z →
    IERC20_balanceOf c _setToken w2 = Ok (z + only (receiveToken bi) (quantityReceivedBySet bi - fee) c
      - only (sendToken bi) (quantitySentBySet bi) c)) as Hall.
  { intros c z Hcs Ez. rewrite <- (balance_enter _ _ _ He) in Ez. rewrite (Hsh' c z Hcs Ez).
    f_equal. lia. }
  destruct (bid_amounts _ _ _ _ _ _ Hd Hst Hrt Hpre1 Hpre2 Hall Hb1 Hb2) as [-> ->].
  assert (∀ c, c ≠ _setToken → IERC20_balanceOf c _setToken (set_env (guard_leave (env w2))
    (put_set _setToken s' w2)) = IERC20_balanceOf c _setToken w2) as Hend.
  { intros c Hcs. change (env w2) with (env (put_set _setToken s' w2)).
    by rewrite balance_leave, balance_put. }
  assert (∀ c, c = sendToken bi ∨ c = receiveToken bi → covers _setToken
    (set_env (guard_leave (env w2)) (put_set _setToken s' w2)) s' c) as Hcov.
  { rewrite Esup in Hc1, Hc2. unfold covers. rewrite Etk.
    intros c [->| ->]; rewrite Hend by done; eauto. }
  split; [done|]. split; [lia|]. split; [done|]. split; [by exists e, w1|].
  split; [intros c z Hcs Ez; rewrite Hend by done; by apply Hall|]. split.
  { intros c z Hcs Ez. change (env w2) with (env (put_set _setToken s' w2)).
    rewrite (account_leave (st := _setToken)), (account_put (st := _setToken)) by done.
    rewrite <- (account_enter (st := _setToken) _ _ _ He) in Ez.
    destruct (Hdl c z Hcs Ez) as (z' & Ez' & Hz'). exists z'. split; [done|].
    replace (quantityReceivedBySet bi - fee + fee) with (quantityReceivedBySet bi) by lia. lia. }
  exists s'. split; [apply put_set_at|]. split; [done|]. split; [done|]. split; [done|].
  split; [by apply Hcov; left|]. split; [by apply Hcov; right|]. split; [done|].
  intros (s0 & Hcv). pose proof Hcv as [E0 _]. rewrite Es in E0. injection E0 as <-.
  exists s'. eapply (covered_two _setToken (sendToken bi) (receiveToken bi));
    [done|done|exact Hcv|apply put_set_at|done..| |by apply Hcov; left|by apply Hcov; right].
  intros c z Hn1 Hn2 Hcs Ez. rewrite Hend, (Hall c z Hcs Ez) by done. f_equal. unfold only.
  destruct (decide _), (decide _); try done; lia.
Qed.
End Bids.

(** ** Opening a rebalance *)
Section Openings.
Context `{ERC20} `{SignedLib} `{Keccak} {E : Type} `{!External E} `{!ReentrancyGuard E}
  `{!AuctionStorage E}.
Context (adapter_at : Address → option IAuctionPriceAdapterV1).
Implicit Types (this msg_sender _setToken _component : Address).

Lemma reading_validateOld this (ps : list AuctionExecutionParams) :
  reading (validate_old (E := E) adapter_at this ps).
Proof.
  induction ps; cbn [validate_old]; unfold _validateAuctionExecutionPriceParams; reading.
Qed.

Lemma reading_validateNew this (ps : list AuctionExecutionParams) :
  reading (validate_new (E := E) adapter_at this ps).
Proof.
  induction ps; cbn [validate_new]; unfold _validateAuctionExecutionPriceParams; reading.
Qed.

#[local] Hint Resolve reading_validateOld reading_validateNew : reading.

Lemma reading_concat this (op np : list AuctionExecutionParams) :
  reading (_concatAndValidateAuctionParams (E := E) adapter_at this op np).
Proof. unfold _concatAndValidateAuctionParams. reading. Qed.

#[local] Hint Resolve reading_concat : reading.

Lemma reading_aggregate this (cs ns : list Address) (np op : list AuctionExecutionParams) :
  reading (_aggregateComponentsAndAuctionParams (E := E) adapter_at this cs ns np op).
Proof. unfold _aggregateComponentsAndAuctionParams. reading. Qed.

Lemma validateNew_ok this (ps : list AuctionExecutionParams) (u : ()) (w w' : World E) :
  validate_new adapter_at this ps w = Ok (u, w') → Forall (λ p, 0 < targetUnit p) ps.
Proof.
  induction ps as [|p ps IH]; cbn [validate_new]; intros Hw; [constructor|].
  read_step Hw as u1 Hp. apply requires_ok in Hp as [Hp _].
  apply tx_bind_ok in Hw as (u2 & w2 & Hv & Hw). apply Forall_cons. split; [lia|].
  assert (reading (_validateAuctionExecutionPriceParams (E := E) adapter_at this p)) as Hrd
    by (unfold _validateAuctionExecutionPriceParams; reading).
  apply Hrd in Hv as ->. by apply IH.
Qed.

(** The components of a rebalance and their parameters: first those of the set,
    then the new ones. *)
Lemma aggregate_ok this (cs ns all : list Address) (np op ps : list AuctionExecutionParams)
    (w w' : World E) :
  _aggregateComponentsAndAuctionParams adapter_at this cs ns np op w = Ok ((all, ps), w') →
  w' = w ∧ all = cs ++ ns ∧ ps = op ++ np ∧ NoDup all ∧ length all = length ps ∧
  Forall (λ p, 0 < targetUnit p) np.
Proof.
  intros Hw. split; [by eapply reading_aggregate|]. unfold _aggregateComponentsAndAuctionParams in Hw.
  read_step Hw as u1 Hl1. apply requires_ok in Hl1 as [Hl1 _]. apply Nat.eqb_eq in Hl1.
  read_step Hw as u2 Hl2. apply requires_ok in Hl2 as [Hl2 _]. apply Nat.eqb_eq in Hl2.
  cbv zeta in Hw. read_step Hw as d Hd. read_step Hw as u3 Hu3.
  apply requires_ok in Hu3 as [Hu3 _]. apply negb_true_iff in Hu3 as ->.
  apply lift_ok in Hd as [Hd _]. unfold hasDuplicate in Hd. apply result_bind_ok in Hd as (? & _ & Hd).
  injection Hd as Hd. read_step Hw as ps' Hps. apply tx_ret_ok in Hw as [Hw _]. injection Hw as <- <-.
  unfold _concatAndValidateAuctionParams in Hps. read_step Hps as u4 Hold. read_step Hps as u5 Hnew.
  apply tx_ret_ok in Hps as [<- _]. apply validateNew_ok in Hnew. unfold extend in *.
  split; [done|]. split; [done|]. split.
  - destruct (decide (NoDup (cs ++ ns))) as [|Hn]; [done|].
    apply hasDuplicate_loop_true in Hn. congruence.
  - rewrite !length_app. split; [lia|done].
Qed.

Lemma evolves_open _setToken (cs : list Address) (ps : list AuctionExecutionParams) :
  evolves (open_auctions (E := E) _setToken cs ps).
Proof.
  revert ps. induction cs as [|c cs IH]; intros [|p ps]; cbn [open_auctions];
    unfold PositionLib.hasExternalPosition, store; evolve.
Qed.

Lemma evolves_startRebalance this msg_sender _setToken (quote : Address) (ns : list Address)
    (np op : list AuctionExecutionParams) (lock : bool) (d m : Z) :
  this ≠ Controller.address0 →
  evolves (startRebalance (E := E) adapter_at this msg_sender _setToken quote ns np op lock d m).
Proof.
  intros Ht. unfold startRebalance.
  apply evolves_bind; [apply evolves_reading, reading_manager|intros _].
  apply evolves_bind; [evolve; by apply evolves_operation|intros _].
  apply evolves_bind; [apply evolves_reading; reading|intros cs].
  apply evolves_bind; [apply evolves_reading, reading_aggregate|intros [all ps]].
  apply evolves_bind; [apply evolves_open|intros _]. unfold store. evolve.
Qed.

Lemma evolves_setBidderStatus this msg_sender _setToken (bs : list Address) (ss : list bool) :
  evolves (setBidderStatus (E := E) this msg_sender _setToken bs ss).
Proof.
  unfold setBidderStatus. apply evolves_bind; [apply evolves_reading, reading_manager|intros _].
  apply evolves_bind; [evolve|intros _]. revert ss.
  induction bs as [|b bs IH]; intros [|s ss]; cbn [bidder_loop];
    unfold _updateBiddersHistory, store; evolve.
Qed.
End Openings.

#[export] Hint Resolve reading_validateOld reading_validateNew reading_concat reading_aggregate
  : reading.

(** ** Concrete instances *)

Lemma bid_never_overshoots_witness :
  auction_size (10 ^ 15) 5 (10 ^ 18) = Ok (false, 1001001001001000995) ∧
  5 + net_of_fee (10 ^ 15) 1001001001001000995 = 10 ^ 18.
Proof.
  assert (auction_size (10 ^ 15) 5 (10 ^ 18) = Ok (false, 1001001001001000995)) as E
    by (vm_compute; reflexivity).
  split; [exact E|].
  exact (proj2 (bid_never_overshoots (10 ^ 15) 5 (10 ^ 18) 1001001001001000995 7 false
    ltac:(word) ltac:(word) ltac:(word) ltac:(lia) E)).
Defined.

Lemma sample_start_ran : AuctionSample.sample_start = Ok ((), AuctionSample.sample_started).
Proof. apply (PositionLib.ran_unit _ _). vm_compute. reflexivity. Qed.

Lemma sample_open_ran :
  setBidderStatus "m1" "manager" "set" ["bidder"%string] [true] AuctionSample.sample_started
    = Ok ((), AuctionSample.sample_open).
Proof. apply (PositionLib.ran_unit _ _). vm_compute. reflexivity. Qed.

Lemma sample_open_ok : set_ok "set" AuctionSample.sample_open.
Proof.
  assert (set_ok "set" AuctionSample.sample_started) as Hs.
  { eapply set_ok_evolves; [|exists SetToken.sample_fee|apply sample_start_ran].
    - by apply evolves_startRebalance.
    - split; [reflexivity|apply SetToken.sample_fee_consistent]. }
  eapply set_ok_evolves; [apply evolves_setBidderStatus|exact Hs|].
  apply sample_open_ran.
Qed.

Definition set_check (p : SetToken.State → bool) (w : World auction_env) : bool :=
  match sets w !! ("set"%string : Address) with Some s => p s | None => false end.

Definition no_bid : BidInfo :=
  let a := Controller.address0 in Build_BidInfo a a a a [] false 0 0 0 0 0 0 0.

Lemma sample_bid_ran :
  AuctionSample.sample_bid = Ok (PositionLib.returned (no_bid, (0, 0, 0)) AuctionSample.sample_bid,
    PositionLib.after AuctionSample.sample_open AuctionSample.sample_bid).
Proof. apply PositionLib.ran. vm_compute. reflexivity. Qed.

(** The set that is open to bids covers its claims. *)
Lemma sample_open_covered s :
  sets AuctionSample.sample_open !! ("set"%string : Address) = Some s → SetToken.consistent s →
  covered_but "set" [] AuctionSample.sample_open s.
Proof.
  intros Es Hs.
  assert (set_check (λ s, PositionLib.tracked_check s &&
    negb (bool_decide ("set"%string ∈ SetToken.getComponents s)) &&
    backed_check "set" AuctionSample.sample_open s (totalSupply (SetToken.token s)))
    AuctionSample.sample_open = true) as Hc by (vm_compute; reflexivity).
  unfold set_check in Hc. rewrite Es in Hc. apply andb_true_iff in Hc as [Hc Hb].
  apply andb_true_iff in Hc as [Htr Hout]. apply negb_true_iff, bool_decide_eq_false in Hout.
  split; [done|]. split; [done|]. split; [by apply PositionLib.tracked_check_ok|]. split; [done|].
  intros c Hcs _. by apply (backed_check_ok _ _ _ _ Hb).
Qed.

Lemma bid_collateralized_witness :
  let w' := PositionLib.after AuctionSample.sample_open AuctionSample.sample_bid in
  (PositionLib.returned (no_bid, (0, 0, 0)) AuctionSample.sample_bid).2
    = (10 ^ 17, 1998 * 10 ^ 14, 2 * 10 ^ 14) ∧
  IERC20_balanceOf "q" "set" w' = Ok (1998 * 10 ^ 14) ∧ covered_set "set" w'.
Proof.
  cbv zeta. pose proof sample_bid_ran as Hran.
  set (r := PositionLib.returned (no_bid, (0, 0, 0)) AuctionSample.sample_bid) in *.
  assert (r.2 = (10 ^ 17, 1998 * 10 ^ 14, 2 * 10 ^ 14)) as Er by (vm_compute; reflexivity).
  split; [exact Er|]. destruct sample_open_ok as (s & Es & Hs).
  pose proof (sample_open_covered s Es Hs) as Hcv.
  assert (sendToken r.1 = "a"%string ∧ receiveToken r.1 = "q"%string) as [E1 E2]
    by (split; vm_compute; reflexivity).
  destruct r as [bi n] eqn:Eb. cbn [fst snd] in *. subst n.
  destruct (bid_collateralized AuctionSample.sample_adapters "set" "m1" "bidder" "a" (10 ^ 17)
    (2 * 10 ^ 17) bi (10 ^ 17) (1998 * 10 ^ 14) (2 * 10 ^ 14) AuctionSample.sample_open
    (PositionLib.after AuctionSample.sample_open AuctionSample.sample_bid) s)
    as (_ & _ & _ & _ & _ & Hbal & _ & s' & _ & _ & _ & _ & _ & _ & _ & Hcov);
    [discriminate|discriminate|word|discriminate|vm_compute; discriminate|exact Es|exact Hs
    |apply Hcv|exact Hran|].
  split; [|apply Hcov; by exists s].
  specialize (Hbal "q"%string 0 ltac:(discriminate) ltac:(vm_compute; reflexivity)).
  rewrite E1, E2 in Hbal. rewrite Hbal. reflexivity.
Defined.
End AuctionTheorems.
