(* ===== verification/AuctionState.v ===== *)
(** * The storage of the auction module across transactions

    What every sequence of transactions keeps of the permissions of bidders and
    of the components of a rebalance. *)
From Stdlib Require Import String.
From S2P Require Import Prelude JsString BigNumber Constants MathUtils SolMath.
From S2P Require Import AddressArrayUtils Script AdapterUtils Controller Erc20 SetToken.
From S2P Require Import IntegrationRegistry World Position Tokens AuctionPrice AuctionRebalance.
From S2P Require Import AuctionSample AuctionTheorems.

Module AuctionState.
Import AuctionRebalance AuctionModule AuctionTheorems.

(** ** The invariant *)

(** The history lists the accounts with a permission, each once. *)
Definition permission_valid (p : BidPermissionInfo) : Prop :=
  recorded (biddersHistory p) (bidAllowList p).

Definition storage_valid (s : Storage) : Prop :=
  (∀ st p, permissionInfo s !! st = Some p → permission_valid p) ∧
  (∀ st r, rebalanceInfo s !! st = Some r → NoDup (rebalanceComponents r)).

Lemma no_permission_valid : permission_valid no_permission.
Proof. split; [constructor|]. intros b. cbn. set_solver. Qed.

Lemma anyone_valid (b : bool) (p : BidPermissionInfo) :
  permission_valid p → permission_valid (with_anyone b p).
Proof. done. Qed.

Lemma put_permission_valid (st : Address) (p : BidPermissionInfo) (s : Storage) :
  permission_valid p → storage_valid s → storage_valid (put_permission st p s).
Proof.
  intros Hp [Hs Hr]. split; [|done]. intros st' p'. cbn. rewrite lookup_insert_Some.
  intros [[_ <-]|[_ E]]; [done|by eapply Hs].
Qed.

Lemma put_rebalance_valid (st : Address) (r : RebalanceInfo) (s : Storage) :
  NoDup (rebalanceComponents r) → storage_valid s → storage_valid (put_rebalance st r s).
Proof.
  intros Hp [Hs Hr]. split; [done|]. intros st' p'. cbn. rewrite lookup_insert_Some.
  intros [[_ <-]|[_ E]]; [done|by eapply Hr].
Qed.

(** ** The transactions *)

Section Transactions.
Context `{ERC20} `{SignedLib} `{Keccak} {E : Type} `{!External E} `{!ReentrancyGuard E}
  `{!AuctionStorage E}.
Context (adapter_at : Address → option IAuctionPriceAdapterV1).
Implicit Types (this msg_sender _setToken _component : Address) (w : World E).

Definition valid w : Prop := storage_valid (auction (env w)).

Lemma permission_of_valid _setToken w : valid w → permission_valid (permission_of _setToken w).
Proof.
  intros [Hw _]. unfold permission_of. specialize (Hw _setToken).
  destruct (permissionInfo (auction (env w)) !! _setToken) as [p|]; cbn;
    [by apply Hw|apply no_permission_valid].
Qed.

Lemma rebalance_of_valid _setToken w : valid w → NoDup (rebalanceComponents (rebalance_of _setToken w)).
Proof.
  intros [_ Hw]. unfold rebalance_of. specialize (Hw _setToken).
  destruct (rebalanceInfo (auction (env w)) !! _setToken) as [p|]; cbn; [by apply Hw|constructor].
Qed.

Lemma valid_env w w' : env w' = env w → valid w → valid w'.
Proof. unfold valid. by intros ->. Qed.

Lemma store_ok (f : Storage → Storage) (u : ()) w w' :
  store f w = Ok (u, w') → w' = set_env (put_auction (f (auction (env w))) (env w)) w.
Proof. unfold store. intros Hw. by apply modify_ok in Hw. Qed.

Lemma auction_store (f : Storage → Storage) (u : ()) w w' :
  store f w = Ok (u, w') → auction (env w') = f (auction (env w)).
Proof. intros Hw. apply store_ok in Hw as ->. cbn. apply auction_put. Qed.

Lemma with_history_same (p : BidPermissionInfo) : with_history (biddersHistory p) p = p.
Proof. by destruct p. Qed.

Lemma keeps_store (f : Storage → Storage) :
  (∀ s, storage_valid s → storage_valid (f s)) → keeps valid (store f).
Proof.
  intros Hf w u w' Hv Hw. split; [|done]. unfold valid. rewrite (auction_store _ _ _ _ Hw). auto.
Qed.

Lemma updateHistory_ok _setToken (b : Address) (status : bool) (u : ()) w w' :
  permission_valid (permission_of _setToken w) →
  _updateBiddersHistory _setToken b status w = Ok (u, w') →
  ∃ l, permission_of _setToken w' = with_history l (permission_of _setToken w) ∧
    toggled b status (biddersHistory (permission_of _setToken w)) l ∧
    ∀ p, put_permission _setToken p (auction (env w'))
         = put_permission _setToken p (auction (env w)).
Proof.
  intros [Hnd _] Hw. unfold _updateBiddersHistory in Hw. read_step Hw as p Hp.
  apply asks_ok in Hp as [-> _]. set (p := permission_of _setToken w) in *.
  assert (∀ l w1, w1 = set_env (put_auction (put_permission _setToken (with_history l p)
            (auction (env w))) (env w)) w →
    permission_of _setToken w1 = with_history l p ∧
    ∀ q, put_permission _setToken q (auction (env w1)) = put_permission _setToken q (auction (env w)))
    as Hput.
  { intros l w1 ->. unfold permission_of, put_permission. cbn. rewrite auction_put. cbn.
    rewrite lookup_insert_eq. split; [done|]. intros q. by rewrite insert_insert_eq. }
  destruct status, (contains (biddersHistory p) b) eqn:C; cbn in Hw.
  - apply tx_ret_ok in Hw as [_ <-]. exists (biddersHistory p).
    split; [by rewrite with_history_same|]. split; [by apply toggled_same|done].
  - apply store_ok, Hput in Hw as [Hw1 Hw2]. exists (biddersHistory p ++ [b]).
    split; [done|]. split; [by apply toggled_add|done].
  - read_step Hw as l Hl. apply lift_ok in Hl as [Hl _]. apply store_ok, Hput in Hw as [Hw1 Hw2].
    exists l. split; [done|]. split; [by apply toggled_remove|done].
  - apply tx_ret_ok in Hw as [_ <-]. exists (biddersHistory p).
    split; [by rewrite with_history_same|]. split; [by apply toggled_same|done].
Qed.

Lemma keeps_bidder_loop _setToken (bs : list Address) (ss : list bool) :
  keeps valid (bidder_loop _setToken bs ss).
Proof.
  revert ss. induction bs as [|b bs IH]; intros [|s ss]; cbn [bidder_loop];
    try (apply keeps_reading; solve [reading]).
  intros w u w' Hv Hw. apply tx_bind_ok in Hw as (u1 & w1 & He1 & Hw).
  apply updateHistory_ok in He1 as (l & Hp & Hl & Hput); [|by apply permission_of_valid].
  apply tx_bind_ok in Hw as (p & w2 & He2 & Hw). apply asks_ok in He2 as [-> ->].
  apply tx_bind_ok in Hw as (u3 & w3 & He3 & Hw). apply auction_store in He3.
  refine (IH ss w3 u w' _ Hw). unfold valid. rewrite He3, Hput, Hp.
  apply put_permission_valid; [|done].
  by eapply recorded_toggle; [apply permission_of_valid|].
Qed.

(** What a caller asks of the module for a set. *)
Inductive operation :=
| StartRebalance (_quoteAsset : Address) (_newComponents : list Address)
    (_newComponentsAuctionParams _oldComponentsAuctionParams : list AuctionExecutionParams)
    (_shouldLockSetToken : bool) (_rebalanceDuration _initialPositionMultiplier : Z)
| Bid (_component : Address) (_componentAmount _quoteAssetLimit : Z)
| RaiseAssetTargets
| Unlock
| SetRaiseTargetPercentage (_raiseTargetPercentage : Z)
| SetBidderStatus (_bidders : list Address) (_statuses : list bool)
| SetAnyoneBid (_status : bool)
| Initialize.

Definition execute this msg_sender _setToken (o : operation) : tx E () :=
  match o with
  | StartRebalance q cs np op lock d m =>
      startRebalance adapter_at this msg_sender _setToken q cs np op lock d m
  | Bid c q limit => bid adapter_at this msg_sender _setToken c q limit;; mret ()
  | RaiseAssetTargets => raiseAssetTargets msg_sender _setToken;; mret ()
  | Unlock => unlock this _setToken
  | SetRaiseTargetPercentage z => setRaiseTargetPercentage this msg_sender _setToken z
  | SetBidderStatus bs ss => setBidderStatus this msg_sender _setToken bs ss
  | SetAnyoneBid b => setAnyoneBid this msg_sender _setToken b
  | Initialize => initialize this msg_sender _setToken
  end.

(** The worlds the module can be in: after its deployment, after a call, after the
    set removed the module, after anything that does not touch its storage. *)
Inductive reachable this : World E → Prop :=
| reachable_deployed w :
    auction (env w) = AuctionSample.no_storage → reachable this w
| reachable_call w w' msg_sender _setToken (o : operation) :
    reachable this w → execute this msg_sender _setToken o w = Ok ((), w') → reachable this w'
| reachable_removed w w' _setToken :
    reachable this w → removeModule _setToken w = Ok ((), w') → reachable this w'
| reachable_elsewhere w w' :
    reachable this w → auction (env w') = auction (env w) → reachable this w'.

Lemma keeps_on_set _setToken (f : Controller.State → SetToken.State → result SetToken.State) :
  keeps valid (on_set _setToken f).
Proof. apply untouched_on_set, valid_env. Qed.

Lemma keeps_asks_permission {A} _setToken (f : BidPermissionInfo → tx E A) :
  (∀ p, permission_valid p → keeps valid (f p)) →
  keeps valid (p ← asks (permission_of _setToken); f p).
Proof. apply gives_bind, gives_asks, permission_of_valid. Qed.

Lemma keeps_asks_rebalance {A} _setToken (f : RebalanceInfo → tx E A) :
  (∀ r, NoDup (rebalanceComponents r) → keeps valid (f r)) →
  keeps valid (r ← asks (rebalance_of _setToken); f r).
Proof. apply gives_bind, gives_asks, rebalance_of_valid. Qed.

Lemma keeps_put_rebalance _setToken (r : RebalanceInfo) :
  NoDup (rebalanceComponents r) → keeps valid (store (put_rebalance _setToken r)).
Proof. intros Hr. apply keeps_store. intros s. by apply put_rebalance_valid. Qed.

Lemma keeps_put_permission _setToken (p : BidPermissionInfo) :
  permission_valid p → keeps valid (store (put_permission _setToken p)).
Proof. intros Hr. apply keeps_store. intros s. by apply put_permission_valid. Qed.

Lemma keeps_put_params _setToken _component (p : AuctionExecutionParams) :
  keeps valid (store (put_params _setToken _component p)).
Proof. apply keeps_store. done. Qed.

#[local] Hint Resolve keeps_on_set keeps_put_rebalance keeps_put_permission keeps_put_params
  keeps_bidder_loop : keeps.

Lemma keeps_manager this msg_sender _setToken :
  keeps valid (_validateOnlyManagerAndValidSet (E := E) this msg_sender _setToken).
Proof. apply keeps_reading, reading_manager. Qed.

#[local] Hint Resolve keeps_manager : keeps.

Lemma gives_aggregate this (cs ns : list Address) (np op : list AuctionExecutionParams) :
  gives valid (_aggregateComponentsAndAuctionParams (E := E) adapter_at this cs ns np op)
    (λ r, NoDup r.1).
Proof.
  intros w [all ps] w' Hv Hw. by apply aggregate_ok in Hw as (-> & _ & _ & Hnd & _).
Qed.

Lemma keeps_open _setToken (cs : list Address) (ps : list AuctionExecutionParams) :
  keeps valid (open_auctions _setToken cs ps).
Proof.
  revert ps. induction cs as [|c cs IH]; intros [|p ps]; cbn [open_auctions]; keeping.
Qed.

Lemma keeps_startRebalance this msg_sender _setToken (quote : Address) (ns : list Address)
    (np op : list AuctionExecutionParams) (lock : bool) (d m : Z) :
  keeps valid (startRebalance adapter_at this msg_sender _setToken quote ns np op lock d m).
Proof.
  unfold startRebalance. do 2 (apply keeps_bind; [keeping|intros _]).
  apply keeps_bind; [keeping|intros cs].
  eapply gives_bind; [apply gives_aggregate|]. intros [all ps] Hall.
  apply keeps_bind; [apply keeps_open|intros _]. keeping.
Qed.

Lemma keeps_raiseAssetTargets msg_sender _setToken :
  keeps valid (raiseAssetTargets (E := E) msg_sender _setToken).
Proof.
  unfold raiseAssetTargets. do 5 (apply keeps_bind; [keeping|intros ?]).
  apply keeps_asks_rebalance. intros r Hr. keeping.
Qed.

Lemma keeps_unlock this _setToken : keeps valid (unlock (E := E) this _setToken).
Proof.
  unfold unlock. do 3 (apply keeps_bind; [keeping|intros ?]). apply keeps_bind; [|intros _; keeping].
  apply keeps_if; [|keeping]. apply keeps_asks_rebalance. intros r Hr. keeping.
Qed.

Lemma keeps_setRaise this msg_sender _setToken (z : Z) :
  keeps valid (setRaiseTargetPercentage (E := E) this msg_sender _setToken z).
Proof.
  unfold setRaiseTargetPercentage. do 2 (apply keeps_bind; [keeping|intros ?]).
  apply keeps_asks_rebalance. intros r Hr. keeping.
Qed.

Lemma keeps_setBidderStatus this msg_sender _setToken (bs : list Address) (ss : list bool) :
  keeps valid (setBidderStatus (E := E) this msg_sender _setToken bs ss).
Proof. unfold setBidderStatus. keeping. Qed.

Lemma keeps_setAnyoneBid this msg_sender _setToken (b : bool) :
  keeps valid (setAnyoneBid (E := E) this msg_sender _setToken b).
Proof.
  unfold setAnyoneBid. apply keeps_bind; [keeping|intros _].
  apply keeps_asks_permission. intros p Hp. keeping.
Qed.

Lemma keeps_initialize_loop _setToken (ps : list Position) :
  keeps valid (initialize_loop (E := E) _setToken ps).
Proof. induction ps as [|p ps IH]; cbn [initialize_loop]; keeping. Qed.

Lemma keeps_initialize this msg_sender _setToken :
  keeps valid (initialize (E := E) this msg_sender _setToken).
Proof.
  unfold initialize, _validateOnlySetManager, _validateOnlyValidAndPendingSet, isSetManager,
    isSetPendingInitialization.
  apply keeps_bind; [keeping|intros _]. apply keeps_bind; [keeping|intros _].
  apply keeps_bind; [keeping|intros ps]. apply keeps_bind; [apply keeps_initialize_loop|intros _].
  do 2 (apply keeps_bind; [keeping|intros ?]). apply keeps_asks_rebalance. intros r Hr. keeping.
Qed.

(** The permissions that the loop of [removeModule] does not clear are none. *)
Lemma keeps_removeModule _setToken : keeps valid (removeModule (E := E) _setToken).
Proof.
  unfold removeModule. apply keeps_asks_permission. intros p [_ Hp]. cbv zeta.
  apply keeps_bind; [apply keeps_put_rebalance; constructor|intros _].
  apply keeps_put_permission. split; [constructor|]. intros b. cbn. set_solver.
Qed.

Lemma valid_enter w e : guard_enter (env w) = Ok e → valid w → valid (set_env e w).
Proof. intros He. unfold valid. cbn. by rewrite (auction_enter _ _ He). Qed.

Lemma valid_leave w : valid w → valid (set_env (guard_leave (env w)) w).
Proof. unfold valid. cbn. by rewrite auction_leave. Qed.

Lemma keeps_nonReentrant {A} (body : tx E A) : keeps valid body → keeps valid (nonReentrant body).
Proof. apply untouched_guard; [apply valid_enter|apply valid_leave]. Qed.

Lemma keeps_calculateAndEdit this _setToken _component (supply prev : Z) :
  keeps valid (PositionLib.calculateAndEditDefaultPosition (E := E) this _setToken _component supply prev).
Proof. apply untouched_calculateAndEdit, valid_env. Qed.

#[local] Hint Resolve keeps_calculateAndEdit : keeps.

(** Tokens leave the storage of the module as valid as they find it: what they
    change of it, they change by calling the module. *)
Context (Hcall : ∀ caller target v d,
  keeps valid (functionCallWithValue (E := E) caller target v d)).
Context (Htransfer : ∀ caller token from to q,
  keeps valid (safeTransferFrom (E := E) caller token from to q)).

Lemma keeps_strictInvokeTransfer this _setToken (token to : Address) (q : Z) :
  keeps valid (strictInvokeTransfer (E := E) this _setToken token to q).
Proof. by apply untouched_strict; [apply valid_env|]. Qed.

Lemma keeps_bid this msg_sender _setToken _component (q limit : Z) :
  keeps valid (bid adapter_at this msg_sender _setToken _component q limit).
Proof.
  pose proof keeps_strictInvokeTransfer as Hstrict. unfold bid. apply keeps_nonReentrant.
  unfold _executeBid, _accrueProtocolFee, payProtocolFeeFromSetToken, transferFrom, _updatePositionState.
  keeping.
Qed.

Lemma keeps_execute this msg_sender _setToken (o : operation) :
  keeps valid (execute this msg_sender _setToken o).
Proof.
  destruct o; cbn [execute];
    [apply keeps_startRebalance|apply keeps_bind; [apply keeps_bid|intros _; keeping]
    |apply keeps_bind; [apply keeps_raiseAssetTargets|intros _; keeping]|apply keeps_unlock
    |apply keeps_setRaise|apply keeps_setBidderStatus|apply keeps_setAnyoneBid|apply keeps_initialize].
Qed.

Lemma reachable_valid this w : reachable this w → valid w.
Proof.
  induction 1 as [w E1|w w' sender st o _ Hv Hw|w w' st _ Hv Hw|w w' _ Hv E1].
  - unfold valid. by rewrite E1.
  - by apply keeps_execute in Hw as [? _].
  - by apply keeps_removeModule in Hw as [? _].
  - unfold valid. by rewrite E1.
Qed.

(** C15. Whatever transactions the module executed, the history of a set lists
    each account that has a permission exactly once, so that an account may bid
    when everyone may or when [getAllowedBidders] lists it, also after the set
    removed the module and added it again; and no rebalance lists a component
    twice. *)
Theorem bidders_recorded this w _setToken (_bidder : Address) (Hw : reachable this w) :
  NoDup (biddersHistory (permission_of _setToken w)) ∧
  _isAllowedBidder _setToken _bidder w =
    Ok (isAnyoneAllowedToBid (permission_of _setToken w)
        || contains (biddersHistory (permission_of _setToken w)) _bidder, w) ∧
  NoDup (rebalanceComponents (rebalance_of _setToken w)).
Proof.
  apply reachable_valid in Hw. pose proof (permission_of_valid _setToken _ Hw) as [Hn Ha].
  split; [done|]. split; [|by apply rebalance_of_valid].
  unfold _isAllowedBidder, mbind, tx_bind, asks, mret, tx_ret. do 3 f_equal.
  apply eq_iff_eq_true. by rewrite bool_decide_eq_true, contains_true.
Qed.
End Transactions.

(** ** Concrete instances *)

Lemma bank_move_valid (token from to : Address) (q : Z) :
  keeps valid (bank_move (S := Storage * bool) token from to q).
Proof. by apply keeps_bank_move. Qed.

Lemma bank_valid_call (caller target : Address) (v : Z) (d : SetToken.call_data) :
  keeps valid (functionCallWithValue (E := auction_env) caller target v d).
Proof. by apply keeps_bank_call. Qed.

Definition sample_opening : operation :=
  StartRebalance "q" ["c"%string] [AuctionSample.sample_params (10 ^ 17) (10 ^ 18)]
    [AuctionSample.sample_params (4 * 10 ^ 17) (2 * 10 ^ 18); AuctionSample.sample_params 2 (10 ^ 18)]
    true 100 (9 * 10 ^ 17).

(** The permission of one bidder, from the deployment of the module on. *)
Lemma bidders_recorded_witness :
  reachable AuctionSample.sample_adapters "m1" AuctionSample.sample_open ∧
  _isAllowedBidder "set" "bidder" AuctionSample.sample_open = Ok (true, AuctionSample.sample_open) ∧
  _isAllowedBidder "set" "another" AuctionSample.sample_open = Ok (false, AuctionSample.sample_open).
Proof.
  assert (reachable AuctionSample.sample_adapters "m1" AuctionSample.sample_open) as Hr.
  { apply (reachable_call _ _ AuctionSample.sample_started AuctionSample.sample_open "manager" "set"
      (SetBidderStatus ["bidder"%string] [true])); [|exact sample_open_ran].
    apply (reachable_call _ _ AuctionSample.sample_world AuctionSample.sample_started "manager" "set"
      sample_opening); [|exact sample_start_ran].
    apply reachable_deployed. reflexivity. }
  split; [exact Hr|]. split.
  - rewrite (proj1 (proj2 (bidders_recorded AuctionSample.sample_adapters bank_valid_call
      (λ _, bank_move_valid) "m1" AuctionSample.sample_open "set" "bidder" Hr))).
    apply (f_equal (λ b, Ok (b, AuctionSample.sample_open))). vm_compute. reflexivity.
  - rewrite (proj1 (proj2 (bidders_recorded AuctionSample.sample_adapters bank_valid_call
      (λ _, bank_move_valid) "m1" AuctionSample.sample_open "set" "another" Hr))).
    apply (f_equal (λ b, Ok (b, AuctionSample.sample_open))). vm_compute. reflexivity.
Defined.
End AuctionState.
