(* ===== verification/AuctionTargets.v ===== *)
(** * Targets of a rebalance

    When the targets of a rebalance are met, when its set is unlocked, how its
    targets are raised, and what the start of a rebalance records. *)
From Stdlib Require Import String.
From S2P Require Import Prelude JsString BigNumber Constants MathUtils SolMath.
From S2P Require Import AddressArrayUtils Script AdapterUtils Controller Erc20 SetToken.
From S2P Require Import IntegrationRegistry World Position Tokens AuctionPrice AuctionRebalance.
From S2P Require Import AuctionSample AuctionTheorems.

Module AuctionTargets.
Import AuctionRebalance AuctionModule AuctionTheorems.

Section Targets.
Context `{ERC20} `{SignedLib} `{Keccak} {E : Type} `{!External E} `{!ReentrancyGuard E}
  `{!AuctionStorage E}.
Implicit Types (this msg_sender _setToken _component : Address) (w : World E)
  (s : SetToken.State).

(** ** The target of a component *)

(** The words of the mappings. *)
Definition words _setToken w : Prop :=
  (∀ c, is_uint (targetUnit (params_of _setToken c w))) ∧
  is_uint (positionMultiplier (rebalance_of _setToken w)) ∧
  is_uint (raiseTargetPercentage (rebalance_of _setToken w)) ∧
  is_uint (rebalanceStartTime (rebalance_of _setToken w)) ∧
  is_uint (rebalanceDuration (rebalance_of _setToken w)) ∧ is_uint (block_timestamp w).

(** The target, for the multiplier the set has now. *)
Definition normalized_target _setToken _component w s : Z :=
  Z.quot (targetUnit (params_of _setToken _component w) * SetToken.positionMultiplier s)
    (positionMultiplier (rebalance_of _setToken w)).

(** What is left of the set's lock after the module releases it. *)
Definition released s : SetToken.State := SetToken.set_lock Controller.address0 false s.

(** The components of a rebalance: those of the set, then the new ones. *)
Definition components_with (ns : list Address) s : list Address := SetToken.getComponents s ++ ns.

(** No quote asset is wanted in the end. *)
Definition quote_unwanted _setToken w : Prop :=
  targetUnit (params_of _setToken (quoteAsset (rebalance_of _setToken w)) w) = 0.

(** Within one unit; a target of zero is met by zero alone. *)
Definition at_target _setToken _component w s : Prop :=
  let t := normalized_target _setToken _component w s in
  Z.abs (t - PositionLib.real_unit s _component) ≤ 1 ∧
  (t = 0 → PositionLib.real_unit s _component = 0).

Definition targets_met _setToken w s : Prop :=
  let r := rebalance_of _setToken w in
  ∀ c, c ∈ rebalanceComponents r → c ≠ quoteAsset r → at_target _setToken c w s.

Section At.
Context (_setToken : Address) (w : World E) (s : SetToken.State).
Context (Es : sets w !! _setToken = Some s) (Hs : SetToken.consistent s).
Context (Hw : words _setToken w).

Lemma normalizedTarget_ok _component (t : Z) w' :
  _getNormalizedTargetUnit _setToken _component w = Ok (t, w') →
  w' = w ∧ t = normalized_target _setToken _component w s ∧
  0 < positionMultiplier (rebalance_of _setToken w) ∧ is_uint t.
Proof.
  intros Ht. split; [by eapply reading_target|]. unfold _getNormalizedTargetUnit in Ht.
  destruct Hw as (Hp & Hm & _). destruct Hs as (_ & _ & _ & _ & Hi & _).
  read_step Ht as p Hp1. apply asks_ok in Hp1 as [-> _].
  read_step Ht as m Hm1. apply read_set_ok in Hm1 as (s0 & E0 & -> & _).
  rewrite Es in E0. injection E0 as <-.
  read_step Ht as m' Hm2. apply lift_ok in Hm2 as [Hm2 _].
  apply toUint256_inv in Hm2 as (-> & _ & Hmu); [|done].
  read_step Ht as x Hx. apply lift_ok in Hx as [Hx _]. apply safe_mul_inv in Hx as [-> Hx]; [|done..].
  read_step Ht as r Hr. apply asks_ok in Hr as [-> _]. apply lift_ok in Ht as [Ht _].
  by apply safe_div_inv in Ht as (-> & ? & ?).
Qed.

Lemma realUnit_ok _component (u : Z) w' :
  _getDefaultPositionRealUnit _setToken _component w = Ok (u, w') →
  w' = w ∧ u = PositionLib.real_unit s _component ∧ is_uint u.
Proof.
  intros Hu. split; [by eapply reading_realUnit|]. unfold _getDefaultPositionRealUnit in Hu.
  read_step Hu as i Hi. apply view_set_ok in Hi as (s0 & E0 & Hi & _). rewrite Es in E0.
  injection E0 as <-. apply PositionLib.getDefault_real in Hi as [-> Hi]; [|done].
  apply lift_ok in Hu as [Hu _]. by apply toUint256_inv in Hu as (-> & _ & ?).
Qed.

Lemma approximately_ok (a b : Z) (r : bool) :
  is_uint a → is_uint b → PreciseUnitMath.approximatelyEquals a b 1 = Ok r →
  (r = true ↔ Z.abs (a - b) ≤ 1).
Proof.
  intros Ha Hb Hr. unfold PreciseUnitMath.approximatelyEquals in Hr.
  apply result_bind_ok in Hr as (hi & Hhi & Hr). apply safe_add_inv in Hhi as [-> _]; [|done|word].
  destruct (Z.leb_spec a (b + 1)).
  - apply result_bind_ok in Hr as (lo & Hlo & Hr). apply safe_sub_inv in Hlo as (-> & _); [|done|word].
    injection Hr as <-. lia.
  - injection Hr as <-. lia.
Qed.

(** At zero the comparison subtracts from zero. *)
Lemma approximately_reverts (a : Z) :
  0 ≤ a ≤ 1 →
  PreciseUnitMath.approximatelyEquals a 0 1 = Throw (Revert "SafeMath: subtraction overflow").
Proof.
  intros Ha. unfold PreciseUnitMath.approximatelyEquals. rewrite safe_add_spec by word.
  change (fits (0 + 1)) with true. cbn [mbind result_bind]. destruct (Z.leb_spec a (0 + 1)); [|lia].
  by rewrite safe_sub_underflow by lia.
Qed.

Lemma targetUnmet_ok _component w' :
  _targetUnmet _setToken _component w = Ok (false, w') →
  _component ≠ quoteAsset (rebalance_of _setToken w) → at_target _setToken _component w s.
Proof.
  intros Hu Hne. unfold _targetUnmet in Hu. read_step Hu as r Hr. apply asks_ok in Hr as [-> _].
  rewrite bool_decide_eq_false_2 in Hu by done.
  read_step Hu as t Ht. apply normalizedTarget_ok in Ht as (_ & -> & _ & Ht).
  read_step Hu as u Huu. apply realUnit_ok in Huu as (_ & -> & Huu). unfold at_target.
  destruct (Z.ltb_spec 0 (normalized_target _setToken _component w s)) as [Hp|Hp].
  - read_step Hu as b Hb. apply lift_ok in Hb as [Hb _]. apply tx_ret_ok in Hu as [Hu _].
    apply negb_false_iff in Hu as ->. apply approximately_ok in Hb; [|done..]. lia.
  - apply tx_ret_ok in Hu as [Hu _]. apply negb_false_iff, Z.eqb_eq in Hu. lia.
Qed.

Lemma targets_loop_ok (cs : list Address) w' :
  targets_loop _setToken cs w = Ok (true, w') →
  ∀ c, c ∈ cs → c ≠ quoteAsset (rebalance_of _setToken w) → at_target _setToken c w s.
Proof.
  induction cs as [|c cs IH]; cbn [targets_loop]; intros Hl c' Hc Hne; [set_solver|].
  read_step Hl as b Hb. destruct b; [by apply tx_ret_ok in Hl as [? _]|].
  apply elem_of_cons in Hc as [->|Hc]; [by eapply targetUnmet_ok|by apply IH].
Qed.

Lemma allTargets_ok w' : _allTargetsMet _setToken w = Ok (true, w') → targets_met _setToken w s.
Proof.
  intros Ha. unfold _allTargetsMet in Ha. read_step Ha as r Hr. apply asks_ok in Hr as [-> _].
  intros c. by eapply targets_loop_ok.
Qed.

Lemma quoteExcess_ok w' :
  _isQuoteAssetExcessOrAtTarget _setToken w = Ok (true, w') →
  let q := quoteAsset (rebalance_of _setToken w) in
  normalized_target _setToken q w s ≤ PositionLib.real_unit s q + 1.
Proof.
  intros Hq. unfold _isQuoteAssetExcessOrAtTarget in Hq. read_step Hq as r Hr.
  apply asks_ok in Hr as [-> _]. read_step Hq as u Hu. apply realUnit_ok in Hu as (_ & -> & Hu).
  read_step Hq as t Ht. apply normalizedTarget_ok in Ht as (_ & -> & _ & Ht).
  read_step Hq as b Hb. apply lift_ok in Hb as [Hb _]. apply tx_ret_ok in Hq as [Hq _].
  apply approximately_ok in Hb; [|done..]. cbv zeta. apply orb_true_iff in Hq as [Hq|Hq]; [lia|].
  apply Hb in Hq. lia.
Qed.

Lemma canUnlockEarly_ok w' :
  _canUnlockEarly _setToken w = Ok (true, w') →
  let r := rebalance_of _setToken w in
  targets_met _setToken w s ∧ raiseTargetPercentage r = 0 ∧
  normalized_target _setToken (quoteAsset r) w s ≤ PositionLib.real_unit s (quoteAsset r) + 1.
Proof.
  intros Hc. unfold _canUnlockEarly in Hc. read_step Hc as r Hr. apply asks_ok in Hr as [-> _].
  read_step Hc as b Hb. destruct b; [|by apply tx_ret_ok in Hc as [? _]].
  read_step Hc as q Hq. apply tx_ret_ok in Hc as [Hc _]. apply andb_true_iff in Hc as [-> Hz].
  split; [by eapply allTargets_ok|]. split; [lia|]. by eapply quoteExcess_ok.
Qed.

Lemma elapsed_ok (b : bool) w' :
  _isRebalanceDurationElapsed _setToken w = Ok (b, w') →
  let r := rebalance_of _setToken w in
  b = (rebalanceStartTime r + rebalanceDuration r <=? block_timestamp w).
Proof.
  intros Hb. unfold _isRebalanceDurationElapsed in Hb. read_step Hb as r Hr.
  apply asks_ok in Hr as [-> _]. read_step Hb as now Hn. apply asks_ok in Hn as [-> _].
  read_step Hb as f Hf. apply lift_ok in Hf as [Hf _]. apply tx_ret_ok in Hb as [<- _].
  by apply safe_add_inv in Hf as [-> _]; [|apply Hw..].
Qed.
End At.

(** ** The lock of the set *)

Lemma unlock_set_ok (ctl : Controller.State) this s s' :
  SetToken.execute ctl this SetToken.Unlock s = Ok s' →
  SetToken.isLocked s = true ∧ SetToken.locker s = this ∧
  s' = SetToken.set_lock Controller.address0 false s.
Proof.
  intros Hx. cbn [SetToken.execute] in Hx. unfold SetToken.unlock in Hx.
  apply result_bind_ok in Hx as (? & _ & Hx). apply result_bind_ok in Hx as (? & Hl & Hx).
  apply result_bind_ok in Hx as (? & Hb & Hx). injection Hx as <-.
  apply require_ok in Hl, Hb. by apply bool_decide_eq_true in Hb.
Qed.

(** [unlock] after its two checks: the storage of the module, then the set. *)
Lemma unlock_steps this _setToken (u : ()) w w' s :
  sets w !! _setToken = Some s → unlock this _setToken w = Ok (u, w') →
  ∃ elapsed early s', _isRebalanceDurationElapsed _setToken w = Ok (elapsed, w) ∧
    _canUnlockEarly _setToken w = Ok (early, w) ∧ elapsed || early = true ∧
    SetToken.execute (controller w) this SetToken.Unlock s = Ok s' ∧
    sets w' = <[_setToken := s']> (sets w).
Proof.
  intros Es Hw. unfold unlock in Hw. read_step Hw as elapsed Hel. read_step Hw as early Hea.
  read_step Hw as u1 Hor. apply requires_ok in Hor as [Hor _].
  apply tx_bind_ok in Hw as (u2 & w2 & Hst & Hw).
  assert (sets w2 = sets w ∧ controller w2 = controller w) as [E2 Ec].
  { destruct early; [|by apply tx_ret_ok in Hst as [_ <-]].
    read_step Hst as r Hr. apply modify_ok in Hst as ->. done. }
  apply on_set_ok in Hw as (s0 & s' & E0 & Hx & ->). rewrite E2, Es in E0. injection E0 as <-.
  rewrite Ec in Hx. exists elapsed, early, s'. cbn. by rewrite E2.
Qed.

(** C14. [unlock] releases a set only for the module that locked it, and only
    when the duration of the rebalance has passed, or when every component is at
    its target, the quote asset has reached its own and no increase of the targets
    is due. *)
Theorem unlock_releases this _setToken (u : ()) w w' s
    (Es : sets w !! _setToken = Some s) (Hs : SetToken.consistent s) (Hw : words _setToken w)
    (Hu : unlock this _setToken w = Ok (u, w')) :
  let r := rebalance_of _setToken w in
  SetToken.isLocked s = true ∧ SetToken.locker s = this ∧
  sets w' !! _setToken = Some (released s) ∧
  (rebalanceStartTime r + rebalanceDuration r ≤ block_timestamp w ∨
   targets_met _setToken w s ∧ raiseTargetPercentage r = 0 ∧
   normalized_target _setToken (quoteAsset r) w s ≤ PositionLib.real_unit s (quoteAsset r) + 1).
Proof.
  apply (unlock_steps _ _ _ _ _ s) in Hu as (elapsed & early & s' & Hel & Hea & Hor & Hx & Ew); [|done].
  apply unlock_set_ok in Hx as (Hl & Hk & ->). cbv zeta. split; [done|]. split; [done|].
  split; [rewrite Ew; apply lookup_insert_eq|]. apply (elapsed_ok _ _ Hw) in Hel. cbv zeta in Hel.
  destruct early; [right; by eapply canUnlockEarly_ok|left]. rewrite orb_false_r, Hel in Hor.
  by apply Z.leb_le.
Qed.

(** C31. [unlock] evaluates the conditions of an early release even when the
    duration has passed.  If every component is at its target and the quote asset
    is wanted no more and has at most one unit left, that evaluation reverts: the
    set stays locked. *)
Theorem unlock_blocked this _setToken w s (b : bool) (u : Z)
    (Es : sets w !! _setToken = Some s) (Hs : SetToken.consistent s)
    (Hel : _isRebalanceDurationElapsed _setToken w = Ok (b, w))
    (Hmet : _allTargetsMet _setToken w = Ok (true, w))
    (Hm : 0 < positionMultiplier (rebalance_of _setToken w))
    (Ht : quote_unwanted _setToken w)
    (Hq : _getDefaultPositionRealUnit _setToken (quoteAsset (rebalance_of _setToken w)) w = Ok (u, w))
    (Hu : u ≤ 1) :
  unlock this _setToken w = Throw (Revert "SafeMath: subtraction overflow").
Proof.
  unfold quote_unwanted in Ht.
  pose proof Hs as (_ & _ & _ & _ & Hi & Hpos & _).
  pose proof (realUnit_ok _ _ _ Es Hs _ _ _ Hq) as (_ & _ & [Hu0 _]).
  set (q := quoteAsset (rebalance_of _setToken w)) in *.
  assert (_getNormalizedTargetUnit _setToken q w = Ok (0, w)) as Et.
  { unfold _getNormalizedTargetUnit, asks, read_set, view_set, lift, mbind, tx_bind.
    rewrite Es, toUint256_nonneg, Ht by (done || lia).
    change (SafeMath.mul 0 (SetToken.positionMultiplier s)) with (@Ok Z 0).
    cbv beta iota. by rewrite safe_div_ok. }
  assert (_isQuoteAssetExcessOrAtTarget _setToken w
            = Throw (Revert "SafeMath: subtraction overflow")) as Ex.
  { unfold _isQuoteAssetExcessOrAtTarget, asks, mbind, tx_bind. fold q. rewrite Hq, Et.
    unfold lift. by rewrite approximately_reverts. }
  unfold unlock. rewrite (tx_bind_run _ _ _ _ _ Hel).
  unfold _canUnlockEarly, asks, mbind, tx_bind. by rewrite Hmet, Ex.
Qed.

(** Once the duration has passed, anyone can have the module unlock the set
    it locked, whatever the state of its targets, as long as the conditions of an
    early release can be evaluated. *)
Theorem unlock_after_duration this _setToken w s (early : bool)
    (Es : sets w !! _setToken = Some s)
    (Hmod : SetToken.state_of_module s this = INITIALIZED)
    (Hen : this ∈ Controller.isModule (controller w))
    (Hl : SetToken.isLocked s = true) (Hk : SetToken.locker s = this)
    (Hel : _isRebalanceDurationElapsed _setToken w = Ok (true, w))
    (Hea : _canUnlockEarly _setToken w = Ok (early, w)) :
  ∃ w', unlock this _setToken w = Ok ((), w') ∧
    sets w' = <[_setToken := released s]> (sets w).
Proof.
  assert (SetToken.execute (controller w) this SetToken.Unlock s
            = Ok (released s)) as Hx.
  { cbn [SetToken.execute]. unfold SetToken.unlock, SetToken._validateOnlyModule.
    by rewrite Hmod, Hl, Hk, !bool_decide_eq_true_2. }
  unfold unlock. rewrite (tx_bind_run _ _ _ _ _ Hel), (tx_bind_run _ _ _ _ _ Hea).
  rewrite (tx_bind_run _ _ w w () eq_refl). destruct early.
  - rewrite (tx_bind_run _ _ w (set_env (put_auction (put_rebalance _setToken
      (with_duration 0 (rebalance_of _setToken w)) (auction (env w))) (env w)) w) () eq_refl).
    eexists. split; [by eapply on_set_run|done].
  - rewrite (tx_bind_run _ _ w w () eq_refl). eexists. split; [by eapply on_set_run|done].
Qed.

(** ** Raising the targets *)

Lemma canRaise_ok _setToken w w' s :
  sets w !! _setToken = Some s → SetToken.consistent s → words _setToken w →
  _canRaiseAssetTargets _setToken w = Ok (true, w') →
  let q := quoteAsset (rebalance_of _setToken w) in
  0 < positionMultiplier (rebalance_of _setToken w) ∧ targets_met _setToken w s ∧
  normalized_target _setToken q w s < PositionLib.real_unit s q.
Proof.
  intros Es Hs Hw Hc. unfold _canRaiseAssetTargets in Hc. read_step Hc as r Hr.
  apply asks_ok in Hr as [-> _].
  read_step Hc as u Hu. apply (realUnit_ok _ _ _ Es Hs) in Hu as (_ & -> & _).
  read_step Hc as t Ht. apply (normalizedTarget_ok _ _ _ Es Hs Hw) in Ht as (_ & -> & Hm & _).
  read_step Hc as b Hb. apply tx_ret_ok in Hc as [Hc _]. apply andb_true_iff in Hc as [-> Hc].
  split; [done|]. split; [by eapply allTargets_ok|]. by apply Z.ltb_lt.
Qed.

(** A smaller multiplier of the rebalance never lowers a target. *)
Lemma quot_antitone (n a b : Z) : 0 ≤ n → 0 < b ≤ a → Z.quot n a ≤ Z.quot n b.
Proof.
  intros Hn Hb. rewrite !Z.quot_div_nonneg by lia. apply Z.div_le_compat_l; lia.
Qed.

(** C13. Targets are raised only when all of them are met and the quote asset is
    in excess: the multiplier of the rebalance is divided by one plus the raise,
    rounded down, nothing else changes, and no target gets smaller. *)
Theorem targets_only_rise msg_sender _setToken (m : Z) w w' s
    (Es : sets w !! _setToken = Some s) (Hs : SetToken.consistent s) (Hw : words _setToken w)
    (Hr : raiseAssetTargets msg_sender _setToken w = Ok (m, w')) :
  let r := rebalance_of _setToken w in
  targets_met _setToken w s ∧
  normalized_target _setToken (quoteAsset r) w s < PositionLib.real_unit s (quoteAsset r) ∧
  m = Z.quot (positionMultiplier r * 10 ^ 18) (10 ^ 18 + raiseTargetPercentage r) ∧
  rebalance_of _setToken w' = with_multiplier m r ∧ sets w' = sets w ∧
  (0 < m → ∀ c, normalized_target _setToken c w s ≤ normalized_target _setToken c w' s).
Proof.
  pose proof Hs as (_ & _ & _ & _ & _ & Hpos & _). pose proof Hw as (Ht & Hm & Hra & _).
  unfold raiseAssetTargets in Hr. read_step Hr as u1 Hal. read_step Hr as el Hel.
  read_step Hr as u2 Hne. read_step Hr as can Hcan. read_step Hr as u3 Hc.
  apply requires_ok in Hc as [-> _]. apply (canRaise_ok _ _ _ s Es Hs Hw) in Hcan as (Hp & Hmet & Hq).
  read_step Hr as r Hr1. apply asks_ok in Hr1 as [-> _].
  read_step Hr as d Hd. apply lift_ok in Hd as [Hd _].
  apply safe_add_inv in Hd as [-> Hdu]; [|apply precise_unit_uint|done].
  read_step Hr as n Hn. apply lift_ok in Hn as [Hn _].
  apply preciseDiv_u_inv in Hn as (-> & _ & Hnu); [|done..].
  change PreciseUnitMath.preciseUnit with (10 ^ 18) in *.
  apply tx_bind_ok in Hr as (u4 & w4 & Hst & Hr). apply tx_ret_ok in Hr as [<- <-].
  apply modify_ok in Hst as ->. cbv zeta. set (r := rebalance_of _setToken w) in *.
  split; [done|]. split; [done|]. split; [done|].
  assert (∀ z, rebalance_of _setToken (set_env (put_auction (put_rebalance _setToken
            (with_multiplier z r) (auction (env w))) (env w)) w) = with_multiplier z r) as Hput.
  { intros z. unfold rebalance_of, put_rebalance. cbn. rewrite auction_put. cbn.
    by rewrite lookup_insert_eq. }
  split; [apply Hput|]. split; [done|]. intros Hm0 c. unfold normalized_target. rewrite Hput. fold r.
  unfold params_of, put_rebalance. cbn. rewrite auction_put. cbn.
  specialize (Ht c). unfold params_of in Ht. destruct Hm as [_ _], Hra as [Hra0 _], Ht as [Ht0 _].
  apply quot_antitone; [nia|]. split; [done|]. fold r in Hp.
  pose proof (quot_bounds (positionMultiplier r * 10 ^ 18) (10 ^ 18 + raiseTargetPercentage r)).
  unfold r in *. nia.
Qed.

(** ** The start of a rebalance *)
Context (adapter_at : Address → option IAuctionPriceAdapterV1).

Lemma params_after _setToken _component c (p : AuctionExecutionParams) w w' (u : ()) :
  store (put_params _setToken _component p) w = Ok (u, w') →
  (∀ st, rebalance_of st w' = rebalance_of st w) ∧ sets w' = sets w ∧
  block_timestamp w' = block_timestamp w ∧
  params_of _setToken c w' = if decide (c = _component) then p else params_of _setToken c w.
Proof.
  intros Hw. apply modify_ok in Hw as ->. unfold rebalance_of, params_of, put_params. cbn.
  rewrite auction_put. cbn. split; [done|]. split; [done|]. split; [done|].
  destruct (decide (c = _component)) as [->|]; [by rewrite lookup_insert_eq|].
  by rewrite lookup_insert_ne by congruence.
Qed.

(** The loop records the parameters of each component, none of which has an
    external position, and touches nothing else. *)
Lemma open_auctions_ok _setToken (cs : list Address) (ps : list AuctionExecutionParams) (u : ()) w w' s :
  sets w !! _setToken = Some s → NoDup cs → length cs = length ps →
  open_auctions _setToken cs ps w = Ok (u, w') →
  sets w' = sets w ∧ block_timestamp w' = block_timestamp w ∧
  (∀ st, rebalance_of st w' = rebalance_of st w) ∧
  (∀ c, c ∈ cs → SetToken.getExternalPositionModules s c = []) ∧
  (∀ c, c ∉ cs → params_of _setToken c w' = params_of _setToken c w) ∧
  (∀ i c p, cs !! i = Some c → ps !! i = Some p → params_of _setToken c w' = p).
Proof.
  revert ps w. induction cs as [|c cs IH]; intros [|p ps] w Es Hnd Hlen Hw; try done;
    cbn [open_auctions] in Hw.
  { apply tx_ret_ok in Hw as [_ <-]. repeat (split; [set_solver|]). done. }
  apply NoDup_cons in Hnd as [Hc Hnd]. injection Hlen as Hlen.
  read_step Hw as x Hx. read_step Hw as u1 Hu1. apply requires_ok in Hu1 as [Hu1 _].
  apply negb_true_iff in Hu1 as ->.
  apply (PositionLib.hasExternal_ok _ _ _ _ _ s) in Hx as [_ Hx]; [|done].
  apply tx_bind_ok in Hw as (u2 & w2 & Hst & Hw).
  pose proof (λ c', params_after _ _ c' _ _ _ _ Hst) as Hp.
  destruct (Hp c) as (Er & E2 & Eb & Epc). rewrite decide_True in Epc by done.
  apply (IH ps w2) in Hw as (E3 & Eb' & Er' & Hx' & Ho & Hi); [|by rewrite E2|done..].
  split; [congruence|]. split; [congruence|]. split; [intros st; by rewrite Er'|].
  split; [|split].
  - intros c' [->|Hc']%elem_of_cons; [|auto].
    destruct (SetToken.getExternalPositionModules s c); [done|]. by discriminate (proj2 Hx).
  - intros c' Hn. apply not_elem_of_cons in Hn as [Hne Hn]. rewrite Ho by done.
    destruct (Hp c') as (_ & _ & _ & ->). by rewrite decide_False.
  - intros [|i] c' p' Hcs Hps; cbn in Hcs, Hps; [|by eapply Hi].
    injection Hcs as <-. injection Hps as <-. by rewrite Ho.
Qed.

(** The lock, when it is asked for. *)
Lemma lock_step this _setToken (lock : bool) (u : ()) w w' s :
  this ≠ Controller.address0 → SetToken.consistent s → sets w !! _setToken = Some s →
  (if lock then
     l ← read_set _setToken SetToken.locker;
     if negb (bool_decide (l = this)) then
       on_set _setToken (λ ctl, SetToken.execute ctl this SetToken.Lock)
     else mret ()
   else mret ()) w = Ok (u, w') →
  ∃ s', w' = put_set _setToken s' w ∧ SetToken.getComponents s' = SetToken.getComponents s ∧
    (∀ c, SetToken.getExternalPositionModules s' c = SetToken.getExternalPositionModules s c) ∧
    (lock = true → SetToken.isLocked s' = true ∧ SetToken.locker s' = this).
Proof.
  intros Ht (_ & Hlock & _) Es Hw. destruct lock.
  - read_step Hw as l Hl. apply read_set_ok in Hl as (s0 & E0 & -> & _). rewrite Es in E0.
    injection E0 as <-. destruct (bool_decide (SetToken.locker s = this)) eqn:Eb; cbn [negb] in Hw.
    + apply tx_ret_ok in Hw as [_ <-]. apply bool_decide_eq_true in Eb. exists s.
      split; [by rewrite put_set_id|]. split; [done|]. split; [done|]. intros _. split; [|done].
      unfold SetToken.lock_ok in Hlock. destruct (SetToken.isLocked s); congruence.
    + apply (on_set_at _ _ _ _ _ s) in Hw as (s' & Hx & ->); [|done]. exists s'. split; [done|].
      cbn [SetToken.execute] in Hx. unfold SetToken.lock in Hx.
      apply result_bind_ok in Hx as (? & _ & Hx). apply result_bind_ok in Hx as (? & _ & Hx).
      injection Hx as <-. done.
  - apply tx_ret_ok in Hw as [_ <-]. exists s. split; [by rewrite put_set_id|]. done.
Qed.

(** C12. [startRebalance] is for the manager.  It records, for the components of
    the set and then the new ones, all of them distinct and none with an external
    position, the parameters given; every new component has a positive target; the
    rebalance starts now, with the raise set before; and the set is locked by the
    module if that was asked for. *)
Theorem rebalance_started this msg_sender _setToken (quote : Address) (ns : list Address)
    (np op : list AuctionExecutionParams) (lock : bool) (d m : Z) (u : ()) w w' s
    (Ht : this ≠ Controller.address0)
    (Es : sets w !! _setToken = Some s) (Hs : SetToken.consistent s)
    (Hw : startRebalance adapter_at this msg_sender _setToken quote ns np op lock d m w = Ok (u, w')) :
  let all := components_with ns s in
  SetToken.manager s = msg_sender ∧ NoDup all ∧ length all = length (op ++ np) ∧
  Forall (λ p, 0 < targetUnit p) np ∧
  (∀ c, c ∈ all → SetToken.getExternalPositionModules s c = []) ∧
  (∀ i c p, all !! i = Some c → (op ++ np) !! i = Some p → params_of _setToken c w' = p) ∧
  rebalance_of _setToken w' =
    {| quoteAsset := quote; rebalanceStartTime := block_timestamp w; rebalanceDuration := d;
       positionMultiplier := m;
       raiseTargetPercentage := raiseTargetPercentage (rebalance_of _setToken w);
       rebalanceComponents := all |} ∧
  (lock = true → ∃ s', sets w' !! _setToken = Some s' ∧ SetToken.isLocked s' = true ∧
                       SetToken.locker s' = this).
Proof.
  unfold startRebalance in Hw. read_step Hw as u1 Hman.
  pose proof (managed_by _ _ _ _ _ _ _ Es Hman) as Hm.
  apply tx_bind_ok in Hw as (u2 & w2 & Hlk & Hw).
  apply (lock_step _ _ _ _ _ _ s) in Hlk as (s2 & -> & Ec & Ex & Hlock); [|done..].
  set (w2 := put_set _setToken s2 w) in *.
  assert (sets w2 !! _setToken = Some s2) as Es2 by apply put_set_at.
  read_step Hw as cs Hcs. apply read_set_ok in Hcs as (s0 & E0 & -> & _). rewrite Es2 in E0.
  injection E0 as <-. rewrite Ec in Hw.
  apply tx_bind_ok in Hw as ([all ps] & w3 & Hag & Hw).
  apply aggregate_ok in Hag as (-> & -> & -> & Hnd & Hlen & Hnew).
  apply tx_bind_ok in Hw as (u3 & w4 & Hop & Hw).
  apply (open_auctions_ok _ _ _ _ _ _ s2) in Hop as (E4 & Eb & Er & Hx & _ & Hi); [|done..].
  read_step Hw as now Hn. apply asks_ok in Hn as [-> _]. read_step Hw as r Hr.
  apply asks_ok in Hr as [-> _]. apply modify_ok in Hw as ->. cbv zeta.
  repeat (split; [done|]). split; [intros c Hc; rewrite <- Ex; by apply Hx|].
  split; [|split].
  - intros i c p Hc Hp. rewrite <- (Hi i c p Hc Hp). unfold params_of, put_rebalance. cbn.
    by rewrite auction_put.
  - unfold rebalance_of at 1. unfold put_rebalance. cbn. rewrite auction_put. cbn.
    rewrite lookup_insert_eq. cbn. by rewrite Eb, Er.
  - intros Hl. exists s2. cbn. rewrite E4. split; [done|]. by apply Hlock.
Qed.
End Targets.

(** ** Concrete instances *)

Definition uint_check (z : Z) : bool := (0 <=? z) && (z <=? UINT_MAX).

Definition words_check (w : World auction_env) : bool :=
  uint_check (block_timestamp w) &&
  forallb (λ kv, uint_check (targetUnit kv.2)) (map_to_list (executionInfo (auction (env w)))) &&
  forallb (λ kv, uint_check (positionMultiplier kv.2) && uint_check (raiseTargetPercentage kv.2)
                 && uint_check (rebalanceStartTime kv.2) && uint_check (rebalanceDuration kv.2))
    (map_to_list (rebalanceInfo (auction (env w)))).

Lemma uint_check_ok (z : Z) : uint_check z = true → is_uint z.
Proof. unfold uint_check, is_uint. lia. Qed.

Lemma forallb_lookup {K A} `{Countable K} (m : gmap K A) (f : K * A → bool) (k : K) (a : A) :
  forallb f (map_to_list m) = true → m !! k = Some a → f (k, a) = true.
Proof.
  intros Hf E1. rewrite forallb_forall in Hf. apply Hf, list_elem_of_In. by apply elem_of_map_to_list.
Qed.

Lemma words_check_ok (w : World auction_env) _setToken : words_check w = true → words _setToken w.
Proof.
  intros Hc. unfold words_check in Hc. apply andb_true_iff in Hc as [[Ht Hp]%andb_true_iff Hr].
  split.
  - intros c. unfold params_of. destruct (executionInfo _ !! _) as [p|] eqn:E1; cbn; [|apply uint_0].
    apply (forallb_lookup _ _ _ _ Hp) in E1. by apply uint_check_ok.
  - apply uint_check_ok in Ht. unfold rebalance_of.
    destruct (rebalanceInfo _ !! _setToken) as [r|] eqn:E1; cbn; [|auto using uint_0].
    apply (forallb_lookup _ _ _ _ Hr) in E1. cbn in E1. rewrite !andb_true_iff in E1.
    destruct E1 as [[[??]?]?]. auto 10 using uint_check_ok.
Qed.

Lemma rebalance_started_witness :
  SetToken.manager SetToken.sample_fee = "manager"%string ∧
  rebalanceComponents (rebalance_of "set" AuctionSample.sample_started) = ["a"; "b"; "c"]%string.
Proof.
  destruct (rebalance_started AuctionSample.sample_adapters "m1" "manager" "set" "q" ["c"%string]
    [AuctionSample.sample_params (10 ^ 17) (10 ^ 18)]
    [AuctionSample.sample_params (4 * 10 ^ 17) (2 * 10 ^ 18); AuctionSample.sample_params 2 (10 ^ 18)]
    true 100 (9 * 10 ^ 17) () AuctionSample.sample_world AuctionSample.sample_started
    SetToken.sample_fee) as (Hm & _ & _ & _ & _ & _ & Hr & _);
    [discriminate|reflexivity|apply SetToken.sample_fee_consistent|exact sample_start_ran|].
  split; [exact Hm|]. rewrite Hr. vm_compute. reflexivity.
Defined.

(** The module releases the set when the time is up, with its targets unmet. *)
Definition sample_late : World auction_env := AuctionSample.at_time 1100 AuctionSample.sample_open.
Definition sample_released : result (() * World auction_env) := unlock "m1" "set" sample_late.

Lemma sample_released_ran :
  sample_released = Ok ((), PositionLib.after sample_late sample_released).
Proof. apply (PositionLib.ran_unit _ _). vm_compute. reflexivity. Qed.

Lemma set_ok_at_time (t : Z) _setToken (w : World auction_env) :
  set_ok _setToken w → set_ok _setToken (AuctionSample.at_time t w).
Proof. done. Qed.

Lemma set_checked (p : SetToken.State → bool) (w : World auction_env) :
  set_ok "set" w → set_check p w = true →
  ∃ s, sets w !! ("set"%string : Address) = Some s ∧ SetToken.consistent s ∧ p s = true.
Proof. intros (s & Es & Hs) Hp. exists s. unfold set_check in Hp. by rewrite Es in Hp. Qed.

Definition locked_by (a : Address) (s : SetToken.State) : bool :=
  bool_decide (SetToken.state_of_module s a = INITIALIZED) && SetToken.isLocked s
  && bool_decide (SetToken.locker s = a).

Lemma sample_late_set : ∃ s, sets sample_late !! ("set"%string : Address) = Some s ∧
  SetToken.consistent s ∧ locked_by "m1" s = true.
Proof.
  apply set_checked; [apply set_ok_at_time, sample_open_ok|vm_compute; reflexivity].
Qed.

Lemma sample_late_words : words "set" sample_late.
Proof. apply words_check_ok. vm_compute. reflexivity. Qed.

Lemma unlock_releases_witness :
  ∃ s, sets (PositionLib.after sample_late sample_released) !! ("set"%string : Address) = Some s ∧
    SetToken.isLocked s = false.
Proof.
  destruct sample_late_set as (s & Es & Hs & _).
  destruct (unlock_releases "m1" "set" () sample_late (PositionLib.after sample_late sample_released) s)
    as (_ & _ & Er & _); [exact Es|exact Hs|exact sample_late_words|exact sample_released_ran|].
  eexists. split; [exact Er|reflexivity].
Defined.

Lemma read_ran {A} `{EqDecision A} (w : World auction_env) (a : A) (t : tx auction_env A) :
  reading t → (match t w with Ok (x, _) => bool_decide (x = a) | Throw _ => false end) = true →
  t w = Ok (a, w).
Proof.
  intros Ht Ha. destruct (t w) as [[x w']|] eqn:E1; [|done]. rewrite (Ht _ _ _ E1).
  apply bool_decide_eq_true in Ha. by subst.
Qed.

Lemma sample_late_flags :
  _isRebalanceDurationElapsed "set" sample_late = Ok (true, sample_late) ∧
  _canUnlockEarly "set" sample_late = Ok (false, sample_late) ∧
  ("m1"%string : Address) ∈ Controller.isModule (controller sample_late).
Proof.
  split; [|split].
  - apply read_ran; [apply reading_elapsed|vm_compute; reflexivity].
  - apply read_ran; [apply reading_canUnlock|vm_compute; reflexivity].
  - apply (bool_decide_eq_true_1 _). vm_compute. reflexivity.
Qed.

Lemma unlock_after_duration_witness :
  ∃ w' s, unlock "m1" "set" sample_late = Ok ((), w') ∧
    sets w' !! ("set"%string : Address) = Some s ∧ SetToken.isLocked s = false.
Proof.
  destruct sample_late_set as (s & Es & _ & Hl), sample_late_flags as (Hel & Hea & Hen).
  unfold locked_by in Hl. rewrite !andb_true_iff, !bool_decide_eq_true in Hl.
  destruct Hl as [[Hm Hl] Hk].
  destruct (unlock_after_duration "m1" "set" sample_late s false Es Hm Hen Hl Hk Hel Hea)
    as (w' & Hw & Ew).
  exists w', (released s). split; [exact Hw|].
  split; [rewrite Ew; apply lookup_insert_eq|reflexivity].
Defined.

(** With every target met and none of the quote asset wanted or left, it does not,
    although the time is up. *)
Lemma sample_still_ran :
  AuctionSample.sample_still_start
    = Ok ((), PositionLib.after AuctionSample.sample_world AuctionSample.sample_still_start).
Proof. apply (PositionLib.ran_unit _ _). vm_compute. reflexivity. Qed.

Lemma sample_still_ok : set_ok "set" AuctionSample.sample_still.
Proof.
  apply set_ok_at_time. eapply set_ok_evolves; [|exists SetToken.sample_fee|apply sample_still_ran].
  - by apply evolves_startRebalance.
  - split; [reflexivity|apply SetToken.sample_fee_consistent].
Qed.

Lemma sample_still_flags :
  _isRebalanceDurationElapsed "set" AuctionSample.sample_still = Ok (true, AuctionSample.sample_still) ∧
  _allTargetsMet "set" AuctionSample.sample_still = Ok (true, AuctionSample.sample_still) ∧
  quoteAsset (rebalance_of "set" AuctionSample.sample_still) = "q"%string ∧
  positionMultiplier (rebalance_of "set" AuctionSample.sample_still) = 9 * 10 ^ 17 ∧
  targetUnit (params_of "set" "q" AuctionSample.sample_still) = 0.
Proof.
  split; [apply read_ran; [apply reading_elapsed|vm_compute; reflexivity]|].
  split; [apply read_ran; [apply reading_allTargets|vm_compute; reflexivity]|].
  split; [|split]; vm_compute; reflexivity.
Qed.

Lemma sample_still_quote :
  _getDefaultPositionRealUnit "set" "q" AuctionSample.sample_still = Ok (0, AuctionSample.sample_still).
Proof.
  apply read_ran; [apply reading_realUnit|vm_compute; reflexivity].
Qed.

Lemma unlock_blocked_witness :
  unlock "m1" "set" AuctionSample.sample_still
    = Throw (Revert "SafeMath: subtraction overflow").
Proof.
  destruct sample_still_ok as (s & Es & Hs), sample_still_flags as (Hel & Hmet & Eq & Em & Et).
  apply (unlock_blocked "m1" "set" AuctionSample.sample_still s true 0 Es Hs Hel Hmet).
  - rewrite Em. reflexivity.
  - unfold quote_unwanted. rewrite Eq. exact Et.
  - rewrite Eq. exact sample_still_quote.
  - apply Z.le_0_1.
Defined.

(** A raise by a tenth. *)
Definition sample_raise : result (Z * World auction_env) :=
  raiseAssetTargets "anyone" "set" AuctionSample.sample_excess.
Definition sample_raised : World auction_env :=
  PositionLib.after AuctionSample.sample_excess sample_raise.

Lemma sample_excess_ran :
  AuctionSample.sample_excess_start = Ok ((), AuctionSample.sample_excess).
Proof. apply (PositionLib.ran_unit _ _). vm_compute. reflexivity. Qed.

Lemma sample_raise_ran : sample_raise = Ok (818181818181818181, sample_raised).
Proof.
  assert (PositionLib.returned 0 sample_raise = 818181818181818181) as Em by (vm_compute; reflexivity).
  rewrite <- Em. apply PositionLib.ran. vm_compute. reflexivity.
Qed.

Lemma sample_excess_ok : set_ok "set" AuctionSample.sample_excess.
Proof.
  eapply set_ok_evolves; [|exists SetToken.sample_fee|apply sample_excess_ran].
  - apply evolves_bind; [by apply evolves_startRebalance|intros _].
    apply evolves_bind; [unfold setAnyoneBid|intros _; unfold setRaiseTargetPercentage];
      (apply evolves_bind; [apply evolves_reading, reading_manager|intros _]); unfold store; evolve.
  - split; [reflexivity|apply SetToken.sample_fee_consistent].
Qed.

Lemma sample_excess_words : words "set" AuctionSample.sample_excess.
Proof. apply words_check_ok. vm_compute. reflexivity. Qed.

Lemma targets_only_rise_witness :
  ∃ s, sets AuctionSample.sample_excess !! ("set"%string : Address) = Some s ∧
    ∀ c, normalized_target "set" c AuctionSample.sample_excess s
           ≤ normalized_target "set" c sample_raised s.
Proof.
  destruct sample_excess_ok as (s & Es & Hs). exists s. split; [exact Es|].
  destruct (targets_only_rise "anyone" "set" 818181818181818181 AuctionSample.sample_excess
    sample_raised s) as (_ & _ & _ & _ & _ & Hc);
    [exact Es|exact Hs|exact sample_excess_words|exact sample_raise_ran|].
  apply Hc. reflexivity.
Defined.
End AuctionTargets.
