(* ===== verification/BasicIssuance.v ===== *)
(** * Issuance against components

    [contracts/protocol/modules/v1/BasicIssuanceModule.sol] with its storage and the
    hook of a manager it calls. *)
From Stdlib Require Import String.
From S2P Require Import Prelude JsString BigNumber Constants MathUtils SolMath.
From S2P Require Import AddressArrayUtils Script AdapterUtils Controller Erc20 SetToken.
From S2P Require Import IntegrationRegistry World Position Tokens.

(** The contract a manager may configure, [interfaces/IManagerIssuanceHook.sol]: the
    first argument calls it, the second is its address. *)
Class IManagerIssuanceHook `{ERC20} `{SignedLib} (E : Type) := {
  invokePreIssueHook : Address → Address → Address → Z → Address → Address → tx E ();
  invokePreRedeemHook : Address → Address → Address → Z → Address → Address → tx E ();
  invokePreIssueHook_evolves this hook _setToken q sender to :
    evolves (invokePreIssueHook this hook _setToken q sender to);
  invokePreRedeemHook_evolves this hook _setToken q sender to :
    evolves (invokePreRedeemHook this hook _setToken q sender to);
}.
#[export] Hint Resolve invokePreIssueHook_evolves invokePreRedeemHook_evolves : evolve.

(** The mapping [managerIssuanceHook] in the storage of the module. *)
Class IssuanceStorage (E : Type) `{!ReentrancyGuard E} := {
  managerIssuanceHooks : E → gmap Address Address;
  put_managerIssuanceHooks : gmap Address Address → E → E;
  managerIssuanceHooks_put m e : managerIssuanceHooks (put_managerIssuanceHooks m e) = m;
  managerIssuanceHooks_enter e e' :
    guard_enter e = Ok e' → managerIssuanceHooks e' = managerIssuanceHooks e;
}.

Module BasicIssuance.
Section BasicIssuanceModule.
Context `{ERC20} `{SignedLib} {E : Type} `{!External E} `{!ReentrancyGuard E} `{!IssuanceStorage E}
  `{!IManagerIssuanceHook E}.
Implicit Types (this msg_sender _setToken _to : Address).

Definition managerIssuanceHook _setToken (w : World E) : Address :=
  default Controller.address0 (managerIssuanceHooks (env w) !! _setToken).

Definition mint this _setToken (_account : Address) (_quantity : Z) : tx E () :=
  on_set _setToken (λ ctl, SetToken.execute ctl this (SetToken.Mint _account _quantity)).
Definition burn this _setToken (_account : Address) (_quantity : Z) : tx E () :=
  on_set _setToken (λ ctl, SetToken.execute ctl this (SetToken.Burn _account _quantity)).

(** [_setToken.getDefaultPositionRealUnit(component).toUint256()]. *)
Definition default_unit _setToken (component : Address) : tx E Z :=
  i ← view_set _setToken (λ s, SetToken.getDefaultPositionRealUnit s component);
  lift (toUint256 i).

Fixpoint required_loop _setToken (_quantity : Z) (components : list Address) : tx E (list Z) :=
  match components with
  | [] => mret []
  | component :: components' =>
      x ← PositionLib.hasExternalPosition _setToken component;
      requires (negb x) "Only default positions are supported";;
      unit ← default_unit _setToken component;
      notionalUnit ← lift (PreciseUnitMath.preciseMulCeil_u unit _quantity);
      notionalUnits ← required_loop _setToken _quantity components';
      mret (notionalUnit :: notionalUnits)
  end.

Definition getRequiredComponentUnitsForIssue this _setToken (_quantity : Z)
    : tx E (list Address * list Z) :=
  _validateOnlyValidAndInitializedSet this _setToken;;
  components ← read_set _setToken SetToken.getComponents;
  notionalUnits ← required_loop _setToken _quantity components;
  mret (components, notionalUnits).

Definition _callPreIssueHooks this _setToken (_quantity : Z) (_caller _to : Address) : tx E Address :=
  preIssueHook ← asks (managerIssuanceHook _setToken);
  if negb (bool_decide (preIssueHook = Controller.address0)) then
    invokePreIssueHook this preIssueHook _setToken _quantity _caller _to;;
    mret preIssueHook
  else mret Controller.address0.

(** [componentQuantities[i]] fails when there are fewer quantities. *)
Fixpoint deposit_loop this msg_sender _setToken (components : list Address)
    (componentQuantities : list Z) : tx E () :=
  match components, componentQuantities with
  | [], _ => mret ()
  | c :: components', q :: componentQuantities' =>
      transferFrom this c msg_sender _setToken q;;
      deposit_loop this msg_sender _setToken components' componentQuantities'
  | _ :: _, [] => revert "invalid opcode"
  end.

(** The hook is in the event. *)
Definition issue this msg_sender _setToken (_quantity : Z) _to : tx E Address :=
  nonReentrant (
    _validateOnlyValidAndInitializedSet this _setToken;;
    requires (0 <? _quantity) "Issue quantity must be > 0";;
    hookContract ← _callPreIssueHooks this _setToken _quantity msg_sender _to;
    '(components, componentQuantities) ←
      getRequiredComponentUnitsForIssue this _setToken _quantity;
    deposit_loop this msg_sender _setToken components componentQuantities;;
    mint this _setToken _to _quantity;;
    mret hookContract).

Fixpoint withdraw_loop this _setToken (_quantity : Z) _to (components : list Address) : tx E () :=
  match components with
  | [] => mret ()
  | component :: components' =>
      x ← PositionLib.hasExternalPosition _setToken component;
      requires (negb x) "Only default positions are supported";;
      unit ← default_unit _setToken component;
      componentQuantity ← lift (PreciseUnitMath.preciseMul_u _quantity unit);
      strictInvokeTransfer this _setToken component _to componentQuantity;;
      withdraw_loop this _setToken _quantity _to components'
  end.

Definition redeem this msg_sender _setToken (_quantity : Z) _to : tx E () :=
  nonReentrant (
    _validateOnlyValidAndInitializedSet this _setToken;;
    requires (0 <? _quantity) "Redeem quantity must be > 0";;
    burn this _setToken msg_sender _quantity;;
    components ← read_set _setToken SetToken.getComponents;
    withdraw_loop this _setToken _quantity _to components).

Definition initialize this msg_sender _setToken (_preIssueHook : Address) : tx E () :=
  _validateOnlySetManager _setToken msg_sender;;
  _validateOnlyValidAndPendingSet this _setToken;;
  modify (λ e,
    put_managerIssuanceHooks (<[_setToken := _preIssueHook]> (managerIssuanceHooks e)) e);;
  on_set _setToken (λ ctl, SetToken.execute ctl this SetToken.InitializeModule).

Definition removeModule : tx E () := revert "The BasicIssuanceModule module cannot be removed".

(** ** What the loops compute *)
Implicit Types (w : World E) (s : SetToken.State) (c : Address).

Lemma reading_default_unit _setToken c : reading (default_unit _setToken c).
Proof. unfold default_unit. reading. Qed.
#[local] Hint Resolve reading_default_unit : reading.

Lemma reading_required _setToken (q : Z) (cs : list Address) : reading (required_loop _setToken q cs).
Proof. induction cs; cbn [required_loop]; reading. Qed.
#[local] Hint Resolve reading_required : reading.

Lemma reading_getRequired this _setToken (q : Z) :
  reading (getRequiredComponentUnitsForIssue this _setToken q).
Proof.
  unfold getRequiredComponentUnitsForIssue, _validateOnlyValidAndInitializedSet,
    isSetValidAndInitialized. reading.
Qed.

(** What a set takes for [q] tokens, and what it gives. *)
Definition taken s (q : Z) c : Z := ceil_div (PositionLib.real_unit s c * q) (10 ^ 18).
Definition given s (q : Z) c : Z := PositionLib.real_unit s c * q / 10 ^ 18.

Definition plain s c : Prop :=
  SetToken.getExternalPositionModules s c = [] ∧ is_uint (PositionLib.real_unit s c).

(** The guard and the unit with which both loops start. *)
Lemma unit_step {B} _setToken c (f : Z → tx E B) (b : B) w w' s :
  sets w !! _setToken = Some s → SetToken.consistent s →
  (x ← PositionLib.hasExternalPosition _setToken c;
   requires (negb x) "Only default positions are supported";;
   unit ← default_unit _setToken c; f unit) w = Ok (b, w') →
  plain s c ∧ f (PositionLib.real_unit s c) w = Ok (b, w').
Proof.
  intros Es Hs Hw. apply tx_bind_ok in Hw as (x & w1 & Hx & Hw).
  apply (PositionLib.hasExternal_ok _ _ _ _ _ s) in Hx as [-> Hx]; [|done].
  apply tx_bind_ok in Hw as (? & w1 & Hr & Hw). apply requires_ok in Hr as [Hr <-].
  apply negb_true_iff in Hr. apply tx_bind_ok in Hw as (u & w1 & Hu & Hw). unfold default_unit in Hu.
  apply tx_bind_ok in Hu as (i & w2 & Hi & Hu). apply view_set_ok in Hi as (s0 & E0 & Hi & <-).
  rewrite Es in E0. injection E0 as <-. apply PositionLib.getDefault_real in Hi as [-> Hi]; [|done].
  apply lift_ok in Hu as [Hu <-]. apply toUint256_inv in Hu as (-> & _ & Hu); [|done].
  split; [|done]. split; [|done]. destruct (SetToken.getExternalPositionModules s c) eqn:Em; [done|].
  assert (x = true) by (by apply Hx). congruence.
Qed.

Lemma required_ok _setToken (q : Z) (cs : list Address) (ns : list Z) w w' s :
  sets w !! _setToken = Some s → SetToken.consistent s → is_uint q →
  required_loop _setToken q cs w = Ok (ns, w') →
  ns = taken s q <$> cs ∧ Forall is_uint ns ∧ Forall (plain s) cs.
Proof.
  intros Es Hs Hq. revert ns w'. induction cs as [|c cs IH]; intros ns w' Hw; cbn [required_loop] in Hw.
  { apply tx_ret_ok in Hw as [<- <-]. split; [done|]. by split. }
  apply (unit_step _ _ _ _ _ _ s) in Hw as [Hp Hw]; [|done..]. pose proof Hp as [_ Hu].
  apply tx_bind_ok in Hw as (n & w1 & Hn & Hw). apply lift_ok in Hn as [Hn <-].
  apply preciseMulCeil_u_inv in Hn as [-> Hn]; [|done..].
  apply tx_bind_ok in Hw as (ns' & w1 & Hns & Hw). apply tx_ret_ok in Hw as [<- _].
  assert (w1 = w) as -> by (by apply reading_required in Hns).
  destruct (IH ns' w Hns) as (-> & ? & ?). split; [done|]. by split; apply Forall_cons.
Qed.
(** ** What the transfers do *)
Context (_setToken : Address) `{!Isolated E _setToken}.

(** A shift of the components of a list. *)
Definition among (cs : list Address) (f : Address → Z) c : Z := if decide (c ∈ cs) then f c else 0.

Lemma among_cons (cs : list Address) (f : Address → Z) a c : a ∉ cs →
  among (a :: cs) f c = only a (f a) c + among cs f c.
Proof.
  intros Ha. unfold among, only. destruct (decide (c = a)) as [->|Hne].
  - rewrite decide_True by apply list_elem_of_here. rewrite decide_False by done. lia.
  - destruct (decide (c ∈ cs)) as [Hc|Hc].
    + rewrite decide_True by (by apply list_elem_of_further). lia.
    + rewrite decide_False; [lia|]. by intros [?|?]%elem_of_cons.
Qed.

Lemma deposit_shifts this msg_sender (cs : list Address) (f : Address → Z) (u : ()) w w' :
  NoDup cs → Forall is_uint (f <$> cs) →
  deposit_loop this msg_sender _setToken cs (f <$> cs) w = Ok (u, w') →
  shifted _setToken (among cs f) w w'.
Proof.
  revert w. induction cs as [|c cs IH]; intros w Hnd Hf Hw; cbn [deposit_loop fmap list_fmap] in Hw.
  { apply tx_ret_ok in Hw as [_ <-]. by apply shifted_refl. }
  apply NoDup_cons in Hnd as [Hc Hnd]. apply Forall_cons in Hf as [Hq Hf].
  apply tx_bind_ok in Hw as (? & w1 & H1 & H2). apply (transferFrom_shifts _setToken) in H1; [|done].
  eapply shifted_trans; [exact H1|by apply IH|]. intros a _. by apply among_cons.
Qed.

Lemma withdraw_shifts this (q : Z) to (cs : list Address) (u : ()) w w' s :
  sets w !! _setToken = Some s → SetToken.consistent s → is_uint q → NoDup cs →
  withdraw_loop this _setToken q to cs w = Ok (u, w') →
  Forall (plain s) cs ∧ shifted _setToken (among cs (λ c, - given s q c)) w w'.
Proof.
  intros Es Hs Hq. revert w s Es Hs. induction cs as [|c cs IH]; intros w s Es Hs Hnd Hw;
    cbn [withdraw_loop] in Hw.
  { apply tx_ret_ok in Hw as [_ <-]. split; [done|]. by apply shifted_refl. }
  apply NoDup_cons in Hnd as [Hc Hnd]. apply (unit_step _ _ _ _ _ _ s) in Hw as [Hp Hw]; [|done..].
  pose proof Hp as [_ Hu]. apply tx_bind_ok in Hw as (n & w1 & Hn & Hw). apply lift_ok in Hn as [Hn <-].
  apply preciseMul_u_inv in Hn as [En Hn]; [|done..].
  apply tx_bind_ok in Hw as (? & w1 & H1 & H2). apply (strictInvokeTransfer_shifts _setToken) in H1; [|done].
  pose proof H1 as [H1s _]. destruct (H1s s Es) as (l & E1).
  apply (IH _ (with_logs l s)) in H2 as [H2p H2]; [|done..].
  split; [by apply Forall_cons|]. eapply shifted_trans; [exact H1|exact H2|]. intros a _.
  rewrite among_cons by done. cbv beta. unfold given at 1. rewrite quot_floor in En by (unfold is_uint in *; nia).
  by rewrite En, Z.mul_comm.
Qed.

(** ** Issuing *)

(** The set has another ledger and log, and its balances have moved by [f]. *)
Definition reissued (f : Address → Z) (t : ledger) w w' s : Prop :=
  (∃ l, sets w' !! _setToken = Some (SetToken.set_token t (with_logs l s))) ∧
  ∀ c z, c ≠ _setToken → IERC20_balanceOf c _setToken w = Ok z →
    IERC20_balanceOf c _setToken w' = Ok (z + f c).

Lemma reissued_leave (f : Address → Z) (t : ledger) w w' s :
  reissued f t w w' s → reissued f t w (set_env (guard_leave (env w')) w') s.
Proof.
  intros [Hs Hf]. split; [done|]. intros c z Hc Ez. rewrite balance_leave. by apply Hf.
Qed.

(** A successful issuance: the hook, then the deposits and the new tokens. *)
Lemma issue_inv this msg_sender (q : Z) to (h : Address) w w' :
  is_uint q → issue this msg_sender _setToken q to w = Ok (h, w') →
  ∃ e w1, guard_enter (env w) = Ok e ∧ 0 < q ∧
    _callPreIssueHooks this _setToken q msg_sender to (set_env e w) = Ok (h, w1) ∧
    ∀ s, sets w1 !! _setToken = Some s → SetToken.consistent s →
      Forall (plain s) (SetToken.getComponents s) ∧
      ∃ t, reissued (among (SetToken.getComponents s) (taken s q)) t w1 w' s ∧
        totalSupply t = totalSupply (SetToken.token s) + q ∧ is_uint (totalSupply t) ∧
        ∀ b, balanceOf t b = balanceOf (SetToken.token s) b + if decide (b = to) then q else 0.
Proof.
  intros Hq Hw. apply nonReentrant_ok in Hw as (e & w5 & He & Hw & ->).
  read_step Hw as u Hv. clear Hv u. read_step Hw as u Hpos. apply requires_ok in Hpos as [Hpos _].
  apply Z.ltb_lt in Hpos. apply tx_bind_ok in Hw as (h' & w1 & Hh & Hw). exists e, w1.
  apply tx_bind_ok in Hw as ([cs ns] & w2 & Hr & Hw).
  assert (w2 = w1) as -> by (by apply reading_getRequired in Hr).
  apply tx_bind_ok in Hw as (x & w3 & Hd & Hw). apply tx_bind_ok in Hw as (y & w4 & Hm & Hw).
  apply tx_ret_ok in Hw as [-> <-]. repeat (split; [done|]). intros s Es Hs.
  unfold getRequiredComponentUnitsForIssue in Hr. read_step Hr as z Hv. clear Hv z.
  apply tx_bind_ok in Hr as (cs' & w5 & Hc & Hr). apply read_set_ok in Hc as (s0 & E0 & -> & <-).
  rewrite Es in E0. injection E0 as <-. apply tx_bind_ok in Hr as (ns' & w5 & Hns & Hr).
  apply tx_ret_ok in Hr as [Hr _]. injection Hr as <- <-.
  apply (required_ok _ _ _ _ _ _ s) in Hns as (-> & Hf & Hp); [|done..]. split; [done|].
  apply deposit_shifts in Hd as [Hd1 Hd2]; [|apply Hs|done]. destruct (Hd1 s Es) as (l & E1).
  apply (set_mint_ok _ _ _ _ _ _ _ (with_logs l s)) in Hm as (t & -> & Ht & Htu & Hb);
    [|done|done|apply Hs].
  exists t. split; [|by repeat (split; [done|])]. apply reissued_leave. split.
  - exists l. apply put_set_at.
  - intros c z Hc Ez. rewrite balance_put by done. by apply Hd2.
Qed.

Lemma redeem_inv this msg_sender (q : Z) to (u : ()) w w' s :
  is_uint q → sets w !! _setToken = Some s → SetToken.consistent s →
  redeem this msg_sender _setToken q to w = Ok (u, w') →
  0 < q ∧ Forall (plain s) (SetToken.getComponents s) ∧
  ∃ t, reissued (among (SetToken.getComponents s) (λ c, - given s q c)) t w w' s ∧
    totalSupply t = totalSupply (SetToken.token s) - q ∧ is_uint (totalSupply t) ∧
    q ≤ balanceOf (SetToken.token s) msg_sender ∧
    ∀ b, balanceOf t b = balanceOf (SetToken.token s) b - if decide (b = msg_sender) then q else 0.
Proof.
  intros Hq Es Hs Hw. apply nonReentrant_ok in Hw as (e & w5 & He & Hw & ->).
  read_step Hw as x Hv. clear Hv x. read_step Hw as x Hpos. apply requires_ok in Hpos as [Hpos _].
  apply Z.ltb_lt in Hpos. split; [done|]. apply tx_bind_ok in Hw as (x' & w1 & Hb & Hw).
  apply (set_burn_ok _ _ _ _ _ _ _ s) in Hb as (t & -> & Ht & Htu & Hle & Hb); [|done|done|apply Hs].
  apply tx_bind_ok in Hw as (cs & w2 & Hc & Hw). apply read_set_ok in Hc as (s0 & E0 & -> & <-).
  rewrite put_set_at in E0. injection E0 as <-.
  apply (withdraw_shifts _ _ _ _ _ _ _ (SetToken.set_token t s)) in Hw as [Hp [Hw1 Hw2]];
    [|apply put_set_at|by apply set_token_consistent'|done|apply Hs].
  split; [done|]. exists t. split; [|by repeat (split; [done|])]. apply reissued_leave. split.
  - destruct (Hw1 (SetToken.set_token t s)) as (l & E1); [apply put_set_at|]. by exists l.
  - intros c z Hc Ez. apply Hw2; [done|]. rewrite balance_put by done.
    by rewrite (balance_enter _ _ _ He).
Qed.

(** ** The holders' claim *)

Lemma reissued_collateralized (f : Address → Z) (t : ledger) (q : Z) w w' s :
  SetToken.consistent s → (_setToken ∉ SetToken.getComponents s) →
  backed _setToken w s (totalSupply (SetToken.token s)) →
  reissued f t w w' s → totalSupply t = totalSupply (SetToken.token s) + q →
  is_uint (totalSupply t) →
  (∀ c, c ∈ SetToken.getComponents s → PositionLib.real_unit s c * q ≤ f c * 10 ^ 18) →
  collateralized _setToken w'.
Proof.
  intros Hs Hout Hb [[l E1] Hf] Ht Htu Hq. eexists. split; [exact E1|].
  split; [by apply set_token_consistent'|]. split; [done|]. cbn [SetToken.token SetToken.set_token].
  rewrite Ht. intros c Hc. destruct (Hb c Hc) as (z & Ez & Hz). exists (z + f c).
  split; [apply Hf; [intros ->; by apply Hout|done]|]. specialize (Hq c Hc).
  change (PositionLib.real_unit s c * (totalSupply (SetToken.token s) + q) ≤ (z + f c) * 10 ^ 18). lia.
Qed.

Lemma collateralized_enter (e : E) w :
  guard_enter (env w) = Ok e → collateralized _setToken w → collateralized _setToken (set_env e w).
Proof.
  intros He (s & Es & Hs & Hout & Hb). exists s. repeat (split; [done|]). intros c Hc.
  rewrite (balance_enter _ _ _ He). by apply Hb.
Qed.

Lemma among_in (cs : list Address) (f : Address → Z) c : c ∈ cs → among cs f c = f c.
Proof. intros Hc. unfold among. by rewrite decide_True. Qed.

(** Hooks that, whatever else they do, leave the set collateralized. *)
Context (Hhook : ∀ this hook q sender to w u w',
  invokePreIssueHook this hook _setToken q sender to w = Ok (u, w') →
  collateralized _setToken w → collateralized _setToken w').

Lemma issue_collateralized this msg_sender (q : Z) to (h : Address) w w' :
  is_uint q → collateralized _setToken w →
  issue this msg_sender _setToken q to w = Ok (h, w') → collateralized _setToken w'.
Proof.
  intros Hq Hc Hw. apply issue_inv in Hw as (e & w1 & He & Hpos & Hh & Hrest); [|done].
  assert (collateralized _setToken w1) as (s & Es & Hs & Hout & Hb).
  { unfold _callPreIssueHooks in Hh. read_step Hh as hook Hx. clear Hx. destruct (negb _).
    - apply tx_bind_ok in Hh as (x & w2 & Hk & Hh). apply tx_ret_ok in Hh as [_ <-].
      eapply Hhook; [exact Hk|by apply collateralized_enter].
    - apply tx_ret_ok in Hh as [_ <-]. by apply collateralized_enter. }
  destruct (Hrest s Es Hs) as (_ & t & Hre & Ht & Htu & _).
  eapply reissued_collateralized; [done..|]. intros c Hc'. rewrite among_in by done.
  apply ceil_div_bounds. lia.
Qed.

Lemma redeem_collateralized this msg_sender (q : Z) to (u : ()) w w' :
  is_uint q → collateralized _setToken w →
  redeem this msg_sender _setToken q to w = Ok (u, w') → collateralized _setToken w'.
Proof.
  intros Hq (s & Es & Hs & Hout & Hb) Hw.
  apply (redeem_inv _ _ _ _ _ _ _ s) in Hw as (_ & _ & t & Hre & Ht & Htu & _); [|done..].
  eapply (reissued_collateralized _ t (- q)); [done..|exact Hre|lia|done|].
  intros c Hc. rewrite among_in by done. unfold given.
  pose proof (Z.mul_div_le (PositionLib.real_unit s c * q) (10 ^ 18)). lia.
Qed.

(** An issuance or a redemption of the set, by and for anyone. *)
Inductive exchange this : World E → World E → Prop :=
| exchange_issue msg_sender q to h w w' :
    is_uint q → issue this msg_sender _setToken q to w = Ok (h, w') → exchange this w w'
| exchange_redeem msg_sender q to u w w' :
    is_uint q → redeem this msg_sender _setToken q to w = Ok (u, w') → exchange this w w'.

(** C2. However many tokens of a set are issued and redeemed, and by whom, a set
    that holds of every component what its holders can claim keeps doing so: the
    rounding of the module is never at their expense. *)
Theorem exchanges_collateralized this w w' (Hc : collateralized _setToken w)
    (Hsteps : rtc (exchange this) w w') : collateralized _setToken w'.
Proof.
  induction Hsteps as [|w w1 w' Hstep _ IH]; [done|]. apply IH. clear IH.
  destruct Hstep; [by eapply issue_collateralized|by eapply redeem_collateralized].
Qed.

(** ** Issuing and redeeming *)

Lemma no_hook this (q : Z) sender to (e : E) (h : Address) w w1 :
  guard_enter (env w) = Ok e → managerIssuanceHook _setToken w = Controller.address0 →
  _callPreIssueHooks this _setToken q sender to (set_env e w) = Ok (h, w1) → w1 = set_env e w.
Proof.
  intros He Hno Hh. unfold _callPreIssueHooks in Hh. apply tx_bind_ok in Hh as (k & w2 & Hk & Hh).
  apply asks_ok in Hk as [-> <-]. unfold managerIssuanceHook in *. cbn [env set_env] in Hh.
  rewrite (managerIssuanceHooks_enter _ _ He), Hno, bool_decide_true in Hh by done.
  by apply tx_ret_ok in Hh as [_ <-].
Qed.

(** What remains of an issuance and a redemption of the same quantity. *)
Lemma kept_bound s (q : Z) c : 0 ≤ taken s q c - given s q c ≤ 1 ∧
  (taken s q c = given s q c ↔ (PositionLib.real_unit s c * q) mod 10 ^ 18 = 0).
Proof.
  unfold taken, given. set (p := PositionLib.real_unit s c * q).
  pose proof (ceil_div_bounds p (10 ^ 18) ltac:(lia)). pose proof (Z.div_mod p (10 ^ 18) ltac:(lia)).
  pose proof (Z.mod_pos_bound p (10 ^ 18) ltac:(lia)). lia.
Qed.

(** C20. Issuing tokens and redeeming them at once restores the supply, the
    holdings of everyone and the positions, only takes components without external
    positions, and never yields more of a component than was put in: the set keeps
    one unit of a component when its share is not a whole number, and nothing when
    it is. *)
Theorem redeem_after_issue this msg_sender (q : Z) to to' (h : Address) (u : ()) w w1 w2 s
    (Hq : is_uint q) (Es : sets w !! _setToken = Some s) (Hs : SetToken.consistent s)
    (Hno : managerIssuanceHook _setToken w = Controller.address0)
    (Hissue : issue this msg_sender _setToken q to w = Ok (h, w1))
    (Hredeem : redeem this to _setToken q to' w1 = Ok (u, w2)) :
  Forall (plain s) (SetToken.getComponents s) ∧
  (∃ t l, sets w2 !! _setToken = Some (SetToken.set_token t (with_logs l s)) ∧
    totalSupply t = totalSupply (SetToken.token s) ∧
    ∀ a, balanceOf t a = balanceOf (SetToken.token s) a) ∧
  ∀ c z, c ∈ SetToken.getComponents s → c ≠ _setToken → IERC20_balanceOf c _setToken w = Ok z →
    ∃ kept, IERC20_balanceOf c _setToken w2 = Ok (z + kept) ∧ 0 ≤ kept ≤ 1 ∧
      (kept = 0 ↔ (PositionLib.real_unit s c * q) mod 10 ^ 18 = 0).
Proof.
  apply issue_inv in Hissue as (e & w0 & He & Hpos & Hh & Hrest); [|done].
  apply no_hook in Hh as ->; [|done..]. destruct (Hrest s Es Hs) as (Hp & t & Hre & Ht & Htu & Hb).
  destruct Hre as [[l E1] Hf1].
  apply (redeem_inv _ _ _ _ _ _ _ (SetToken.set_token t (with_logs l s))) in Hredeem
    as (_ & _ & t' & [[l' E2] Hf2] & Ht' & _ & _ & Hb'); [|done..|by apply set_token_consistent'].
  cbn [SetToken.token SetToken.set_token] in *. split; [done|]. split.
  - exists t', l'. split; [exact E2|]. split; [lia|]. intros a. rewrite Hb', Hb. lia.
  - intros c z Hc Hne Ez. exists (taken s q c - given s q c). split.
    + rewrite (Hf2 c (z + taken s q c) Hne).
      * rewrite among_in by done. f_equal. change (given (SetToken.set_token t (with_logs l s)) q c) with (given s q c). lia.
      * rewrite (Hf1 c z Hne), among_in by (done || by rewrite (balance_enter _ _ _ He)). done.
    + pose proof (kept_bound s q c). lia.
Qed.
End BasicIssuanceModule.

(** ** Concrete instances *)

(** The storage of the module in a concrete environment. *)
Abbreviation issuance_env := (module_env (gmap Address Address)).

#[export] Instance issuance_storage : IssuanceStorage issuance_env.
Proof.
  refine {| managerIssuanceHooks (e : issuance_env) := e.1.1;
            put_managerIssuanceHooks m (e : issuance_env) := (m, e.1.2, e.2) |}; [done|].
  intros e e'. cbn. destruct e.1.2; [done|]. by intros [= <-].
Defined.

(** A hook that limits the size of an issuance and has no effect. *)
Definition capped `{ERC20} {E} (q : Z) : tx E () := requires (q <=? 10 ^ 24) "Above the cap".

#[export] Instance capped_hook `{ERC20} `{SignedLib} {E} : IManagerIssuanceHook E := {|
  invokePreIssueHook this hook _setToken q sender to := capped q;
  invokePreRedeemHook this hook _setToken q sender to := mret ();
  invokePreIssueHook_evolves this hook _setToken q sender to := evolves_requires _ _;
  invokePreRedeemHook_evolves this hook _setToken q sender to := evolves_ret _;
|}.

#[local] Open Scope string_scope.

Definition sample_bank : bank :=
  {[ ("a", "set") := 10 ^ 18; ("b", "set") := 3; ("a", "issuer") := 10 ^ 18; ("b", "issuer") := 100 ]}.

(** One token in circulation; the unit of [b] is two. *)
Definition sample_world (hooks : gmap Address Address) : World issuance_env :=
  {| controller := PositionLib.sample_controller; sets := {[ "set" := SetToken.sample_fee ]};
     registries := ∅; block_timestamp := 1000; env := (hooks, false, sample_bank) |}.

Definition sample_issue hooks : result (Address * World issuance_env) :=
  issue "m1" "issuer" "set" (7 * 10 ^ 17) "holder" (sample_world hooks).
Definition sample_issued hooks : World issuance_env :=
  PositionLib.after (sample_world hooks) (sample_issue hooks).
Definition sample_redeem hooks : result (() * World issuance_env) :=
  redeem "m1" "holder" "set" (7 * 10 ^ 17) "heir" (sample_issued hooks).
Definition sample_redeemed hooks : World issuance_env :=
  PositionLib.after (sample_issued hooks) (sample_redeem hooks).

Definition unhooked : gmap Address Address := ∅.
Definition hooked : gmap Address Address := {[ "set" := "cap" ]}.

Lemma sample_collateralized hooks : collateralized "set" (sample_world hooks).
Proof.
  exists SetToken.sample_fee. split; [reflexivity|]. split; [apply SetToken.sample_fee_consistent|].
  split.
  - rewrite <- contains_true. vm_compute. discriminate.
  - apply backed_check_ok. vm_compute. reflexivity.
Qed.

Lemma capped_harmless : ∀ (this hook : Address) (q : Z) (sender to : Address)
    (w : World issuance_env) (u : ()) (w' : World issuance_env),
  invokePreIssueHook this hook "set" q sender to w = Ok (u, w') →
  collateralized "set" w → collateralized "set" w'.
Proof. intros this hook q sender to w u w' Hw. by apply requires_ok in Hw as [_ <-]. Qed.

Lemma sample_issue_ran hooks : is_ok (sample_issue hooks) = true →
  issue "m1" "issuer" "set" (7 * 10 ^ 17) "holder" (sample_world hooks) =
  Ok (PositionLib.returned Controller.address0 (sample_issue hooks), sample_issued hooks).
Proof. exact (PositionLib.ran Controller.address0 (sample_world hooks) (sample_issue hooks)). Qed.

Lemma sample_redeem_ran hooks : is_ok (sample_redeem hooks) = true →
  redeem "m1" "holder" "set" (7 * 10 ^ 17) "heir" (sample_issued hooks) =
  Ok ((), sample_redeemed hooks).
Proof. exact (PositionLib.ran_unit (sample_issued hooks) (sample_redeem hooks)). Qed.

Lemma exchanges_collateralized_witness :
  collateralized "set" (sample_redeemed hooked) ∧
  PositionLib.returned Controller.address0 (sample_issue hooked) = "cap" ∧
  held (env (sample_issued hooked)).2 "b" "set" = 5 ∧
  held (env (sample_redeemed hooked)).2 "b" "set" = 4.
Proof.
  split; [|split; [|split]; vm_compute; reflexivity].
  apply (exchanges_collateralized "set" capped_harmless "m1" (sample_world hooked) (sample_redeemed hooked)
    (sample_collateralized hooked)).
  eapply rtc_l; [|apply rtc_once].
  - refine (exchange_issue "set" "m1" "issuer" (7 * 10 ^ 17) "holder" _ (sample_world hooked)
      (sample_issued hooked) ltac:(word) (sample_issue_ran hooked _)). vm_compute. reflexivity.
  - refine (exchange_redeem "set" "m1" "holder" (7 * 10 ^ 17) "heir" () (sample_issued hooked)
      (sample_redeemed hooked) ltac:(word) (sample_redeem_ran hooked _)). vm_compute. reflexivity.
Defined.

Lemma redeem_after_issue_witness :
  IERC20_balanceOf "b" "set" (sample_redeemed unhooked) = Ok 4 ∧
  ∃ kept, IERC20_balanceOf "b" "set" (sample_redeemed unhooked) = Ok (3 + kept)%Z ∧ (0 ≤ kept ≤ 1)%Z.
Proof.
  split; [vm_compute; reflexivity|].
  assert (is_ok (sample_issue unhooked) = true) as Hi by (vm_compute; reflexivity).
  assert (managerIssuanceHook "set" (sample_world unhooked) = Controller.address0) as Hno
    by (vm_compute; reflexivity).
  assert (is_ok (sample_redeem unhooked) = true) as Hr by (vm_compute; reflexivity).
  destruct (redeem_after_issue "set" "m1" "issuer" (7 * 10 ^ 17) "holder" "heir"
    _ () (sample_world unhooked) (sample_issued unhooked) (sample_redeemed unhooked) SetToken.sample_fee ltac:(word) eq_refl SetToken.sample_fee_consistent Hno
    (sample_issue_ran unhooked Hi) (sample_redeem_ran unhooked Hr)) as (_ & _ & Hk).
  assert (("b" : Address) ∈ SetToken.getComponents SetToken.sample_fee) as Hb.
  { refine (proj1 (contains_true (SetToken.getComponents SetToken.sample_fee) "b") _).
    vm_compute. reflexivity. }
  assert (IERC20_balanceOf "b" "set" (sample_world unhooked) = Ok 3%Z) as Ez by (vm_compute; reflexivity).
  destruct (Hk "b" 3%Z Hb ltac:(discriminate) Ez) as (kept & Ek & Hkept & _).
  exists kept. split; [exact Ek|exact Hkept].
Defined.

(** The module cannot be removed. *)
Lemma sample_remove : removeModule (sample_world unhooked)
  = Throw (Revert "The BasicIssuanceModule module cannot be removed").
Proof. reflexivity. Qed.
End BasicIssuance.
