(* ===== verification/DebtIssuance.v ===== *)
(** * Issuance with debt positions

    [contracts/protocol/modules/v1/DebtIssuanceModule.sol]: its settings, the hooks of
    other modules it calls, the units it exchanges and its fees. *)
From Stdlib Require Import String.
From S2P Require Import Prelude JsString BigNumber Constants MathUtils SolMath.
From S2P Require Import AddressArrayUtils Script AdapterUtils Controller Erc20 SetToken.
From S2P Require Import IntegrationRegistry World Position Tokens BasicIssuance.

(** The hooks of a module with external positions, [interfaces/IModuleIssuanceHook.sol];
    the first argument calls them, the second is the module. *)
Class IModuleIssuanceHook `{ERC20} `{SignedLib} (E : Type) := {
  moduleIssueHook : Address → Address → Address → Z → tx E ();
  moduleRedeemHook : Address → Address → Address → Z → tx E ();
  componentIssueHook : Address → Address → Address → Z → Address → bool → tx E ();
  componentRedeemHook : Address → Address → Address → Z → Address → bool → tx E ();
  moduleIssueHook_evolves this m _setToken q : evolves (moduleIssueHook this m _setToken q);
  moduleRedeemHook_evolves this m _setToken q : evolves (moduleRedeemHook this m _setToken q);
  componentIssueHook_evolves this m _setToken q c b :
    evolves (componentIssueHook this m _setToken q c b);
  componentRedeemHook_evolves this m _setToken q c b :
    evolves (componentRedeemHook this m _setToken q c b);
}.
#[export] Hint Resolve moduleIssueHook_evolves moduleRedeemHook_evolves componentIssueHook_evolves
  componentRedeemHook_evolves : evolve.

Record IssuanceSettings := {
  maxManagerFee : Z;
  managerIssueFee : Z;
  managerRedeemFee : Z;
  feeRecipient : Address;
  managerIssuanceHook : Address;
  moduleIssuanceHooks : list Address;
  isModuleHook : gset Address;
}.

(** The mapping [issuanceSettings] in the storage of the module, and the guard that
    shares it. *)
Class DebtStorage (E : Type) `{!ReentrancyGuard E} := {
  issuanceSettings : E → gmap Address IssuanceSettings;
  put_issuanceSettings : gmap Address IssuanceSettings → E → E;
  issuanceSettings_put m e : issuanceSettings (put_issuanceSettings m e) = m;
  issuanceSettings_enter e e' : guard_enter e = Ok e' → issuanceSettings e' = issuanceSettings e;
  issuanceSettings_leave e : issuanceSettings (guard_leave e) = issuanceSettings e;
}.

Module DebtIssuanceModule.
Section DebtIssuanceModule.
Context `{ERC20} `{SignedLib} {E : Type} `{!External E} `{!ReentrancyGuard E} `{!DebtStorage E}
  `{!IManagerIssuanceHook E} `{!IModuleIssuanceHook E}.
Implicit Types (this msg_sender _setToken _to : Address).

Definition ISSUANCE_MODULE_PROTOCOL_FEE_SPLIT_INDEX : Z := 0.

(** An unwritten slot of the mapping. *)
Definition no_settings : IssuanceSettings :=
  {| maxManagerFee := 0; managerIssueFee := 0; managerRedeemFee := 0;
     feeRecipient := Controller.address0; managerIssuanceHook := Controller.address0;
     moduleIssuanceHooks := []; isModuleHook := ∅ |}.

Definition settings _setToken (w : World E) : IssuanceSettings :=
  default no_settings (issuanceSettings (env w) !! _setToken).

Definition put_settings _setToken (s : IssuanceSettings) : tx E () :=
  modify (λ e, put_issuanceSettings (<[_setToken := s]> (issuanceSettings e)) e).

Definition with_recipient (a : Address) (s : IssuanceSettings) : IssuanceSettings :=
  {| maxManagerFee := maxManagerFee s; managerIssueFee := managerIssueFee s;
     managerRedeemFee := managerRedeemFee s; feeRecipient := a;
     managerIssuanceHook := managerIssuanceHook s; moduleIssuanceHooks := moduleIssuanceHooks s;
     isModuleHook := isModuleHook s |}.
Definition with_fees (issueFee redeemFee : Z) (s : IssuanceSettings) : IssuanceSettings :=
  {| maxManagerFee := maxManagerFee s; managerIssueFee := issueFee; managerRedeemFee := redeemFee;
     feeRecipient := feeRecipient s; managerIssuanceHook := managerIssuanceHook s;
     moduleIssuanceHooks := moduleIssuanceHooks s; isModuleHook := isModuleHook s |}.
Definition with_hooks (l : list Address) (f : gset Address) (s : IssuanceSettings)
    : IssuanceSettings :=
  {| maxManagerFee := maxManagerFee s; managerIssueFee := managerIssueFee s;
     managerRedeemFee := managerRedeemFee s; feeRecipient := feeRecipient s;
     managerIssuanceHook := managerIssuanceHook s; moduleIssuanceHooks := l; isModuleHook := f |}.

(** ** Fees *)

Definition calculateTotalFees this _setToken (_quantity : Z) (_isIssue : bool) : tx E (Z * Z * Z) :=
  setIssuanceSettings ← asks (settings _setToken);
  ctl ← asks controller;
  let protocolFeeSplit := Controller.getModuleFee ctl this ISSUANCE_MODULE_PROTOCOL_FEE_SPLIT_INDEX in
  let totalFeeRate := if _isIssue then managerIssueFee setIssuanceSettings
                      else managerRedeemFee setIssuanceSettings in
  totalFee ← lift (PreciseUnitMath.preciseMul_u totalFeeRate _quantity);
  protocolFee ← lift (PreciseUnitMath.preciseMul_u totalFee protocolFeeSplit);
  managerFee ← lift (SafeMath.sub totalFee protocolFee);
  totalQuantity ← lift (if _isIssue then SafeMath.add _quantity totalFee
                        else SafeMath.sub _quantity totalFee);
  mret (totalQuantity, managerFee, protocolFee).

(** The protocol's share is minted inside the test of the manager's. *)
Definition _resolveFees this _setToken (managerFee protocolFee : Z) : tx E () :=
  if 0 <? managerFee then
    recipient ← asks (λ w, feeRecipient (settings _setToken w));
    BasicIssuance.mint this _setToken recipient managerFee;;
    if 0 <? protocolFee then
      ctl ← asks controller;
      BasicIssuance.mint this _setToken (Controller.feeRecipient ctl) protocolFee
    else mret ()
  else mret ().

(** ** Units *)

(** The inner loop: external units above zero are equity, the others debt. *)
Fixpoint external_units_loop _setToken (component : Address) (externalPositions : list Address)
    (cumulativeEquity cumulativeDebt : Z) : tx E (Z * Z) :=
  match externalPositions with
  | [] => mret (cumulativeEquity, cumulativeDebt)
  | m :: externalPositions' =>
      externalPositionUnit ←
        view_set _setToken (λ s, SetToken.getExternalPositionRealUnit s component m);
      if 0 <? externalPositionUnit then
        equity ← lift (int_add cumulativeEquity externalPositionUnit);
        external_units_loop _setToken component externalPositions' equity cumulativeDebt
      else
        debt ← lift (int_add cumulativeDebt externalPositionUnit);
        external_units_loop _setToken component externalPositions' cumulativeEquity debt
  end.

(** The rest of an iteration, from the unit of the default position. *)
Definition component_units _setToken (component : Address) (default_unit : Z) : tx E (Z * Z) :=
  externalPositions ← read_set _setToken (λ s, SetToken.getExternalPositionModules s component);
  '(cumulativeEquity, cumulativeDebt) ←
    external_units_loop _setToken component externalPositions default_unit 0;
  equityUnit ← lift (toUint256 cumulativeEquity);
  debt ← lift (int_mul cumulativeDebt (-1));
  debtUnit ← lift (toUint256 debt);
  mret (equityUnit, debtUnit).

Fixpoint units_loop _setToken (components : list Address) : tx E (list (Z * Z)) :=
  match components with
  | [] => mret []
  | component :: components' =>
      unit ← view_set _setToken (λ s, SetToken.getDefaultPositionRealUnit s component);
      u ← component_units _setToken component unit;
      us ← units_loop _setToken components';
      mret (u :: us)
  end.

(** The arrays of equity and debt as one list of pairs. *)
Definition _getTotalIssuanceUnits _setToken : tx E (list Address * list (Z * Z)) :=
  components ← read_set _setToken SetToken.getComponents;
  us ← units_loop _setToken components;
  mret (components, us).

Fixpoint notional_loop (_quantity : Z) (_isIssue : bool) (us : list (Z * Z))
    : result (list (Z * Z)) :=
  match us with
  | [] => Ok []
  | (equityUnit, debtUnit) :: us' =>
      e ← (if _isIssue then PreciseUnitMath.preciseMulCeil_u equityUnit _quantity
           else PreciseUnitMath.preciseMul_u equityUnit _quantity);
      d ← (if _isIssue then PreciseUnitMath.preciseMul_u debtUnit _quantity
           else PreciseUnitMath.preciseMulCeil_u debtUnit _quantity);
      ns ← notional_loop _quantity _isIssue us';
      Ok ((e, d) :: ns)
  end.

Definition _calculateRequiredComponentIssuanceUnits _setToken (_quantity : Z) (_isIssue : bool)
    : tx E (list Address * list (Z * Z)) :=
  '(components, us) ← _getTotalIssuanceUnits _setToken;
  ns ← lift (notional_loop _quantity _isIssue us);
  mret (components, ns).

Definition getRequiredComponentIssuanceUnits this _setToken (_quantity : Z)
    : tx E (list Address * list (Z * Z)) :=
  '(totalQuantity, _, _) ← calculateTotalFees this _setToken _quantity true;
  _calculateRequiredComponentIssuanceUnits _setToken totalQuantity true.

Definition getRequiredComponentRedemptionUnits this _setToken (_quantity : Z)
    : tx E (list Address * list (Z * Z)) :=
  '(totalQuantity, _, _) ← calculateTotalFees this _setToken _quantity false;
  _calculateRequiredComponentIssuanceUnits _setToken totalQuantity false.

(** ** Hooks *)

Definition _callManagerPreIssueHooks this _setToken (_quantity : Z) (_caller _to : Address)
    : tx E Address :=
  preIssueHook ← asks (λ w, managerIssuanceHook (settings _setToken w));
  if negb (bool_decide (preIssueHook = Controller.address0)) then
    invokePreIssueHook this preIssueHook _setToken _quantity _caller _to;;
    mret preIssueHook
  else mret Controller.address0.

(** One call after the other. *)
Fixpoint each (call : Address → tx E ()) (l : list Address) : tx E () :=
  match l with
  | [] => mret ()
  | m :: l' => call m;; each call l'
  end.

Definition _callModulePreIssueHooks this _setToken (_quantity : Z) : tx E () :=
  issuanceHooks ← asks (λ w, moduleIssuanceHooks (settings _setToken w));
  each (λ m, moduleIssueHook this m _setToken _quantity) issuanceHooks.

Definition _callModulePreRedeemHooks this _setToken (_quantity : Z) : tx E () :=
  issuanceHooks ← asks (λ w, moduleIssuanceHooks (settings _setToken w));
  each (λ m, moduleRedeemHook this m _setToken _quantity) issuanceHooks.

Definition _executeExternalPositionHooks this _setToken (_setTokenQuantity : Z)
    (_component : Address) (_isIssue _isEquity : bool) : tx E () :=
  externalPositionModules ← read_set _setToken (λ s, SetToken.getExternalPositionModules s _component);
  if _isIssue then
    each (λ m, componentIssueHook this m _setToken _setTokenQuantity _component _isEquity)
      externalPositionModules
  else
    each (λ m, componentRedeemHook this m _setToken _setTokenQuantity _component _isEquity)
      externalPositionModules.

(** ** Issuing and redeeming *)

(** Both loops pass over a component whose quantity is zero; [_quantities[i]] fails
    when there are fewer of them. *)
Fixpoint resolve (act : Address → Z → tx E ()) (_components : list Address) (_quantities : list Z)
    : tx E () :=
  match _components, _quantities with
  | [], _ => mret ()
  | component :: _components', componentQuantity :: _quantities' =>
      (if 0 <? componentQuantity then act component componentQuantity else mret ());;
      resolve act _components' _quantities'
  | _ :: _, [] => revert "invalid opcode"
  end.

Definition _resolveEquityPositions this msg_sender _setToken (_quantity : Z) _to (_isIssue : bool)
    (_components : list Address) (_componentEquityQuantities : list Z) : tx E () :=
  resolve (λ component componentQuantity,
    if _isIssue then
      transferFrom this component msg_sender _setToken componentQuantity;;
      _executeExternalPositionHooks this _setToken _quantity component true true
    else
      _executeExternalPositionHooks this _setToken _quantity component false true;;
      strictInvokeTransfer this _setToken component _to componentQuantity)
    _components _componentEquityQuantities.

Definition _resolveDebtPositions this msg_sender _setToken (_quantity : Z) (_isIssue : bool)
    (_components : list Address) (_componentDebtQuantities : list Z) : tx E () :=
  resolve (λ component componentQuantity,
    if _isIssue then
      _executeExternalPositionHooks this _setToken _quantity component true false;;
      strictInvokeTransfer this _setToken component msg_sender componentQuantity
    else
      transferFrom this component msg_sender _setToken componentQuantity;;
      _executeExternalPositionHooks this _setToken _quantity component false false)
    _components _componentDebtQuantities.

(** The hook and the fees are in the event. *)
Definition issue this msg_sender _setToken (_quantity : Z) _to : tx E (Address * Z * Z) :=
  nonReentrant (
    _validateOnlyValidAndInitializedSet this _setToken;;
    requires (0 <? _quantity) "Issue quantity must be > 0";;
    hookContract ← _callManagerPreIssueHooks this _setToken _quantity msg_sender _to;
    _callModulePreIssueHooks this _setToken _quantity;;
    '(quantityWithFees, managerFee, protocolFee) ← calculateTotalFees this _setToken _quantity true;
    '(components, us) ← _calculateRequiredComponentIssuanceUnits _setToken quantityWithFees true;
    _resolveEquityPositions this msg_sender _setToken quantityWithFees _to true components us.*1;;
    _resolveDebtPositions this msg_sender _setToken quantityWithFees true components us.*2;;
    _resolveFees this _setToken managerFee protocolFee;;
    BasicIssuance.mint this _setToken _to _quantity;;
    mret (hookContract, managerFee, protocolFee)).

Definition redeem this msg_sender _setToken (_quantity : Z) _to : tx E (Z * Z) :=
  nonReentrant (
    _validateOnlyValidAndInitializedSet this _setToken;;
    requires (0 <? _quantity) "Redeem quantity must be > 0";;
    _callModulePreRedeemHooks this _setToken _quantity;;
    BasicIssuance.burn this _setToken msg_sender _quantity;;
    '(quantityNetFees, managerFee, protocolFee) ← calculateTotalFees this _setToken _quantity false;
    '(components, us) ← _calculateRequiredComponentIssuanceUnits _setToken quantityNetFees false;
    _resolveDebtPositions this msg_sender _setToken quantityNetFees false components us.*2;;
    _resolveEquityPositions this msg_sender _setToken quantityNetFees _to false components us.*1;;
    _resolveFees this _setToken managerFee protocolFee;;
    mret (managerFee, protocolFee)).

(** ** Settings *)

Definition updateFeeRecipient this msg_sender _setToken (_newFeeRecipient : Address) : tx E () :=
  _validateOnlyManagerAndValidSet this msg_sender _setToken;;
  requires (negb (bool_decide (_newFeeRecipient = Controller.address0)))
    "Fee Recipient must be non-zero address.";;
  s ← asks (settings _setToken);
  requires (negb (bool_decide (_newFeeRecipient = feeRecipient s))) "Same fee recipient passed";;
  put_settings _setToken (with_recipient _newFeeRecipient s).

Definition updateIssueFee this msg_sender _setToken (_newIssueFee : Z) : tx E () :=
  _validateOnlyManagerAndValidSet this msg_sender _setToken;;
  s ← asks (settings _setToken);
  requires (_newIssueFee <=? maxManagerFee s) "Issue fee can't exceed maximum";;
  requires (negb (_newIssueFee =? managerIssueFee s)) "Same issue fee passed";;
  put_settings _setToken (with_fees _newIssueFee (managerRedeemFee s) s).

Definition updateRedeemFee this msg_sender _setToken (_newRedeemFee : Z) : tx E () :=
  _validateOnlyManagerAndValidSet this msg_sender _setToken;;
  s ← asks (settings _setToken);
  requires (_newRedeemFee <=? maxManagerFee s) "Redeem fee can't exceed maximum";;
  requires (negb (_newRedeemFee =? managerRedeemFee s)) "Same redeem fee passed";;
  put_settings _setToken (with_fees (managerIssueFee s) _newRedeemFee s).

Definition registerToIssuanceModule this msg_sender _setToken : tx E () :=
  _validateOnlyModule msg_sender _setToken;;
  _validateOnlyValidAndInitializedSet this _setToken;;
  s ← asks (settings _setToken);
  requires (negb (bool_decide (msg_sender ∈ isModuleHook s))) "Module already registered.";;
  put_settings _setToken
    (with_hooks (moduleIssuanceHooks s ++ [msg_sender]) ({[msg_sender]} ∪ isModuleHook s) s).

Definition unregisterFromIssuanceModule this msg_sender _setToken : tx E () :=
  _validateOnlyModule msg_sender _setToken;;
  _validateOnlyValidAndInitializedSet this _setToken;;
  s ← asks (settings _setToken);
  requires (bool_decide (msg_sender ∈ isModuleHook s)) "Module not registered.";;
  l ← lift (removeStorage (moduleIssuanceHooks s) msg_sender);
  put_settings _setToken (with_hooks l (isModuleHook s ∖ {[msg_sender]}) s).

(** Neither an assignment of the structure nor [delete] touches the mapping in it. *)
Definition initialize this msg_sender _setToken (_maxManagerFee _managerIssueFee _managerRedeemFee : Z)
    (_feeRecipient _managerIssuanceHook : Address) : tx E () :=
  _validateOnlySetManager _setToken msg_sender;;
  _validateOnlyValidAndPendingSet this _setToken;;
  requires (_managerIssueFee <=? _maxManagerFee) "Issue fee can't exceed maximum fee";;
  requires (_managerRedeemFee <=? _maxManagerFee) "Redeem fee can't exceed maximum fee";;
  s ← asks (settings _setToken);
  put_settings _setToken
    {| maxManagerFee := _maxManagerFee; managerIssueFee := _managerIssueFee;
       managerRedeemFee := _managerRedeemFee; feeRecipient := _feeRecipient;
       managerIssuanceHook := _managerIssuanceHook; moduleIssuanceHooks := [];
       isModuleHook := isModuleHook s |};;
  on_set _setToken (λ ctl, SetToken.execute ctl this SetToken.InitializeModule).

Definition removeModule msg_sender : tx E () :=
  s ← asks (settings msg_sender);
  requires (length (moduleIssuanceHooks s) =? 0)%nat "Registered modules must be removed.";;
  put_settings msg_sender (with_hooks [] (isModuleHook s) no_settings).

Definition getModuleIssuanceHooks _setToken (w : World E) : list Address :=
  moduleIssuanceHooks (settings _setToken w).
Definition isModuleIssuanceHook _setToken (_hook : Address) (w : World E) : bool :=
  bool_decide (_hook ∈ isModuleHook (settings _setToken w)).
End DebtIssuanceModule.
End DebtIssuanceModule.

(** ** Concrete instances *)

Abbreviation debt_env := (module_env (gmap Address IssuanceSettings)).

#[export] Instance debt_storage : DebtStorage debt_env.
Proof.
  refine {| issuanceSettings (e : debt_env) := e.1.1;
            put_issuanceSettings m (e : debt_env) := (m, e.1.2, e.2) |}; [done| |done].
  intros e e'. cbn. destruct e.1.2; [done|]. by intros [= <-].
Defined.

(** Modules without external positions. *)
#[export] Instance idle_hooks `{ERC20} `{SignedLib} {E} : IModuleIssuanceHook E := {|
  moduleIssueHook this m _setToken q := mret ();
  moduleRedeemHook this m _setToken q := mret ();
  componentIssueHook this m _setToken q c b := mret ();
  componentRedeemHook this m _setToken q c b := mret ();
  moduleIssueHook_evolves this m _setToken q := evolves_ret _;
  moduleRedeemHook_evolves this m _setToken q := evolves_ret _;
  componentIssueHook_evolves this m _setToken q c b := evolves_ret _;
  componentRedeemHook_evolves this m _setToken q c b := evolves_ret _;
|}.
