(* ===== verification/DebtUnits.v ===== *)
(** * What issuance with debt exchanges

    The units and the fees of DebtIssuance.v: equity and debt of a component, how
    they are rounded, and how the fees are split and minted. *)
From Stdlib Require Import String.
From S2P Require Import Prelude JsString BigNumber Constants MathUtils SolMath.
From S2P Require Import AddressArrayUtils Script AdapterUtils Controller Erc20 SetToken.
From S2P Require Import IntegrationRegistry World Position Tokens BasicIssuance DebtIssuance.

Module DebtUnits.
Import DebtIssuanceModule.

Definition sumZ (l : list Z) : Z := foldr Z.add 0 l.

Lemma sumZ_cons (z : Z) (l : list Z) : sumZ (z :: l) = z + sumZ l.
Proof. done. Qed.

(** A unit counts as equity when it is positive and as debt otherwise. *)
Definition held_part (u : Z) : Z := Z.max 0 u.
Definition owed_part (u : Z) : Z := Z.max 0 (- u).

Lemma parts_pos (u : Z) : 0 < u → held_part u = u ∧ owed_part u = 0.
Proof. unfold held_part, owed_part. lia. Qed.
Lemma parts_neg (u : Z) : u ≤ 0 → held_part u = 0 ∧ owed_part u = - u.
Proof. unfold held_part, owed_part. lia. Qed.

Section Units.
Context `{ERC20} `{SignedLib} {E : Type} `{!External E} `{!ReentrancyGuard E} `{!DebtStorage E}
  `{!IManagerIssuanceHook E} `{!IModuleIssuanceHook E}.
Implicit Types (this st c m : Address) (w : World E) (s : SetToken.State).

(** The real unit of an external position. *)
Definition external_unit s c m : Z :=
  SetToken.external_virtualUnit (SetToken.external_position s c m) * SetToken.positionMultiplier s
    / 10 ^ 18.

Definition external_units s c : list Z := external_unit s c <$> SetToken.getExternalPositionModules s c.

(** What a token of the set holds of a component, and what it owes. *)
Definition equity s c : Z := PositionLib.real_unit s c + sumZ (held_part <$> external_units s c).
Definition debt s c : Z := sumZ (owed_part <$> external_units s c).

Lemma getExternal_real s c m (u : Z) :
  SetToken.consistent s → SetToken.getExternalPositionRealUnit s c m = Ok u →
  u = external_unit s c m ∧ is_int u.
Proof.
  intros (_ & _ & _ & [_ Hu] & Hm & _) E1.
  unfold SetToken.getExternalPositionRealUnit, SetToken._convertVirtualToRealUnit in E1.
  apply conservativePreciseMul_inv in E1 as (-> & _ & ?); [done|apply Hu|done].
Qed.

Lemma external_loop_ok st c (ms : list Address) (e d e' d' : Z) w w' s :
  sets w !! st = Some s → SetToken.consistent s → is_int e → is_int d →
  external_units_loop st c ms e d w = Ok ((e', d'), w') →
  w' = w ∧ e' = e + sumZ (held_part <$> (external_unit s c <$> ms)) ∧ is_int e' ∧
  d' = d - sumZ (owed_part <$> (external_unit s c <$> ms)) ∧ is_int d'.
Proof.
  intros Es Hs. revert e d. induction ms as [|m ms IH]; intros e d He Hd Hw;
    cbn [external_units_loop] in Hw.
  { apply tx_ret_ok in Hw as [[= <- <-] <-]. cbn. split; [done|]. split; [lia|]. split; [done|].
    split; [lia|done]. }
  apply tx_bind_ok in Hw as (u & w1 & Hu & Hw). apply view_set_ok in Hu as (s0 & E0 & Hu & <-).
  rewrite Es in E0. injection E0 as <-. apply getExternal_real in Hu as [-> Hu]; [|done].
  rewrite !fmap_cons, !sumZ_cons.
  destruct (Z.ltb_spec 0 (external_unit s c m)) as [Hp|Hp];
    apply tx_bind_ok in Hw as (x & w1 & Hx & Hw); apply lift_ok in Hx as [Hx <-];
    apply int_add_inv in Hx as [-> Hx]; try done;
    apply IH in Hw as (-> & -> & ? & -> & ?); try done;
    [apply parts_pos in Hp as [-> ->]|apply parts_neg in Hp as [-> ->]];
    (split; [done|]; split; [lia|]; split; [done|]; split; [lia|done]).
Qed.

(** ** Units of a set *)

(** The two numbers of a component, and that they are words. *)
Definition units_of s c : Z * Z := (equity s c, debt s c).
Definition word_units s c : Prop := is_uint (equity s c) ∧ is_uint (debt s c).

Lemma component_units_ok st c (d : Z) (u : Z * Z) w w' s :
  sets w !! st = Some s → SetToken.consistent s → is_int d →
  component_units st c d w = Ok (u, w') →
  w' = w ∧ u = (d + sumZ (held_part <$> external_units s c), debt s c) ∧
  is_uint (d + sumZ (held_part <$> external_units s c)) ∧ is_uint (debt s c).
Proof.
  intros Es Hs Hi Hw. unfold component_units in Hw.
  apply tx_bind_ok in Hw as (l & w1 & Hl & Hw). apply read_set_ok in Hl as (s0 & E0 & -> & <-).
  rewrite Es in E0. injection E0 as <-. apply tx_bind_ok in Hw as ([e k] & w1 & Hx & Hw).
  apply (external_loop_ok _ _ _ _ _ _ _ _ _ s) in Hx as (-> & Ee & He & Ed & Hd);
    [|done|done|done|apply int_0].
  read_steps Hw. apply tx_ret_ok in Hw as [<- <-]. split; [done|].
  rename select (toUint256 e = _) into Hte. apply toUint256_inv in Hte as (-> & _ & Heu); [|done].
  rename select (int_mul k (-1) = _) into Hm. apply int_mul_inv in Hm as [-> Hm]; [|done|by vm_compute].
  rename select (toUint256 (k * -1) = _) into Htd. apply toUint256_inv in Htd as (-> & _ & Hdu); [|done].
  assert (k * -1 = debt s c) as Edd by (unfold debt, external_units; lia).
  rewrite Edd in *. fold (external_units s c) in Ee. by rewrite <- Ee.
Qed.

Lemma units_loop_ok st (cs : list Address) (us : list (Z * Z)) w w' s :
  sets w !! st = Some s → SetToken.consistent s → units_loop st cs w = Ok (us, w') →
  w' = w ∧ us = units_of s <$> cs ∧ Forall (word_units s) cs.
Proof.
  intros Es Hs. revert us. induction cs as [|c cs IH]; intros us Hw; cbn [units_loop] in Hw.
  { apply tx_ret_ok in Hw as [<- <-]. by repeat split. }
  apply tx_bind_ok in Hw as (u & w1 & Hu & Hw). apply view_set_ok in Hu as (s0 & E0 & Hu & <-).
  rewrite Es in E0. injection E0 as <-. apply PositionLib.getDefault_real in Hu as [-> Hu]; [|done].
  apply tx_bind_ok in Hw as (x & w1 & Hx & Hw).
  apply (component_units_ok _ _ _ _ _ _ s) in Hx as (-> & -> & Hc); [|done..].
  apply tx_bind_ok in Hw as (xs & w1 & Hxs & Hw). apply tx_ret_ok in Hw as [<- <-].
  apply IH in Hxs as (-> & -> & Hcs). split; [done|]. split; [done|]. by apply Forall_cons.
Qed.

(** ** Amounts *)

(** What [q] tokens take and give: rounded in favour of the set. *)
Definition amounts s (q : Z) (isIssue : bool) c : Z * Z :=
  if isIssue then (ceil_div (equity s c * q) (10 ^ 18), debt s c * q / 10 ^ 18)
  else (equity s c * q / 10 ^ 18, ceil_div (debt s c * q) (10 ^ 18)).

Lemma notional_ok s (q : Z) (b : bool) (cs : list Address) (ns : list (Z * Z)) :
  is_uint q → Forall (word_units s) cs → notional_loop q b (units_of s <$> cs) = Ok ns →
  ns = amounts s q b <$> cs ∧ Forall (λ n, is_uint n.1 ∧ is_uint n.2) ns.
Proof.
  intros Hq. revert ns. induction cs as [|c cs IH]; intros ns Hcs Hw.
  { injection Hw as <-. by split. }
  apply Forall_cons in Hcs as [[He Hd] Hcs]. rewrite fmap_cons in Hw. cbn [notional_loop units_of] in Hw.
  apply result_bind_ok in Hw as (e & Ee & Hw). apply result_bind_ok in Hw as (d & Ed & Hw).
  apply result_bind_ok in Hw as (ns' & En & Hw). injection Hw as <-.
  apply IH in En as [-> Hns]; [|done].
  assert ((e, d) = amounts s q b c ∧ is_uint e ∧ is_uint d) as (Eu & Heu & Hdu).
  { unfold amounts. destruct b.
    - apply preciseMulCeil_u_inv in Ee as [-> ?]; [|done..]. apply preciseMul_u_inv in Ed as [-> ?]; [|done..].
      rewrite quot_floor in * by (unfold is_uint in *; nia). done.
    - apply preciseMul_u_inv in Ee as [-> ?]; [|done..]. apply preciseMulCeil_u_inv in Ed as [-> ?]; [|done..].
      rewrite quot_floor in * by (unfold is_uint in *; nia). done. }
  rewrite Eu. split; [done|]. apply Forall_cons. by rewrite <- Eu.
Qed.

(** The units of the module: for each component in order, the default unit and
    the positive external units together, and what the negative ones owe; an
    issuance rounds what it takes up and what it gives down, a redemption the other
    way round, and no quantity is computed when the sum of a component is negative
    or leaves the word. *)
Theorem required_units st (q : Z) (isIssue : bool) (cs : list Address) (ns : list (Z * Z)) w w' s
    (Es : sets w !! st = Some s) (Hs : SetToken.consistent s) (Hq : is_uint q)
    (Hw : _calculateRequiredComponentIssuanceUnits st q isIssue w = Ok ((cs, ns), w')) :
  w' = w ∧ cs = SetToken.getComponents s ∧ ns = amounts s q isIssue <$> cs ∧
  Forall (word_units s) cs ∧ Forall (λ n, is_uint n.1 ∧ is_uint n.2) ns.
Proof.
  unfold _calculateRequiredComponentIssuanceUnits, _getTotalIssuanceUnits in Hw.
  apply tx_bind_ok in Hw as ([cs' us] & w1 & Hx & Hw).
  apply tx_bind_ok in Hx as (l & w2 & Hl & Hx). apply read_set_ok in Hl as (s0 & E0 & -> & <-).
  rewrite Es in E0. injection E0 as <-. apply tx_bind_ok in Hx as (us' & w2 & Hu & Hx).
  apply tx_ret_ok in Hx as [[= <- <-] <-].
  apply (units_loop_ok _ _ _ _ _ s) in Hu as (-> & -> & Hcs); [|done..].
  apply tx_bind_ok in Hw as (ns' & w2 & Hn & Hw). apply lift_ok in Hn as [Hn <-].
  apply tx_ret_ok in Hw as [[= <- <-] <-].
  apply notional_ok in Hn as [-> Hn]; [|done..]. done.
Qed.

(** ** Fees *)

Definition rate_of (isIssue : bool) (x : IssuanceSettings) : Z :=
  if isIssue then managerIssueFee x else managerRedeemFee x.

Definition split_of this w : Z :=
  Controller.getModuleFee (controller w) this ISSUANCE_MODULE_PROTOCOL_FEE_SPLIT_INDEX.

(** The fees of an issuance or a redemption: the rate of the manager on the
    quantity, rounded down, split without remainder into the share of the protocol,
    rounded down, and the rest for the manager; an issuance adds it to the quantity,
    a redemption takes it off and reverts when it exceeds the quantity. *)
Theorem total_fees this st (q total m p : Z) (isIssue : bool) w w'
    (Hq : is_uint q) (Hrate : is_uint (rate_of isIssue (settings st w)))
    (Hsplit : is_uint (split_of this w))
    (Hw : calculateTotalFees this st q isIssue w = Ok ((total, m, p), w')) :
  w' = w ∧ m + p = rate_of isIssue (settings st w) * q / 10 ^ 18 ∧
  p = (m + p) * split_of this w / 10 ^ 18 ∧
  total = (if isIssue then q + (m + p) else q - (m + p)) ∧
  is_uint total ∧ is_uint m ∧ is_uint p.
Proof.
  unfold calculateTotalFees in Hw.
  apply tx_bind_ok in Hw as (x & w1 & Hx & Hw). apply asks_ok in Hx as [-> <-].
  apply tx_bind_ok in Hw as (ctl & w1 & Hx & Hw). apply asks_ok in Hx as [-> <-]. cbv zeta in Hw.
  fold (rate_of isIssue (settings st w)) in Hw. fold (split_of this w) in Hw.
  apply tx_bind_ok in Hw as (fee & w1 & Hx & Hw). apply lift_ok in Hx as [Hf <-].
  apply preciseMul_u_inv in Hf as [Ef Hf]; [|done..].
  apply tx_bind_ok in Hw as (p' & w1 & Hx & Hw). apply lift_ok in Hx as [Hp <-].
  apply preciseMul_u_inv in Hp as [Ep Hp]; [|done..].
  apply tx_bind_ok in Hw as (m' & w1 & Hx & Hw). apply lift_ok in Hx as [Hm <-].
  apply safe_sub_inv in Hm as (Em & _ & Hm); [|done..].
  apply tx_bind_ok in Hw as (t & w1 & Hx & Hw). apply lift_ok in Hx as [Ht <-].
  apply tx_ret_ok in Hw as [[= <- <- <-] <-]. split; [done|].
  rewrite quot_floor in Ef, Ep by (unfold is_uint in *; nia).
  replace (m' + p') with fee by lia. split; [done|]. split; [done|]. destruct isIssue.
  - by apply safe_add_inv in Ht as [-> Ht].
  - by apply safe_sub_inv in Ht as (-> & _ & Ht).
Qed.

(** What is minted: nothing when the manager has no share, even if the protocol
    would have one. *)
Definition minted (m p : Z) : Z := if 0 <? m then m + p else 0.

Lemma resolveFees_ok this st (m p : Z) (u : ()) w w' s :
  sets w !! st = Some s → is_uint m → is_uint p → is_uint (totalSupply (SetToken.token s)) →
  _resolveFees this st m p w = Ok (u, w') →
  ∃ t, w' = put_set st (SetToken.set_token t s) w ∧
    totalSupply t = totalSupply (SetToken.token s) + minted m p ∧ is_uint (totalSupply t).
Proof.
  intros Es Hm Hp Hs Hw. unfold _resolveFees in Hw. unfold minted. destruct (0 <? m).
  2: { apply tx_ret_ok in Hw as [_ <-]. exists (SetToken.token s). split; [|split; [lia|done]].
       rewrite put_set_id; [done|]. by destruct s. }
  apply tx_bind_ok in Hw as (r & w1 & Hx & Hw). apply asks_ok in Hx as [-> <-].
  apply tx_bind_ok in Hw as (x & w1 & H1 & Hw).
  apply (set_mint_ok _ _ _ _ _ _ _ s) in H1 as (t & -> & Ht & Htu & _); [|done..].
  destruct (Z.ltb_spec 0 p).
  - apply tx_bind_ok in Hw as (ctl & w1 & Hx & Hw). apply asks_ok in Hx as [-> <-].
    apply (set_mint_ok _ _ _ _ _ _ _ (SetToken.set_token t s)) in Hw as (t' & -> & Ht' & Htu' & _);
      [|apply put_set_at|done|done]. cbn in Ht'.
    exists t'. rewrite put_set_twice. split; [done|]. split; [lia|done].
  - apply tx_ret_ok in Hw as [_ <-]. exists t. unfold is_uint in Hp. split; [done|]. split; [lia|done].
Qed.

(** ** Views only read *)

Lemma reading_external st c (ms : list Address) (e d : Z) :
  reading (external_units_loop (E := E) st c ms e d).
Proof. revert e d. induction ms; intros e d; cbn [external_units_loop]; reading. Qed.
#[local] Hint Resolve reading_external : reading.

Lemma reading_units st (cs : list Address) : reading (units_loop (E := E) st cs).
Proof. induction cs; cbn [units_loop]; unfold component_units; reading. Qed.
#[local] Hint Resolve reading_units : reading.

Lemma debt_reading_required st (q : Z) (b : bool) :
  reading (_calculateRequiredComponentIssuanceUnits (E := E) st q b).
Proof. unfold _calculateRequiredComponentIssuanceUnits, _getTotalIssuanceUnits. reading. Qed.

Lemma reading_fees this st (q : Z) (b : bool) : reading (calculateTotalFees (E := E) this st q b).
Proof. unfold calculateTotalFees. reading. Qed.
End Units.

#[export] Hint Resolve reading_external reading_units debt_reading_required reading_fees : reading.
End DebtUnits.
