(* ===== verification/DebtSettings.v ===== *)
(** * The settings of issuance across transactions

    What every sequence of transactions keeps of the fees and of the registered hooks
    of DebtIssuance.v, together with the states of the module on its sets. *)
From Stdlib Require Import String.
From S2P Require Import Prelude JsString BigNumber Constants MathUtils SolMath.
From S2P Require Import AddressArrayUtils Script AdapterUtils Controller Erc20 SetToken.
From S2P Require Import IntegrationRegistry World Position Tokens BasicIssuance DebtIssuance.
From S2P Require Import DebtUnits.

Module DebtSettings.
Import DebtIssuanceModule DebtUnits.

(** ** The invariant *)

(** Fees respect their maximum, and the flags agree with the array. *)
Definition settings_valid (s : IssuanceSettings) : Prop :=
  managerIssueFee s ≤ maxManagerFee s ∧ managerRedeemFee s ≤ maxManagerFee s ∧
  NoDup (moduleIssuanceHooks s) ∧ ∀ m, m ∈ isModuleHook s ↔ m ∈ moduleIssuanceHooks s.

Lemma no_settings_valid : settings_valid no_settings.
Proof. split; [done|]. split; [done|]. split; [constructor|]. intros m. cbn. set_solver. Qed.

Lemma register_valid (m : Address) (s : IssuanceSettings) :
  settings_valid s → m ∉ isModuleHook s →
  settings_valid (with_hooks (moduleIssuanceHooks s ++ [m]) ({[m]} ∪ isModuleHook s) s).
Proof.
  intros (Hi & Hr & Hn & Hf) Hm. split; [done|]. split; [done|]. split; cbn.
  - apply NoDup_app. split; [done|]. split; [|apply NoDup_singleton].
    intros x Hx. rewrite list_elem_of_singleton. intros ->. by apply Hm, Hf.
  - intros m'. specialize (Hf m'). set_solver.
Qed.

Lemma unregister_valid (m : Address) (l : list Address) (s : IssuanceSettings) :
  settings_valid s → removeStorage (moduleIssuanceHooks s) m = Ok l →
  settings_valid (with_hooks l (isModuleHook s ∖ {[m]}) s).
Proof.
  intros (Hi & Hr & Hn & Hf) Hl. apply removeStorage_nodup in Hl as (_ & Hn' & Hx); [|done].
  split; [done|]. split; [done|]. split; [done|]. cbn. intros m'. rewrite Hx. specialize (Hf m').
  set_solver.
Qed.

(** Without hooks there are no flags either. *)
Lemma no_hooks_no_flags (s : IssuanceSettings) :
  settings_valid s → moduleIssuanceHooks s = [] → isModuleHook s = ∅.
Proof. intros (_ & _ & _ & Hf) E. apply set_eq. intros m. rewrite Hf, E. set_solver. Qed.

(** ** The transactions *)
Section Transactions.
Context `{ERC20} `{SignedLib} {E : Type} `{!External E} `{!ReentrancyGuard E} `{!DebtStorage E}
  `{!IManagerIssuanceHook E} `{!IModuleIssuanceHook E}.
Context (this : Address).
Implicit Types (msg_sender _setToken : Address) (w : World E).

Definition initialized _setToken w : Prop :=
  ∃ s, sets w !! _setToken = Some s ∧ SetToken.state_of_module s this = INITIALIZED.

(** Only sets on which the module is initialized have hooks. *)
Definition valid w : Prop := ∀ st,
  settings_valid (settings st w) ∧
  (moduleIssuanceHooks (settings st w) ≠ [] → initialized st w).

Lemma settings_put st (s : IssuanceSettings) st' w :
  settings st' (set_env (put_issuanceSettings (<[st := s]> (issuanceSettings (env w))) (env w)) w)
  = if decide (st' = st) then s else settings st' w.
Proof.
  unfold settings. cbn. rewrite issuanceSettings_put. destruct (decide (st' = st)) as [->|Hne].
  - by rewrite lookup_insert_eq.
  - by rewrite lookup_insert_ne by congruence.
Qed.

Lemma debt_put_valid st (s : IssuanceSettings) (u : ()) w w' :
  valid w → settings_valid s → (moduleIssuanceHooks s ≠ [] → initialized st w) →
  put_settings st s w = Ok (u, w') → valid w'.
Proof.
  intros Hw Hs Hi Hp. apply modify_ok in Hp as ->. intros st'. rewrite settings_put.
  destruct (decide (st' = st)) as [->|]; [by split|apply Hw].
Qed.

Lemma settings_env st w w' :
  issuanceSettings (env w') = issuanceSettings (env w) → settings st w' = settings st w.
Proof. intros Hw. unfold settings. by rewrite Hw. Qed.

(** Changes that keep the settings and leave the module where it is. *)
Lemma valid_elsewhere w w' :
  issuanceSettings (env w') = issuanceSettings (env w) →
  (∀ st, initialized st w → initialized st w') → valid w → valid w'.
Proof.
  intros He Hi Hw st. rewrite (settings_env st _ _ He). destruct (Hw st) as [Hs Hh]. auto.
Qed.

Lemma initialized_put st (s s' : SetToken.State) w :
  sets w !! st = Some s →
  (SetToken.state_of_module s this = INITIALIZED → SetToken.state_of_module s' this = INITIALIZED) →
  ∀ st', initialized st' w → initialized st' (put_set st s' w).
Proof.
  intros Es Hs st' (s0 & E0 & Hi). destruct (decide (st' = st)) as [->|Hne].
  - rewrite Es in E0. injection E0 as <-. exists s'. split; [apply put_set_at|auto].
  - exists s0. split; [|done]. cbn. by rewrite lookup_insert_ne by congruence.
Qed.

Lemma keeps_operation st (caller : Address) (o : SetToken.operation) :
  o ≠ SetToken.RemoveModule this →
  keeps valid (on_set st (λ ctl, SetToken.execute ctl caller o) : tx E ()).
Proof.
  intros Ho w u w' Hv Hw. split; [|done]. apply on_set_ok in Hw as (s & s' & Es & E1 & ->).
  apply (valid_elsewhere w (put_set st s' w)); [done| |done]. apply (initialized_put st s); [done|].
  by eapply SetToken.execute_initialized.
Qed.

Lemma keeps_guard {A} (body : tx E A) : keeps valid body → keeps valid (nonReentrant body).
Proof.
  intros Hb w a w' Hv Hw. split; [|done]. apply nonReentrant_ok in Hw as (e & w1 & He & Hw & ->).
  apply Hb in Hw as [Hw _].
  - apply (valid_elsewhere w1); [|done|exact Hw]. cbn. apply issuanceSettings_leave.
  - apply (valid_elsewhere w); [|done|exact Hv]. cbn. by apply issuanceSettings_enter.
Qed.

(** ** Issuance and redemption only read the settings *)

(** Whatever tokens and hooks do, they do by transactions that keep the invariant. *)
Context (Hcall : ∀ caller target v d, keeps valid (functionCallWithValue (E := E) caller target v d)).
Context (Htransfer : ∀ caller token from to q,
  keeps valid (safeTransferFrom (E := E) caller token from to q)).
Context (Hpre : ∀ hook st q sender to, keeps valid (invokePreIssueHook (E := E) this hook st q sender to)).
Context (Hissue : ∀ m st q, keeps valid (moduleIssueHook (E := E) this m st q)).
Context (Hredeem : ∀ m st q, keeps valid (moduleRedeemHook (E := E) this m st q)).
Context (Hcissue : ∀ m st q c b, keeps valid (componentIssueHook (E := E) this m st q c b)).
Context (Hcredeem : ∀ m st q c b, keeps valid (componentRedeemHook (E := E) this m st q c b)).

#[local] Hint Resolve Hcall Htransfer Hpre Hissue Hredeem Hcissue Hcredeem : keeps.

Lemma keeps_mint st (a : Address) (q : Z) : keeps valid (BasicIssuance.mint (E := E) this st a q).
Proof. by apply keeps_operation. Qed.
Lemma keeps_burn st (a : Address) (q : Z) : keeps valid (BasicIssuance.burn (E := E) this st a q).
Proof. by apply keeps_operation. Qed.

Lemma keeps_log st (target : Address) (v : Z) (d : SetToken.call_data) (r : value) :
  keeps valid (on_set st (λ _, SetToken.invoke_effects target v d r) : tx E ()).
Proof. by apply (keeps_operation st this (SetToken.Invoke target v d r)). Qed.

#[local] Hint Resolve keeps_mint keeps_burn keeps_log : keeps.

Lemma keeps_each (call : Address → tx E ()) (l : list Address) :
  (∀ m, keeps valid (call m)) → keeps valid (each call l).
Proof. intros Hc. induction l; cbn [each]; keeping. Qed.

Lemma keeps_resolve (act : Address → Z → tx E ()) (cs : list Address) (qs : list Z) :
  (∀ c q, keeps valid (act c q)) → keeps valid (resolve act cs qs).
Proof. intros Ha. revert qs. induction cs; intros [|q qs]; cbn [resolve]; keeping. Qed.

Lemma debt_keeps_strictInvokeTransfer st (c to : Address) (q : Z) :
  keeps valid (strictInvokeTransfer (E := E) this st c to q).
Proof. unfold strictInvokeTransfer, invokeTransfer, SetToken_invoke. keeping. Qed.

Lemma keeps_transferFrom st (c from : Address) (q : Z) :
  keeps valid (transferFrom (E := E) this c from st q).
Proof. unfold transferFrom. keeping. Qed.

Lemma keeps_hooks st (q : Z) (c : Address) (b b' : bool) :
  keeps valid (_executeExternalPositionHooks (E := E) this st q c b b').
Proof.
  unfold _executeExternalPositionHooks. keeping; apply keeps_each; auto with keeps.
Qed.

#[local] Hint Resolve debt_keeps_strictInvokeTransfer keeps_transferFrom keeps_hooks : keeps.

Lemma keeps_equity msg_sender st (q : Z) to (b : bool) (cs : list Address) (qs : list Z) :
  keeps valid (_resolveEquityPositions (E := E) this msg_sender st q to b cs qs).
Proof. unfold _resolveEquityPositions. apply keeps_resolve. intros c n. keeping. Qed.

Lemma keeps_debt msg_sender st (q : Z) (b : bool) (cs : list Address) (qs : list Z) :
  keeps valid (_resolveDebtPositions (E := E) this msg_sender st q b cs qs).
Proof. unfold _resolveDebtPositions. apply keeps_resolve. intros c n. keeping. Qed.

Lemma keeps_fees st (m p : Z) : keeps valid (_resolveFees (E := E) this st m p).
Proof. unfold _resolveFees. keeping. Qed.

#[local] Hint Resolve keeps_equity keeps_debt keeps_fees : keeps.

Lemma keeps_issue msg_sender st (q : Z) to : keeps valid (issue (E := E) this msg_sender st q to).
Proof.
  apply keeps_guard. unfold _callManagerPreIssueHooks, _callModulePreIssueHooks.
  keeping. apply keeps_each. auto with keeps.
Qed.

Lemma keeps_redeem msg_sender st (q : Z) to : keeps valid (redeem (E := E) this msg_sender st q to).
Proof.
  apply keeps_guard. unfold _callModulePreRedeemHooks. keeping. apply keeps_each. auto with keeps.
Qed.

(** ** Management *)

Lemma keeps_recipient msg_sender st (a : Address) :
  keeps valid (updateFeeRecipient (E := E) this msg_sender st a).
Proof.
  intros w u w' Hv Hw. split; [|done]. unfold updateFeeRecipient in Hw. read_steps Hw.
  destruct (Hv st) as [Hs Hh]. by eapply debt_put_valid in Hw.
Qed.

Lemma keeps_issueFee msg_sender st (z : Z) :
  keeps valid (updateIssueFee (E := E) this msg_sender st z).
Proof.
  intros w u w' Hv Hw. split; [|done]. unfold updateIssueFee in Hw. read_steps Hw.
  destruct (Hv st) as [(Hi & Hr & Hs) Hh]. rename select ((_ <=? _) = true) into Hz.
  apply Z.leb_le in Hz. by eapply debt_put_valid in Hw.
Qed.

Lemma keeps_redeemFee msg_sender st (z : Z) :
  keeps valid (updateRedeemFee (E := E) this msg_sender st z).
Proof.
  intros w u w' Hv Hw. split; [|done]. unfold updateRedeemFee in Hw. read_steps Hw.
  destruct (Hv st) as [(Hi & Hr & Hs) Hh]. rename select ((_ <=? _) = true) into Hz.
  apply Z.leb_le in Hz. by eapply debt_put_valid in Hw.
Qed.

(** What the guards of a registration establish. *)
Lemma valid_initialized st (u : ()) w w' :
  _validateOnlyValidAndInitializedSet this st w = Ok (u, w') → initialized st w.
Proof.
  intros Hw. unfold _validateOnlyValidAndInitializedSet, isSetValidAndInitialized in Hw.
  apply tx_bind_ok in Hw as (v & w1 & Hv & Hr). apply requires_ok in Hr as [-> _].
  read_step Hv as ctl Hc. destruct (bool_decide _); [|by apply tx_ret_ok in Hv as [? _]].
  apply read_set_ok in Hv as (s & Es & Hv & _). exists s. split; [done|].
  symmetry in Hv. by apply bool_decide_eq_true in Hv.
Qed.

Lemma keeps_register msg_sender st :
  keeps valid (registerToIssuanceModule (E := E) this msg_sender st).
Proof.
  intros w u w' Hv Hw. split; [|done]. unfold registerToIssuanceModule in Hw. read_steps Hw.
  rename select (_validateOnlyValidAndInitializedSet _ _ _ = _) into Hi. apply valid_initialized in Hi.
  rename select (negb _ = true) into Hn. apply negb_true_iff, bool_decide_eq_false in Hn.
  eapply debt_put_valid in Hw; [done|done| |done]. apply register_valid; [apply Hv|done].
Qed.

Lemma keeps_unregister msg_sender st :
  keeps valid (unregisterFromIssuanceModule (E := E) this msg_sender st).
Proof.
  intros w u w' Hv Hw. split; [|done]. unfold unregisterFromIssuanceModule in Hw. read_steps Hw.
  rename select (_validateOnlyValidAndInitializedSet _ _ _ = _) into Hi. apply valid_initialized in Hi.
  eapply debt_put_valid in Hw; [done|done| |done]. eapply unregister_valid; [apply Hv|done].
Qed.

(** A set that is pending has no hooks yet, so that none is lost. *)
Lemma pending_no_hooks st (u : ()) w w' :
  valid w → _validateOnlyValidAndPendingSet this st w = Ok (u, w') →
  moduleIssuanceHooks (settings st w) = [].
Proof.
  intros Hv Hw. unfold _validateOnlyValidAndPendingSet, isSetPendingInitialization in Hw.
  read_steps Hw. apply requires_ok in Hw as [-> _].
  rename select (read_set _ _ _ = _) into Hp. apply read_set_ok in Hp as (s & Es & Hp & _).
  symmetry in Hp. apply bool_decide_eq_true in Hp. destruct (Hv st) as [_ Hh].
  destruct (moduleIssuanceHooks (settings st w)) as [|m l]; [done|].
  destruct Hh as (s' & Es' & Hi); [done|]. congruence.
Qed.

Lemma debt_keeps_initialize msg_sender st (max i r : Z) (recipient hook : Address) :
  keeps valid (initialize (E := E) this msg_sender st max i r recipient hook).
Proof.
  intros w u w' Hv Hw. split; [|done]. unfold initialize in Hw. read_steps Hw.
  rename select (_validateOnlyValidAndPendingSet _ _ _ = _) into Hp.
  apply pending_no_hooks in Hp; [|done]. apply tx_bind_ok in Hw as (x & w1 & Hput & Hw).
  eapply keeps_operation in Hw as [Hw _]; [done|done|]. clear Hw.
  repeat match goal with Hz : (_ <=? _) = true |- _ => apply Z.leb_le in Hz end.
  pose proof (proj1 (Hv st)) as Hs. eapply debt_put_valid in Hput; [done|done| |done].
  split; [done|]. split; [done|]. split; [constructor|]. cbn.
  rewrite (no_hooks_no_flags _ Hs Hp). intros m. set_solver.
Qed.

(** Called by anyone: the slot of a caller without hooks is cleared. *)
Lemma debt_keeps_removeModule msg_sender : keeps valid (removeModule (E := E) msg_sender).
Proof.
  intros w u w' Hv Hw. split; [|done]. unfold removeModule in Hw. read_steps Hw.
  rename select ((_ =? _)%nat = true) into Hn. apply Nat.eqb_eq, length_zero_iff_nil in Hn.
  eapply debt_put_valid in Hw; [done|done| |done]. split; [done|]. split; [done|].
  split; [constructor|]. cbn. rewrite (no_hooks_no_flags _ (proj1 (Hv msg_sender)) Hn). set_solver.
Qed.

(** ** Reachable states *)

Inductive operation :=
| Issue (_quantity : Z) (_to : Address)
| Redeem (_quantity : Z) (_to : Address)
| UpdateFeeRecipient (_newFeeRecipient : Address)
| UpdateIssueFee (_newIssueFee : Z)
| UpdateRedeemFee (_newRedeemFee : Z)
| RegisterToIssuanceModule
| UnregisterFromIssuanceModule
| Initialize (_maxManagerFee _managerIssueFee _managerRedeemFee : Z)
    (_feeRecipient _managerIssuanceHook : Address).

Definition execute msg_sender _setToken (o : operation) : tx E () :=
  match o with
  | Issue q to => issue this msg_sender _setToken q to;; mret ()
  | Redeem q to => redeem this msg_sender _setToken q to;; mret ()
  | UpdateFeeRecipient a => updateFeeRecipient this msg_sender _setToken a
  | UpdateIssueFee z => updateIssueFee this msg_sender _setToken z
  | UpdateRedeemFee z => updateRedeemFee this msg_sender _setToken z
  | RegisterToIssuanceModule => registerToIssuanceModule this msg_sender _setToken
  | UnregisterFromIssuanceModule => unregisterFromIssuanceModule this msg_sender _setToken
  | Initialize max i r recipient hook =>
      initialize this msg_sender _setToken max i r recipient hook
  end.

(** The function by which a set removes this module; of others nothing matters
    here. *)
Lemma removeModule_clears st (u : ()) w w' :
  removeModule st w = Ok (u, w') →
  sets w' = sets w ∧ moduleIssuanceHooks (settings st w) = [] ∧ moduleIssuanceHooks (settings st w') = [].
Proof.
  intros Hw. unfold removeModule in Hw. read_steps Hw. apply modify_ok in Hw as ->.
  rewrite settings_put, decide_True by done. split; [done|]. split; [|done].
  by apply length_zero_iff_nil, Nat.eqb_eq.
Qed.

#[local] Program Instance removable : IModule E := {|
  module_removeModule m _setToken :=
    if decide (m = this) then removeModule _setToken else mret ()
|}.
Next Obligation.
  intros m st w u w' Hw. cbv beta in Hw. destruct (decide (m = this)).
  - apply removeModule_clears in Hw as [-> _]. apply sets_evolve_refl.
  - apply tx_ret_ok in Hw as [_ <-]. apply sets_evolve_refl.
Qed.

(** Transactions of the module, direct calls of its [removeModule], removals by a set,
    other transactions of sets - of a removal of another module its effects, what that
    module does being steps of their own - and anything that leaves the storage and
    the sets alone. *)
Inductive reachable : World E → Prop :=
| reachable_deployed w : issuanceSettings (env w) = ∅ → reachable w
| reachable_call w w' msg_sender _setToken o :
    reachable w → execute msg_sender _setToken o w = Ok ((), w') → reachable w'
| reachable_direct w w' msg_sender :
    reachable w → removeModule msg_sender w = Ok ((), w') → reachable w'
| reachable_removed w w' msg_sender _setToken _module :
    reachable w → SetToken_removeModule msg_sender _setToken _module w = Ok ((), w') → reachable w'
| reachable_set w w' msg_sender _setToken o :
    reachable w → o ≠ SetToken.RemoveModule this →
    on_set _setToken (λ ctl, SetToken.execute ctl msg_sender o) w = Ok ((), w') → reachable w'
| reachable_elsewhere w w' :
    reachable w → issuanceSettings (env w') = issuanceSettings (env w) →
    (∀ st s, sets w !! st = Some s → sets w' !! st = Some s) → reachable w'.

Lemma debt_keeps_execute msg_sender st o : keeps valid (execute msg_sender st o).
Proof.
  destruct o; cbn [execute].
  - apply keeps_bind; [apply keeps_issue|intros _; apply keeps_reading; reading].
  - apply keeps_bind; [apply keeps_redeem|intros _; apply keeps_reading; reading].
  - apply keeps_recipient.
  - apply keeps_issueFee.
  - apply keeps_redeemFee.
  - apply keeps_register.
  - apply keeps_unregister.
  - apply debt_keeps_initialize.
Qed.

(** The removal by the set: the module forgets the set, then the set the module. *)
Lemma removal_valid msg_sender st m (u : ()) w w' :
  valid w → SetToken_removeModule msg_sender st m w = Ok (u, w') → valid w'.
Proof.
  intros Hv Hw. unfold SetToken_removeModule in Hw. read_step Hw as x Hx. clear Hx.
  apply tx_bind_ok in Hw as (y & w1 & Hm & Hw).
  apply on_set_ok in Hw as (s & s' & Es & E1 & ->). cbn in Hm.
  unfold SetToken.removeModule_effects in E1. apply result_bind_ok in E1 as (l & _ & E1).
  injection E1 as <-. destruct (decide (m = this)) as [->|Hne].
  - assert (valid w1) as Hv1 by (by eapply debt_keeps_removeModule).
    apply removeModule_clears in Hm as (_ & _ & Hno). intros st'. destruct (Hv1 st') as [Hs Hh].
    split; [exact Hs|]. intros Hn. destruct (Hh Hn) as (s0 & E0 & Hi).
    exists s0. split; [|done]. cbn. rewrite lookup_insert_ne; [done|]. intros ->. by apply Hn.
  - apply tx_ret_ok in Hm as [_ <-]. eapply (valid_elsewhere w); [done| |done].
    apply (initialized_put st s); [done|]. unfold SetToken.state_of_module. cbn.
    by rewrite lookup_insert_ne by congruence.
Qed.

Lemma debt_reachable_valid w : reachable w → valid w.
Proof.
  induction 1 as [w E1|w w' a st o _ Hv Hw|w w' a _ Hv Hw|w w' a st m _ Hv Hw|w w' a st o _ Hv Ho Hw|
    w w' _ Hv He Hs].
  - intros st. unfold settings. rewrite E1, lookup_empty. split; [apply no_settings_valid|done].
  - by apply debt_keeps_execute in Hw as [? _].
  - by apply debt_keeps_removeModule in Hw as [? _].
  - by eapply removal_valid.
  - by apply keeps_operation in Hw as [? _].
  - eapply (valid_elsewhere w); [done| |done]. intros st (s & Es & Hi). exists s. auto.
Qed.

(** C17. Whatever transactions the module and its sets go through, removals and new
    initializations included, fees stay within the maximum the manager set, a
    module is flagged exactly when the array of hooks lists it, which is once, and
    a set on which the issuance module is not initialized has no hooks; although
    neither the initialization nor the deletion of the settings clears the flags. *)
Theorem hooks_registered w _setToken (Hw : reachable w) :
  managerIssueFee (settings _setToken w) ≤ maxManagerFee (settings _setToken w) ∧
  managerRedeemFee (settings _setToken w) ≤ maxManagerFee (settings _setToken w) ∧
  NoDup (getModuleIssuanceHooks _setToken w) ∧
  (∀ m, isModuleIssuanceHook _setToken m w = contains (getModuleIssuanceHooks _setToken w) m) ∧
  (getModuleIssuanceHooks _setToken w ≠ [] → initialized _setToken w).
Proof.
  apply debt_reachable_valid in Hw. destruct (Hw _setToken) as [(Hi & Hr & Hn & Hf) Hh].
  repeat (split; [done|]). split; [|done]. intros m. apply eq_iff_eq_true.
  unfold isModuleIssuanceHook. by rewrite bool_decide_eq_true, contains_true.
Qed.
End Transactions.

(** ** Concrete instances *)

#[local] Existing Instance BasicIssuance.capped_hook.
#[local] Open Scope string_scope.

(** A set with a module that will register, and the issuance module pending. *)
Definition sample_set : SetToken.State :=
  SetToken.play [("m1", SetToken.InitializeModule); ("manager", SetToken.AddModule "m2")]
    SetToken.sample_new.

Definition sample_world : World debt_env :=
  {| controller := PositionLib.sample_controller; sets := {[ "set" := sample_set ]};
     registries := ∅; block_timestamp := 1000;
     env := (∅ : gmap Address IssuanceSettings, false, BasicIssuance.sample_bank) |}.

Definition sample_fees : operation :=
  Initialize (5 * 10 ^ 16) (10 ^ 16) (2 * 10 ^ 16) "treasury" Controller.address0.
Definition sample_initialized : World debt_env :=
  PositionLib.after sample_world (execute "m2" "manager" "set" sample_fees sample_world).
Definition sample_registered : World debt_env :=
  PositionLib.after sample_initialized
    (execute "m2" "m1" "set" RegisterToIssuanceModule sample_initialized).

Lemma valid_bank : ∀ (w : World debt_env) (b : bank), valid "m2" w → valid "m2" (set_env ((env w).1, b) w).
Proof. intros w b Hw. exact Hw. Qed.

Lemma sample_initialize_ran : is_ok (execute "m2" "manager" "set" sample_fees sample_world) = true.
Proof. vm_compute. reflexivity. Qed.

Lemma sample_register_ran :
  is_ok (execute "m2" "m1" "set" RegisterToIssuanceModule sample_initialized) = true.
Proof. vm_compute. reflexivity. Qed.

Lemma sample_registered_reachable : reachable "m2" sample_registered.
Proof.
  refine (reachable_call "m2" sample_initialized sample_registered "m1" "set" RegisterToIssuanceModule _
    (PositionLib.ran_unit _ _ sample_register_ran)).
  refine (reachable_call "m2" sample_world sample_initialized "manager" "set" sample_fees _
    (PositionLib.ran_unit _ _ sample_initialize_ran)).
  apply reachable_deployed. reflexivity.
Qed.

(** The tokens and the hooks of the concrete environment keep the invariant. *)
Lemma valid_call (caller target : Address) (v : Z) (d : SetToken.call_data) :
  keeps (valid "m2") (functionCallWithValue (E := debt_env) caller target v d).
Proof. exact (keeps_bank_call (valid "m2") valid_bank caller target v d). Qed.

Lemma valid_transfer (caller token from to : Address) (q : Z) :
  keeps (valid "m2") (safeTransferFrom (E := debt_env) caller token from to q).
Proof. exact (keeps_bank_move (valid "m2") valid_bank token from to q). Qed.

Lemma valid_capped (hook st : Address) (q : Z) (sender to : Address) :
  keeps (valid "m2") (invokePreIssueHook (E := debt_env) "m2" hook st q sender to).
Proof. apply keeps_reading, reading_requires. Qed.

Lemma valid_module_issue (m st : Address) (q : Z) :
  keeps (valid "m2") (moduleIssueHook (E := debt_env) "m2" m st q).
Proof. apply keeps_reading, reading_ret. Qed.

Lemma valid_module_redeem (m st : Address) (q : Z) :
  keeps (valid "m2") (moduleRedeemHook (E := debt_env) "m2" m st q).
Proof. apply keeps_reading, reading_ret. Qed.

Lemma valid_component_issue (m st : Address) (q : Z) (c : Address) (b : bool) :
  keeps (valid "m2") (componentIssueHook (E := debt_env) "m2" m st q c b).
Proof. apply keeps_reading, reading_ret. Qed.

Lemma valid_component_redeem (m st : Address) (q : Z) (c : Address) (b : bool) :
  keeps (valid "m2") (componentRedeemHook (E := debt_env) "m2" m st q c b).
Proof. apply keeps_reading, reading_ret. Qed.

Lemma hooks_registered_witness :
  getModuleIssuanceHooks "set" sample_registered = ["m1"] ∧
  isModuleIssuanceHook "set" "m1" sample_registered = true ∧
  thrown (removeModule "set" sample_registered) = Some (Revert "Registered modules must be removed.").
Proof.
  assert (getModuleIssuanceHooks "set" sample_registered = ["m1"]) as Hh by (vm_compute; reflexivity).
  split; [exact Hh|]. split; [|vm_compute; reflexivity].
  destruct (hooks_registered "m2" valid_call valid_transfer valid_capped valid_module_issue
    valid_module_redeem valid_component_issue valid_component_redeem sample_registered "set"
    sample_registered_reachable) as (_ & _ & _ & Hf & _).
  rewrite Hf, Hh. vm_compute. reflexivity.
Defined.
End DebtSettings.
