(* ===== verification/DebtHooks.v ===== *)
(** * The hooks of external positions

    What issuance with debt relies on when a set holds or owes components through
    other modules: their hooks for a component move that component only, and take of
    the set at most what its external units say ([LendingHooks]). *)
From Stdlib Require Import String.
From S2P Require Import Prelude JsString BigNumber Constants MathUtils SolMath.
From S2P Require Import AddressArrayUtils Script AdapterUtils Controller Erc20 SetToken.
From S2P Require Import IntegrationRegistry World Position Tokens Holdings Exchange BasicIssuance.
From S2P Require Import DebtIssuance DebtUnits.

Module DebtHooks.
Import DebtIssuanceModule DebtUnits.

(** ** Sums of shares *)

Lemma sum_floors (us : list Z) (q d : Z) :
  0 < d → sumZ ((λ u, u * q / d) <$> us) ≤ sumZ us * q / d.
Proof.
  intros Hd. induction us as [|u us IH]; [by rewrite Z.mul_0_l, Z.div_0_l by lia|].
  rewrite fmap_cons, !sumZ_cons, Z.mul_add_distr_r.
  pose proof (Z.mul_div_le (u * q) d Hd). pose proof (Z.mul_div_le (sumZ us * q) d Hd).
  assert (u * q / d + sumZ us * q / d ≤ (u * q + sumZ us * q) / d); [|lia].
  apply Z.div_le_lower_bound; lia.
Qed.

Lemma held_sum_nonneg (us : list Z) : 0 ≤ sumZ (held_part <$> us).
Proof.
  induction us as [|u us IH]; [done|]. rewrite fmap_cons, sumZ_cons. unfold held_part at 1. lia.
Qed.

(** Of the external positions of a component at most one is a debt. *)
Definition one_debtor (us : list Z) : Prop := (length (filter (λ u, (u < 0)%Z) us) ≤ 1)%nat.

Lemma no_debtor (us : list Z) (q : Z) :
  filter (λ u, (u < 0)%Z) us = [] →
  sumZ ((λ u, ceil_div (owed_part u * q) (10 ^ 18)) <$> us) = 0 ∧ sumZ (owed_part <$> us) = 0.
Proof.
  induction us as [|u us IH]; [done|]. rewrite filter_cons. destruct (decide (u < 0)); [done|].
  intros Hf. destruct (IH Hf) as [E1 E2]. rewrite !fmap_cons, !sumZ_cons, E1, E2.
  unfold owed_part. rewrite Z.max_l by lia. by rewrite Z.mul_0_l, ceil_div_0.
Qed.

Lemma sum_ceils (us : list Z) (q : Z) :
  one_debtor us →
  sumZ ((λ u, ceil_div (owed_part u * q) (10 ^ 18)) <$> us)
    = ceil_div (sumZ (owed_part <$> us) * q) (10 ^ 18).
Proof.
  unfold one_debtor. induction us as [|u us IH]; [by rewrite Z.mul_0_l, ceil_div_0|].
  rewrite filter_cons, !fmap_cons, !sumZ_cons. destruct (decide (u < 0)) as [Hu|Hu]; intros Hl.
  - destruct (no_debtor us q) as [-> ->]; [|by rewrite !Z.add_0_r].
    apply nil_length_inv. cbn in Hl. lia.
  - rewrite (IH Hl). replace (owed_part u) with 0 by (unfold owed_part; lia).
    by rewrite Z.mul_0_l, ceil_div_0.
Qed.

(** ** The hooks of one component *)
Section Hooks.
Context `{ERC20} `{SignedLib} {E : Type} `{!External E} `{!ReentrancyGuard E} `{!DebtStorage E}
  `{!IManagerIssuanceHook E} `{!IModuleIssuanceHook E}.
Context (st : Address).
Implicit Types (this c m : Address) (w : World E) (s : SetToken.State).

(** The set has lost at most [n] of a token. *)
Definition loses_at_most c (n : Z) w w' : Prop :=
  ∀ z, IERC20_balanceOf c st w = Ok z → ∃ z', IERC20_balanceOf c st w' = Ok z' ∧ z - n ≤ z'.

(** What an equity position takes for [q] tokens, and what a debt takes back. *)
Definition lent s (q : Z) c m : Z := held_part (external_unit s c m) * q / 10 ^ 18.
Definition repaid s (q : Z) c m : Z := ceil_div (owed_part (external_unit s c m) * q) (10 ^ 18).

Class LendingHooks := {
  issue_spares this m q c b : spares st [c] (componentIssueHook (E := E) this m st q c b);
  redeem_spares this m q c b : spares st [c] (componentRedeemHook (E := E) this m st q c b);
  issue_lends this m q c u w w' s :
    is_uint q → sets w !! st = Some s → c ≠ st →
    componentIssueHook this m st q c true w = Ok (u, w') → loses_at_most c (lent s q c m) w w';
  redeem_repays this m q c u w w' s :
    is_uint q → sets w !! st = Some s → c ≠ st →
    componentRedeemHook this m st q c false w = Ok (u, w') → loses_at_most c (repaid s q c m) w w';
}.

Lemma loses_trans c (n n' : Z) w w1 w' :
  loses_at_most c n w w1 → loses_at_most c n' w1 w' → loses_at_most c (n + n') w w'.
Proof.
  intros Hn Hn' z Ez. destruct (Hn z Ez) as (z1 & E1 & ?). destruct (Hn' z1 E1) as (z' & E' & ?).
  exists z'. split; [done|lia].
Qed.

(** A loop over the modules of a component. *)
Lemma each_loses c (hook : Address → tx E ()) (f : SetToken.State → Address → Z) (ms : list Address)
    (u : ()) w w' s (l : list SetToken.log_entry) :
  (∀ m, spares st [c] (hook m)) →
  (∀ m u w w' (l : list SetToken.log_entry), sets w !! st = Some (with_logs l s) →
     hook m w = Ok (u, w') → loses_at_most c (f s m) w w') →
  sets w !! st = Some (with_logs l s) → each hook ms w = Ok (u, w') →
  loses_at_most c (sumZ (f s <$> ms)) w w'.
Proof.
  intros Hsp Hf. revert w l. induction ms as [|m ms IH]; intros w l Es Hw; cbn [each] in Hw.
  { apply tx_ret_ok in Hw as [_ <-]. intros z Ez. exists z. split; [done|cbn; lia]. }
  apply tx_bind_ok in Hw as (x & w1 & Hm & Hw).
  destruct (proj1 (Hsp m _ _ _ Hm) _ Es) as (l1 & E1).
  rewrite fmap_cons, sumZ_cons. eapply loses_trans; [by eapply Hf|].
  apply (IH w1 l1); [exact E1|exact Hw].
Qed.

Lemma spares_each c (hook : Address → tx E ()) (ms : list Address) :
  (∀ m, spares st [c] (hook m)) → spares st [c] (each hook ms).
Proof.
  intros Hh. induction ms as [|m ms IH]; cbn [each]; [apply spares_reading; reading|].
  apply spares_bind; [done|by intros _].
Qed.

Context `{!LendingHooks}.

Lemma spares_hooks this (q : Z) c (b b' : bool) :
  spares st [c] (_executeExternalPositionHooks (E := E) this st q c b b').
Proof.
  unfold _executeExternalPositionHooks. apply spares_bind; [apply spares_reading; reading|intros ms].
  destruct b; apply spares_each; intros m; [apply issue_spares|apply redeem_spares].
Qed.

Lemma hooks_modules this (q : Z) c (b b' : bool) (u : ()) w w' s :
  sets w !! st = Some s → _executeExternalPositionHooks this st q c b b' w = Ok (u, w') →
  each (λ m, if b then componentIssueHook this m st q c b' else componentRedeemHook this m st q c b')
    (SetToken.getExternalPositionModules s c) w = Ok (u, w').
Proof.
  intros Es Hw. unfold _executeExternalPositionHooks in Hw.
  apply tx_bind_ok in Hw as (ms & w1 & Hms & Hw). apply read_set_ok in Hms as (s0 & E0 & -> & <-).
  rewrite Es in E0. injection E0 as <-. by destruct b.
Qed.

(** What the equity positions take in an issuance. *)
Lemma hooks_lend this (q : Z) c (u : ()) w w' s :
  is_uint q → c ≠ st → sets w !! st = Some s →
  _executeExternalPositionHooks this st q c true true w = Ok (u, w') →
  loses_at_most c (sumZ (held_part <$> external_units s c) * q / 10 ^ 18) w w'.
Proof.
  intros Hq Hc Es Hw. apply (hooks_modules _ _ _ _ _ _ _ _ s) in Hw; [|done].
  assert (sets w !! st = Some (with_logs (SetToken.logs s) s)) as El by (by rewrite with_logs_id).
  apply (each_loses c _ (λ s m, lent s q c m) _ _ _ _ s (SetToken.logs s)) in Hw;
    [|intros m; apply issue_spares| |done].
  - intros z Ez. destruct (Hw z Ez) as (z' & Ez' & Hz). exists z'. split; [done|].
    pose proof (sum_floors (held_part <$> external_units s c) q (10 ^ 18) ltac:(lia)) as B.
    assert (sumZ ((λ m, lent s q c m) <$> SetToken.getExternalPositionModules s c)
      = sumZ ((λ u, u * q / 10 ^ 18) <$> (held_part <$> external_units s c))) as Eq.
    { unfold external_units. by rewrite <- !list_fmap_compose. }
    lia.
  - intros m u0 v v' l Ev Hm. by apply (issue_lends _ _ _ _ _ _ _ (with_logs l s) Hq Ev Hc) in Hm.
Qed.

(** What the debts take back in a redemption. *)
Lemma hooks_repay this (q : Z) c (u : ()) w w' s :
  is_uint q → c ≠ st → sets w !! st = Some s → one_debtor (external_units s c) →
  _executeExternalPositionHooks this st q c false false w = Ok (u, w') →
  loses_at_most c (ceil_div (debt s c * q) (10 ^ 18)) w w'.
Proof.
  intros Hq Hc Es Hone Hw. apply (hooks_modules _ _ _ _ _ _ _ _ s) in Hw; [|done].
  assert (sets w !! st = Some (with_logs (SetToken.logs s) s)) as El by (by rewrite with_logs_id).
  apply (each_loses c _ (λ s m, repaid s q c m) _ _ _ _ s (SetToken.logs s)) in Hw;
    [|intros m; apply redeem_spares| |done].
  - unfold debt. rewrite <- (sum_ceils _ _ Hone). unfold external_units.
    rewrite <- list_fmap_compose. exact Hw.
  - intros m u0 v v' l Ev Hm. by apply (redeem_repays _ _ _ _ _ _ _ (with_logs l s) Hq Ev Hc) in Hm.
Qed.

(** ** The holdings of the issuer *)

(** Hooks that leave the holdings of an account alone. *)
Class Unbilled (a : Address) := issue_unbilled this m q c b w u w' c' :
  componentIssueHook this m st q c b w = Ok (u, w') → c' ≠ st →
  IERC20_balanceOf c' a w' = IERC20_balanceOf c' a w.

Lemma hooks_unbilled a `{!Unbilled a} this (q : Z) c (b : bool) (u : ()) w w' c' :
  _executeExternalPositionHooks this st q c true b w = Ok (u, w') → c' ≠ st →
  IERC20_balanceOf c' a w' = IERC20_balanceOf c' a w.
Proof.
  intros Hw Hc. unfold _executeExternalPositionHooks in Hw.
  apply tx_bind_ok in Hw as (ms & w1 & Hms & Hw). apply read_set_ok in Hms as (s0 & _ & _ & <-).
  revert w Hw. induction ms as [|m ms IH]; intros w Hw; cbn [each] in Hw.
  { by apply tx_ret_ok in Hw as [_ <-]. }
  apply tx_bind_ok in Hw as (x & w1 & Hm & Hw). rewrite (IH w1 Hw). by eapply issue_unbilled.
Qed.
End Hooks.
Arguments LendingHooks {_ _} E {_ _} st.
Arguments Unbilled {_ _} E {_ _} st a.

(** ** A module that lends and borrows *)

(** A pool outside: what is held there goes out to it with an issuance and comes back
    with a redemption, what is owed to it the other way round, rounded against
    the one who gains. *)
Section Pool.
Context `{ERC20} `{SignedLib} {S : Type}.
Implicit Types (w : World (module_env S)).

Definition pool : Address := "pool"%string.

Definition pool_issue (this m _setToken : Address) (q : Z) (c : Address) (isEquity : bool)
    : tx (module_env S) () :=
  s ← read_set _setToken (λ s, s);
  if isEquity then bank_move c _setToken pool (lent s q c m)
  else bank_move c pool _setToken (owed_part (external_unit s c m) * q / 10 ^ 18).

Definition pool_redeem (this m _setToken : Address) (q : Z) (c : Address) (isEquity : bool)
    : tx (module_env S) () :=
  s ← read_set _setToken (λ s, s);
  if isEquity then bank_move c pool _setToken (lent s q c m)
  else bank_move c _setToken pool (repaid s q c m).

Lemma evolves_pool_move c from to (q : Z) : evolves (bank_move (S := S * bool) c from to q).
Proof. apply evolves_same. intros w u w'. apply bank_move_sets. Qed.

#[local] Obligation Tactic := idtac.

#[export] Program Instance pool_hooks : IModuleIssuanceHook (module_env S) := {|
  moduleIssueHook _ _ _ _ := mret ();
  moduleRedeemHook _ _ _ _ := mret ();
  componentIssueHook := pool_issue;
  componentRedeemHook := pool_redeem;
|}.
Next Obligation. intros. apply evolves_ret. Qed.
Next Obligation. intros. apply evolves_ret. Qed.
Next Obligation.
  intros this m st q c b. unfold pool_issue. apply evolves_bind; [auto with evolve|intros s].
  apply evolves_if; apply evolves_pool_move.
Qed.
Next Obligation.
  intros this m st q c b. unfold pool_redeem. apply evolves_bind; [auto with evolve|intros s].
  apply evolves_if; apply evolves_pool_move.
Qed.

Lemma spares_pool_move st c from to (q : Z) :
  spares st [c] (bank_move (S := S * bool) c from to q).
Proof.
  apply bank_spares; [intros w u w'; apply bank_move_sets|]. intros w u w' c' Hw Hc.
  eapply bank_move_frame; [exact Hw|]. set_solver.
Qed.

Lemma pool_moved c from to a (q : Z) (u : ()) w w' (z : Z) :
  0 ≤ q → bank_move c from to q w = Ok (u, w') → IERC20_balanceOf c a w = Ok z →
  ∃ z', IERC20_balanceOf c a w' = Ok z' ∧ z - q ≤ z'.
Proof.
  intros Hq Hw Ez. exists (z + moved c from to q a c). split; [by eapply bank_account|].
  pose proof (moved_bounds a c from to q c Hq) as B. unfold only in B.
  rewrite !decide_True in B by done. destruct (decide _); lia.
Qed.

#[export] Instance LendingHooks_pool st : LendingHooks (module_env S) st.
Proof.
  split.
  - intros this m q c b. apply spares_bind; [apply spares_reading; reading|intros s].
    apply spares_if; apply spares_pool_move.
  - intros this m q c b. apply spares_bind; [apply spares_reading; reading|intros s].
    apply spares_if; apply spares_pool_move.
  - intros this m q c u w w' s [Hq _] Es Hc Hw z Ez. cbn in Hw. unfold pool_issue in Hw.
    read_step Hw as s0 Hs. apply read_set_ok in Hs as (s1 & E1 & -> & _). rewrite Es in E1.
    injection E1 as <-. eapply pool_moved; [|exact Hw|done]. unfold lent, held_part.
    apply Z.div_pos; nia.
  - intros this m q c u w w' s [Hq _] Es Hc Hw z Ez. cbn in Hw. unfold pool_redeem in Hw.
    read_step Hw as s0 Hs. apply read_set_ok in Hs as (s1 & E1 & -> & _). rewrite Es in E1.
    injection E1 as <-. eapply pool_moved; [|exact Hw|done]. unfold repaid, owed_part.
    pose proof (ceil_div_bounds (Z.max 0 (- external_unit s c m) * q) (10 ^ 18) ltac:(lia)). nia.
Qed.

Lemma unbilled_pool st a : a ≠ st → a ≠ pool → Unbilled (module_env S) st a.
Proof.
  intros Hst Hp.
  intros this m q c b w u w' c' Hw Hc. cbn in Hw. unfold pool_issue in Hw.
  read_step Hw as s Hs. destruct b; (eapply bank_move_others; [exact Hw|done..]).
Qed.
End Pool.
End DebtHooks.
