(* ===== verification/DebtIssuanceV2.v ===== *)
(** * Issuance with debt positions, second version

    [contracts/protocol/modules/v1/DebtIssuanceModuleV2.sol], which overrides the
    exchange of DebtIssuance.v for tokens whose balances do not add up exactly, and
    [contracts/protocol/lib/IssuanceValidationUtils.sol]. *)
From Stdlib Require Import String.
From S2P Require Import Prelude JsString BigNumber Constants MathUtils SolMath.
From S2P Require Import AddressArrayUtils Script AdapterUtils Controller Erc20 SetToken.
From S2P Require Import IntegrationRegistry World Position Tokens Holdings Exchange BasicIssuance.
From S2P Require Import DebtIssuance DebtSettings DebtUnits DebtHooks.

(** ** Collateral checks *)
Module IssuanceValidation.
Section IssuanceValidation.
Context `{ERC20} `{SignedLib} {E : Type} `{!External E}.
Implicit Types (_setToken _component : Address).

Definition validateCollateralizationPostTransferInPreHook _setToken _component
    (_initialSetSupply _componentQuantity : Z) : tx E () :=
  newComponentBalance ← balance _component _setToken;
  defaultPositionUnit ← BasicIssuance.default_unit _setToken _component;
  claimed ← lift (PreciseUnitMath.preciseMulCeil_u _initialSetSupply defaultPositionUnit);
  bound ← lift (SafeMath.add claimed _componentQuantity);
  requires (bound <=? newComponentBalance) "Invalid transfer in. Results in undercollateralization".

Definition validateCollateralizationPostTransferOut _setToken _component (_finalSetSupply : Z)
    : tx E () :=
  newComponentBalance ← balance _component _setToken;
  defaultPositionUnit ← BasicIssuance.default_unit _setToken _component;
  bound ← lift (PreciseUnitMath.preciseMulCeil_u _finalSetSupply defaultPositionUnit);
  requires (bound <=? newComponentBalance) "Invalid transfer out. Results in undercollateralization".
End IssuanceValidation.
End IssuanceValidation.

Module DebtIssuanceModuleV2.
Import DebtIssuanceModule DebtUnits DebtHooks IssuanceValidation.
Section DebtIssuanceModuleV2.
Context `{ERC20} `{SignedLib} {E : Type} `{!External E} `{!ReentrancyGuard E} `{!DebtStorage E}
  `{!IManagerIssuanceHook E} `{!IModuleIssuanceHook E}.
Implicit Types (this msg_sender _setToken _to : Address).

(** One component of the loop over equity, and of that over debt. *)
Definition resolveEquity this msg_sender _setToken (_quantity : Z) _to (_isIssue : bool)
    (_initialSetSupply _finalSetSupply : Z) (component : Address) (componentQuantity : Z) : tx E () :=
  if _isIssue then
    safeTransferFrom this component msg_sender _setToken componentQuantity;;
    validateCollateralizationPostTransferInPreHook _setToken component _initialSetSupply
      componentQuantity;;
    _executeExternalPositionHooks this _setToken _quantity component true true
  else
    _executeExternalPositionHooks this _setToken _quantity component false true;;
    invokeTransfer this _setToken component _to componentQuantity;;
    validateCollateralizationPostTransferOut _setToken component _finalSetSupply.

Definition resolveDebt this msg_sender _setToken (_quantity : Z) (_isIssue : bool)
    (_initialSetSupply _finalSetSupply : Z) (component : Address) (componentQuantity : Z) : tx E () :=
  if _isIssue then
    _executeExternalPositionHooks this _setToken _quantity component true false;;
    invokeTransfer this _setToken component msg_sender componentQuantity;;
    validateCollateralizationPostTransferOut _setToken component _finalSetSupply
  else
    safeTransferFrom this component msg_sender _setToken componentQuantity;;
    validateCollateralizationPostTransferInPreHook _setToken component _initialSetSupply
      componentQuantity;;
    _executeExternalPositionHooks this _setToken _quantity component false false.

Definition _resolveEquityPositions this msg_sender _setToken (_quantity : Z) _to (_isIssue : bool)
    (_components : list Address) (_componentEquityQuantities : list Z)
    (_initialSetSupply _finalSetSupply : Z) : tx E () :=
  resolve (resolveEquity this msg_sender _setToken _quantity _to _isIssue _initialSetSupply
             _finalSetSupply) _components _componentEquityQuantities.

Definition _resolveDebtPositions this msg_sender _setToken (_quantity : Z) (_isIssue : bool)
    (_components : list Address) (_componentDebtQuantities : list Z)
    (_initialSetSupply _finalSetSupply : Z) : tx E () :=
  resolve (resolveDebt this msg_sender _setToken _quantity _isIssue _initialSetSupply
             _finalSetSupply) _components _componentDebtQuantities.

Definition totalSupply_of _setToken : tx E Z :=
  read_set _setToken (λ s, totalSupply (SetToken.token s)).

Definition issue this msg_sender _setToken (_quantity : Z) _to : tx E (Address * Z * Z) :=
  nonReentrant (
    _validateOnlyValidAndInitializedSet this _setToken;;
    requires (0 <? _quantity) "Issue quantity must be > 0";;
    hookContract ← _callManagerPreIssueHooks this _setToken _quantity msg_sender _to;
    _callModulePreIssueHooks this _setToken _quantity;;
    initialSetSupply ← totalSupply_of _setToken;
    '(quantityWithFees, managerFee, protocolFee) ← calculateTotalFees this _setToken _quantity true;
    '(components, us) ← _calculateRequiredComponentIssuanceUnits _setToken quantityWithFees true;
    finalSetSupply ← lift (SafeMath.add initialSetSupply quantityWithFees);
    _resolveEquityPositions this msg_sender _setToken quantityWithFees _to true components us.*1
      initialSetSupply finalSetSupply;;
    _resolveDebtPositions this msg_sender _setToken quantityWithFees true components us.*2
      initialSetSupply finalSetSupply;;
    _resolveFees this _setToken managerFee protocolFee;;
    BasicIssuance.mint this _setToken _to _quantity;;
    mret (hookContract, managerFee, protocolFee)).

Definition redeem this msg_sender _setToken (_quantity : Z) _to : tx E (Z * Z) :=
  nonReentrant (
    _validateOnlyValidAndInitializedSet this _setToken;;
    requires (0 <? _quantity) "Redeem quantity must be > 0";;
    _callModulePreRedeemHooks this _setToken _quantity;;
    initialSetSupply ← totalSupply_of _setToken;
    BasicIssuance.burn this _setToken msg_sender _quantity;;
    '(quantityNetFees, managerFee, protocolFee) ← calculateTotalFees this _setToken _quantity false;
    '(components, us) ← _calculateRequiredComponentIssuanceUnits _setToken quantityNetFees false;
    finalSetSupply ← lift (SafeMath.sub initialSetSupply quantityNetFees);
    _resolveDebtPositions this msg_sender _setToken quantityNetFees false components us.*2
      initialSetSupply finalSetSupply;;
    _resolveEquityPositions this msg_sender _setToken quantityNetFees _to false components us.*1
      initialSetSupply finalSetSupply;;
    _resolveFees this _setToken managerFee protocolFee;;
    mret (managerFee, protocolFee)).




(** ** What a loop over components leaves *)
Context (_setToken : Address) `{!Isolated E _setToken}.
Implicit Types (c : Address) (w : World E) (s : SetToken.State).

Lemma default_unit_ok c (u : Z) w w' s :
  sets w !! _setToken = Some s → SetToken.consistent s →
  BasicIssuance.default_unit _setToken c w = Ok (u, w') →
  w' = w ∧ u = PositionLib.real_unit s c ∧ is_uint u.
Proof.
  intros Es Hs Hu. unfold BasicIssuance.default_unit in Hu.
  apply tx_bind_ok in Hu as (i & w2 & Hi & Hu). apply view_set_ok in Hi as (s0 & E0 & Hi & <-).
  rewrite Es in E0. injection E0 as <-. apply PositionLib.getDefault_real in Hi as [-> Hi]; [|done].
  apply lift_ok in Hu as [Hu <-]. by apply toUint256_inv in Hu as (-> & _ & Hu).
Qed.

(** A check on a balance, and what it establishes. *)
Lemma transferIn_ok c (supply q : Z) (u : ()) w w' s :
  sets w !! _setToken = Some s → SetToken.consistent s → is_uint supply → is_uint q →
  validateCollateralizationPostTransferInPreHook _setToken c supply q w = Ok (u, w') →
  w' = w ∧ ∃ z, IERC20_balanceOf c _setToken w = Ok z ∧
    ceil_div (supply * PositionLib.real_unit s c) (10 ^ 18) + q ≤ z.
Proof.
  intros Es Hs Hsu Hq Hw. unfold validateCollateralizationPostTransferInPreHook in Hw.
  apply tx_bind_ok in Hw as (z & w1 & Hz & Hw). apply PositionLib.balance_ok in Hz as (-> & Hz & _).
  apply tx_bind_ok in Hw as (n & w1 & Hn & Hw).
  apply (default_unit_ok _ _ _ _ s) in Hn as (-> & -> & Hn); [|done..].
  apply tx_bind_ok in Hw as (k & w1 & Hk & Hw). apply lift_ok in Hk as [Hk <-].
  apply preciseMulCeil_u_inv in Hk as [-> Hk]; [|done..].
  apply tx_bind_ok in Hw as (b & w1 & Hb & Hw). apply lift_ok in Hb as [Hb <-].
  apply safe_add_inv in Hb as [-> _]; [|done..]. apply requires_ok in Hw as [Hle <-].
  apply Z.leb_le in Hle. split; [done|]. by exists z.
Qed.

Lemma transferOut_ok c (supply : Z) (u : ()) w w' s :
  sets w !! _setToken = Some s → SetToken.consistent s → is_uint supply →
  validateCollateralizationPostTransferOut _setToken c supply w = Ok (u, w') →
  w' = w ∧ ∃ z, IERC20_balanceOf c _setToken w = Ok z ∧
    ceil_div (supply * PositionLib.real_unit s c) (10 ^ 18) ≤ z.
Proof.
  intros Es Hs Hsu Hw. unfold validateCollateralizationPostTransferOut in Hw.
  apply tx_bind_ok in Hw as (z & w1 & Hz & Hw). apply PositionLib.balance_ok in Hz as (-> & Hz & _).
  apply tx_bind_ok in Hw as (n & w1 & Hn & Hw).
  apply (default_unit_ok _ _ _ _ s) in Hn as (-> & -> & Hn); [|done..].
  apply tx_bind_ok in Hw as (k & w1 & Hk & Hw). apply lift_ok in Hk as [Hk <-].
  apply preciseMulCeil_u_inv in Hk as [-> Hk]; [|done..]. apply requires_ok in Hw as [Hle <-].
  apply Z.leb_le in Hle. split; [done|]. by exists z.
Qed.

Definition at_least (n : Z) c w : Prop := ∃ z, IERC20_balanceOf c _setToken w = Ok z ∧ n ≤ z.

(** What holds of a component after its turn lasts through the turns of others. *)
Lemma at_least_later X (n : Z) c w w' :
  left_alone _setToken X w w' → c ∉ X → c ≠ _setToken → at_least n c w → at_least n c w'.
Proof.
  intros [_ Hb] Hc Hne (z & Ez & Hz). destruct (Hb c z Hc Hne Ez) as (z' & Ez' & ?).
  exists z'. split; [done|lia].
Qed.

Lemma at_least_loses (n k : Z) c w w' :
  at_least n c w → loses_at_most _setToken c k w w' → at_least (n - k) c w'.
Proof.
  intros (z & Ez & Hz) Hl. destruct (Hl z Ez) as (z' & Ez' & ?). exists z'. split; [done|lia].
Qed.

Lemma resolve_ok (act : Address → Z → tx E ()) (f bound : Address → Z) s (cs : list Address) (u : ())
    w w' (l : list SetToken.log_entry) :
  (∀ c w w' (l : list SetToken.log_entry) (u : ()), c ∈ cs → 0 < f c →
     sets w !! _setToken = Some (with_logs l s) → act c (f c) w = Ok (u, w') →
     left_alone _setToken [c] w w' ∧ at_least (bound c) c w') →
  NoDup cs → (_setToken ∉ cs) → sets w !! _setToken = Some (with_logs l s) →
  resolve act cs (f <$> cs) w = Ok (u, w') →
  left_alone _setToken cs w w' ∧
  ∀ c, c ∈ cs → (0 < f c → at_least (bound c) c w') ∧
    (¬ 0 < f c → ∀ n, at_least n c w → at_least n c w').
Proof.
  revert w l. induction cs as [|c cs IH]; intros w l Hact Hnd Hout Es Hw;
    cbn [resolve fmap list_fmap] in Hw.
  { apply tx_ret_ok in Hw as [_ <-]. split; [apply left_alone_refl|].
    intros c Hc. by apply elem_of_nil in Hc. }
  apply NoDup_cons in Hnd as [Hc Hnd]. apply not_elem_of_cons in Hout as [Hne Hout].
  apply tx_bind_ok in Hw as (x & w1 & Hx & Hw).
  assert (left_alone _setToken [c] w w1 ∧ (0 < f c → at_least (bound c) c w1) ∧
    (¬ 0 < f c → w1 = w)) as (Hf1 & Hb1 & Hs1).
  { destruct (Z.ltb_spec 0 (f c)).
    - destruct (Hact c w w1 l x (list_elem_of_here _ _) ltac:(done) Es Hx). by split; [|split].
    - apply tx_ret_ok in Hx as [_ <-]. split; [apply left_alone_refl|]. by split; [lia|]. }
  destruct (proj1 Hf1 _ Es) as (l1 & E1).
  apply (IH w1 l1) in Hw as [Hf2 Hb2];
    [|intros; eapply Hact; [by apply list_elem_of_further|done..]|done|done|exact E1].
  split; [eapply left_alone_trans; (eapply left_alone_mono; [|done]); set_solver|].
  intros a [->|Ha]%elem_of_cons.
  - split; [intros Hp; by eapply at_least_later, Hb1|]. intros Hp n. rewrite (Hs1 Hp) in Hf2.
    by eapply at_least_later.
  - assert (a ≠ c) by (by intros ->). assert (a ≠ _setToken) by (by intros ->).
    destruct (Hb2 a Ha) as [Hp Hn]. split; [done|]. intros Hz n Hal. apply Hn; [done|].
    eapply at_least_later; [exact Hf1|set_solver|done|done].
Qed.

(** Transfers in and out, and the set in between. *)
Lemma spares_safeTransfer this from c (n : Z) :
  spares _setToken [c] (safeTransferFrom (E := E) this c from _setToken n).
Proof.
  intros w u w' Hw. split; [intros s Es; by eapply transfer_quiet|]. intros a z Ha Hne Ez. exists z.
  split; [|lia]. rewrite (transfer_frame _ _ _ _ _ _ _ _ _ Hw); [done|set_solver|done].
Qed.

Lemma spares_invokeTransfer this c to (n : Z) :
  spares _setToken [c] (invokeTransfer (E := E) this _setToken c to n).
Proof.
  intros w u w' Hw. split.
  - intros s Es. by eapply (quiet_invokeTransfer _setToken (call_quiet (E := E))).
  - intros a z Ha Hne Ez. exists z. split; [|lia].
    rewrite (invokeTransfer_frame _ _ _ _ _ _ _ _ _ Hw); [done|set_solver|done].
Qed.

Context `{!LendingHooks E _setToken}.

(** Tokens that come in are checked for, then the hooks take their share. *)
Lemma transferred_in this from (q init n k : Z) c (t : tx E ()) (l : list SetToken.log_entry) (u : ())
    w w' s :
  sets w !! _setToken = Some (with_logs l s) → SetToken.consistent s → is_uint init → is_uint n →
  spares _setToken [c] t →
  (∀ w1 (u : ()) l1, sets w1 !! _setToken = Some (with_logs l1 s) → t w1 = Ok (u, w') →
     loses_at_most _setToken c k w1 w') →
  (safeTransferFrom this c from _setToken n;;
   validateCollateralizationPostTransferInPreHook _setToken c init n;; t) w = Ok (u, w') →
  left_alone _setToken [c] w w' ∧
  at_least (ceil_div (init * PositionLib.real_unit s c) (10 ^ 18) + n - k) c w'.
Proof.
  intros Es Hs Hi Hn Ht Hk Hw. apply tx_bind_ok in Hw as (x & w1 & Hx & Hw).
  apply spares_safeTransfer in Hx. destruct (proj1 Hx _ Es) as (l1 & E1).
  apply tx_bind_ok in Hw as (y & w2 & Hv & Hw).
  destruct (transferIn_ok c init n y w1 w2 _ E1 Hs Hi Hn Hv) as [Ew Hb]. subst w2.
  split; [eapply left_alone_trans; [exact Hx|by eapply Ht]|].
  eapply at_least_loses; [exact Hb|]. by eapply (Hk w1 u l1).
Qed.

(** What is left when tokens have gone out is checked. *)
Lemma transferred_out this to (final n : Z) c (t : tx E ()) (l : list SetToken.log_entry) (u : ())
    w w' s :
  sets w !! _setToken = Some (with_logs l s) → SetToken.consistent s → is_uint final →
  spares _setToken [c] t →
  (t;; invokeTransfer this _setToken c to n;;
   validateCollateralizationPostTransferOut _setToken c final) w = Ok (u, w') →
  left_alone _setToken [c] w w' ∧
  at_least (ceil_div (final * PositionLib.real_unit s c) (10 ^ 18)) c w'.
Proof.
  intros Es Hs Hi Ht Hw. apply tx_bind_ok in Hw as (x & w1 & Hx & Hw). apply Ht in Hx.
  destruct (proj1 Hx _ Es) as (l1 & E1). apply tx_bind_ok in Hw as (y & w2 & Hy & Hw).
  apply spares_invokeTransfer in Hy. destruct (proj1 Hy _ E1) as (l2 & E2).
  destruct (transferOut_ok c final u w2 w' _ E2 Hs Hi Hw) as [Ew Hb]. subst w'.
  split; [by eapply left_alone_trans|exact Hb].
Qed.

(** ** What the two loops of an issuance leave *)

Definition issue_bound s (init q : Z) c : Z :=
  ceil_div (init * PositionLib.real_unit s c) (10 ^ 18) + (amounts s q true c).1
    - sumZ (held_part <$> external_units s c) * q / 10 ^ 18.

Lemma issue_bound_covers s (init q z : Z) c :
  0 ≤ q → issue_bound s init q c ≤ z → PositionLib.real_unit s c * (init + q) ≤ z * 10 ^ 18.
Proof.
  unfold issue_bound, amounts, equity. cbn [fst]. set (u := PositionLib.real_unit s c).
  set (h := sumZ _). intros Hq Hz.
  pose proof (ceil_div_bounds (init * u) (10 ^ 18) ltac:(lia)).
  pose proof (ceil_div_bounds ((u + h) * q) (10 ^ 18) ltac:(lia)).
  pose proof (Z.mul_div_le (h * q) (10 ^ 18) ltac:(lia)). nia.
Qed.

Lemma resolve_issue this msg_sender (q init : Z) to (u u' : ()) w w1 w2 s :
  sets w !! _setToken = Some s → SetToken.consistent s →
  (_setToken ∉ SetToken.getComponents s) → is_uint init → is_uint q → is_uint (init + q) → 0 < q →
  let cs := SetToken.getComponents s in
  let ns := amounts s q true <$> cs in
  Forall (λ n, is_uint n.1 ∧ is_uint n.2) ns →
  _resolveEquityPositions this msg_sender _setToken q to true cs ns.*1 init (init + q) w = Ok (u, w1) →
  _resolveDebtPositions this msg_sender _setToken q true cs ns.*2 init (init + q) w1 = Ok (u', w2) →
  (∃ l, sets w2 !! _setToken = Some (with_logs l s)) ∧
  ∀ c, c ∈ cs → 0 < PositionLib.real_unit s c →
    ∃ z, IERC20_balanceOf c _setToken w2 = Ok z ∧
      PositionLib.real_unit s c * (init + q) ≤ z * 10 ^ 18.
Proof.
  intros Es Hs Hout Hi Hq Hf Hpos cs ns Hns He Hd. unfold ns in Hns.
  rewrite Forall_fmap, Forall_forall in Hns.
  assert (∀ c, c ∈ cs → c ≠ _setToken) as Hne by (by intros c Hc ->).
  assert (∀ c, c ∈ cs → is_uint (amounts s q true c).1) as Hn1.
  { intros c Hc. by apply Hns. }
  unfold _resolveEquityPositions, ns in He. rewrite <- list_fmap_compose in He.
  apply (resolve_ok _ _ (issue_bound s init q) s _ _ _ _ (SetToken.logs s)) in He as [Hf1 Hb1];
    [| |apply Hs|done|by rewrite with_logs_id].
  2: { intros c v v' l x Hc Hp El Hx. unfold resolveEquity in Hx.
       eapply (transferred_in _ _ q); [done|done|done|by apply Hn1| | |exact Hx].
       - by apply (spares_hooks _setToken).
       - intros v1 x1 l1 E1. apply (hooks_lend _ _ _ _ _ _ _ (with_logs l1 s) Hq); auto. }
  destruct (proj1 Hf1 _ Es) as (l1 & E1).
  unfold _resolveDebtPositions, ns in Hd. rewrite <- list_fmap_compose in Hd.
  apply (resolve_ok _ _ (λ c, ceil_div ((init + q) * PositionLib.real_unit s c) (10 ^ 18)) s _ _ _ _ l1)
    in Hd as [Hf2 Hb2]; [| |apply Hs|done|done].
  2: { intros c v v' l x Hc Hp El Hx. unfold resolveDebt in Hx. eapply transferred_out; [done..| |exact Hx].
       by apply (spares_hooks _setToken). }
  split; [by destruct (proj1 Hf2 _ E1) as (l2 & E2); exists l2|]. intros c Hc Hu.
  destruct (Hb1 c Hc) as [Hp1 _], (Hb2 c Hc) as [Hp2 Hn2].
  destruct (decide (0 < (snd ∘ amounts s q true) c)) as [Hd2|Hd2].
  - destruct (Hp2 Hd2) as (z & Ez & Hz). exists z. split; [done|].
    pose proof (ceil_div_bounds ((init + q) * PositionLib.real_unit s c) (10 ^ 18) ltac:(lia)). lia.
  - destruct (Hn2 Hd2 (issue_bound s init q c)) as (z & Ez & Hz).
    + apply Hp1. unfold compose, amounts, equity. cbn [fst].
      pose proof (held_sum_nonneg (external_units s c)).
      pose proof (ceil_div_bounds ((PositionLib.real_unit s c + sumZ (held_part <$> external_units s c)) * q)
        (10 ^ 18) ltac:(lia)). nia.
    + exists z. split; [done|]. apply issue_bound_covers; [lia|done].
Qed.

(** ** Issuing *)

(** The hooks at the start of an issuance. *)
Definition issue_hooks this (q : Z) (caller to : Address) : tx E Address :=
  hookContract ← _callManagerPreIssueHooks this _setToken q caller to;
  _callModulePreIssueHooks this _setToken q;;
  mret hookContract.

(** Words in the storage of the module and of the controller. *)
Definition fee_words this (isIssue : bool) w : Prop :=
  is_uint (rate_of isIssue (settings _setToken w)) ∧ is_uint (split_of this w).

Lemma minted_le (m p : Z) : 0 ≤ m → 0 ≤ p → 0 ≤ minted m p ≤ m + p.
Proof. unfold minted. destruct (Z.ltb_spec 0 m); lia. Qed.

(** What follows the hooks of an issuance. *)
Lemma issue_core this msg_sender (q total m p : Z) to (h : Address) (u1 u2 u3 u4 : ())
    (cs : list Address) (ns : list (Z * Z)) w w1 w2 w3 w4 s :
  let init := totalSupply (SetToken.token s) in
  sets w !! _setToken = Some s → SetToken.consistent s →
  (_setToken ∉ SetToken.getComponents s) → is_uint q → 0 < q → is_uint (init + total) →
  fee_words this true w →
  calculateTotalFees this _setToken q true w = Ok ((total, m, p), w) →
  _calculateRequiredComponentIssuanceUnits _setToken total true w = Ok ((cs, ns), w) →
  _resolveEquityPositions this msg_sender _setToken total to true cs ns.*1 init (init + total) w = Ok (u1, w1) →
  _resolveDebtPositions this msg_sender _setToken total true cs ns.*2 init (init + total) w1 = Ok (u2, w2) →
  _resolveFees this _setToken m p w2 = Ok (u3, w3) →
  BasicIssuance.mint this _setToken to q w3 = Ok (u4, w4) →
  m + p = rate_of true (settings _setToken w) * q / 10 ^ 18 ∧
  ∃ t l, sets w4 !! _setToken = Some (SetToken.set_token t (with_logs l s)) ∧
    totalSupply t = init + q + minted m p ∧
    ∀ c, c ∈ SetToken.getComponents s → 0 < PositionLib.real_unit s c →
      ∃ z, IERC20_balanceOf c _setToken w4 = Ok z ∧ PositionLib.real_unit s c * totalSupply t ≤ z * 10 ^ 18.
Proof.
  intros init Es Hs Hout Hq Hpos Hfin [Hr Hsp] Hfees Hunits He Hd Hf Hm.
  assert (is_uint init) as Hi by apply Hs.
  apply total_fees in Hfees as (_ & Hsum & _ & Etot & Htot & Hmu & Hpu); [|done..].
  split; [done|]. apply (required_units _ _ _ _ _ _ _ s) in Hunits as (_ & -> & -> & _ & Hns); [|done..].
  unfold is_uint in Hmu, Hpu. pose proof (minted_le m p ltac:(lia) ltac:(lia)).
  destruct (resolve_issue this msg_sender total init to u1 u2 w w1 w2 s Es Hs Hout Hi Htot Hfin
    ltac:(lia) Hns He Hd) as ((l & E1) & Hb).
  apply (resolveFees_ok _ _ _ _ _ _ _ (with_logs l s)) in Hf as (t1 & -> & Ht1 & Htu1); [|done..].
  apply (set_mint_ok _ _ _ _ _ _ _ (SetToken.set_token t1 (with_logs l s))) in Hm as (t & -> & Ht & _ & _);
    [|apply put_set_at|done|done].
  exists t, l. split; [apply put_set_at|].
  change (totalSupply t1 = init + minted m p) in Ht1.
  change (totalSupply t = totalSupply t1 + q) in Ht. split; [lia|].
  intros c Hc Hu. assert (c ≠ _setToken) as Hne by (intros ->; done).
  destruct (Hb c Hc Hu) as (z & Ez & Hz). exists z. split; [by rewrite !balance_put|]. nia.
Qed.

(** The steps of an issuance after its hooks. *)
Lemma issue_steps this msg_sender (q m p : Z) to (h : Address) w w' :
  issue this msg_sender _setToken q to w = Ok ((h, m, p), w') →
  ∃ e w1 w2 w3 w4 w5 total fin cs ns, guard_enter (env w) = Ok e ∧
    issue_hooks this q msg_sender to (set_env e w) = Ok (h, w1) ∧ 0 < q ∧
    (∀ s, sets w1 !! _setToken = Some s →
      let init := totalSupply (SetToken.token s) in
      calculateTotalFees this _setToken q true w1 = Ok ((total, m, p), w1) ∧
      _calculateRequiredComponentIssuanceUnits _setToken total true w1 = Ok ((cs, ns), w1) ∧
      SafeMath.add init total = Ok fin ∧
      _resolveEquityPositions this msg_sender _setToken total to true cs ns.*1 init fin w1
        = Ok ((), w2) ∧
      _resolveDebtPositions this msg_sender _setToken total true cs ns.*2 init fin w2
        = Ok ((), w3) ∧
      _resolveFees this _setToken m p w3 = Ok ((), w4) ∧
      BasicIssuance.mint this _setToken to q w4 = Ok ((), w5)) ∧
    w' = set_env (guard_leave (env w5)) w5.
Proof.
  intros Hw. apply nonReentrant_ok in Hw as (e & w9 & He & Hw & ->).
  read_step Hw as x Hv. clear Hv. read_step Hw as y Hpos. apply requires_ok in Hpos as [Hpos _].
  apply Z.ltb_lt in Hpos. apply tx_bind_ok in Hw as (h' & w0 & Hh & Hw).
  apply tx_bind_ok in Hw as (x' & w1 & Hmh & Hw).
  read_step Hw as init Hi. read_step Hw as fees Hf. destruct fees as [[total m'] p'].
  read_step Hw as units Hu. destruct units as [cs ns]. read_step Hw as fin Hfin. apply lift_ok in Hfin as [Hfin _].
  apply tx_bind_ok in Hw as ([] & w2 & Hx1 & Hw). apply tx_bind_ok in Hw as ([] & w3 & Hx2 & Hw).
  apply tx_bind_ok in Hw as ([] & w4 & Hx3 & Hw). apply tx_bind_ok in Hw as ([] & w5 & Hx4 & Hw).
  apply tx_ret_ok in Hw as [[= -> -> ->] <-].
  exists e, w1, w2, w3, w4, w5, total, fin, cs, ns. split; [done|]. split.
  { unfold issue_hooks. rewrite (tx_bind_run _ _ _ _ _ Hh), (tx_bind_run _ _ _ _ _ Hmh). done. }
  split; [done|]. split; [|done]. intros s Es. cbv zeta.
  apply read_set_ok in Hi as (s0 & E0 & -> & _). rewrite Es in E0. injection E0 as <-.
  done.
Qed.

(** C3. An issuance of the second version collateralizes the set, whatever it held
    before, whatever it holds or owes through other modules and however many tokens
    the transfers really moved: if the hooks of the external positions move their
    component only, and take of it at most what the positions hold for the tokens
    issued, then the balance of every component with a unit covers, after it, what
    all holders can claim, the new tokens and the minted fees included.  The set must
    not be a component of itself; the fee rates stored are words. *)
Theorem issue_collateralizes this msg_sender (q m p : Z) to (h : Address) w w' (Hq : is_uint q)
    (Hw : issue this msg_sender _setToken q to w = Ok ((h, m, p), w')) :
  ∃ e w1, guard_enter (env w) = Ok e ∧
    issue_hooks this q msg_sender to (set_env e w) = Ok (h, w1) ∧
    ∀ s, sets w1 !! _setToken = Some s → SetToken.consistent s →
      (_setToken ∉ SetToken.getComponents s) → fee_words this true w1 →
      m + p = rate_of true (settings _setToken w1) * q / 10 ^ 18 ∧
      ∃ t l, sets w' !! _setToken = Some (SetToken.set_token t (with_logs l s)) ∧
        totalSupply t = totalSupply (SetToken.token s) + q + minted m p ∧
        ∀ c, c ∈ SetToken.getComponents s → 0 < PositionLib.real_unit s c →
          ∃ z, IERC20_balanceOf c _setToken w' = Ok z ∧
            PositionLib.real_unit s c * totalSupply t ≤ z * 10 ^ 18.
Proof.
  apply issue_steps in Hw as (e & w1 & w2 & w3 & w4 & w5 & total & fin & cs & ns & He & Hh & Hpos & Hx & ->).
  exists e, w1. split; [done|]. split; [done|]. intros s Es Hs Hout Hfw.
  destruct (Hx s Es) as (Hf & Hu & Hfin & H1' & H2' & H3' & H4'). pose proof Hfw as [Hr Hsp].
  pose proof (total_fees _ _ _ _ _ _ _ _ _ Hq Hr Hsp Hf) as (_ & _ & _ & _ & Htot & _).
  apply safe_add_inv in Hfin as [-> Hfin]; [|apply Hs|done].
  destruct (issue_core this msg_sender q total m p to h () () () () cs ns w1 w2 w3 w4 w5 s Es Hs Hout
    Hq Hpos Hfin Hfw Hf Hu H1' H2' H3' H4') as (Hsum & t & l & El & Ht & Hc).
  split; [done|]. exists t, l. split; [exact El|]. split; [done|]. intros c Hcin Hcu.
  destruct (Hc c Hcin Hcu) as (z & Ez & Hz). exists z. split; [by rewrite balance_leave|done].
Qed.

(** ** Redeeming *)

(** A holding that covers [supply] tokens. *)
Definition covers_supply s c (supply : Z) w : Prop :=
  ∃ z, IERC20_balanceOf c _setToken w = Ok z ∧ PositionLib.real_unit s c * supply ≤ z * 10 ^ 18.

Lemma checked_covers s c (supply : Z) w :
  at_least (ceil_div (supply * PositionLib.real_unit s c) (10 ^ 18)) c w → covers_supply s c supply w.
Proof.
  intros (z & Ez & Hz). exists z. split; [done|].
  pose proof (ceil_div_bounds (supply * PositionLib.real_unit s c) (10 ^ 18) ltac:(lia)). lia.
Qed.

(** Fewer tokens claim less, also if the unit of the component is negative. *)
Lemma covers_fewer s c (n n' : Z) w : 0 ≤ n' ≤ n → covers_supply s c n w → covers_supply s c n' w.
Proof.
  intros Hn (z & Ez & Hz). exists z. split; [done|]. apply balance_word in Ez as [Hz0 _].
  destruct (Z.le_gt_cases 0 (PositionLib.real_unit s c)); nia.
Qed.

Lemma covers_later s c (n : Z) w w' :
  (∀ k, at_least k c w → at_least k c w') → covers_supply s c n w → covers_supply s c n w'.
Proof.
  intros Hk (z & Ez & Hz). destruct (Hk z) as (z' & Ez' & ?); [by exists z|].
  exists z'. split; [done|lia].
Qed.

(** At most one external position of each component is a debt. *)
Definition single_debtors s : Prop :=
  ∀ c, c ∈ SetToken.getComponents s → one_debtor (external_units s c).

Lemma resolve_redeem this msg_sender (q init final : Z) to (u u' : ()) w w1 w2 s :
  sets w !! _setToken = Some s → SetToken.consistent s → single_debtors s →
  (_setToken ∉ SetToken.getComponents s) → is_uint init → is_uint final → is_uint q → final ≤ init →
  let cs := SetToken.getComponents s in
  let ns := amounts s q false <$> cs in
  Forall (λ n, is_uint n.1 ∧ is_uint n.2) ns →
  (∀ c, c ∈ cs → covers_supply s c init w) →
  _resolveDebtPositions this msg_sender _setToken q false cs ns.*2 init final w = Ok (u, w1) →
  _resolveEquityPositions this msg_sender _setToken q to false cs ns.*1 init final w1 = Ok (u', w2) →
  (∃ l, sets w2 !! _setToken = Some (with_logs l s)) ∧ ∀ c, c ∈ cs → covers_supply s c final w2.
Proof.
  intros Es Hs Hone Hout Hi Hf Hq Hle cs ns Hns Hback Hd He. unfold ns in Hns.
  rewrite Forall_fmap, Forall_forall in Hns.
  assert (∀ c, c ∈ cs → c ≠ _setToken) as Hne by (by intros c Hc ->).
  unfold _resolveDebtPositions, ns in Hd. rewrite <- list_fmap_compose in Hd.
  apply (resolve_ok _ _ (λ c, ceil_div (init * PositionLib.real_unit s c) (10 ^ 18)) s _ _ _ _
    (SetToken.logs s)) in Hd as [Hf1 Hb1]; [| |apply Hs|done|by rewrite with_logs_id].
  2: { intros c v v' l x Hc Hp El Hx. unfold resolveDebt in Hx.
       replace (ceil_div (init * PositionLib.real_unit s c) (10 ^ 18)) with
         (ceil_div (init * PositionLib.real_unit s c) (10 ^ 18) + (snd ∘ amounts s q false) c -
            ceil_div (debt s c * q) (10 ^ 18)) by (unfold compose; cbn; lia).
       eapply (transferred_in _ _ q); [done|done|done|by apply Hns| | |exact Hx].
       - by apply (spares_hooks _setToken).
       - intros v1 x1 l1 E1. apply (hooks_repay _ _ _ _ _ _ _ (with_logs l1 s) Hq); auto.
         by apply Hone. }
  destruct (proj1 Hf1 _ Es) as (l1 & E1).
  unfold _resolveEquityPositions, ns in He. rewrite <- list_fmap_compose in He.
  apply (resolve_ok _ _ (λ c, ceil_div (final * PositionLib.real_unit s c) (10 ^ 18)) s _ _ _ _ l1)
    in He as [Hf2 Hb2]; [| |apply Hs|done|done].
  2: { intros c v v' l x Hc Hp El Hx. unfold resolveEquity in Hx.
       eapply transferred_out; [done..| |exact Hx]. by apply (spares_hooks _setToken). }
  split; [by destruct (proj1 Hf2 _ E1) as (l2 & E2); exists l2|]. intros c Hc.
  destruct (Hb1 c Hc) as [Hp1 Hn1], (Hb2 c Hc) as [Hp2 Hn2].
  destruct (decide (0 < (fst ∘ amounts s q false) c)) as [Hd2|Hd2];
    [by apply checked_covers, Hp2|].
  apply (covers_later _ _ _ w1); [by apply Hn2|]. apply (covers_fewer _ _ init); [unfold is_uint in *; lia|].
  destruct (decide (0 < (snd ∘ amounts s q false) c)) as [Hd1|Hd1];
    [by apply checked_covers, Hp1|]. apply (covers_later _ _ _ w); [by apply Hn1|by apply Hback].
Qed.

Lemma collateralized_leave w :
  collateralized _setToken w → collateralized _setToken (set_env (guard_leave (env w)) w).
Proof.
  intros (s & Es & Hs & Hout & Hb). exists s. repeat (split; [done|]). intros c Hc.
  rewrite balance_leave. by apply Hb.
Qed.

Lemma redeem_core this msg_sender (q total m p : Z) to (u1 u2 u3 : ()) (cs : list Address)
    (ns : list (Z * Z)) (t0 : ledger) w w1 w2 w3 s :
  let init := totalSupply (SetToken.token s) in
  sets w !! _setToken = Some (SetToken.set_token t0 s) → SetToken.consistent s → single_debtors s →
  (_setToken ∉ SetToken.getComponents s) → is_uint q → fee_words this false w →
  backed _setToken w s init → totalSupply t0 = init - q → is_uint (totalSupply t0) → is_uint (init - total) →
  calculateTotalFees this _setToken q false w = Ok ((total, m, p), w) →
  _calculateRequiredComponentIssuanceUnits _setToken total false w = Ok ((cs, ns), w) →
  _resolveDebtPositions this msg_sender _setToken total false cs ns.*2 init (init - total) w = Ok (u1, w1) →
  _resolveEquityPositions this msg_sender _setToken total to false cs ns.*1 init (init - total) w1 = Ok (u2, w2) →
  _resolveFees this _setToken m p w2 = Ok (u3, w3) →
  collateralized _setToken w3.
Proof.
  intros init Es Hs Hp Hout Hq [Hr Hsp] Hback Ht0 Ht0u Hfin Hfees Hunits Hd He Hf.
  apply total_fees in Hfees as (_ & Hsum & _ & Etot & Htot & Hmu & Hpu); [|done..].
  assert (SetToken.consistent (SetToken.set_token t0 s)) as Hs0 by (by apply set_token_consistent').
  apply (required_units _ _ _ _ _ _ _ (SetToken.set_token t0 s)) in Hunits as (_ & -> & -> & _ & Hns); [|done..].
  destruct (resolve_redeem this msg_sender total init (init - total) to u1 u2 w w1 w2
    (SetToken.set_token t0 s) Es Hs0 Hp Hout ltac:(apply Hs) Hfin Htot ltac:(unfold is_uint in *; lia) Hns
    Hback Hd He) as ((l & E1) & Hb).
  apply (resolveFees_ok _ _ _ _ _ _ _ (with_logs l (SetToken.set_token t0 s))) in Hf
    as (t1 & -> & Ht1 & Htu1); [|done..].
  change (totalSupply t1 = totalSupply t0 + minted m p) in Ht1.
  unfold is_uint in Hmu, Hpu. pose proof (minted_le m p ltac:(lia) ltac:(lia)).
  eexists. split; [apply put_set_at|]. split; [by apply set_token_consistent'|]. split; [done|].
  intros c Hc. change (c ∈ SetToken.getComponents s) in Hc. assert (c ≠ _setToken) as Hne by (intros ->; done).
  rewrite balance_put by done.
  change (covers_supply s c (totalSupply t1) w2). apply (covers_fewer _ _ (init - total)).
  - unfold is_uint in *. lia.
  - exact (Hb c Hc).
Qed.

(** C19. A redemption of the second version keeps a set collateralized, whatever it
    holds or owes through other modules and however many tokens the transfers really
    move: if it still is after the hooks before the redemption, the hooks of the external
    positions move their component only and take of it at most the debt of the tokens
    redeemed, and no component is owed to more than one module, then its balances
    cover afterwards what the remaining holders and the fees can claim.  The set must
    not be a component of itself; the fee rates stored are words. *)
Theorem redeem_keeps_collateral this msg_sender (q m p : Z) to w w' (Hq : is_uint q)
    (Hw : redeem this msg_sender _setToken q to w = Ok ((m, p), w')) :
  ∃ e w1, guard_enter (env w) = Ok e ∧
    _callModulePreRedeemHooks this _setToken q (set_env e w) = Ok ((), w1) ∧
    (collateralized _setToken w1 →
     (∀ s, sets w1 !! _setToken = Some s → single_debtors s) → fee_words this false w1 →
     m + p = rate_of false (settings _setToken w1) * q / 10 ^ 18 ∧ collateralized _setToken w').
Proof.
  apply nonReentrant_ok in Hw as (e & w9 & He & Hw & ->). exists e.
  read_step Hw as x Hv. clear Hv. read_step Hw as y Hpos. clear Hpos.
  apply tx_bind_ok in Hw as ([] & w1 & Hh & Hw). exists w1. split; [done|]. split; [done|].
  read_step Hw as init Hi. intros (s & Es & Hs & Hout & Hback) Hp Hfw. specialize (Hp s Es).
  apply read_set_ok in Hi as (s0 & E0 & -> & _). rewrite Es in E0. injection E0 as <-.
  apply tx_bind_ok in Hw as (u0 & w2 & Hb & Hw).
  apply (set_burn_ok _ _ _ _ _ _ _ s) in Hb as (t0 & -> & Ht0 & Htu0 & _); [|done|done|apply Hs].
  read_step Hw as fees Hf. destruct fees as [[total m'] p'].
  read_step Hw as units Hu. destruct units as [cs ns]. read_step Hw as fin Hfin. apply lift_ok in Hfin as [Hfin _].
  apply tx_bind_ok in Hw as (u1 & w2 & H1 & Hw). apply tx_bind_ok in Hw as (u2 & w3 & H2 & Hw).
  apply tx_bind_ok in Hw as (u3 & w4 & H3 & Hw). apply tx_ret_ok in Hw as [[= -> ->] <-].
  pose proof Hfw as [Hr Hsp]. set (v := put_set _setToken (SetToken.set_token t0 s) w1) in *.
  pose proof (total_fees this _setToken q total m p false v v Hq Hr Hsp Hf) as (_ & Hsum & _ & _ & Htot & _).
  apply safe_sub_inv in Hfin as (-> & _ & Hfin); [|apply Hs|done].
  split; [exact Hsum|]. apply collateralized_leave.
  refine (redeem_core this msg_sender q total m p to u1 u2 u3 cs ns t0 v w2 w3 w4 s (put_set_at _ _ _) Hs Hp
    Hout Hq Hfw _ Ht0 Htu0 Hfin Hf Hu H1 H2 H3).
  intros c Hc. destruct (Hback c Hc) as (z & Ez & Hz). exists z. split; [|done].
  unfold v. rewrite balance_put; [done|]. intros ->. done.
Qed.

(** ** The preview *)







(** ** What an issuance takes of its caller *)
Section Payer.
Context (payer : Address) (Hpayer : payer ≠ _setToken) `{!Accounting E _setToken payer}
  `{!Unbilled E _setToken payer}.











End Payer.
End DebtIssuanceModuleV2.

(** ** Concrete instances *)

#[local] Existing Instance BasicIssuance.capped_hook.
#[local] Open Scope string_scope.

Definition with_split (z : Z) : Controller.State :=
  Controller.state_of (Controller.execute Controller.owner_only "owner" (Controller.AddFee "m1" 0 z)
                         PositionLib.sample_controller).

Definition sample_settings (redeemFee : Z) : IssuanceSettings :=
  {| maxManagerFee := 2 * 10 ^ 18; managerIssueFee := 10 ^ 16; managerRedeemFee := redeemFee;
     feeRecipient := "treasury"; managerIssuanceHook := "cap"; moduleIssuanceHooks := ["m1"];
     isModuleHook := {[ "m1" ]} |}.

(** One token in circulation, and a set that holds less of [b] than it should. *)
Definition sample_world (split redeemFee b : Z) : World debt_env :=
  {| controller := with_split split; sets := {[ "set" := SetToken.sample_fee ]};
     registries := ∅; block_timestamp := 1000;
     env := ({[ "set" := sample_settings redeemFee ]}, false,
             <[("b", "set") := b]> BasicIssuance.sample_bank) |}.

Definition no_amounts : Address * Z * Z := (Controller.address0, 0, 0)%Z.

(** Half a token, with one percent for the manager and a tenth of it for the
    protocol. *)
Definition sample_issue (split b : Z) : result (Address * Z * Z * World debt_env) :=
  issue "m1" "issuer" "set" (5 * 10 ^ 17) "holder" (sample_world split 0 b).
Definition sample_issued (split b : Z) : World debt_env :=
  PositionLib.after (sample_world split 0 b) (sample_issue split b).

Definition sample_redeem (fee : Z) : result (Z * Z * World debt_env) :=
  redeem "m1" "x" "set" (5 * 10 ^ 17) "heir" (sample_world (10 ^ 17) fee 3).
Definition sample_redeemed (fee : Z) : World debt_env :=
  PositionLib.after (sample_world (10 ^ 17) fee 3) (sample_redeem fee).

Definition supply_in (w : World debt_env) : option Z :=
  (λ s, totalSupply (SetToken.token s)) <$> sets w !! ("set" : Address).

Lemma sample_values :
  PositionLib.returned no_amounts (sample_issue (10 ^ 17) 3) = ("cap", 45 * 10 ^ 14, 5 * 10 ^ 14)%Z ∧
  supply_in (sample_issued (10 ^ 17) 3) = Some (1505 * 10 ^ 15)%Z ∧
  PositionLib.returned (0, 0)%Z (sample_redeem (10 ^ 16)) = (45 * 10 ^ 14, 5 * 10 ^ 14)%Z ∧
  supply_in (sample_redeemed (10 ^ 16)) = Some (505 * 10 ^ 15)%Z.
Proof. repeat split; vm_compute; reflexivity. Qed.

(** A set that lends one component and owes another. *)
Definition levered_transactions : list (Address * SetToken.operation) :=
  SetToken.sample_transactions ++
  [("m1", SetToken.AddExternalPositionModule "a" "m1");
   ("m1", SetToken.EditExternalPositionUnit "a" "m1" (5 * 10 ^ 17)%Z);
   ("m1", SetToken.AddExternalPositionModule "b" "m1");
   ("m1", SetToken.EditExternalPositionUnit "b" "m1" (-7)%Z)].

Definition levered_set : SetToken.State := SetToken.play levered_transactions SetToken.sample_new.

Definition levered_world : World debt_env :=
  {| controller := with_split 0; sets := {[ "set" := levered_set ]}; registries := ∅;
     block_timestamp := 1000; env := env (sample_world 0 0 3) |}.

Lemma levered_consistent : SetToken.consistent levered_set.
Proof.
  apply (SetToken.steps_consistent SetToken.sample_new); [apply SetToken.sample_new_consistent|].
  apply (SetToken.play_steps levered_transactions); [|vm_compute; reflexivity].
  apply SetToken.sample_typed.
  do 4 (apply Forall_cons; split; [split; [discriminate|cbn [SetToken.well_typed fst snd]; (exact I || word)]|]).
  constructor.
Qed.

Definition levered_units (isIssue : bool) : result (list Address * list (Z * Z) * World debt_env) :=
  _calculateRequiredComponentIssuanceUnits "set" (10 ^ 17) isIssue levered_world.

Lemma levered_ran (isIssue : bool) : is_ok (levered_units isIssue) = true →
  ∃ cs ns, PositionLib.returned ([], []) (levered_units isIssue) = (cs, ns) ∧
    _calculateRequiredComponentIssuanceUnits "set" (10 ^ 17) isIssue levered_world =
      Ok ((cs, ns), PositionLib.after levered_world (levered_units isIssue)).
Proof.
  intros Hok. exists (PositionLib.returned ([], []) (levered_units isIssue)).1,
    (PositionLib.returned ([], []) (levered_units isIssue)).2.
  rewrite <- surjective_pairing. split; [done|].
  exact (PositionLib.ran ([], []) levered_world (levered_units isIssue) Hok).
Qed.

Lemma required_units_witness :
  (∃ cs ns, PositionLib.returned ([], []) (levered_units true) = (cs, ns) ∧
     cs = SetToken.getComponents levered_set ∧ ns = amounts levered_set (10 ^ 17) true <$> cs) ∧
  amounts levered_set (10 ^ 17) true <$> ["a"; "b"] = [(14 * 10 ^ 16, 0); (1, 0)]%Z ∧
  amounts levered_set (10 ^ 17) false <$> ["a"; "b"] = [(14 * 10 ^ 16 - 1, 0); (0, 1)]%Z.
Proof.
  split; [|split; vm_compute; reflexivity].
  assert (is_ok (levered_units true) = true) as Hok by (vm_compute; reflexivity).
  destruct (levered_ran true Hok) as (cs & ns & Er & Hran). exists cs, ns. split; [exact Er|].
  destruct (required_units "set" (10 ^ 17) true cs ns levered_world _ levered_set eq_refl
    levered_consistent ltac:(word) Hran) as (_ & Ec & En & _).
  split; [exact Ec|exact En].
Defined.

Definition sample_total (isIssue : bool) : result (Z * Z * Z * World debt_env) :=
  calculateTotalFees "m1" "set" (5 * 10 ^ 17) isIssue (sample_world (10 ^ 17) 0 3).

Lemma sample_total_ran : is_ok (sample_total true) = true →
  ∃ total m p, PositionLib.returned (0, 0, 0)%Z (sample_total true) = (total, m, p) ∧
    calculateTotalFees "m1" "set" (5 * 10 ^ 17) true (sample_world (10 ^ 17) 0 3) =
      Ok ((total, m, p), PositionLib.after (sample_world (10 ^ 17) 0 3) (sample_total true)).
Proof.
  intros Hok. pose proof (PositionLib.ran (0, 0, 0)%Z (sample_world (10 ^ 17) 0 3) (sample_total true) Hok) as Hran.
  destruct (PositionLib.returned (0, 0, 0)%Z (sample_total true)) as [[total m] p].
  exists total, m, p. split; [done|exact Hran].
Qed.

Lemma sample_words (isIssue : bool) (b : Z) : fee_words "set" "m1" isIssue (sample_world (10 ^ 17) 0 b).
Proof. destruct isIssue; split; apply (bool_decide_unpack _); vm_compute; exact I. Qed.

Lemma total_fees_witness :
  ∃ total m p, PositionLib.returned (0, 0, 0)%Z (sample_total true) = (total, m, p) ∧
    (m + p = 5 * 10 ^ 15)%Z ∧ (total = 5 * 10 ^ 17 + (m + p))%Z.
Proof.
  assert (is_ok (sample_total true) = true) as Hok by (vm_compute; reflexivity).
  destruct (sample_total_ran Hok) as (total & m & p & Er & Hran). exists total, m, p. split; [exact Er|].
  destruct (sample_words true 3) as [Hr Hs].
  destruct (total_fees "m1" "set" (5 * 10 ^ 17) total m p true (sample_world (10 ^ 17) 0 3) _
    ltac:(word) Hr Hs Hran) as (_ & Hsum & _ & Htot & _).
  split; [rewrite Hsum; vm_compute; reflexivity|exact Htot].
Defined.

(** The hooks of the concrete environment only read. *)
Lemma reading_each {E} (call : Address → tx E ()) (l : list Address) :
  (∀ m, reading (call m)) → reading (each call l).
Proof. intros Hc. induction l; cbn [each]; reading. Qed.

Lemma sample_hooks_read (q : Z) (caller to : Address) :
  reading (issue_hooks (E := debt_env) "set" "m1" q caller to).
Proof.
  unfold issue_hooks, _callManagerPreIssueHooks, _callModulePreIssueHooks. cbn [invokePreIssueHook].
  unfold BasicIssuance.capped_hook, BasicIssuance.capped. reading; apply reading_each; intros m; apply reading_ret.
Qed.

Lemma sample_redeem_hooks_read (q : Z) :
  reading (_callModulePreRedeemHooks (E := debt_env) "m1" "set" q).
Proof. unfold _callModulePreRedeemHooks. reading. apply reading_each. intros m. apply reading_ret. Qed.

(** The set that lends and owes, and the pool it does it with. *)
Definition pool_world (redeemFee b : Z) : World debt_env :=
  {| controller := with_split (10 ^ 17); sets := {[ "set" := levered_set ]}; registries := ∅;
     block_timestamp := 1000;
     env := ({[ "set" := sample_settings redeemFee ]}, false,
             <[("b", "set") := b]> (<[("a", pool) := (10 ^ 18)%Z]> (<[("b", pool) := 100%Z]>
               (<[("b", "x") := 100%Z]> BasicIssuance.sample_bank)))) |}.

Definition pool_issue_run (b : Z) : result (Address * Z * Z * World debt_env) :=
  issue "m1" "issuer" "set" (5 * 10 ^ 17) "holder" (pool_world 0 b).
Definition pool_issued (b : Z) : World debt_env :=
  PositionLib.after (pool_world 0 b) (pool_issue_run b).

Definition pool_redeem_run : result (Z * Z * World debt_env) :=
  redeem "m1" "x" "set" (5 * 10 ^ 17) "heir" (pool_world (10 ^ 16) 3).
Definition pool_redeemed : World debt_env :=
  PositionLib.after (pool_world (10 ^ 16) 3) pool_redeem_run.

Lemma pool_issue_ran : ∃ h m p,
  issue "m1" "issuer" "set" (5 * 10 ^ 17) "holder" (pool_world 0 2) = Ok ((h, m, p), pool_issued 2) ∧
  PositionLib.returned no_amounts (pool_issue_run 2) = (h, m, p).
Proof.
  assert (is_ok (pool_issue_run 2) = true) as Hok by (vm_compute; reflexivity).
  pose proof (PositionLib.ran no_amounts (pool_world 0 2) (pool_issue_run 2) Hok) as Hran.
  destruct (PositionLib.returned no_amounts (pool_issue_run 2)) as [[h m] p].
  exists h, m, p. split; [exact Hran|done].
Qed.

Lemma levered_outside : "set" ∉ SetToken.getComponents levered_set.
Proof. intros Hin%contains_true. vm_compute in Hin. discriminate. Qed.

Lemma pool_words (isIssue : bool) (fee b : Z) :
  is_uint fee → fee_words "set" "m1" isIssue (pool_world fee b).
Proof.
  intros Hf. destruct isIssue; (split; [|apply (bool_decide_unpack _); vm_compute; exact I]).
  - apply (bool_decide_unpack _). vm_compute. exact I.
  - exact Hf.
Qed.

(** A component of which half a unit is lent, and one that is owed for; the set has not a
    token more than is claimed. *)
Lemma issue_collateralizes_witness :
  (∃ t l, sets (pool_issued 2) !! ("set" : Address) =
      Some (SetToken.set_token t (with_logs l levered_set)) ∧
    ∃ z, IERC20_balanceOf "a" "set" (pool_issued 2) = Ok z ∧
      (PositionLib.real_unit levered_set "a" * totalSupply t ≤ z * 10 ^ 18)%Z) ∧
  external_units levered_set "a" = [5 * 10 ^ 17 - 1]%Z ∧
  thrown (pool_issue_run 1) =
    Some (Revert "Invalid transfer in. Results in undercollateralization").
Proof.
  split; [|split; vm_compute; reflexivity].
  destruct pool_issue_ran as (h & m & p & Hran & _).
  destruct (issue_collateralizes "set" "m1" "issuer" (5 * 10 ^ 17) m p "holder" h
    (pool_world 0 2) (pool_issued 2) ltac:(word) Hran) as (e & w1 & He & Hh & Hc).
  apply sample_hooks_read in Hh. injection He as <-. subst w1.
  destruct (Hc levered_set eq_refl levered_consistent levered_outside
    (pool_words true 0 2 ltac:(word))) as (_ & t & l & El & _ & Hz).
  exists t, l. split; [exact El|]. apply Hz.
  - refine (proj1 (contains_true (SetToken.getComponents levered_set) "a") _). vm_compute. reflexivity.
  - vm_compute. reflexivity.
Defined.

Lemma pool_redeem_ran : ∃ m p,
  redeem "m1" "x" "set" (5 * 10 ^ 17) "heir" (pool_world (10 ^ 16) 3) = Ok ((m, p), pool_redeemed).
Proof.
  assert (is_ok pool_redeem_run = true) as Hok by (vm_compute; reflexivity).
  pose proof (PositionLib.ran (0, 0)%Z (pool_world (10 ^ 16) 3) pool_redeem_run Hok) as Hran.
  destruct (PositionLib.returned (0, 0)%Z pool_redeem_run) as [m p]. by exists m, p.
Qed.

Lemma pool_backed (fee b : Z) :
  backed_check "set" (pool_world fee b) levered_set (totalSupply (SetToken.token levered_set)) = true →
  collateralized "set" (pool_world fee b).
Proof.
  intros Hb. exists levered_set. split; [reflexivity|]. split; [apply levered_consistent|].
  split; [apply levered_outside|by apply backed_check_ok].
Qed.

Lemma levered_debtors : single_debtors levered_set.
Proof.
  assert (forallb (λ c, (length (filter (λ u, (u < 0)%Z) (external_units levered_set c)) <=? 1)%nat)
    (SetToken.getComponents levered_set) = true) as Hb by (vm_compute; reflexivity).
  intros c Hc. rewrite forallb_forall in Hb. specialize (Hb c (proj1 (list_elem_of_In _ _) Hc)).
  by apply Nat.leb_le in Hb.
Qed.

Lemma redeem_keeps_collateral_witness : collateralized "set" pool_redeemed.
Proof.
  destruct pool_redeem_ran as (m & p & Hran).
  destruct (redeem_keeps_collateral "set" "m1" "x" (5 * 10 ^ 17) m p "heir" (pool_world (10 ^ 16) 3)
    pool_redeemed ltac:(word) Hran) as (e & w1 & He & Hh & Hc).
  apply sample_redeem_hooks_read in Hh. injection He as <-. subst w1.
  apply Hc; [|intros s Es|apply (pool_words false (10 ^ 16) 3); word].
  - apply (pool_backed (10 ^ 16) 3). vm_compute. reflexivity.
  - assert (Some levered_set = Some s) as Ee by (rewrite <- Es; reflexivity).
    apply (inj Some) in Ee. rewrite <- Ee. exact levered_debtors.
Defined.





(** ** Two faults *)

(** When the protocol takes the whole fee, the issuer pays it and nobody gets it:
    the collateral of 5050 tokens is taken for 5000. *)
Lemma fee_lost :
  PositionLib.returned no_amounts (sample_issue (10 ^ 18) 3) = ("cap", 0, 5 * 10 ^ 15)%Z ∧
  supply_in (sample_issued (10 ^ 18) 3) = Some (15 * 10 ^ 17)%Z ∧
  held (env (sample_issued (10 ^ 18) 3)).2 "a" "set" = (10 ^ 18 + 9 * 505 * 10 ^ 14)%Z.
Proof. repeat split; vm_compute; reflexivity. Qed.

(** No bound keeps the fee of a redemption below the whole, and above it nothing can
    be redeemed. *)
Lemma redemption_blocked :
  thrown (sample_redeem (11 * 10 ^ 17)) = Some (Revert "SafeMath: subtraction overflow") ∧
  (managerRedeemFee (sample_settings (11 * 10 ^ 17)) ≤ maxManagerFee (sample_settings (11 * 10 ^ 17)))%Z.
Proof. split; vm_compute; [reflexivity|discriminate]. Qed.
End DebtIssuanceModuleV2.
