(* ===== verification/PriceOracle.v ===== *)
(** * The oracle of prices

    [contracts/protocol/PriceOracle.sol]: the price of one asset in another, from an
    oracle of the pair or of its inverse, through the master quote asset, or from an
    adapter. *)
From Stdlib Require Import String.
From S2P Require Import Prelude JsString BigNumber Constants MathUtils SolMath.
From S2P Require Import AddressArrayUtils Script AdapterUtils Controller.

(** What the contract asks others in a state of the chain: [interfaces/IOracle.sol]
    and [interfaces/IOracleAdapter.sol], by address. *)
Class PriceSources (P : Type) := {
  IOracle_read : Address → P → result Z;
  IOracleAdapter_getPrice : Address → Address → Address → P → result (bool * Z);
  read_word o p z : IOracle_read o p = Ok z → is_uint z;
  adapter_word a x y p b z : IOracleAdapter_getPrice a x y p = Ok (b, z) → is_uint z;
}.

Module PriceOracle.

Inductive log_entry :=
| PairAdded (_assetOne _assetTwo _oracle : Address)
| PairRemoved (_assetOne _assetTwo _oracle : Address)
| PairEdited (_assetOne _assetTwo _newOracle : Address)
| AdapterAdded (_adapter : Address)
| AdapterRemoved (_adapter : Address)
| MasterQuoteAssetEdited (_newMasterQuote : Address).

Record State := {
  controller : Address;
  oracles : gmap (Address * Address) Address;
  masterQuoteAsset : Address;
  adapters : list Address;
  logs : list log_entry;
}.

Implicit Types (o : State) (caller _assetOne _assetTwo _oracle _adapter a : Address).

Definition emit (e : log_entry) o : State :=
  {| controller := controller o; oracles := oracles o; masterQuoteAsset := masterQuoteAsset o;
     adapters := adapters o; logs := logs o ++ [e] |}.
Definition set_oracles (m : gmap (Address * Address) Address) o : State :=
  {| controller := controller o; oracles := m; masterQuoteAsset := masterQuoteAsset o;
     adapters := adapters o; logs := logs o |}.
Definition set_adapters (l : list Address) o : State :=
  {| controller := controller o; oracles := oracles o; masterQuoteAsset := masterQuoteAsset o;
     adapters := l; logs := logs o |}.
Definition set_master a o : State :=
  {| controller := controller o; oracles := oracles o; masterQuoteAsset := a;
     adapters := adapters o; logs := logs o |}.

(** An unwritten slot reads as the zero address. *)
Definition oracle_of o _assetOne _assetTwo : Address :=
  default Controller.address0 (oracles o !! (_assetOne, _assetTwo)).

(** The loop of the constructor; the lengths were compared before. *)
Fixpoint map_pairs (_assetOnes _assetTwos _oracles : list Address)
    (m : gmap (Address * Address) Address) : gmap (Address * Address) Address :=
  match _assetOnes, _assetTwos, _oracles with
  | x :: xs, y :: ys, z :: zs => map_pairs xs ys zs (<[(x, y) := z]> m)
  | _, _, _ => m
  end.

Definition constructor (_controller _masterQuoteAsset : Address)
    (_adapters _assetOnes _assetTwos _oracles : list Address) : result State :=
  require ((length _assetOnes =? length _assetTwos)%nat
           && (length _assetTwos =? length _oracles)%nat) "Array lengths do not match.";;
  Ok {| controller := _controller; oracles := map_pairs _assetOnes _assetTwos _oracles ∅;
        masterQuoteAsset := _masterQuoteAsset; adapters := _adapters; logs := [] |}.

(** ** Prices *)
Section Prices.
Context {P : Type} `{!PriceSources P} (p : P).

Definition _calculateInversePrice (_inverseOracle : Address) : result Z :=
  inverseValue ← IOracle_read _inverseOracle p;
  PreciseUnitMath.preciseDiv_u PreciseUnitMath.preciseUnit inverseValue.

Definition _getDirectOrInversePrice o _assetOne _assetTwo : result (bool * Z) :=
  let directOracle := oracle_of o _assetOne _assetTwo in
  let hasDirectOracle := negb (bool_decide (directOracle = Controller.address0)) in
  if hasDirectOracle then price ← IOracle_read directOracle p; Ok (true, price)
  else
    let inverseOracle := oracle_of o _assetTwo _assetOne in
    let hasInverseOracle := negb (bool_decide (inverseOracle = Controller.address0)) in
    if hasInverseOracle then price ← _calculateInversePrice inverseOracle; Ok (true, price)
    else Ok (false, 0).

Definition _getPriceFromMasterQuote o _assetOne _assetTwo : result (bool * Z) :=
  '(priceFoundOne, assetOnePrice) ← _getDirectOrInversePrice o _assetOne (masterQuoteAsset o);
  '(priceFoundTwo, assetTwoPrice) ← _getDirectOrInversePrice o _assetTwo (masterQuoteAsset o);
  if priceFoundOne && priceFoundTwo then
    price ← PreciseUnitMath.preciseDiv_u assetOnePrice assetTwoPrice; Ok (true, price)
  else Ok (false, 0).

Fixpoint adapters_loop _assetOne _assetTwo (l : list Address) : result (bool * Z) :=
  match l with
  | [] => Ok (false, 0)
  | adapter :: l' =>
      '(priceFound, price) ← IOracleAdapter_getPrice adapter _assetOne _assetTwo p;
      if priceFound : bool then Ok (priceFound, price) else adapters_loop _assetOne _assetTwo l'
  end.

Definition _getPriceFromAdapters o _assetOne _assetTwo : result (bool * Z) :=
  adapters_loop _assetOne _assetTwo (adapters o).

Definition getPrice (ctl : Controller.State) caller o _assetOne _assetTwo : result Z :=
  require (Controller.isSystemContract (controller o) ctl caller)
    "PriceOracle.getPrice: Caller must be system contract.";;
  '(priceFound, price) ← _getDirectOrInversePrice o _assetOne _assetTwo;
  '(priceFound, price) ← (if negb priceFound then _getPriceFromMasterQuote o _assetOne _assetTwo
                          else Ok (priceFound, price));
  '(priceFound, price) ← (if negb priceFound then _getPriceFromAdapters o _assetOne _assetTwo
                          else Ok (priceFound, price));
  require priceFound "PriceOracle.getPrice: Price not found.";;
  Ok price.
End Prices.

(** ** Governance *)
Section Governance.
Context (onlyOwner : Address → result ()).

Definition addPair caller _assetOne _assetTwo _oracle o : result State :=
  onlyOwner caller;;
  require (bool_decide (oracle_of o _assetOne _assetTwo = Controller.address0))
    "PriceOracle.addPair: Pair already exists.";;
  Ok (emit (PairAdded _assetOne _assetTwo _oracle)
        (set_oracles (<[(_assetOne, _assetTwo) := _oracle]> (oracles o)) o)).

Definition editPair caller _assetOne _assetTwo _oracle o : result State :=
  onlyOwner caller;;
  require (negb (bool_decide (oracle_of o _assetOne _assetTwo = Controller.address0)))
    "PriceOracle.editPair: Pair doesn't exist.";;
  Ok (emit (PairEdited _assetOne _assetTwo _oracle)
        (set_oracles (<[(_assetOne, _assetTwo) := _oracle]> (oracles o)) o)).

Definition removePair caller _assetOne _assetTwo o : result State :=
  onlyOwner caller;;
  require (negb (bool_decide (oracle_of o _assetOne _assetTwo = Controller.address0)))
    "PriceOracle.removePair: Pair doesn't exist.";;
  let oldOracle := oracle_of o _assetOne _assetTwo in
  Ok (emit (PairRemoved _assetOne _assetTwo oldOracle)
        (set_oracles (base.delete (_assetOne, _assetTwo) (oracles o)) o)).

Definition addAdapter caller _adapter o : result State :=
  onlyOwner caller;;
  require (negb (contains (adapters o) _adapter)) "PriceOracle.addAdapter: Adapter already exists.";;
  Ok (emit (AdapterAdded _adapter) (set_adapters (adapters o ++ [_adapter]) o)).

Definition removeAdapter caller _adapter o : result State :=
  onlyOwner caller;;
  require (contains (adapters o) _adapter) "PriceOracle.removeAdapter: Adapter does not exist.";;
  l ← remove (adapters o) _adapter;
  Ok (emit (AdapterRemoved _adapter) (set_adapters l o)).

Definition editMasterQuoteAsset caller (_newMasterQuoteAsset : Address) o : result State :=
  onlyOwner caller;;
  Ok (emit (MasterQuoteAssetEdited _newMasterQuoteAsset) (set_master _newMasterQuoteAsset o)).

Definition getAdapters o : list Address := adapters o.

(** A transaction of any caller. *)
Inductive operation :=
| AddPair (_assetOne _assetTwo _oracle : Address)
| EditPair (_assetOne _assetTwo _oracle : Address)
| RemovePair (_assetOne _assetTwo : Address)
| AddAdapter (_adapter : Address)
| RemoveAdapter (_adapter : Address)
| EditMasterQuoteAsset (_newMasterQuoteAsset : Address).

Definition execute caller (t : operation) o : result State :=
  match t with
  | AddPair x y z => addPair caller x y z o
  | EditPair x y z => editPair caller x y z o
  | RemovePair x y => removePair caller x y o
  | AddAdapter x => addAdapter caller x o
  | RemoveAdapter x => removeAdapter caller x o
  | EditMasterQuoteAsset x => editMasterQuoteAsset caller x o
  end.

Inductive reachable : State → Prop :=
| reachable_constructor c m l xs ys zs o :
    NoDup l → constructor c m l xs ys zs = Ok o → reachable o
| reachable_step caller t o o' : reachable o → execute caller t o = Ok o' → reachable o'.
End Governance.

(** ** Where a price comes from *)
Section Resolution.
Context {P : Type} `{!PriceSources P} (p : P).
Implicit Types (x y : Address) (z v : Z).

(** No oracle prices one in the other. *)
Definition unlisted o x y : Prop :=
  oracle_of o x y = Controller.address0 ∧ oracle_of o y x = Controller.address0.

(** The price an oracle of the pair, or else of the inverse pair, gives. *)
Inductive quoted o x y : Z → Prop :=
| quoted_direct z :
    oracle_of o x y ≠ Controller.address0 → IOracle_read (oracle_of o x y) p = Ok z →
    quoted o x y z
| quoted_inverse v :
    oracle_of o x y = Controller.address0 → oracle_of o y x ≠ Controller.address0 →
    IOracle_read (oracle_of o y x) p = Ok v → v ≠ 0 → quoted o x y (10 ^ 36 / v).

Definition asked o x y : Prop := unlisted o x y ∨ ∃ z, quoted o x y z.

(** The price the contract gives: of the pair; else of both assets in the master
    quote asset; else of the first adapter that has one. *)
Inductive priced o x y : Z → Prop :=
| priced_pair z : quoted o x y z → priced o x y z
| priced_master z z' :
    unlisted o x y → quoted o x (masterQuoteAsset o) z → quoted o y (masterQuoteAsset o) z' →
    z' ≠ 0 → z * 10 ^ 18 ≤ UINT_MAX → priced o x y (z * 10 ^ 18 / z')
| priced_adapter l a r z :
    unlisted o x y → asked o x (masterQuoteAsset o) → asked o y (masterQuoteAsset o) →
    unlisted o x (masterQuoteAsset o) ∨ unlisted o y (masterQuoteAsset o) →
    adapters o = l ++ a :: r →
    Forall (λ b, ∃ c, IOracleAdapter_getPrice b x y p = Ok (false, c)) l →
    IOracleAdapter_getPrice a x y p = Ok (true, z) → priced o x y z.

Lemma quoted_word o x y z : quoted o x y z → is_uint z.
Proof.
  intros [? ? Hr|v ? ? Hr Hv]; [by eapply read_word|]. apply read_word in Hr. unfold is_uint in *.
  pose proof (Z.div_le_upper_bound (10 ^ 36) v UINT_MAX). pose proof (Z.div_pos (10 ^ 36) v).
  unfold UINT_MAX in *. nia.
Qed.

Lemma inverse_ok (a : Address) z :
  _calculateInversePrice p a = Ok z ↔ ∃ v, IOracle_read a p = Ok v ∧ v ≠ 0 ∧ z = 10 ^ 36 / v.
Proof.
  unfold _calculateInversePrice. rewrite result_bind_ok.
  assert (PreciseUnitMath.preciseUnit * 10 ^ 18 = 10 ^ 36) as Eu by reflexivity.
  split; intros (v & Hr & E); exists v; pose proof (read_word _ _ _ Hr) as Hv.
  - apply preciseDiv_u_iff in E as (? & _ & ->); [|apply precise_unit_uint|exact Hv].
    rewrite Eu. split; [exact Hr|]. split; [lia|reflexivity].
  - split; [exact Hr|]. apply preciseDiv_u_iff; [apply precise_unit_uint|exact Hv|].
    destruct E as [? ->]. rewrite Eu. unfold is_uint, UINT_MAX in *. split; [lia|]. split; [lia|reflexivity].
Qed.

Lemma direct_ok o x y (b : bool) z :
  _getDirectOrInversePrice p o x y = Ok (b, z) ↔
    (b = true ∧ quoted o x y z) ∨ (b = false ∧ z = 0 ∧ unlisted o x y).
Proof.
  unfold _getDirectOrInversePrice. cbv zeta.
  destruct (decide (oracle_of o x y = Controller.address0)) as [Ed|Ed];
    [rewrite bool_decide_true by done|rewrite bool_decide_false by done]; cbn [negb].
  - destruct (decide (oracle_of o y x = Controller.address0)) as [Ei|Ei];
      [rewrite bool_decide_true by done|rewrite bool_decide_false by done]; cbn [negb].
    + split; [intros [= <- <-]; right; by repeat split|]. by intros [[_ []]|(-> & -> & _)].
    + rewrite result_bind_ok. setoid_rewrite inverse_ok. split.
      * intros (? & (v & Hr & Hv & ->) & [= <- <-]). left. by split; [|apply quoted_inverse].
      * intros [[-> [|v ? ? Hr Hv]]|(_ & _ & [])]; [done| |done]. eexists. split; [by exists v|done].
  - rewrite result_bind_ok. split.
    + intros (v & Hr & [= <- <-]). left. by split; [|apply quoted_direct].
    + intros [[-> [? ? Hr|]]|(_ & _ & [])]; [|done..]. by eexists.
Qed.

Lemma adapters_loop_found x y (l : list Address) (b : bool) z :
  adapters_loop p x y l = Ok (b, z) → b = true →
  ∃ l1 a r, l = l1 ++ a :: r ∧
    Forall (λ b, ∃ c, IOracleAdapter_getPrice b x y p = Ok (false, c)) l1 ∧
    IOracleAdapter_getPrice a x y p = Ok (true, z).
Proof.
  induction l as [|a l IH]; cbn [adapters_loop]; [by intros [= <- <-]|].
  intros E ->. apply result_bind_ok in E as ([[] c] & Ha & E).
  - injection E as ->. exists [], a, l. done.
  - destruct (IH E eq_refl) as (l1 & a' & r & -> & Hl & Hz). exists (a :: l1), a', r.
    split; [done|]. split; [|done]. apply Forall_cons. split; [by exists c|done].
Qed.

Lemma adapters_loop_first x y (l : list Address) a (r : list Address) z :
  Forall (λ b, ∃ c, IOracleAdapter_getPrice b x y p = Ok (false, c)) l →
  IOracleAdapter_getPrice a x y p = Ok (true, z) → adapters_loop p x y (l ++ a :: r) = Ok (true, z).
Proof.
  intros Hl Ha. induction Hl as [|b l (c & Hb) _ IH]; cbn [adapters_loop app].
  - by rewrite Ha.
  - by rewrite Hb.
Qed.
End Resolution.

(** ** The resolution *)
Section Resolved.
Context {P : Type} `{!PriceSources P} (p : P).
Implicit Types (x y : Address) (z v : Z).

Lemma asked_ok o x y :
  asked p o x y → ∃ (b : bool) z, _getDirectOrInversePrice p o x y = Ok (b, z) ∧ (unlisted o x y → b = false).
Proof.
  intros [Hu|[z Hz]].
  - exists false, 0. split; [apply direct_ok; by right|done].
  - exists true, z. split; [apply direct_ok; by left|]. intros [Ex Ey]. by destruct Hz.
Qed.

Lemma master_ok o x y (b : bool) z :
  _getPriceFromMasterQuote p o x y = Ok (b, z) ↔
    (b = true ∧ ∃ z1 z2, quoted p o x (masterQuoteAsset o) z1 ∧ quoted p o y (masterQuoteAsset o) z2 ∧
       z2 ≠ 0 ∧ z1 * 10 ^ 18 ≤ UINT_MAX ∧ z = z1 * 10 ^ 18 / z2) ∨
    (b = false ∧ z = 0 ∧ asked p o x (masterQuoteAsset o) ∧ asked p o y (masterQuoteAsset o) ∧
       (unlisted o x (masterQuoteAsset o) ∨ unlisted o y (masterQuoteAsset o))).
Proof.
  unfold _getPriceFromMasterQuote. rewrite result_bind_ok. split.
  - intros ([b1 z1] & H1 & E). apply result_bind_ok in E as ([b2 z2] & H2 & E).
    apply direct_ok in H1 as [[-> H1]|(-> & -> & H1)].
    + apply direct_ok in H2 as [[-> H2]|(-> & -> & H2)]; cbn [andb] in E.
      * apply result_bind_ok in E as (z3 & E & [= <- <-]).
        apply preciseDiv_u_iff in E as (? & ? & ->); [|by eapply quoted_word..].
        left. split; [done|]. exists z1, z2. repeat (split; [done || lia|]). done.
      * injection E as <- <-. right. unfold asked. naive_solver.
    + cbn [andb] in E. injection E as <- <-. right.
      apply direct_ok in H2 as [[-> H2]|(-> & -> & H2)]; unfold asked; naive_solver.
  - intros [(-> & z1 & z2 & H1 & H2 & Hz & Hf & ->)|(-> & -> & H1 & H2 & Hu)].
    + exists (true, z1). split; [apply direct_ok; by left|]. apply result_bind_ok. exists (true, z2).
      split; [apply direct_ok; by left|]. cbn [andb]. apply result_bind_ok. eexists.
      split; [|done]. pose proof (quoted_word p _ _ _ _ H2) as H2w. apply preciseDiv_u_iff; [by eapply quoted_word..|].
      split; [unfold is_uint in H2w; lia|done].
    + apply asked_ok in H1 as (b1 & z1 & H1 & Hb1). apply asked_ok in H2 as (b2 & z2 & H2 & Hb2).
      exists (b1, z1). split; [done|]. apply result_bind_ok. exists (b2, z2). split; [done|].
      destruct Hu as [Hu|Hu]; [apply Hb1 in Hu as ->|apply Hb2 in Hu as ->]; [done|].
      by rewrite andb_false_r.
Qed.

Lemma getPrice_priced (ctl : Controller.State) caller o x y z :
  Controller.isSystemContract (controller o) ctl caller = true →
  getPrice p ctl caller o x y = Ok z ↔ priced p o x y z.
Proof.
  intros Es. unfold getPrice. rewrite Es. cbn [require mbind result_bind]. rewrite result_bind_ok. split.
  - intros ([b1 z1] & H1 & E). apply result_bind_ok in E as ([b2 z2] & H2 & E).
    apply result_bind_ok in E as ([b3 z3] & H3 & E). destruct b3; [|done]. injection E as ->.
    apply direct_ok in H1 as [[-> H1]|(-> & -> & H1)]; cbn [negb] in *.
    { injection H2 as <- <-. injection H3 as <-. by apply priced_pair. }
    apply master_ok in H2 as [(-> & v & v' & Hv & Hv' & Hz & Hf & ->)|(-> & -> & Ha & Ha' & Hu)];
      cbn [negb] in *.
    { injection H3 as <-. by apply priced_master. }
    apply adapters_loop_found in H3 as (l & a & r & El & Hl & Ha3); [|done].
    by eapply priced_adapter.
  - intros [z' Hz|v v' Hu Hv Hv' Hne Hf|l a r z' Hu Ha Ha' Hm El Hl Hz].
    + exists (true, z'). split; [apply direct_ok; by left|]. done.
    + exists (false, 0). split; [apply direct_ok; by right|]. cbn [negb]. apply result_bind_ok.
      eexists (true, _). split; [|reflexivity]. apply master_ok. left. split; [done|]. by exists v, v'.
    + exists (false, 0). split; [apply direct_ok; by right|]. cbn [negb]. apply result_bind_ok.
      exists (false, 0). split; [apply master_ok; by right|]. cbn [negb]. apply result_bind_ok.
      exists (true, z'). split; [|done]. unfold _getPriceFromAdapters. rewrite El.
      by apply adapters_loop_first.
Qed.
(** C28. A contract of the system gets exactly the price of the pair: from its
    oracle; else from that of the inverse pair, rounded down; else, when both assets
    have a price in the master quote asset, their ratio; else from the first adapter
    that has one.  Every other call reverts, and one from outside the system always
    does. *)
Theorem price_resolved (ctl : Controller.State) caller o x y :
  if Controller.isSystemContract (controller o) ctl caller then
    ∀ z, getPrice p ctl caller o x y = Ok z ↔ priced p o x y z
  else getPrice p ctl caller o x y =
    Throw (Revert "PriceOracle.getPrice: Caller must be system contract.").
Proof.
  destruct (Controller.isSystemContract _ _ _) eqn:Es.
  - intros z. by apply getPrice_priced.
  - unfold getPrice. by rewrite Es.
Qed.

(** ** Reciprocal prices *)

(** No adapter is asked. *)
Definition by_oracles o x y : Prop := ¬ unlisted o x y ∨
  (¬ unlisted o x (masterQuoteAsset o) ∧ ¬ unlisted o y (masterQuoteAsset o)).

Lemma quoted_listed o x y z : quoted p o x y z → ¬ unlisted o x y.
Proof. intros [? Hne|? _ Hne] [Hx Hy]; [by apply Hne|by apply Hne]. Qed.

Lemma unlisted_sym o x y : unlisted o x y → unlisted o y x.
Proof. intros [? ?]. by split. Qed.

Lemma quoted_functional o x y z z' : quoted p o x y z → quoted p o x y z' → z = z'.
Proof. intros [] []; congruence. Qed.

Lemma price_resolved_priced (ctl : Controller.State) caller o x y z :
  getPrice p ctl caller o x y = Ok z → priced p o x y z.
Proof.
  intros Hz. destruct (Controller.isSystemContract (controller o) ctl caller) eqn:Es.
  - by eapply getPrice_priced.
  - unfold getPrice in Hz. by rewrite Es in Hz.
Qed.

Lemma by_oracles_sym o x y : by_oracles o x y → by_oracles o y x.
Proof. intros [Hu|[Hx Hy]]; [left; by intros ?%unlisted_sym|by right]. Qed.

Lemma oracle_priced o x y z :
  by_oracles o x y → priced p o x y z → quoted p o x y z ∨
  ∃ z1 z2, unlisted o x y ∧ quoted p o x (masterQuoteAsset o) z1 ∧ quoted p o y (masterQuoteAsset o) z2 ∧
    z2 ≠ 0 ∧ z = z1 * 10 ^ 18 / z2.
Proof.
  intros Hby [z' Hz|z1 z2 Hu H1 H2 Hz _|l a r z' Hu _ _ Hm _ _ _]; [by left|right; by exists z1, z2|].
  unfold by_oracles in Hby. tauto.
Qed.

Lemma inverse_product v : is_uint v → v ≠ 0 → 10 ^ 36 / v * v ≤ 10 ^ 36.
Proof. unfold is_uint. intros Hv Hne. pose proof (Z.mul_div_le (10 ^ 36) v). lia. Qed.

Lemma ratio_product (a b : Z) : 0 < a → 0 < b → a * 10 ^ 18 / b * (b * 10 ^ 18 / a) ≤ 10 ^ 36.
Proof.
  intros Ha Hb. pose proof (Z.mul_div_le (a * 10 ^ 18) b Hb) as Hx.
  pose proof (Z.mul_div_le (b * 10 ^ 18) a Ha) as Hy.
  pose proof (Z.div_pos (a * 10 ^ 18) b ltac:(lia) Hb) as Hx0.
  set (x := a * 10 ^ 18 / b) in *. set (y := b * 10 ^ 18 / a) in *.
  apply (Z.mul_le_mono_pos_l _ _ (a * b)); [nia|].
  transitivity ((a * 10 ^ 18) * (b * 10 ^ 18)); [|lia].
  transitivity ((b * x) * (a * y)); [lia|]. apply Z.mul_le_mono_nonneg; [|done| |done].
  - apply Z.mul_nonneg_nonneg; lia.
  - apply Z.mul_nonneg_nonneg; [lia|]. subst y. apply Z.div_pos; lia.
Qed.

(** Unless both directions of a pair have oracles of their own, or adapters
    are asked, there is nothing to gain by exchanging one asset for the other and
    back at the prices of the contract. *)
Theorem prices_reciprocal (ctl : Controller.State) caller o x y z z'
    (Hone : oracle_of o x y = Controller.address0 ∨ oracle_of o y x = Controller.address0)
    (Hby : by_oracles o x y) (Hxy : getPrice p ctl caller o x y = Ok z)
    (Hyx : getPrice p ctl caller o y x = Ok z') : z * z' ≤ 10 ^ 36.
Proof.
  pose proof (price_resolved_priced ctl caller o x y z Hxy) as Pxy.
  pose proof (price_resolved_priced ctl caller o y x z' Hyx) as Pyx.
  destruct (oracle_priced o x y z Hby Pxy) as [Qxy|(z1 & z2 & Uxy & Q1 & Q2 & Hz2 & ->)].
  - apply (oracle_priced o y x z' (by_oracles_sym o x y Hby)) in Pyx as [Qyx|(z1 & z2 & Uyx & _)];
      [|destruct (quoted_listed o x y z Qxy); by apply unlisted_sym].
    destruct Hone as [Ho|Ho].
    + destruct Qxy as [|v _ _ Hr Hv]; [done|]. destruct Qyx as [v' _ Hr'|]; [|done].
      rewrite Hr in Hr'. injection Hr' as <-. apply read_word in Hr. by apply inverse_product.
    + destruct Qyx as [|v _ _ Hr Hv]; [done|]. destruct Qxy as [v' _ Hr'|]; [|done].
      rewrite Hr in Hr'. injection Hr' as <-. apply read_word in Hr. rewrite Z.mul_comm.
      by apply inverse_product.
  - apply (oracle_priced o y x z' (by_oracles_sym o x y Hby)) in Pyx
      as [Qyx|(w1 & w2 & _ & Q3 & Q4 & Hw2 & ->)];
      [by destruct (quoted_listed o y x z' Qyx); apply unlisted_sym|].
    rewrite (quoted_functional _ _ _ _ _ Q3 Q2), (quoted_functional _ _ _ _ _ Q4 Q1) in *.
    apply quoted_word in Q1, Q2. unfold is_uint in *. apply ratio_product; lia.
Qed.
End Resolved.

(** ** Governance *)
Section Governed.
Context (onlyOwner : Address → result ()).
Implicit Types (x y z : Address).

Lemma oracle_execute_adapters caller t o o' :
  execute onlyOwner caller t o = Ok o' → NoDup (adapters o) → NoDup (adapters o').
Proof.
  intros E Hnd. destruct t; cbn [execute] in E;
    unfold addPair, editPair, removePair, addAdapter, removeAdapter, editMasterQuoteAsset in E;
    result_inv; try done; cbn.
  - apply NoDup_app. split; [done|]. split; [|apply NoDup_singleton].
    intros x' Hx ->%list_elem_of_singleton. apply contains_true in Hx. by rewrite Hx in *.
  - by eapply remove_nodup.
Qed.

Lemma pair_written x y z (e : log_entry) o :
  oracle_of (emit e (set_oracles (<[(x, y) := z]> (oracles o)) o)) x y = z ∧
  ∀ q, q ≠ (x, y) → (<[(x, y) := z]> (oracles o)) !! q = oracles o !! q.
Proof.
  split; [unfold oracle_of; cbn; by rewrite lookup_insert_eq|]. intros q Hq. by apply lookup_insert_ne.
Qed.

Lemma pair_deleted x y (e : log_entry) o :
  oracle_of (emit e (set_oracles (base.delete (x, y) (oracles o)) o)) x y = Controller.address0 ∧
  ∀ q, q ≠ (x, y) → (base.delete (x, y) (oracles o)) !! q = oracles o !! q.
Proof.
  split; [unfold oracle_of; cbn; by rewrite lookup_delete_eq|]. intros q Hq. by apply lookup_delete_ne.
Qed.

(** Whatever the owner does, no adapter is listed twice, so removing one stops
    the contract from asking it; a pair can only be added when it has no oracle,
    edited or removed only when it has one, and both leave every other pair alone. *)
Theorem governance_consistent o caller t o' (Ho : reachable onlyOwner o)
    (Ht : execute onlyOwner caller t o = Ok o') :
  NoDup (adapters o') ∧ onlyOwner caller = Ok () ∧
  match t with
  | AddPair x y z => oracle_of o x y = Controller.address0 ∧ oracle_of o' x y = z ∧
      ∀ q, q ≠ (x, y) → oracles o' !! q = oracles o !! q
  | EditPair x y z => oracle_of o x y ≠ Controller.address0 ∧ oracle_of o' x y = z ∧
      ∀ q, q ≠ (x, y) → oracles o' !! q = oracles o !! q
  | RemovePair x y => oracle_of o x y ≠ Controller.address0 ∧
      oracle_of o' x y = Controller.address0 ∧ ∀ q, q ≠ (x, y) → oracles o' !! q = oracles o !! q
  | AddAdapter a => (a ∉ adapters o) ∧ (a ∈ adapters o')
  | RemoveAdapter a => (a ∈ adapters o) ∧ (a ∉ adapters o')
  | EditMasterQuoteAsset a => masterQuoteAsset o' = a ∧ oracles o' = oracles o
  end.
Proof.
  assert (NoDup (adapters o)) as Hnd.
  { clear Ht. induction Ho as [c m l xs ys zs o Hl E|caller' t' o1 o2 _ IH E].
    - unfold constructor in E. by result_inv.
    - by eapply oracle_execute_adapters. }
  split; [by eapply oracle_execute_adapters|]. destruct t; cbn [execute] in Ht;
    unfold addPair, editPair, removePair, addAdapter, removeAdapter, editMasterQuoteAsset in Ht;
    apply result_bind_ok in Ht as ([] & Hown & Ht); (split; [done|]); result_inv; cbn in *.
  - match goal with He : bool_decide _ = true |- _ => apply bool_decide_eq_true in He end.
    split; [done|apply pair_written].
  - match goal with He : negb _ = true |- _ => apply negb_true_iff, bool_decide_eq_false in He end.
    split; [done|apply pair_written].
  - match goal with He : negb _ = true |- _ => apply negb_true_iff, bool_decide_eq_false in He end.
    split; [done|apply pair_deleted].
  - split; [|apply elem_of_app; right; apply list_elem_of_here].
    rewrite <- contains_true. by apply not_true_iff_false, negb_true_iff.
  - match goal with Hr : remove _ _ = Ok _ |- _ => apply remove_nodup in Hr as (? & _ & Hx) end; [|done].
    split; [done|]. rewrite Hx. tauto.
  - done.
Qed.
End Governed.

(** ** Concrete instances *)

(** Oracles by the price they answer with; one adapter knows one asset. *)
Definition feeds := gmap Address Z.

Definition feed (o : Address) (p : feeds) : result Z :=
  match p !! o with
  | Some z => if (0 <=? z) && (z <=? UINT_MAX) then Ok z else Throw (Revert "invalid price")
  | None => Throw (Revert "function call to a non-contract account")
  end.

#[local] Open Scope string_scope.

Definition feed_adapter (a x y : Address) (p : feeds) : result (bool * Z) :=
  if bool_decide (a = "pool") && bool_decide (x = "lp") then z ← feed a p; Ok (true, z) else Ok (false, 0).

Lemma feed_word (o : Address) (p : feeds) (z : Z) : feed o p = Ok z → is_uint z.
Proof.
  unfold feed. destruct (p !! o); [|done]. destruct (_ && _) eqn:B; [|done]. intros [= <-].
  unfold is_uint. lia.
Qed.

Lemma feed_adapter_word (a x y : Address) (p : feeds) (b : bool) (z : Z) :
  feed_adapter a x y p = Ok (b, z) → is_uint z.
Proof.
  unfold feed_adapter. destruct (_ && _).
  - intros (v & Hv & [= _ <-])%result_bind_ok. by eapply feed_word.
  - by intros [= _ <-].
Qed.

#[export] Instance PriceSources_feeds : PriceSources feeds := {|
  IOracle_read := feed;
  IOracleAdapter_getPrice := feed_adapter;
  read_word := feed_word;
  adapter_word := feed_adapter_word;
|}.

Definition sample_feeds : feeds :=
  {[ "oUsdcEth" := 5 * 10 ^ 14; "oBtcEth" := 15 * 10 ^ 18; "pool" := 3 * 10 ^ 18 ]}.

Definition sample_oracle : State :=
  {| controller := "ctl"; oracles := {[ ("usdc", "eth") := "oUsdcEth"; ("btc", "eth") := "oBtcEth" ]};
     masterQuoteAsset := "eth"; adapters := ["quiet"; "pool"]; logs := [] |}.

(** The controller itself asks. *)
Definition sample_controller : Controller.State := Controller.constructor "treasury".

(** 15 ether a bitcoin at 2000 dollars an ether. *)
Lemma sample_prices :
  getPrice sample_feeds sample_controller "ctl" sample_oracle "btc" "usdc" = Ok (30000 * 10 ^ 18)%Z ∧
  getPrice sample_feeds sample_controller "ctl" sample_oracle "eth" "usdc" = Ok (2000 * 10 ^ 18)%Z ∧
  getPrice sample_feeds sample_controller "ctl" sample_oracle "lp" "usdc" = Ok (3 * 10 ^ 18)%Z ∧
  getPrice sample_feeds sample_controller "ctl" sample_oracle "doge" "usdc" =
    Throw (Revert "PriceOracle.getPrice: Price not found.") ∧
  getPrice sample_feeds sample_controller "thief" sample_oracle "btc" "usdc" =
    Throw (Revert "PriceOracle.getPrice: Caller must be system contract.").
Proof. computed. Qed.

Lemma prices_reciprocal_witness :
  ((30000 * 10 ^ 18) * 33333333333333 ≤ 10 ^ 36)%Z ∧ is_uint 33333333333333.
Proof.
  split; [|word].
  apply (prices_reciprocal sample_feeds sample_controller "ctl" sample_oracle "btc" "usdc").
  - left. vm_compute. reflexivity.
  - right. split; intros [Hx _]; vm_compute in Hx; discriminate Hx.
  - vm_compute. reflexivity.
  - vm_compute. reflexivity.
Defined.

Definition by_governor (a : Address) : result () :=
  require (bool_decide (a = "governor")) "Ownable: caller is not the owner".

Lemma sample_reachable : reachable by_governor sample_oracle.
Proof.
  apply (reachable_constructor by_governor "ctl" "eth" ["quiet"; "pool"] ["usdc"; "btc"] ["eth"; "eth"]
    ["oUsdcEth"; "oBtcEth"]); [|vm_compute; reflexivity].
  refine (proj1 (bool_decide_eq_true _) _). vm_compute. reflexivity.
Qed.

Definition sample_removed : result State :=
  execute by_governor "governor" (RemoveAdapter "pool") sample_oracle.

Lemma governance_consistent_witness :
  is_ok sample_removed = true ∧ ∃ o, sample_removed = Ok o ∧ NoDup (adapters o) ∧ ("pool" ∉ adapters o).
Proof.
  split; [vm_compute; reflexivity|]. destruct sample_removed as [o|] eqn:E; [|vm_compute in E; discriminate E].
  exists o. split; [reflexivity|].
  destruct (governance_consistent by_governor sample_oracle "governor" (RemoveAdapter "pool") o
    sample_reachable E) as (Hnd & _ & _ & Hx).
  split; [exact Hnd|exact Hx].
Defined.
End PriceOracle.
