(* ===== verification/SetValuer.v ===== *)
(** * The valuation of sets

    [contracts/protocol/SetValuer.sol] against the interface of the price oracle,
    and that interface on [PriceOracle]. *)
From Stdlib Require Import String.
From S2P Require Import Prelude JsString BigNumber Constants MathUtils SolMath.
From S2P Require Import AddressArrayUtils Script AdapterUtils Controller NavUtils Erc20 SetToken.
From S2P Require Import IntegrationRegistry World Position Tokens PriceOracle.

(** [interfaces/IPriceOracle.sol], by the caller and the address of the oracle. *)
Class IPriceOracle `{ERC20} (E : Type) := {
  oracle_masterQuoteAsset : Address → World E → result Address;
  oracle_getPrice : Address → Address → Address → Address → World E → result Z;
  price_word caller oracle x y w z : oracle_getPrice caller oracle x y w = Ok z → is_uint z;
}.

(** [ERC20.decimals], a byte. *)
Class Decimals `{ERC20} (E : Type) := {
  ERC20_decimals : Address → World E → result Z;
  decimals_byte token w d : ERC20_decimals token w = Ok d → 0 ≤ d < 256;
}.

Module SetValuer.

Definition PRICE_ORACLE_RESOURCE_ID : Z := 1.

Definition getPriceOracle (ctl : Controller.State) : Address :=
  Controller.resource_at ctl PRICE_ORACLE_RESOURCE_ID.

Section SetValuer.
Context `{ERC20} `{SignedLib} {E : Type} `{!IPriceOracle E} `{!Decimals E}.
Implicit Types (this _setToken component : Address).

(** One round: the worth of the position of a component. *)
Definition component_worth this _setToken (priceOracle masterQuoteAsset : Address) component
    : tx E Z :=
  componentPrice ← query (oracle_getPrice this priceOracle component masterQuoteAsset);
  aggregateUnits ← view_set _setToken (λ s, SetToken.getTotalComponentRealUnits s component);
  unitDecimals ← query (ERC20_decimals component);
  let baseUnits := CustomOracleNAVIssuanceModule.base_units unitDecimals in
  b ← lift (toInt256 baseUnits);
  normalizedUnits ← lift (PreciseUnitMath.preciseDiv_i aggregateUnits b);
  price ← lift (toInt256 componentPrice);
  lift (PreciseUnitMath.preciseMul_i normalizedUnits price).

Fixpoint valuation_loop this _setToken (priceOracle masterQuoteAsset : Address)
    (components : list Address) (valuation : Z) : tx E Z :=
  match components with
  | [] => mret valuation
  | component :: components' =>
      worth ← component_worth this _setToken priceOracle masterQuoteAsset component;
      v ← lift (int_add worth valuation);
      valuation_loop this _setToken priceOracle masterQuoteAsset components' v
  end.

Definition calculateSetTokenValuation this _setToken (_quoteAsset : Address) : tx E Z :=
  ctl ← asks controller;
  let priceOracle := getPriceOracle ctl in
  masterQuoteAsset ← query (oracle_masterQuoteAsset priceOracle);
  components ← read_set _setToken SetToken.getComponents;
  valuation ← valuation_loop this _setToken priceOracle masterQuoteAsset components 0;
  valuation ← (if negb (bool_decide (masterQuoteAsset = _quoteAsset)) then
                 quoteToMaster ← query (oracle_getPrice this priceOracle _quoteAsset masterQuoteAsset);
                 q ← lift (toInt256 quoteToMaster);
                 lift (PreciseUnitMath.preciseDiv_i valuation q)
               else mret valuation);
  lift (toUint256 valuation).

(** ** What it computes *)
Implicit Types (w : World E) (s : SetToken.State) (c x y : Address).

Lemma external_real s c (m : Address) (u : Z) :
  SetToken.consistent s → SetToken.getExternalPositionRealUnit s c m = Ok u →
  u = SetToken.external_virtualUnit (SetToken.external_position s c m)
        * SetToken.positionMultiplier s / 10 ^ 18 ∧ is_int u.
Proof.
  intros (_ & _ & _ & [_ Hu] & Hm & _) E1.
  unfold SetToken.getExternalPositionRealUnit, SetToken._convertVirtualToRealUnit in E1.
  apply conservativePreciseMul_inv in E1 as (-> & _ & ?); [done|apply Hu|done].
Qed.

Definition sum (zs : list Z) : Z := foldr Z.add 0 zs.

(** The units of a component, default and external. *)
Definition external_real_unit s c (m : Address) : Z :=
  SetToken.external_virtualUnit (SetToken.external_position s c m)
    * SetToken.positionMultiplier s / 10 ^ 18.
Definition total_units s c : Z :=
  PositionLib.real_unit s c + sum (external_real_unit s c <$> SetToken.getExternalPositionModules s c).

Lemma total_loop_sum s c (ms : list Address) (z u : Z) :
  SetToken.consistent s → is_int z → SetToken.total_loop s c ms z = Ok u →
  u = z + sum (external_real_unit s c <$> ms) ∧ is_int u.
Proof.
  intros Hs. revert z. induction ms as [|m ms IH]; intros z Hz Hu; cbn [SetToken.total_loop] in Hu.
  { injection Hu as <-. cbn. split; [lia|done]. }
  result_inv. destruct (external_real s c m x) as [-> Hx]; [done..|].
  destruct (int_add_inv z (external_real_unit s c m) x0) as [-> Hx0]; [done..|].
  apply IH in Hu as [-> Hu]; [|done]. split; [|done]. unfold sum. cbn [fmap list_fmap foldr]. lia.
Qed.

Lemma getTotal_real s c (u : Z) :
  SetToken.consistent s → SetToken.getTotalComponentRealUnits s c = Ok u →
  u = total_units s c ∧ is_int u.
Proof.
  intros Hs Hu. unfold SetToken.getTotalComponentRealUnits in Hu.
  apply result_bind_ok in Hu as (d & Hd & Hu). apply PositionLib.getDefault_real in Hd as [-> Hd]; [|done].
  by apply total_loop_sum in Hu.
Qed.

Lemma preciseDiv_i_inv (a b z : Z) :
  is_int a → is_int b → 0 ≤ b → PreciseUnitMath.preciseDiv_i a b = Ok z →
  0 < b ∧ z = Z.quot (a * 10 ^ 18) b ∧ is_int z.
Proof.
  intros Ha Hb Hpos Hz. unfold PreciseUnitMath.preciseDiv_i in Hz. apply result_bind_ok in Hz as (q & Hq & Hz).
  apply int_mul_inv in Hq as [-> Hq]; [|done|apply int_unit].
  change PreciseUnitMath.PRECISE_UNIT_INT with (10 ^ 18) in *.
  destruct (Z.eqb_spec b 0) as [->|]; [by rewrite int_div_zero in Hz|].
  assert (is_int (Z.quot (a * 10 ^ 18) b)) by (apply int_div_in_range; [done..|right; lia]).
  rewrite int_div_fits in Hz by done. injection Hz as <-. split; [lia|done].
Qed.

(** The worth of a component in the master quote asset. *)
Definition worth (unit decimals price : Z) : Z :=
  Z.quot (Z.quot (unit * 10 ^ 18) (CustomOracleNAVIssuanceModule.base_units decimals) * price) (10 ^ 18).

Lemma base_units_exact (d : Z) : 0 ≤ d ≤ 77 → CustomOracleNAVIssuanceModule.base_units d = 10 ^ d.
Proof.
  intros Hd. apply wrap_uint_small. split; [apply Z.pow_nonneg; lia|]. unfold UINT_MAX.
  transitivity (10 ^ 77); [apply Z.pow_le_mono_r; lia|lia].
Qed.

(** The answers behind the worth of a component. *)
Definition answers this _setToken (oracle master : Address) w s c (z : Z) : Prop :=
  ∃ p d, oracle_getPrice this oracle c master w = Ok p ∧ ERC20_decimals c w = Ok d ∧
    p ≤ INT_MAX ∧ is_uint p ∧ z = worth (total_units s c) d p.

Lemma component_worth_ok this _setToken (oracle master : Address) c (z : Z) w w' s :
  sets w !! _setToken = Some s → SetToken.consistent s →
  component_worth this _setToken oracle master c w = Ok (z, w') →
  w' = w ∧ is_int z ∧ answers this _setToken oracle master w s c z.
Proof.
  intros Es Hs Hw. unfold component_worth in Hw.
  apply tx_bind_ok in Hw as (p & w1 & Hp & Hw). apply query_ok in Hp as [Hp <-].
  apply tx_bind_ok in Hw as (u & w1 & Hu & Hw). apply view_set_ok in Hu as (s' & Es' & Hu & <-).
  rewrite Es in Es'. injection Es' as <-. apply getTotal_real in Hu as [-> Hu]; [|done].
  apply tx_bind_ok in Hw as (d & w1 & Hd & Hw). apply query_ok in Hd as [Hd <-].
  apply tx_bind_ok in Hw as (b & w1 & Hb & Hw). apply lift_ok in Hb as [Hb <-].
  apply tx_bind_ok in Hw as (n & w1 & Hn & Hw). apply lift_ok in Hn as [Hn <-].
  apply tx_bind_ok in Hw as (p' & w1 & Hp' & Hw). apply lift_ok in Hp' as [Hp' <-].
  apply lift_ok in Hw as [Hw <-]. pose proof (price_word _ _ _ _ _ _ Hp) as Hpw.
  apply toInt256_inv in Hb as (-> & _ & Hb); [|apply wrap_uint_uint].
  apply preciseDiv_i_inv in Hn as (_ & -> & Hn); [|done|done|by apply wrap_uint_uint].
  apply toInt256_inv in Hp' as (-> & Hpm & Hp'); [|done].
  apply preciseMul_i_inv in Hw as [-> Hz]; [|done..].
  split; [done|]. split; [done|]. by exists p, d.
Qed.

Lemma valuation_loop_ok this _setToken (oracle master : Address) (cs : list Address) (v z : Z) w w' s :
  sets w !! _setToken = Some s → SetToken.consistent s → is_int v →
  valuation_loop this _setToken oracle master cs v w = Ok (z, w') →
  w' = w ∧ is_int z ∧ ∃ zs, Forall2 (answers this _setToken oracle master w s) cs zs ∧ z = v + sum zs.
Proof.
  intros Es Hs. revert v. induction cs as [|c cs IH]; intros v Hv Hw; cbn [valuation_loop] in Hw.
  { apply tx_ret_ok in Hw as [<- <-]. split; [done|]. split; [done|]. exists []. split; [done|]. cbn. lia. }
  apply tx_bind_ok in Hw as (x & w1 & Hx & Hw).
  apply (component_worth_ok _ _ _ _ _ _ _ _ s) in Hx as (-> & Hx & Ha); [|done..].
  apply tx_bind_ok in Hw as (v' & w1 & Hv' & Hw). apply lift_ok in Hv' as [Hv' <-].
  apply int_add_inv in Hv' as [-> Hv']; [|done..]. apply IH in Hw as (-> & Hz & zs & Hzs & ->); [|done].
  split; [done|]. split; [done|]. exists (x :: zs). split; [by constructor|].
  unfold sum. cbn [foldr]. lia.
Qed.

Lemma reading_worth this _setToken (oracle master : Address) c :
  reading (component_worth this _setToken oracle master c).
Proof. unfold component_worth. reading. Qed.
#[local] Hint Resolve reading_worth : reading.

Lemma reading_valuation_loop this _setToken (oracle master : Address) (cs : list Address) (v : Z) :
  reading (valuation_loop this _setToken oracle master cs v).
Proof. revert v. induction cs; intros v; cbn [valuation_loop]; reading. Qed.
#[local] Hint Resolve reading_valuation_loop : reading.

Lemma valuation_ok this _setToken (quote : Address) (v : Z) w w' s
    (Es : sets w !! _setToken = Some s) (Hs : SetToken.consistent s)
    (Hw : calculateSetTokenValuation this _setToken quote w = Ok (v, w')) :
  w' = w ∧ 0 ≤ v ≤ INT_MAX ∧
  let oracle := getPriceOracle (controller w) in
  ∃ master zs, oracle_masterQuoteAsset oracle w = Ok master ∧
    Forall2 (answers this _setToken oracle master w s) (SetToken.getComponents s) zs ∧
    if decide (master = quote) then v = sum zs
    else ∃ p, oracle_getPrice this oracle quote master w = Ok p ∧ 0 < p ∧
      v = Z.quot (sum zs * 10 ^ 18) p.
Proof.
  unfold calculateSetTokenValuation in Hw.
  apply tx_bind_ok in Hw as (ctl & w1 & Hc & Hw). apply asks_ok in Hc as [-> <-].
  apply tx_bind_ok in Hw as (master & w1 & Hm & Hw). apply query_ok in Hm as [Hm <-].
  apply tx_bind_ok in Hw as (cs & w1 & Hcs & Hw). apply read_set_ok in Hcs as (s' & Es' & -> & <-).
  rewrite Es in Es'. injection Es' as <-. apply tx_bind_ok in Hw as (z & w1 & Hz & Hw).
  apply (valuation_loop_ok _ _ _ _ _ _ _ _ _ s) in Hz as (-> & Hz & zs & Hzs & Ez); [|done|done|apply int_0].
  rewrite Z.add_0_l in Ez. subst z. apply tx_bind_ok in Hw as (z & w1 & Hq & Hw).
  apply lift_ok in Hw as [Hw <-]. cbv zeta.
  assert (w1 = w) as -> by (revert Hq; apply reading_if; reading).
  split; [done|]. destruct (decide (master = quote)) as [Hmq|Hmq].
  - rewrite bool_decide_true in Hq by done. apply tx_ret_ok in Hq as [<- _].
    apply toUint256_inv in Hw as (-> & Hp & _); [|done]. split; [unfold is_int in Hz; lia|].
    exists master, zs. repeat (split; [done|]). by rewrite decide_True.
  - rewrite bool_decide_false in Hq by done. cbn [negb] in Hq.
    apply tx_bind_ok in Hq as (p & w1 & Hp & Hq). apply query_ok in Hp as [Hp <-].
    apply tx_bind_ok in Hq as (q & w1 & Hq' & Hq). apply lift_ok in Hq' as [Hq' <-].
    apply lift_ok in Hq as [Hq _]. pose proof (price_word _ _ _ _ _ _ Hp) as Hpw.
    apply toInt256_inv in Hq' as (-> & Hpm & Hq'); [|done].
    apply preciseDiv_i_inv in Hq as (Hpos & -> & Hq); [|done|done|apply Hpw].
    apply toUint256_inv in Hw as (-> & Hv & _); [|done]. split; [unfold is_int in Hq; lia|].
    exists master, zs. repeat (split; [done|]). rewrite decide_False by done. by exists p.
Qed.

(** C27. A valuation changes nothing and is the sum, over the components, of the
    total unit of each (with its external positions, debts subtracted) at the price
    of the oracle, converted to the quote asset when that is not the one of the
    oracle.  It reverts when a component has no price, when the quote asset has none
    or a price of zero, and when the debts outweigh the rest. *)
Theorem valuation_sums this _setToken (quote : Address) (v : Z) w w' s
    (Es : sets w !! _setToken = Some s) (Hs : SetToken.consistent s)
    (Hw : calculateSetTokenValuation this _setToken quote w = Ok (v, w')) :
  w' = w ∧ 0 ≤ v ≤ INT_MAX ∧
  let oracle := getPriceOracle (controller w) in
  ∃ master zs, oracle_masterQuoteAsset oracle w = Ok master ∧
    Forall2 (answers this _setToken oracle master w s) (SetToken.getComponents s) zs ∧
    if decide (master = quote) then v = sum zs
    else ∃ p, oracle_getPrice this oracle quote master w = Ok p ∧ 0 < p ∧
      v = Z.quot (sum zs * 10 ^ 18) p.
Proof. by apply valuation_ok. Qed.
End SetValuer.

(** ** The price oracle behind the interface *)
Section Deployed.
Context `{ERC20} {E : Type} (price_oracles : World E → gmap Address PriceOracle.State)
  `{!PriceSources (World E)}.
Implicit Types (w : World E) (x y : Address).

Definition deployed_master (oracle : Address) w : result Address :=
  match price_oracles w !! oracle with
  | Some o => Ok (PriceOracle.masterQuoteAsset o)
  | None => Throw (Revert "function call to a non-contract account")
  end.

Definition deployed_price (caller oracle x y : Address) w : result Z :=
  match price_oracles w !! oracle with
  | Some o => PriceOracle.getPrice w (controller w) caller o x y
  | None => Throw (Revert "function call to a non-contract account")
  end.

Lemma priced_word w (o : PriceOracle.State) x y (z : Z) : PriceOracle.priced w o x y z → is_uint z.
Proof.
  intros [z' Hz|z1 z2 _ H1 H2 Hz Hf|l a r z' _ _ _ _ _ _ Hz].
  - by eapply PriceOracle.quoted_word.
  - apply PriceOracle.quoted_word in H1 as [H1 _], H2 as [H2 _]. split; [apply Z.div_pos; lia|].
    apply Z.div_le_upper_bound; [lia|]. nia.
  - by eapply adapter_word.
Qed.

Definition DeployedOracle : IPriceOracle E.
Proof.
  refine {| oracle_masterQuoteAsset := deployed_master; oracle_getPrice := deployed_price |}.
  intros caller oracle x y w z Hz. unfold deployed_price in Hz. destruct (price_oracles w !! oracle); [|done].
  by eapply priced_word, PriceOracle.price_resolved_priced.
Defined.
End Deployed.

(** ** A concrete market *)

Record Market := {
  market_oracles : gmap Address PriceOracle.State;
  market_feeds : PriceOracle.feeds;
  market_decimals : gmap Address Z;
}.

Abbreviation market_env S := (module_env (S * Market)).

Section MarketEnv.
Context `{ERC20} {S : Type}.

Definition market (w : World (market_env S)) : Market := (env w).1.1.2.

#[export] Program Instance PriceSources_market : PriceSources (World (market_env S)) := {|
  IOracle_read o w := PriceOracle.feed o (market_feeds (market w));
  IOracleAdapter_getPrice a x y w := PriceOracle.feed_adapter a x y (market_feeds (market w));
|}.
Next Obligation. intros o w z. apply PriceOracle.feed_word. Qed.
Next Obligation.
  intros a x y w b z. apply PriceOracle.feed_adapter_word.
Qed.

#[export] Instance market_oracle : IPriceOracle (market_env S) :=
  DeployedOracle (λ w, market_oracles (market w)).

#[export] Program Instance market_token : Decimals (market_env S) := {|
  ERC20_decimals token w :=
    let d := default 18 (market_decimals (market w) !! token) in
    if (0 <=? d) && (d <? 256) then Ok d else Throw (Revert "invalid decimals");
|}.
Next Obligation.
  intros token w d. cbn. destruct (_ && _) eqn:B; [|done]. intros [= <-]. lia.
Qed.
End MarketEnv.

(** ** Concrete instances *)
#[local] Open Scope string_scope.

(** The controller with the oracle and the valuer among its resources. *)
Definition run_all (os : list Controller.operation) (c : Controller.State) : Controller.State :=
  foldl (λ c o, Controller.state_of (Controller.execute Controller.owner_only "owner" o c)) c os.

Definition sample_controller : Controller.State :=
  run_all [Controller.AddResource "oracle" 1; Controller.AddResource "valuer" 2]
    PositionLib.sample_controller.

(** Ether is the master quote asset; [b] has no decimals. *)
Definition sample_market : Market :=
  {| market_oracles := {[ "oracle" := {|
       PriceOracle.controller := "ctl";
       PriceOracle.oracles :=
         {[ ("a", "eth") := "oA"; ("b", "eth") := "oB"; ("usdc", "eth") := "oUsdc" ]};
       PriceOracle.masterQuoteAsset := "eth"; PriceOracle.adapters := []; PriceOracle.logs := [] |} ]};
     market_feeds := {[ "oA" := 2 * 10 ^ 18; "oB" := 3 * 10 ^ 17; "oUsdc" := 5 * 10 ^ 14 ]};
     market_decimals := {[ "b" := 0; "usdc" := 6 ]} |}.

Definition sample_world : World (market_env ()) :=
  {| controller := sample_controller; sets := {[ "set" := SetToken.sample_fee ]};
     registries := ∅; block_timestamp := 1000; env := ((), sample_market, false, ∅) |}.

Definition sample_valuation (valuer quote : Address) : result (Z * World (market_env ())) :=
  calculateSetTokenValuation valuer "set" quote sample_world.

(** 0.9 of [a] and two of [b] are worth 2.4 ether, or 4800 dollars; a valuer that is
    not registered gets no prices. *)
Lemma sample_valuations :
  PositionLib.returned 0%Z (sample_valuation "valuer" "eth") = (24 * 10 ^ 17)%Z ∧
  PositionLib.returned 0%Z (sample_valuation "valuer" "usdc") = (4800 * 10 ^ 18)%Z ∧
  is_ok (sample_valuation "valuer" "doge") = false ∧ is_ok (sample_valuation "other" "eth") = false.
Proof. computed. Qed.

Lemma sample_valuation_ran (quote : Address) : is_ok (sample_valuation "valuer" quote) = true →
  calculateSetTokenValuation "valuer" "set" quote sample_world =
  Ok (PositionLib.returned 0 (sample_valuation "valuer" quote),
      PositionLib.after sample_world (sample_valuation "valuer" quote)).
Proof. exact (PositionLib.ran 0 sample_world (sample_valuation "valuer" quote)). Qed.

Lemma valuation_sums_witness :
  PositionLib.returned 0%Z (sample_valuation "valuer" "usdc") = (4800 * 10 ^ 18)%Z ∧
  (0 ≤ PositionLib.returned 0 (sample_valuation "valuer" "usdc") ≤ INT_MAX)%Z.
Proof.
  split; [vm_compute; reflexivity|].
  assert (is_ok (sample_valuation "valuer" "usdc") = true) as Hok by (vm_compute; reflexivity).
  destruct (valuation_sums "valuer" "set" "usdc" _ sample_world _ SetToken.sample_fee eq_refl
    SetToken.sample_fee_consistent (sample_valuation_ran "usdc" Hok)) as (_ & Hv & _).
  exact Hv.
Defined.
End SetValuer.
