(* ===== verification/NavIssuance.v ===== *)
(** * Issuance at net asset value

    [contracts/protocol/modules/v1/CustomOracleNAVIssuanceModule.sol]: its storage, the
    contracts it asks and calls, and all its functions; what it computes is in
    NavUtils.v. *)
From Stdlib Require Import String.
From S2P Require Import Prelude JsString BigNumber Constants MathUtils SolMath.
From S2P Require Import AddressArrayUtils Script AdapterUtils Controller NavUtils Erc20 SetToken.
From S2P Require Import IntegrationRegistry World Position Tokens PriceOracle SetValuer BasicIssuance.

(** The hooks a manager may configure, [interfaces/INAVIssuanceHook.sol]: the first
    argument calls, the second is the address. *)
Class INAVIssuanceHook `{ERC20} `{SignedLib} (E : Type) := {
  nav_invokePreIssueHook : Address → Address → Address → Address → Z → Address → Address → tx E ();
  nav_invokePreRedeemHook : Address → Address → Address → Z → Address → Address → tx E ();
  nav_invokePreIssueHook_evolves this hook _setToken reserve q sender to :
    evolves (nav_invokePreIssueHook this hook _setToken reserve q sender to);
  nav_invokePreRedeemHook_evolves this hook _setToken q sender to :
    evolves (nav_invokePreRedeemHook this hook _setToken q sender to);
}.
#[export] Hint Resolve nav_invokePreIssueHook_evolves nav_invokePreRedeemHook_evolves : evolve.

(** [interfaces/ISetValuer.sol], by the address of the valuer: the valuation of a
    consistent set is a word. *)
Class ISetValuer `{ERC20} (E : Type) := {
  valuer_calculateSetTokenValuation : Address → Address → Address → World E → result Z;
  valuation_word valuer _setToken quote w v s :
    sets w !! _setToken = Some s → SetToken.consistent s →
    valuer_calculateSetTokenValuation valuer _setToken quote w = Ok v → is_uint v;
}.

(** A transfer of ether by an account. *)
Class Payable `{ERC20} `{SignedLib} (E : Type) := {
  address_transfer : Address → Address → Z → tx E ();
  address_transfer_evolves this to q : evolves (address_transfer this to q);
}.
#[export] Hint Resolve address_transfer_evolves : evolve.

(** The mappings of the module, next to the guard that shares the storage. *)
Class NavStorage (E : Type) `{!ReentrancyGuard E} := {
  navIssuanceSettings : E → gmap Address CustomOracleNAVIssuanceSettings;
  put_navIssuanceSettings : gmap Address CustomOracleNAVIssuanceSettings → E → E;
  isReserveAsset : E → gset (Address * Address);
  put_isReserveAsset : gset (Address * Address) → E → E;
  navIssuanceSettings_put m e : navIssuanceSettings (put_navIssuanceSettings m e) = m;
  navIssuanceSettings_flags f e :
    navIssuanceSettings (put_isReserveAsset f e) = navIssuanceSettings e;
  isReserveAsset_put f e : isReserveAsset (put_isReserveAsset f e) = f;
  isReserveAsset_settings m e : isReserveAsset (put_navIssuanceSettings m e) = isReserveAsset e;
  nav_enter e e' : guard_enter e = Ok e' →
    navIssuanceSettings e' = navIssuanceSettings e ∧ isReserveAsset e' = isReserveAsset e;
  nav_leave e : navIssuanceSettings (guard_leave e) = navIssuanceSettings e ∧
    isReserveAsset (guard_leave e) = isReserveAsset e;
}.

Module NavIssuance.
Import CustomOracleNAVIssuanceModule.

Record ActionInfo := {
  preFeeReserveQuantity : Z;
  protocolFees : Z;
  managerFee : Z;
  netFlowQuantity : Z;
  setTokenQuantity : Z;
  previousSetTokenSupply : Z;
  newSetTokenSupply : Z;
  newPositionMultiplier : Z;
  newReservePositionUnit : Z;
}.

Section CustomOracleNavIssuanceModule.
Context `{ERC20} `{SignedLib} {E : Type} `{!External E} `{!ReentrancyGuard E} `{!NavStorage E}
  `{!INAVIssuanceHook E} `{!ISetValuer E} `{!Decimals E} `{!Payable E}.
(** The wrapped ether of the constructor. *)
Context (weth : Address).
Implicit Types (this msg_sender _setToken _reserveAsset _to : Address).

Definition MANAGER_ISSUE_FEE_INDEX : Z := 0.
Definition MANAGER_REDEEM_FEE_INDEX : Z := 1.
Definition PROTOCOL_ISSUE_MANAGER_REVENUE_SHARE_FEE_INDEX : Z := 0.
Definition PROTOCOL_REDEEM_MANAGER_REVENUE_SHARE_FEE_INDEX : Z := 1.
Definition PROTOCOL_ISSUE_DIRECT_FEE_INDEX : Z := 2.
Definition PROTOCOL_REDEEM_DIRECT_FEE_INDEX : Z := 3.
Definition SET_VALUER_RESOURCE_ID : Z := 2.

(** An unwritten or deleted slot. *)
Definition no_settings : CustomOracleNAVIssuanceSettings :=
  {| managerIssuanceHook := Controller.address0; managerRedemptionHook := Controller.address0;
     setValuer := Controller.address0; reserveAssets := []; nav_feeRecipient := Controller.address0;
     managerFees := (0, 0); maxManagerFee := 0; premiumPercentage := 0; maxPremiumPercentage := 0;
     minSetTokenSupply := 0 |}.

Definition settings _setToken (w : World E) : CustomOracleNAVIssuanceSettings :=
  default no_settings (navIssuanceSettings (env w) !! _setToken).
Definition is_reserve _setToken _reserveAsset (w : World E) : bool :=
  bool_decide ((_setToken, _reserveAsset) ∈ isReserveAsset (env w)).

Definition put_settings _setToken (s : CustomOracleNAVIssuanceSettings) : tx E () :=
  modify (λ e, put_navIssuanceSettings (<[_setToken := s]> (navIssuanceSettings e)) e).
Definition put_flag _setToken _reserveAsset (b : bool) : tx E () :=
  modify (λ e, put_isReserveAsset
    (if b then {[ (_setToken, _reserveAsset) ]} ∪ isReserveAsset e
     else isReserveAsset e ∖ {[ (_setToken, _reserveAsset) ]}) e).

Definition with_assets (l : list Address) (s : CustomOracleNAVIssuanceSettings)
    : CustomOracleNAVIssuanceSettings :=
  {| managerIssuanceHook := managerIssuanceHook s; managerRedemptionHook := managerRedemptionHook s;
     setValuer := setValuer s; reserveAssets := l; nav_feeRecipient := nav_feeRecipient s;
     managerFees := managerFees s; maxManagerFee := maxManagerFee s;
     premiumPercentage := premiumPercentage s; maxPremiumPercentage := maxPremiumPercentage s;
     minSetTokenSupply := minSetTokenSupply s |}.
Definition with_recipient (a : Address) (s : CustomOracleNAVIssuanceSettings)
    : CustomOracleNAVIssuanceSettings :=
  {| managerIssuanceHook := managerIssuanceHook s; managerRedemptionHook := managerRedemptionHook s;
     setValuer := setValuer s; reserveAssets := reserveAssets s; nav_feeRecipient := a;
     managerFees := managerFees s; maxManagerFee := maxManagerFee s;
     premiumPercentage := premiumPercentage s; maxPremiumPercentage := maxPremiumPercentage s;
     minSetTokenSupply := minSetTokenSupply s |}.
Definition with_rates (fees : Z * Z) (premium : Z) (s : CustomOracleNAVIssuanceSettings)
    : CustomOracleNAVIssuanceSettings :=
  {| managerIssuanceHook := managerIssuanceHook s; managerRedemptionHook := managerRedemptionHook s;
     setValuer := setValuer s; reserveAssets := reserveAssets s; nav_feeRecipient := nav_feeRecipient s;
     managerFees := fees; maxManagerFee := maxManagerFee s;
     premiumPercentage := premium; maxPremiumPercentage := maxPremiumPercentage s;
     minSetTokenSupply := minSetTokenSupply s |}.

(** [managerFees[i]] of an array of two. *)
Definition fee_at (fees : Z * Z) (i : Z) : result Z :=
  if i =? 0 then Ok fees.1 else if i =? 1 then Ok fees.2 else Throw (Revert "invalid opcode").
Definition put_fee (fees : Z * Z) (i z : Z) : result (Z * Z) :=
  if i =? 0 then Ok (z, fees.2) else if i =? 1 then Ok (fees.1, z)
  else Throw (Revert "invalid opcode").

(** ** Computations *)

Definition _getIssuePremium _setToken : tx E Z := asks (λ w, premiumPercentage (settings _setToken w)).
Definition _getRedeemPremium _setToken : tx E Z := asks (λ w, premiumPercentage (settings _setToken w)).

Definition _getSetValuer _setToken : tx E Address :=
  customValuer ← asks (λ w, setValuer (settings _setToken w));
  ctl ← asks controller;
  mret (if bool_decide (customValuer = Controller.address0)
        then Controller.resource_at ctl SET_VALUER_RESOURCE_ID else customValuer).

Definition _getFees this _setToken (_reserveAssetQuantity _protocolManagerFeeIndex
    _protocolDirectFeeIndex _managerFeeIndex : Z) : tx E (Z * Z * Z) :=
  ctl ← asks controller;
  let protocolDirectFeePercent := Controller.getModuleFee ctl this _protocolDirectFeeIndex in
  let protocolManagerShareFeePercent := Controller.getModuleFee ctl this _protocolManagerFeeIndex in
  s ← asks (settings _setToken);
  managerFeePercent ← lift (fee_at (managerFees s) _managerFeeIndex);
  lift (CustomOracleNAVIssuanceModule._getFees protocolDirectFeePercent
          protocolManagerShareFeePercent managerFeePercent _reserveAssetQuantity).

(** The premium is computed before the valuation is asked for: if both fail it is
    the reason. *)
Definition _getSetTokenMintQuantity _setToken _reserveAsset (_netReserveFlows _setTotalSupply : Z)
    : tx E Z :=
  premiumPercentage ← _getIssuePremium _setToken;
  lift (PreciseUnitMath.preciseMul_u _netReserveFlows premiumPercentage);;
  valuer ← _getSetValuer _setToken;
  setTokenValuation ← query (valuer_calculateSetTokenValuation valuer _setToken _reserveAsset);
  reserveAssetDecimals ← query (ERC20_decimals _reserveAsset);
  lift (CustomOracleNAVIssuanceModule._getSetTokenMintQuantity premiumPercentage setTokenValuation
          reserveAssetDecimals _netReserveFlows _setTotalSupply).

Definition _getRedeemReserveQuantity _setToken _reserveAsset (_setTokenQuantity : Z) : tx E Z :=
  valuer ← _getSetValuer _setToken;
  setTokenValuation ← query (valuer_calculateSetTokenValuation valuer _setToken _reserveAsset);
  lift (PreciseUnitMath.preciseMul_u _setTokenQuantity setTokenValuation);;
  reserveAssetDecimals ← query (ERC20_decimals _reserveAsset);
  premiumPercentage ← _getRedeemPremium _setToken;
  lift (CustomOracleNAVIssuanceModule._getRedeemReserveQuantity premiumPercentage setTokenValuation
          reserveAssetDecimals _setTokenQuantity).

Definition supply _setToken : tx E Z := read_set _setToken (λ s, totalSupply (SetToken.token s)).

Definition _createIssuanceInfo this _setToken _reserveAsset (_reserveAssetQuantity : Z)
    : tx E ActionInfo :=
  previous ← supply _setToken;
  '(protocol, manager, net) ← _getFees this _setToken _reserveAssetQuantity
    PROTOCOL_ISSUE_MANAGER_REVENUE_SHARE_FEE_INDEX PROTOCOL_ISSUE_DIRECT_FEE_INDEX
    MANAGER_ISSUE_FEE_INDEX;
  quantity ← _getSetTokenMintQuantity _setToken _reserveAsset net previous;
  positionMultiplier ← read_set _setToken SetToken.positionMultiplier;
  '(new, multiplier) ← lift (_getIssuePositionMultiplier positionMultiplier quantity previous);
  existingUnit ← BasicIssuance.default_unit _setToken _reserveAsset;
  unit ← lift (_getIssuePositionUnit existingUnit previous net new);
  mret {| preFeeReserveQuantity := _reserveAssetQuantity; protocolFees := protocol;
          managerFee := manager; netFlowQuantity := net; setTokenQuantity := quantity;
          previousSetTokenSupply := previous; newSetTokenSupply := new;
          newPositionMultiplier := multiplier; newReservePositionUnit := unit |}.

Definition _createRedemptionInfo this _setToken _reserveAsset (_setTokenQuantity : Z)
    : tx E ActionInfo :=
  preFee ← _getRedeemReserveQuantity _setToken _reserveAsset _setTokenQuantity;
  '(protocol, manager, net) ← _getFees this _setToken preFee
    PROTOCOL_REDEEM_MANAGER_REVENUE_SHARE_FEE_INDEX PROTOCOL_REDEEM_DIRECT_FEE_INDEX
    MANAGER_REDEEM_FEE_INDEX;
  previous ← supply _setToken;
  positionMultiplier ← read_set _setToken SetToken.positionMultiplier;
  '(new, multiplier) ←
    lift (_getRedeemPositionMultiplier positionMultiplier _setTokenQuantity previous);
  existingUnit ← BasicIssuance.default_unit _setToken _reserveAsset;
  unit ← lift (_getRedeemPositionUnit existingUnit previous net protocol manager new);
  mret {| preFeeReserveQuantity := preFee; protocolFees := protocol;
          managerFee := manager; netFlowQuantity := net; setTokenQuantity := _setTokenQuantity;
          previousSetTokenSupply := previous; newSetTokenSupply := new;
          newPositionMultiplier := multiplier; newReservePositionUnit := unit |}.

(** ** Checks and hooks *)

Definition _validateCommon _setToken _reserveAsset (_quantity : Z) : tx E () :=
  requires (0 <? _quantity) "Quantity must be > 0";;
  r ← asks (is_reserve _setToken _reserveAsset);
  requires r "Must be valid reserve asset".

Definition _validateIssuanceInfo _setToken (_minSetTokenReceiveQuantity : Z) (_issueInfo : ActionInfo)
    : tx E () :=
  s ← asks (settings _setToken);
  requires (minSetTokenSupply s <=? previousSetTokenSupply _issueInfo)
    "Supply must be greater than minimum to enable issuance";;
  requires (_minSetTokenReceiveQuantity <=? setTokenQuantity _issueInfo)
    "Must be greater than min SetToken".

Definition _validateRedemptionInfo _setToken (_minReserveReceiveQuantity : Z) (_redeemInfo : ActionInfo)
    : tx E () :=
  s ← asks (settings _setToken);
  requires (minSetTokenSupply s <=? newSetTokenSupply _redeemInfo)
    "Supply must be greater than minimum to enable redemption";;
  requires (_minReserveReceiveQuantity <=? netFlowQuantity _redeemInfo)
    "Must be greater than min receive reserve quantity".

Definition _callPreIssueHooks this _setToken _reserveAsset (_reserveAssetQuantity : Z)
    (_caller _to : Address) : tx E () :=
  preIssueHook ← asks (λ w, managerIssuanceHook (settings _setToken w));
  if negb (bool_decide (preIssueHook = Controller.address0)) then
    nav_invokePreIssueHook this preIssueHook _setToken _reserveAsset _reserveAssetQuantity _caller _to
  else mret ().

Definition _callPreRedeemHooks this _setToken (_setQuantity : Z) (_caller _to : Address) : tx E () :=
  preRedeemHook ← asks (λ w, managerRedemptionHook (settings _setToken w));
  if negb (bool_decide (preRedeemHook = Controller.address0)) then
    nav_invokePreRedeemHook this preRedeemHook _setToken _setQuantity _caller _to
  else mret ().

(** ** Transfers and updates *)

Definition _transferCollateralAndHandleFees this msg_sender _setToken _reserveAsset
    (_issueInfo : ActionInfo) : tx E () :=
  transferFrom this _reserveAsset msg_sender _setToken (netFlowQuantity _issueInfo);;
  (if 0 <? protocolFees _issueInfo then
     ctl ← asks controller;
     transferFrom this _reserveAsset msg_sender (Controller.feeRecipient ctl) (protocolFees _issueInfo)
   else mret ());;
  if 0 <? managerFee _issueInfo then
    recipient ← asks (λ w, nav_feeRecipient (settings _setToken w));
    transferFrom this _reserveAsset msg_sender recipient (managerFee _issueInfo)
  else mret ().

(** [weth.transfer], by the module. *)
Definition weth_transfer this _to (q : Z) : tx E () :=
  functionCallWithValue this weth 0 (transfer_data _to q);; mret ().

Definition _transferWETHAndHandleFees this _setToken (_issueInfo : ActionInfo) : tx E () :=
  weth_transfer this _setToken (netFlowQuantity _issueInfo);;
  (if 0 <? protocolFees _issueInfo then
     ctl ← asks controller;
     weth_transfer this (Controller.feeRecipient ctl) (protocolFees _issueInfo)
   else mret ());;
  if 0 <? managerFee _issueInfo then
    recipient ← asks (λ w, nav_feeRecipient (settings _setToken w));
    weth_transfer this recipient (managerFee _issueInfo)
  else mret ().

Definition editPositionMultiplier this _setToken (z : Z) : tx E () :=
  on_set _setToken (λ ctl, SetToken.execute ctl this (SetToken.EditPositionMultiplier z)).

Definition _handleIssueStateUpdates this _setToken _reserveAsset _to (_issueInfo : ActionInfo)
    : tx E () :=
  editPositionMultiplier this _setToken (newPositionMultiplier _issueInfo);;
  PositionLib.editDefaultPosition this _setToken _reserveAsset (newReservePositionUnit _issueInfo);;
  BasicIssuance.mint this _setToken _to (setTokenQuantity _issueInfo).

Definition _handleRedeemStateUpdates this _setToken _reserveAsset (_redeemInfo : ActionInfo)
    : tx E () :=
  editPositionMultiplier this _setToken (newPositionMultiplier _redeemInfo);;
  PositionLib.editDefaultPosition this _setToken _reserveAsset (newReservePositionUnit _redeemInfo).

Definition _handleRedemptionFees this _setToken _reserveAsset (_redeemInfo : ActionInfo) : tx E () :=
  payProtocolFeeFromSetToken this _setToken _reserveAsset (protocolFees _redeemInfo);;
  if 0 <? managerFee _redeemInfo then
    recipient ← asks (λ w, nav_feeRecipient (settings _setToken w));
    strictInvokeTransfer this _setToken _reserveAsset recipient (managerFee _redeemInfo)
  else mret ().

(** ** Issuance and redemption

    Each returns the figures of its event. *)

Definition issue this msg_sender _setToken _reserveAsset
    (_reserveAssetQuantity _minSetTokenReceiveQuantity : Z) _to : tx E ActionInfo :=
  nonReentrant (
    _validateOnlyValidAndInitializedSet this _setToken;;
    _validateCommon _setToken _reserveAsset _reserveAssetQuantity;;
    _callPreIssueHooks this _setToken _reserveAsset _reserveAssetQuantity msg_sender _to;;
    issueInfo ← _createIssuanceInfo this _setToken _reserveAsset _reserveAssetQuantity;
    _validateIssuanceInfo _setToken _minSetTokenReceiveQuantity issueInfo;;
    _transferCollateralAndHandleFees this msg_sender _setToken _reserveAsset issueInfo;;
    _handleIssueStateUpdates this _setToken _reserveAsset _to issueInfo;;
    mret issueInfo).

Definition issueWithEther this msg_sender (msg_value : Z) _setToken
    (_minSetTokenReceiveQuantity : Z) _to : tx E ActionInfo :=
  nonReentrant (
    _validateOnlyValidAndInitializedSet this _setToken;;
    functionCallWithValue this weth msg_value (SetToken.encodeWithSignature "deposit()" []);;
    _validateCommon _setToken weth msg_value;;
    _callPreIssueHooks this _setToken weth msg_value msg_sender _to;;
    issueInfo ← _createIssuanceInfo this _setToken weth msg_value;
    _validateIssuanceInfo _setToken _minSetTokenReceiveQuantity issueInfo;;
    _transferWETHAndHandleFees this _setToken issueInfo;;
    _handleIssueStateUpdates this _setToken weth _to issueInfo;;
    mret issueInfo).

Definition redeem this msg_sender _setToken _reserveAsset
    (_setTokenQuantity _minReserveReceiveQuantity : Z) _to : tx E ActionInfo :=
  nonReentrant (
    _validateOnlyValidAndInitializedSet this _setToken;;
    _validateCommon _setToken _reserveAsset _setTokenQuantity;;
    _callPreRedeemHooks this _setToken _setTokenQuantity msg_sender _to;;
    redeemInfo ← _createRedemptionInfo this _setToken _reserveAsset _setTokenQuantity;
    _validateRedemptionInfo _setToken _minReserveReceiveQuantity redeemInfo;;
    BasicIssuance.burn this _setToken msg_sender _setTokenQuantity;;
    strictInvokeTransfer this _setToken _reserveAsset _to (netFlowQuantity redeemInfo);;
    _handleRedemptionFees this _setToken _reserveAsset redeemInfo;;
    _handleRedeemStateUpdates this _setToken _reserveAsset redeemInfo;;
    mret redeemInfo).

Definition redeemIntoEther this msg_sender _setToken
    (_setTokenQuantity _minReserveReceiveQuantity : Z) _to : tx E ActionInfo :=
  nonReentrant (
    _validateOnlyValidAndInitializedSet this _setToken;;
    _validateCommon _setToken weth _setTokenQuantity;;
    _callPreRedeemHooks this _setToken _setTokenQuantity msg_sender _to;;
    redeemInfo ← _createRedemptionInfo this _setToken weth _setTokenQuantity;
    _validateRedemptionInfo _setToken _minReserveReceiveQuantity redeemInfo;;
    BasicIssuance.burn this _setToken msg_sender _setTokenQuantity;;
    strictInvokeTransfer this _setToken weth this (netFlowQuantity redeemInfo);;
    functionCallWithValue this weth 0
      (SetToken.encodeWithSignature "withdraw(uint256)" [VNum (netFlowQuantity redeemInfo)]);;
    address_transfer this _to (netFlowQuantity redeemInfo);;
    _handleRedemptionFees this _setToken weth redeemInfo;;
    _handleRedeemStateUpdates this _setToken weth redeemInfo;;
    mret redeemInfo).

(** ** Management *)

Definition addReserveAsset this msg_sender _setToken _reserveAsset : tx E () :=
  _validateOnlyManagerAndValidSet this msg_sender _setToken;;
  r ← asks (is_reserve _setToken _reserveAsset);
  requires (negb r) "Reserve asset already exists";;
  s ← asks (settings _setToken);
  put_settings _setToken (with_assets (reserveAssets s ++ [_reserveAsset]) s);;
  put_flag _setToken _reserveAsset true.

Definition removeReserveAsset this msg_sender _setToken _reserveAsset : tx E () :=
  _validateOnlyManagerAndValidSet this msg_sender _setToken;;
  r ← asks (is_reserve _setToken _reserveAsset);
  requires r "Reserve asset does not exist";;
  s ← asks (settings _setToken);
  l ← lift (remove (reserveAssets s) _reserveAsset);
  put_settings _setToken (with_assets l s);;
  put_flag _setToken _reserveAsset false.

Definition editPremium this msg_sender _setToken (_premiumPercentage : Z) : tx E () :=
  _validateOnlyManagerAndValidSet this msg_sender _setToken;;
  s ← asks (settings _setToken);
  requires (_premiumPercentage <=? maxPremiumPercentage s) "Premium must be less than maximum allowed";;
  put_settings _setToken (with_rates (managerFees s) _premiumPercentage s).

Definition editManagerFee this msg_sender _setToken (_managerFeePercentage _managerFeeIndex : Z)
    : tx E () :=
  _validateOnlyManagerAndValidSet this msg_sender _setToken;;
  s ← asks (settings _setToken);
  requires (_managerFeePercentage <=? maxManagerFee s) "Manager fee must be less than maximum allowed";;
  fees ← lift (put_fee (managerFees s) _managerFeeIndex _managerFeePercentage);
  put_settings _setToken (with_rates fees (premiumPercentage s) s).

Definition editFeeRecipient this msg_sender _setToken (_managerFeeRecipient : Address) : tx E () :=
  _validateOnlyManagerAndValidSet this msg_sender _setToken;;
  requires (negb (bool_decide (_managerFeeRecipient = Controller.address0)))
    "Fee recipient must not be 0 address";;
  s ← asks (settings _setToken);
  put_settings _setToken (with_recipient _managerFeeRecipient s).

Fixpoint flag_loop _setToken (l : list Address) : tx E () :=
  match l with
  | [] => mret ()
  | a :: l' =>
      r ← asks (is_reserve _setToken a);
      requires (negb r) "Reserve assets must be unique";;
      put_flag _setToken a true;;
      flag_loop _setToken l'
  end.

Definition initialize this msg_sender _setToken (_navIssuanceSettings : CustomOracleNAVIssuanceSettings)
    : tx E () :=
  _validateOnlySetManager _setToken msg_sender;;
  _validateOnlyValidAndPendingSet this _setToken;;
  let s := _navIssuanceSettings in
  requires (0 <? length (reserveAssets s))%nat "Reserve assets must be greater than 0";;
  requires (maxManagerFee s <? PreciseUnitMath.preciseUnit) "Max manager fee must be less than 100%";;
  requires (maxPremiumPercentage s <? PreciseUnitMath.preciseUnit)
    "Max premium percentage must be less than 100%";;
  requires ((managerFees s).1 <=? maxManagerFee s) "Manager issue fee must be less than max";;
  requires ((managerFees s).2 <=? maxManagerFee s) "Manager redeem fee must be less than max";;
  requires (premiumPercentage s <=? maxPremiumPercentage s) "Premium must be less than max";;
  requires (negb (bool_decide (nav_feeRecipient s = Controller.address0)))
    "Fee Recipient must be non-zero address.";;
  requires (0 <? minSetTokenSupply s) "Min SetToken supply must be greater than 0";;
  flag_loop _setToken (reserveAssets s);;
  put_settings _setToken s;;
  on_set _setToken (λ ctl, SetToken.execute ctl this SetToken.InitializeModule).

Fixpoint unflag_loop _setToken (l : list Address) : tx E () :=
  match l with
  | [] => mret ()
  | a :: l' => put_flag _setToken a false;; unflag_loop _setToken l'
  end.

Definition removeModule msg_sender : tx E () :=
  s ← asks (settings msg_sender);
  unflag_loop msg_sender (reserveAssets s);;
  put_settings msg_sender no_settings.

(** ** Views *)

Definition getReserveAssets _setToken (w : World E) : list Address := reserveAssets (settings _setToken w).
Definition getIssuePremium _setToken : tx E Z := _getIssuePremium _setToken.
Definition getRedeemPremium _setToken : tx E Z := _getRedeemPremium _setToken.
Definition getManagerFee _setToken (_managerFeeIndex : Z) : tx E Z :=
  s ← asks (settings _setToken);
  lift (fee_at (managerFees s) _managerFeeIndex).

Definition getExpectedSetTokenIssueQuantity this _setToken _reserveAsset (_reserveAssetQuantity : Z)
    : tx E Z :=
  '(_, _, netReserveFlow) ← _getFees this _setToken _reserveAssetQuantity
    PROTOCOL_ISSUE_MANAGER_REVENUE_SHARE_FEE_INDEX PROTOCOL_ISSUE_DIRECT_FEE_INDEX
    MANAGER_ISSUE_FEE_INDEX;
  setTotalSupply ← supply _setToken;
  _getSetTokenMintQuantity _setToken _reserveAsset netReserveFlow setTotalSupply.

Definition getExpectedReserveRedeemQuantity this _setToken _reserveAsset (_setTokenQuantity : Z)
    : tx E Z :=
  preFeeReserveQuantity ← _getRedeemReserveQuantity _setToken _reserveAsset _setTokenQuantity;
  '(_, _, netReserveFlows) ← _getFees this _setToken preFeeReserveQuantity
    PROTOCOL_REDEEM_MANAGER_REVENUE_SHARE_FEE_INDEX PROTOCOL_REDEEM_DIRECT_FEE_INDEX
    MANAGER_REDEEM_FEE_INDEX;
  mret netReserveFlows.

Definition isIssueValid _setToken _reserveAsset (_reserveAssetQuantity : Z) : tx E bool :=
  setTotalSupply ← supply _setToken;
  s ← asks (settings _setToken);
  r ← asks (is_reserve _setToken _reserveAsset);
  mret (negb (_reserveAssetQuantity =? 0) && r && (minSetTokenSupply s <=? setTotalSupply)).

(** [||] adds the minimum only when the first tests fail. *)
Definition isRedeemValid this _setToken _reserveAsset (_setTokenQuantity : Z) : tx E bool :=
  setTotalSupply ← supply _setToken;
  s ← asks (settings _setToken);
  r ← asks (is_reserve _setToken _reserveAsset);
  if (_setTokenQuantity =? 0) || negb r then mret false
  else
    needed ← lift (SafeMath.add (minSetTokenSupply s) _setTokenQuantity);
    if setTotalSupply <? needed then mret false
    else
      totalRedeemValue ← _getRedeemReserveQuantity _setToken _reserveAsset _setTokenQuantity;
      '(_, _, expectedRedeemQuantity) ← _getFees this _setToken totalRedeemValue
        PROTOCOL_REDEEM_MANAGER_REVENUE_SHARE_FEE_INDEX PROTOCOL_REDEEM_DIRECT_FEE_INDEX
        MANAGER_REDEEM_FEE_INDEX;
      existingUnit ← BasicIssuance.default_unit _setToken _reserveAsset;
      n ← lift (PreciseUnitMath.preciseMul_u existingUnit setTotalSupply);
      mret (expectedRedeemQuantity <=? n).
End CustomOracleNavIssuanceModule.
End NavIssuance.
