(* ===== verification/NavTheorems.v ===== *)
(** * Net asset value is kept

    What an issuance and a redemption at net asset value (NavIssuance.v) do to the set
    and its holders. *)
From Stdlib Require Import String.
From S2P Require Import Prelude JsString BigNumber Constants MathUtils SolMath.
From S2P Require Import AddressArrayUtils Script AdapterUtils Controller NavUtils Erc20 SetToken.
From S2P Require Import IntegrationRegistry World Position Tokens Holdings PriceOracle SetValuer BasicIssuance.
From S2P Require Import NavIssuance.

Module NavTheorems.
Import CustomOracleNAVIssuanceModule.

(** ** The figures of an action *)
Section Figures.

(** Net flow and fees share the quantity out. *)
Lemma getFees_split (direct share manager q p m n : Z) :
  is_uint q → _getFees direct share manager q = Ok (p, m, n) →
  is_uint p ∧ is_uint m ∧ is_uint n ∧ n + p + m = q.
Proof.
  intros Hq Hf. unfold _getFees in Hf. apply result_bind_ok in Hf as ([a b] & _ & Hf).
  apply result_bind_ok in Hf as (p' & Hp & Hf). apply result_bind_ok in Hf as (m' & Hm & Hf).
  apply result_bind_ok in Hf as (x & Hx & Hf). apply result_bind_ok in Hf as (y & Hy & Hf).
  injection Hf as -> -> ->. apply preciseMul_u_word in Hp, Hm.
  apply safe_sub_inv in Hx as (-> & _ & Hx); [|done..].
  apply safe_sub_inv in Hy as (-> & _ & Hy); [|done..]. split; [done|]. split; [done|]. split; [done|lia].
Qed.

(** The tokens minted are worth at most the net flow, both at the valuation. *)
Lemma mint_quantity_fair (premium V decimals net S q : Z) :
  is_uint V → is_uint net → is_uint S →
  _getSetTokenMintQuantity premium V decimals net S = Ok q →
  is_uint q ∧ 0 < base_units decimals ∧
  S * V / 10 ^ 18 * q ≤ net * 10 ^ 18 / base_units decimals * S.
Proof.
  intros HV Hn HS Hq. unfold _getSetTokenMintQuantity in Hq.
  assert (is_uint (base_units decimals)) as Hb by apply wrap_uint_uint.
  set (b := base_units decimals) in *.
  apply result_bind_ok in Hq as (pv & Hpv & Hq). apply preciseMul_u_word in Hpv.
  apply result_bind_ok in Hq as (x & Hx & Hq). apply preciseDiv_u_floor in Hx as (Hb0 & Ex & Hx); [|done..].
  apply result_bind_ok in Hq as (d & Hd & Hq). apply safe_sub_inv in Hd as (Ed & _ & Hd); [|done..].
  apply result_bind_ok in Hq as (y & Hy & Hq). apply preciseDiv_u_floor in Hy as (_ & Ey & Hy); [|done..].
  apply result_bind_ok in Hq as (v & Hv & Hq). apply preciseMul_u_floor in Hv as [Ev Hv]; [|done..].
  apply result_bind_ok in Hq as (s & Hs & Hq). apply safe_add_inv in Hs as [Es Hs]; [|done..].
  apply result_bind_ok in Hq as (t & Ht & Hq). apply safe_sub_inv in Ht as (Et & _ & Ht); [|done..].
  apply result_bind_ok in Hq as (n & Hn' & Hq). apply preciseMul_u_floor in Hn' as [En Hn']; [|done..].
  apply preciseDiv_u_floor in Hq as (Ht0 & Eq & Hq); [|done..].
  split; [done|]. split; [done|]. rewrite <- Ev, <- Ex.
  assert (y ≤ x) as Hyx by (subst x y; apply Z.div_le_mono; unfold is_uint in *; lia).
  pose proof (Z.mul_div_le (n * 10 ^ 18) t Ht0) as H1. rewrite <- Eq in H1.
  pose proof (Z.mul_div_le (y * S) (10 ^ 18) ltac:(lia)) as H2. rewrite <- En in H2.
  unfold is_uint in *. assert (t * q ≤ y * S) as H3 by lia.
  assert (v * q ≤ t * q) as H4 by (apply Z.mul_le_mono_nonneg_r; lia).
  assert (y * S ≤ x * S) as H5 by (apply Z.mul_le_mono_nonneg_r; lia). lia.
Qed.

(** What a redemption takes out is worth at most the tokens burned. *)
Lemma redeem_quantity_fair (premium V decimals Q z : Z) :
  is_uint V → is_uint Q → _getRedeemReserveQuantity premium V decimals Q = Ok z →
  is_uint z ∧ z * 10 ^ 36 ≤ Q * V * base_units decimals.
Proof.
  intros HV HQ Hz. unfold _getRedeemReserveQuantity in Hz.
  assert (is_uint (base_units decimals)) as Hb by apply wrap_uint_uint.
  set (b := base_units decimals) in *.
  apply result_bind_ok in Hz as (v & Hv & Hz). apply preciseMul_u_floor in Hv as [Ev Hv]; [|done..].
  apply result_bind_ok in Hz as (x & Hx & Hz). apply preciseMul_u_floor in Hx as [Ex Hx]; [|done..].
  apply result_bind_ok in Hz as (y & Hy & Hz). apply preciseMulCeil_u_word in Hy.
  apply safe_sub_inv in Hz as (Ez & _ & Hz); [|done..]. split; [done|].
  pose proof (Z.mul_div_le (Q * V) (10 ^ 18) ltac:(lia)) as H1. rewrite <- Ev in H1.
  pose proof (Z.mul_div_le (v * b) (10 ^ 18) ltac:(lia)) as H2. rewrite <- Ex in H2.
  unfold is_uint in *. assert (10 ^ 18 * v * b ≤ Q * V * b) by (apply Z.mul_le_mono_nonneg_r; lia).
  change (10 ^ 36) with (10 ^ 18 * 10 ^ 18). lia.
Qed.

Lemma issue_unit (u S net T U : Z) :
  is_uint u → is_uint S → is_uint net → is_uint T → _getIssuePositionUnit u S net T = Ok U →
  0 < T ∧ U = (u * S / 10 ^ 18 + net) * 10 ^ 18 / T ∧ is_uint U.
Proof.
  intros Hu HS Hn HT HU. unfold _getIssuePositionUnit in HU.
  apply result_bind_ok in HU as (x & Hx & HU). apply preciseMul_u_floor in Hx as [-> Hx]; [|done..].
  apply result_bind_ok in HU as (y & Hy & HU). apply safe_add_inv in Hy as [-> Hy]; [|done..].
  by apply preciseDiv_u_floor in HU.
Qed.

Lemma redeem_unit (u S net p m T U : Z) :
  is_uint u → is_uint S → is_uint net → is_uint p → is_uint m → is_uint T →
  _getRedeemPositionUnit u S net p m T = Ok U →
  0 < T ∧ U = (u * S / 10 ^ 18 - (net + p + m)) * 10 ^ 18 / T ∧ is_uint U ∧
  net + p + m ≤ u * S / 10 ^ 18.
Proof.
  intros Hu HS Hn Hp Hm HT HU. unfold _getRedeemPositionUnit in HU.
  apply result_bind_ok in HU as (x & Hx & HU). apply preciseMul_u_floor in Hx as [-> Hx]; [|done..].
  apply result_bind_ok in HU as (y & Hy & HU). apply safe_add_inv in Hy as [-> Hy]; [|done..].
  apply result_bind_ok in HU as (o & Ho & HU). apply safe_add_inv in Ho as [-> Ho]; [|done..].
  apply result_bind_ok in HU as (? & Hr & HU). apply require_ok, Z.leb_le in Hr.
  apply result_bind_ok in HU as (r & Hr' & HU). apply safe_sub_inv in Hr' as (-> & _ & Hr'); [|done..].
  apply preciseDiv_u_floor in HU as (? & ? & ?); done.
Qed.
End Figures.

(** ** Multipliers *)
Section Multipliers.
Context `{SignedLib}.

Lemma multiplier_ratio (m S T M : Z) (p n t : Z) :
  is_int m → 0 < m → is_uint S → is_uint T → toInt256 S = Ok p → int_mul m p = Ok t →
  toInt256 T = Ok n → int_div t n = Ok M → 0 < T ∧ M = m * S / T ∧ is_int M.
Proof.
  intros Hm Hm0 HS HT Hp Ht Hn HM. apply toInt256_inv in Hp as (-> & _ & Hp); [|done].
  apply int_mul_inv in Ht as [-> Ht]; [|done..]. apply toInt256_inv in Hn as (-> & _ & Hn); [|done].
  destruct (Z.eqb_spec T 0) as [->|]; [by rewrite int_div_zero in HM|]. unfold is_uint in HS, HT.
  assert (is_int (Z.quot (m * S) T)) by (apply int_div_in_range; [done..|left; unfold INT_MIN; nia]).
  rewrite int_div_fits in HM by done. injection HM as <-. split; [lia|]. split; [|done].
  apply quot_floor; [nia|lia].
Qed.

Lemma issue_multiplier (m q S T M : Z) :
  is_int m → 0 < m → is_uint q → is_uint S → _getIssuePositionMultiplier m q S = Ok (T, M) →
  is_uint T ∧ T = q + S ∧ 0 < T ∧ M = m * S / T ∧ is_int M.
Proof.
  intros Hm Hm0 Hq HS HM. unfold _getIssuePositionMultiplier in HM.
  apply result_bind_ok in HM as (t & Ht & HM). apply safe_add_inv in Ht as [-> Ht]; [|done..].
  result_inv. split; [done|]. split; [done|]. by eapply multiplier_ratio.
Qed.

Lemma redeem_multiplier (m q S T M : Z) :
  is_int m → 0 < m → is_uint q → is_uint S → _getRedeemPositionMultiplier m q S = Ok (T, M) →
  is_uint T ∧ T = S - q ∧ 0 < T ∧ M = m * S / T ∧ is_int M.
Proof.
  intros Hm Hm0 Hq HS HM. unfold _getRedeemPositionMultiplier in HM.
  apply result_bind_ok in HM as (t & Ht & HM). apply safe_sub_inv in Ht as (-> & _ & Ht); [|done..].
  result_inv. split; [done|]. split; [done|]. by eapply multiplier_ratio.
Qed.
End Multipliers.

(** ** Claims *)

(** A claim on an untouched component. *)
Lemma claim_scaled (v m M S T z : Z) :
  0 ≤ m → 0 ≤ S → 0 < T → 0 ≤ z → M = m * S / T → v * m * S ≤ z * 10 ^ 36 → v * M * T ≤ z * 10 ^ 36.
Proof.
  intros Hm HS HT Hz HM Hc. pose proof (Z.mul_div_le (m * S) T HT) as H1. rewrite <- HM in H1.
  assert (0 ≤ M) by (subst M; apply Z.div_pos; nia).
  destruct (Z.le_gt_cases 0 v).
  - assert (v * (T * M) ≤ v * (m * S)) by (apply Z.mul_le_mono_nonneg_l; lia). lia.
  - assert (v * (M * T) ≤ 0) by (apply Z.mul_nonpos_nonneg; nia). nia.
Qed.

(** What the positions read back is covered. *)
Lemma claim_real (v m S z : Z) :
  0 ≤ S → v * m * S ≤ z * 10 ^ 36 → v * m / 10 ^ 18 * S ≤ z * 10 ^ 18.
Proof.
  intros HS Hc. pose proof (Z.mul_div_le (v * m) (10 ^ 18) ltac:(lia)) as H1.
  set (u := v * m / 10 ^ 18) in *. assert (10 ^ 18 * u * S ≤ v * m * S) by (apply Z.mul_le_mono_nonneg_r; lia).
  apply (Z.mul_le_mono_pos_l _ _ (10 ^ 18)); [lia|]. change (10 ^ 36) with (10 ^ 18 * 10 ^ 18) in Hc. lia.
Qed.

(** The claim on the reserve asset, of which [R] is left in the position. *)
Lemma claim_stored (R M T z U : Z) :
  0 < M → 0 < T → R ≤ z → U = R * 10 ^ 18 / T → U * 10 ^ 18 / M * M * T ≤ z * 10 ^ 36.
Proof.
  intros HM HT Hz HU. pose proof (Z.mul_div_le (U * 10 ^ 18) M HM) as H1.
  pose proof (Z.mul_div_le (R * 10 ^ 18) T HT) as H2. rewrite <- HU in H2.
  set (v := U * 10 ^ 18 / M) in *.
  assert (M * v * T ≤ U * 10 ^ 18 * T) by (apply Z.mul_le_mono_nonneg_r; lia).
  change (10 ^ 36) with (10 ^ 18 * 10 ^ 18). lia.
Qed.

(** ** Positions that are stored as they are listed *)
Section Stored.
Context `{ERC20} `{SignedLib} {E : Type}.
Implicit Types (this st c : Address) (w : World E) (s : SetToken.State).

Definition virt s c : Z := SetToken.virtualUnit (SetToken.position s c).

(** The array lists the components with a virtual unit or an external position, and
    no positive unit reads back as zero. *)
Definition stored s : Prop := ∀ c,
  (c ∈ SetToken.getComponents s ↔ 0 < virt s c ∨ SetToken.getExternalPositionModules s c ≠ []) ∧
  (0 < virt s c → 0 < PositionLib.real_unit s c).

Lemma real_virt s c : 0 < SetToken.positionMultiplier s → 0 < PositionLib.real_unit s c → 0 < virt s c.
Proof.
  intros Hm Hr. unfold virt. unfold PositionLib.real_unit in Hr.
  set (v := SetToken.virtualUnit _) in *. set (m := SetToken.positionMultiplier s) in *.
  destruct (Z.lt_ge_cases 0 v); [done|].
  pose proof (Z.mul_div_le (v * m) (10 ^ 18) ltac:(lia)). assert (v * m ≤ 0) by nia. lia.
Qed.

Lemma stored_tracked s : SetToken.consistent s → stored s → PositionLib.tracked s.
Proof.
  intros (_ & _ & _ & _ & _ & Hm & _) Hst c. destruct (Hst c) as [Hc Hp]. rewrite Hc. split.
  - intros [Hv|?]; [left; auto|by right].
  - intros [Hr|?]; [left; by apply real_virt|by right].
Qed.

(** The multiplier of a set, and then a position under it. *)
Lemma nav_updates_ok this st c (M U : Z) (u : ()) w w' s :
  this ≠ Controller.address0 → sets w !! st = Some s → SetToken.consistent s → stored s →
  is_int M → is_uint U →
  (NavIssuance.editPositionMultiplier this st M;; PositionLib.editDefaultPosition this st c U) w = Ok (u, w') →
  ∃ s', w' = put_set st s' w ∧ SetToken.consistent s' ∧ stored s' ∧ 0 < M ∧
    SetToken.token s' = SetToken.token s ∧ SetToken.positionMultiplier s' = M ∧
    (∀ c', c' ≠ c → SetToken.position s' c' = SetToken.position s c') ∧
    virt s' c = U * 10 ^ 18 / M ∧
    ∀ c', SetToken.getExternalPositionModules s' c' = SetToken.getExternalPositionModules s c'.
Proof.
  intros Ht Es Hs Hst HM HU Hw. apply tx_bind_ok in Hw as (x & w1 & Hm & Hw).
  apply (on_set_at _ _ _ _ _ s) in Hm as (s1 & E1 & ->); [|done].
  assert (SetToken.consistent s1) as Hs1
    by (by eapply (PositionLib.execute_ok _ this (SetToken.EditPositionMultiplier M))).
  cbn in E1. unfold SetToken.editPositionMultiplier in E1. apply result_bind_ok in E1 as (? & _ & E1).
  apply result_bind_ok in E1 as (? & Ev & E1). injection E1 as <-.
  apply SetToken.validateNewMultiplier_ok in Ev as [HM0 Hall]; [|apply Hs|done].
  match type of Hs1 with SetToken.consistent ?y => set (s1 := y) in * end.
  assert (stored s1) as Hst1.
  { intros a. destruct (Hst a) as [Ha _]. split; [exact Ha|]. intros Hv.
    apply (Hall a); [apply Ha; by left|done]. }
  pose proof (stored_tracked s1 Hs1 Hst1) as Htr.
  pose proof (PositionLib.editDefaultPosition_ok _ _ _ _ _ _ _ s1 Ht (put_set_at _ _ _) Hs1 Htr HU Hw)
    as (s2 & -> & Hs2 & Htr2 & Htok & Hmul & Hpos & _).
  pose proof (PositionLib.editDefaultPosition_stores _ _ _ _ _ _ _ s1 Ht (put_set_at _ _ _) Hs1 Htr HU Hw)
    as (s3 & E3 & Hr & Hv & Hx).
  assert (s3 = s2) as -> by (by apply (f_equal (λ v, sets v !! st)) in E3; rewrite !put_set_at in E3; simplify_eq).
  rewrite put_set_twice. exists s2. split; [done|]. split; [done|]. rewrite Hmul. cbn.
  split; [|by repeat (split; [done|])].
  intros a. assert (0 < virt s2 a → 0 < PositionLib.real_unit s2 a) as Ha.
  { destruct (decide (a = c)) as [->|Hne].
    - unfold virt. rewrite Hv. intros Hpos'. apply Hr. destruct (Z.lt_ge_cases 0 U) as [|HU0]; [done|].
      replace U with 0 in Hpos' by (unfold is_uint in HU; lia). by rewrite Z.div_0_l in Hpos' by (cbn; lia).
    - unfold virt, PositionLib.real_unit. rewrite Hpos, Hmul by done. apply Hst1. }
  split; [|done]. rewrite (Htr2 a). split.
  - intros [Hra|?]; [left|by right]. apply real_virt; [apply Hs2|done].
  - intros [Hva|?]; [left; auto|by right].
Qed.
End Stored.

(** ** The figures of an issuance and of a redemption *)
Section Infos.
Context `{ERC20} `{SignedLib} {E : Type} `{!External E} `{!ReentrancyGuard E} `{!NavStorage E}
  `{!INAVIssuanceHook E} `{!ISetValuer E} `{!Decimals E} `{!Payable E}.
Import NavIssuance.
Implicit Types (this st c : Address) (w : World E) (s : SetToken.State) (i : ActionInfo).

Definition supply_of s : Z := totalSupply (SetToken.token s).

(** The valuation of a set in an asset, by the valuer the settings name. *)
Definition valued st c w (V : Z) : Prop :=
  ∃ valuer w', _getSetValuer st w = Ok (valuer, w') ∧ valuer_calculateSetTokenValuation valuer st c w = Ok V.

(** Net flow and fees make up the reserve quantity. *)
Definition shared_out i : Prop :=
  is_uint (netFlowQuantity i) ∧ is_uint (protocolFees i) ∧ is_uint (managerFee i) ∧
  netFlowQuantity i + protocolFees i + managerFee i = preFeeReserveQuantity i.

(** The multiplier and the supply of the set afterwards, and the unit that leaves
    [R] of the reserve asset in the position. *)
Definition rescaled s (R : Z) i : Prop :=
  previousSetTokenSupply i = supply_of s ∧ is_uint (newSetTokenSupply i) ∧ 0 < newSetTokenSupply i ∧
  newPositionMultiplier i = SetToken.positionMultiplier s * supply_of s / newSetTokenSupply i ∧
  is_int (newPositionMultiplier i) ∧
  newReservePositionUnit i = R * 10 ^ 18 / newSetTokenSupply i ∧ is_uint (newReservePositionUnit i).

(** What the position of the reserve asset amounts to. *)
Definition reserve_of s c : Z := PositionLib.real_unit s c * supply_of s / 10 ^ 18.

Lemma nav_default_unit_ok st c (u : Z) w w' s :
  sets w !! st = Some s → SetToken.consistent s → BasicIssuance.default_unit st c w = Ok (u, w') →
  w' = w ∧ u = PositionLib.real_unit s c ∧ is_uint u.
Proof.
  intros Es Hs Hu. unfold BasicIssuance.default_unit in Hu.
  apply tx_bind_ok in Hu as (x & w2 & Hx & Hu). apply view_set_ok in Hx as (s0 & E0 & Hx & <-).
  rewrite Es in E0. injection E0 as <-. apply PositionLib.getDefault_real in Hx as [-> Hx]; [|done].
  apply lift_ok in Hu as [Hu <-]. by apply toUint256_inv in Hu as (-> & _ & Hu).
Qed.

Lemma fees_ok this st (q a b k : Z) (p m n : Z) w w' :
  is_uint q → _getFees this st q a b k w = Ok ((p, m, n), w') →
  w' = w ∧ is_uint p ∧ is_uint m ∧ is_uint n ∧ n + p + m = q.
Proof.
  intros Hq Hw. unfold _getFees in Hw. read_steps Hw. apply lift_ok in Hw as [Hw <-]. split; [done|].
  by eapply getFees_split.
Qed.

Lemma supply_ok st (z : Z) w w' s :
  sets w !! st = Some s → supply st w = Ok (z, w') → w' = w ∧ z = supply_of s.
Proof. intros Es Hz. apply read_set_ok in Hz as (s0 & E0 & -> & <-). by simplify_eq. Qed.

Lemma multiplier_read st (m : Z) w w' s :
  sets w !! st = Some s → read_set st SetToken.positionMultiplier w = Ok (m, w') →
  w' = w ∧ m = SetToken.positionMultiplier s.
Proof. intros Es Hz. apply read_set_ok in Hz as (s0 & E0 & -> & <-). by simplify_eq. Qed.

Definition fair_mint st c w s i : Prop := ∃ V d, valued st c w V ∧ ERC20_decimals c w = Ok d ∧
  0 < base_units d ∧
  supply_of s * V / 10 ^ 18 * setTokenQuantity i ≤
    netFlowQuantity i * 10 ^ 18 / base_units d * supply_of s.

Lemma valuer_reading st : reading (_getSetValuer (E := E) st).
Proof. unfold _getSetValuer. reading. Qed.

Lemma nav_mint_ok st c (net S q : Z) w w' s :
  sets w !! st = Some s → SetToken.consistent s → is_uint net → is_uint S → _getSetTokenMintQuantity st c net S w = Ok (q, w') →
  w' = w ∧ is_uint q ∧ ∃ V d, valued st c w V ∧ ERC20_decimals c w = Ok d ∧ 0 < base_units d ∧
    S * V / 10 ^ 18 * q ≤ net * 10 ^ 18 / base_units d * S.
Proof.
  intros Es Hs Hn HS Hw. unfold _getSetTokenMintQuantity, _getIssuePremium in Hw.
  apply tx_bind_ok in Hw as (premium & w1 & Hp & Hw). apply asks_ok in Hp as [_ <-].
  apply tx_bind_ok in Hw as (? & w1 & Hp & Hw). apply lift_ok in Hp as [_ <-].
  apply tx_bind_ok in Hw as (valuer & w1 & Hv & Hw). pose proof (valuer_reading _ _ _ _ Hv) as ->.
  apply tx_bind_ok in Hw as (V & w2 & HV & Hw). apply query_ok in HV as [HV <-].
  apply tx_bind_ok in Hw as (d & w2 & Hd & Hw). apply query_ok in Hd as [Hd <-].
  apply lift_ok in Hw as [Hw <-]. split; [done|].
  apply mint_quantity_fair in Hw as (Hq & Hb & Hf); [|by eapply valuation_word|done..].
  split; [done|]. exists V, d. split; [by exists valuer, w|]. done.
Qed.

Lemma createIssuanceInfo_ok this st c (q : Z) i w w' s :
  sets w !! st = Some s → SetToken.consistent s → is_uint q →
  _createIssuanceInfo this st c q w = Ok (i, w') →
  w' = w ∧ preFeeReserveQuantity i = q ∧ shared_out i ∧ is_uint (setTokenQuantity i) ∧
  newSetTokenSupply i = supply_of s + setTokenQuantity i ∧ 0 ≤ PositionLib.real_unit s c ∧
  rescaled s (reserve_of s c + netFlowQuantity i) i ∧ fair_mint st c w s i.
Proof.
  intros Es Hs Hq Hw. pose proof Hs as (_ & _ & _ & _ & Hm & Hm0 & HS). fold (supply_of s) in HS.
  unfold _createIssuanceInfo in Hw.
  apply tx_bind_ok in Hw as (S & w1 & Hx & Hw). apply (supply_ok _ _ _ _ s) in Hx as [-> ->]; [|done].
  apply tx_bind_ok in Hw as ([[p m] n] & w1 & Hf & Hw). apply fees_ok in Hf as (-> & Hp & Hmf & Hn & Eq); [|done].
  apply tx_bind_ok in Hw as (k & w1 & Hk & Hw). apply (nav_mint_ok _ _ _ _ _ _ _ s) in Hk as (-> & Hk & Hfair); [|done..].
  apply tx_bind_ok in Hw as (pm & w1 & Hx & Hw). apply (multiplier_read _ _ _ _ s) in Hx as [-> ->]; [|done].
  apply tx_bind_ok in Hw as ([T M] & w1 & Hx & Hw). apply lift_ok in Hx as [Hx <-].
  apply issue_multiplier in Hx as (HTw & HT & HT0 & HM & HMi); [|done..].
  apply tx_bind_ok in Hw as (u & w1 & Hx & Hw).
  apply (nav_default_unit_ok _ _ _ _ _ s) in Hx as (-> & -> & Hu); [|done..].
  apply tx_bind_ok in Hw as (U & w1 & Hx & Hw). apply lift_ok in Hx as [Hx <-].
  apply issue_unit in Hx as (_ & HU & HUw); [|done..].
  apply tx_ret_ok in Hw as [<- <-]. cbn. split; [done|]. split; [done|]. split; [done|].
  split; [done|]. split; [lia|]. split; [apply Hu|]. by repeat (split; [done|]).
Qed.

Definition fair_payout st c w i : Prop := ∃ V d, valued st c w V ∧ ERC20_decimals c w = Ok d ∧
  preFeeReserveQuantity i * 10 ^ 36 ≤ setTokenQuantity i * V * base_units d.

Lemma payout_ok st c (q z : Z) w w' s :
  sets w !! st = Some s → SetToken.consistent s → is_uint q → _getRedeemReserveQuantity st c q w = Ok (z, w') →
  w' = w ∧ is_uint z ∧ ∃ V d, valued st c w V ∧ ERC20_decimals c w = Ok d ∧
    z * 10 ^ 36 ≤ q * V * base_units d.
Proof.
  intros Es Hs Hq Hw. unfold _getRedeemReserveQuantity, _getRedeemPremium in Hw.
  apply tx_bind_ok in Hw as (valuer & w1 & Hv & Hw). pose proof (valuer_reading _ _ _ _ Hv) as ->.
  apply tx_bind_ok in Hw as (V & w2 & HV & Hw). apply query_ok in HV as [HV <-].
  apply tx_bind_ok in Hw as (? & w2 & Hp & Hw). apply lift_ok in Hp as [_ <-].
  apply tx_bind_ok in Hw as (d & w2 & Hd & Hw). apply query_ok in Hd as [Hd <-].
  apply tx_bind_ok in Hw as (premium & w2 & Hp & Hw). apply asks_ok in Hp as [_ <-].
  apply lift_ok in Hw as [Hw <-]. split; [done|].
  apply redeem_quantity_fair in Hw as [Hz Hf]; [|by eapply valuation_word|done].
  split; [done|]. exists V, d. split; [by exists valuer, w|]. done.
Qed.

Lemma createRedemptionInfo_ok this st c (q : Z) i w w' s :
  sets w !! st = Some s → SetToken.consistent s → is_uint q →
  _createRedemptionInfo this st c q w = Ok (i, w') →
  w' = w ∧ setTokenQuantity i = q ∧ shared_out i ∧
  newSetTokenSupply i = supply_of s - q ∧ 0 ≤ PositionLib.real_unit s c ∧
  preFeeReserveQuantity i ≤ reserve_of s c ∧
  rescaled s (reserve_of s c - preFeeReserveQuantity i) i ∧ fair_payout st c w i.
Proof.
  intros Es Hs Hq Hw. pose proof Hs as (_ & _ & _ & _ & Hm & Hm0 & HS). fold (supply_of s) in HS.
  unfold _createRedemptionInfo in Hw.
  apply tx_bind_ok in Hw as (z & w1 & Hx & Hw). apply (payout_ok _ _ _ _ _ _ s) in Hx as (-> & Hz & Hfair); [|done..].
  apply tx_bind_ok in Hw as ([[p m] n] & w1 & Hf & Hw). apply fees_ok in Hf as (-> & Hp & Hmf & Hn & Eq); [|done].
  apply tx_bind_ok in Hw as (S & w1 & Hx & Hw). apply (supply_ok _ _ _ _ s) in Hx as [-> ->]; [|done].
  apply tx_bind_ok in Hw as (pm & w1 & Hx & Hw). apply (multiplier_read _ _ _ _ s) in Hx as [-> ->]; [|done].
  apply tx_bind_ok in Hw as ([T M] & w1 & Hx & Hw). apply lift_ok in Hx as [Hx <-].
  apply redeem_multiplier in Hx as (HTw & HT & HT0 & HM & HMi); [|done..].
  apply tx_bind_ok in Hw as (u & w1 & Hx & Hw).
  apply (nav_default_unit_ok _ _ _ _ _ s) in Hx as (-> & -> & Hu); [|done..].
  apply tx_bind_ok in Hw as (U & w1 & Hx & Hw). apply lift_ok in Hx as [Hx <-].
  apply redeem_unit in Hx as (_ & HU & HUw & Hle); [|done..]. rewrite Eq in HU, Hle.
  apply tx_ret_ok in Hw as [<- <-]. cbn. split; [done|]. split; [done|]. split; [done|].
  split; [lia|]. split; [apply Hu|]. split; [exact Hle|]. by repeat (split; [done|]).
Qed.
End Infos.

(** ** Claims under a new multiplier *)
Section Covered.
Context `{ERC20} `{SignedLib} {E : Type} `{!External E}.
Import NavIssuance.
Implicit Types (st c : Address) (w : World E) (s : SetToken.State) (i : ActionInfo).

(** The balances of a set cover what its positions, before rounding, give its
    holders. *)
Definition covered st w s : Prop := ∀ c, c ∈ SetToken.getComponents s →
  ∃ z, IERC20_balanceOf c st w = Ok z ∧
    virt s c * SetToken.positionMultiplier s * supply_of s ≤ z * 10 ^ 36.

Definition fully_backed st w : Prop := ∃ s, sets w !! st = Some s ∧ SetToken.consistent s ∧
  stored s ∧ (st ∉ SetToken.getComponents s) ∧ covered st w s.

(** It covers what they can claim. *)
Lemma fully_backed_collateralized st w : fully_backed st w → collateralized st w.
Proof.
  intros (s & Es & Hs & _ & Hout & Hc). exists s. repeat (split; [done|]). intros c Hcs.
  destruct (Hc c Hcs) as (z & Ez & Hz). exists z. split; [done|].
  apply claim_real; [apply Hs|exact Hz].
Qed.

(** The set after an action on the reserve asset [c]. *)
Definition left_with c i s s' : Prop :=
  SetToken.consistent s' ∧ stored s' ∧ SetToken.positionMultiplier s' = newPositionMultiplier i ∧
  supply_of s' = newSetTokenSupply i ∧
  (∀ c', c' ≠ c → SetToken.position s' c' = SetToken.position s c') ∧
  virt s' c = newReservePositionUnit i * 10 ^ 18 / newPositionMultiplier i ∧
  ∀ c', SetToken.getExternalPositionModules s' c' = SetToken.getExternalPositionModules s c'.

(** The balances, the one of [c] having moved by at least [d]. *)
Definition gained st c (d : Z) w w' : Prop := ∀ c' z, c' ≠ st → IERC20_balanceOf c' st w = Ok z →
  ∃ z', IERC20_balanceOf c' st w' = Ok z' ∧ z + only c d c' ≤ z'.

Lemma unlisted_reserve s c : SetToken.consistent s → stored s → c ∉ SetToken.getComponents s →
  0 ≤ PositionLib.real_unit s c →
  reserve_of s c = 0 ∧ SetToken.getExternalPositionModules s c = [].
Proof.
  intros Hs Hst Hc Hu. destruct (Hst c) as [Hl _]. assert (¬ 0 < PositionLib.real_unit s c) as Hn.
  { intros Hr. apply Hc, Hl. left. apply real_virt; [apply Hs|done]. }
  unfold reserve_of. replace (PositionLib.real_unit s c) with 0 by lia. split; [done|].
  destruct (SetToken.getExternalPositionModules s c) eqn:E1; [done|]. destruct Hc. apply Hl. by right.
Qed.

Lemma left_listed c c' i s s' : stored s → left_with c i s s' → c' ≠ c →
  c' ∈ SetToken.getComponents s' → c' ∈ SetToken.getComponents s.
Proof.
  intros Hst (_ & Hst' & _ & _ & Hpos & _ & Hx) Hne Hc'. apply Hst. apply Hst' in Hc'.
  unfold virt in *. by rewrite Hpos, Hx in Hc'.
Qed.

Lemma settled_covered st c (d : Z) i w w' s s' :
  SetToken.consistent s → stored s → covered st w s → st ∉ SetToken.getComponents s → c ≠ st →
  0 ≤ PositionLib.real_unit s c → rescaled s (reserve_of s c + d) i → left_with c i s s' →
  gained st c d w w' → (0 < d → ∃ z, IERC20_balanceOf c st w = Ok z) →
  covered st w' s' ∧ (st ∉ SetToken.getComponents s').
Proof.
  intros Hs Hst Hcov Hout Hne Hu Hre Hl Hg Hd. pose proof Hl as (Hs' & Hst' & Hmul & Hsup & Hpos & Hv & Hx).
  destruct Hre as (_ & _ & HT & HM & _ & HU & HUw). pose proof Hs as (_ & _ & _ & _ & _ & Hm0 & HS).
  assert (0 < newPositionMultiplier i) as HM0 by (rewrite <- Hmul; apply Hs').
  split; [|intros Hst1; by apply Hout, (left_listed c st i s s' Hst Hl)].
  intros c' Hc'. rewrite Hmul, Hsup. destruct (decide (c' = c)) as [->|Hne'].
  - rewrite Hv. assert (∃ z, IERC20_balanceOf c st w = Ok z ∧ reserve_of s c + d ≤ z + d) as (z & Ez & Hz).
    { destruct (decide (c ∈ SetToken.getComponents s)) as [Hin|Hin].
      - destruct (Hcov c Hin) as (z & Ez & Hz). exists z. split; [done|].
        apply claim_real in Hz; [|apply HS]. unfold reserve_of.
        apply Z.add_le_mono_r, Z.div_le_upper_bound; [lia|]. unfold PositionLib.real_unit, virt in *. lia.
      - destruct (unlisted_reserve s c Hs Hst Hin Hu) as [Hr0 Hx0]. rewrite Hr0 in *.
        apply Hst' in Hc' as [Hc'|Hc']; [|by rewrite Hx, Hx0 in Hc'].
        destruct Hd as (z & Ez); [|exists z; split; [done|apply balance_word in Ez; unfold is_uint in Ez; lia]].
        destruct (Z.lt_ge_cases 0 d); [done|]. rewrite Hv in Hc'.
        assert (newReservePositionUnit i ≤ 0).
        { rewrite HU. apply Z.div_le_upper_bound; [lia|]. rewrite Z.mul_0_r. lia. }
        replace (newReservePositionUnit i) with 0 in Hc' by (unfold is_uint in HUw; lia).
        by rewrite Z.mul_0_l, Z.div_0_l in Hc' by lia. }
    destruct (Hg c z Hne Ez) as (z' & Ez' & Hz'). unfold only in Hz'. rewrite decide_True in Hz' by done.
    exists z'. split; [done|]. apply (claim_stored (reserve_of s c + d)); [done|done|lia|done].
  - pose proof (left_listed c c' i s s' Hst Hl Hne' Hc') as Hin. destruct (Hcov c' Hin) as (z & Ez & Hz).
    destruct (Hg c' z) as (z' & Ez' & Hz'); [congruence|done|]. unfold only in Hz'.
    rewrite decide_False in Hz' by done. exists z'. split; [done|]. unfold virt. rewrite Hpos by done.
    apply (claim_scaled _ (SetToken.positionMultiplier s) _ (supply_of s)); [lia|apply HS|done| |done|].
    + apply balance_word in Ez'. unfold is_uint in Ez'. lia.
    + unfold virt in Hz. lia.
Qed.
End Covered.

(** ** The whole actions *)
Section Actions.
Context `{ERC20} `{SignedLib} {E : Type} `{!External E} `{!ReentrancyGuard E} `{!NavStorage E}
  `{!INAVIssuanceHook E} `{!ISetValuer E} `{!Decimals E} `{!Payable E}.
Import NavIssuance.
Context (st : Address) `{!Isolated E st}.
Implicit Types (this c from to sender : Address) (w : World E) (s : SetToken.State) (i : ActionInfo).

(** Tokens take nothing from an account for a transfer from another. *)
Context (Hcredit : ∀ this c from to q w u w' z,
  safeTransferFrom (E := E) this c from to q w = Ok (u, w') → 0 < q → from ≠ st →
  IERC20_balanceOf c st w = Ok z → ∃ z', IERC20_balanceOf c st w' = Ok z' ∧ z ≤ z').

(** The set is the same up to its log, and no balance is below the shift. *)
Definition raised c (d : Z) w w' : Prop :=
  (∀ s, sets w !! st = Some s → ∃ l, sets w' !! st = Some (with_logs l s)) ∧ gained st c d w w'.

Lemma raised_refl c w : raised c 0 w w.
Proof.
  split; [intros s Es; exists (SetToken.logs s); by rewrite with_logs_id|].
  intros c' z _ Ez. exists z. split; [done|]. unfold only. destruct (decide _); lia.
Qed.

Lemma raised_trans c (d d' : Z) w w1 w' : raised c d w w1 → raised c d' w1 w' → raised c (d + d') w w'.
Proof.
  intros [Hs Hg] [Hs' Hg']. split.
  - intros s Es. destruct (Hs s Es) as (l & E1). by apply Hs' in E1.
  - intros c' z Hc' Ez. destruct (Hg c' z Hc' Ez) as (z1 & E1 & H1).
    destruct (Hg' c' z1 Hc' E1) as (z2 & E2 & H2). exists z2. split; [done|].
    unfold only in *. destruct (decide _); lia.
Qed.

Lemma raised_shifted c (q : Z) w w' : shifted st (only c q) w w' → raised c q w w'.
Proof. intros [Hs Hf]. split; [done|]. intros c' z Hc' Ez. eexists. split; [by apply Hf|lia]. Qed.

(** Fees that others pay. *)
Lemma raised_fee this c from to (q : Z) (u : ()) w w' :
  from ≠ st → transferFrom this c from to q w = Ok (u, w') → raised c 0 w w'.
Proof.
  intros Hf Hw. split.
  { intros s Es. eapply (quiet_transferFrom st); [|exact Es|exact Hw]. intros. apply transfer_quiet. }
  intros c' z Hc' Ez. assert (∀ x, z + only c 0 x = z) as -> by (intros x; unfold only; destruct (decide _); lia).
  unfold transferFrom in Hw. destruct (Z.ltb_spec 0 q); [|apply tx_ret_ok in Hw as [_ <-]; by exists z].
  apply tx_bind_ok in Hw as (b & w1 & Hb & Hw). apply PositionLib.balance_ok in Hb as (-> & _).
  apply tx_bind_ok in Hw as ([] & w1 & Ht & Hw).
  apply tx_bind_ok in Hw as (n & w2 & Hn & Hw). apply PositionLib.balance_ok in Hn as (-> & _).
  apply tx_bind_ok in Hw as (x & w2 & Hx & Hw). apply lift_ok in Hx as [_ <-]. apply requires_ok in Hw as [_ <-].
  destruct (decide (c' = c)) as [->|Hne]; [by eapply Hcredit|].
  exists z. split; [|done]. by rewrite (transfer_frame _ _ _ _ _ _ _ _ _ Ht Hne Hc').
Qed.

Lemma deposit_raises this sender c i (u : ()) w w' :
  sender ≠ st → shared_out i →
  _transferCollateralAndHandleFees this sender st c i w = Ok (u, w') →
  raised c (netFlowQuantity i) w w' ∧ (0 < netFlowQuantity i → ∃ z, IERC20_balanceOf c st w = Ok z).
Proof.
  intros Hs (Hn & _) Hw. unfold _transferCollateralAndHandleFees in Hw.
  apply tx_bind_ok in Hw as (? & w1 & H1 & Hw). apply tx_bind_ok in Hw as (? & w2 & H2 & Hw). split.
  - replace (netFlowQuantity i) with (netFlowQuantity i + 0 + 0) by lia.
    eapply raised_trans; [eapply raised_trans|].
    + by eapply raised_shifted, transferFrom_shifts.
    + destruct (0 <? protocolFees i); [|apply tx_ret_ok in H2 as [_ <-]; apply raised_refl].
      read_step H2 as ctl Hc. by eapply raised_fee.
    + destruct (0 <? managerFee i); [|apply tx_ret_ok in Hw as [_ <-]; apply raised_refl].
      read_step Hw as a Ha. by eapply raised_fee.
  - intros Hpos. unfold transferFrom in H1. apply Z.ltb_lt in Hpos. rewrite Hpos in H1.
    apply tx_bind_ok in H1 as (b & w3 & Hb & _). apply PositionLib.balance_ok in Hb as (_ & Hb & _). by exists b.
Qed.

Lemma issue_updates_ok this c to i (R : Z) (u : ()) w w' s :
  this ≠ Controller.address0 → sets w !! st = Some s → SetToken.consistent s → stored s →
  rescaled s R i → is_uint (setTokenQuantity i) →
  newSetTokenSupply i = supply_of s + setTokenQuantity i →
  _handleIssueStateUpdates this st c to i w = Ok (u, w') →
  ∃ s', w' = put_set st s' w ∧ left_with c i s s' ∧
    ∀ b, balanceOf (SetToken.token s') b =
      balanceOf (SetToken.token s) b + if decide (b = to) then setTokenQuantity i else 0.
Proof.
  intros Ht Es Hs Hst (_ & _ & _ & _ & HM & _ & HU) Hq HT Hw. unfold _handleIssueStateUpdates in Hw.
  apply tx_bind_ok in Hw as (x & w1 & Hx & Hw). apply tx_bind_ok in Hw as (y & w2 & Hy & Hw).
  pose proof (tx_bind_ok (editPositionMultiplier this st (newPositionMultiplier i))
    (λ _, PositionLib.editDefaultPosition this st c (newReservePositionUnit i)) w w2 y) as Hboth.
  apply proj2 in Hboth. specialize (Hboth (ex_intro _ x (ex_intro _ w1 (conj Hx Hy)))). clear Hx Hy.
  apply (nav_updates_ok _ _ _ _ _ _ _ _ s) in Hboth
    as (s1 & -> & Hs1 & Hst1 & HM0 & Htok & Hmul & Hpos & Hv & Hext); [|done..].
  assert (is_uint (totalSupply (SetToken.token s1))) as Hsup by (rewrite Htok; apply Hs).
  apply (set_mint_ok _ _ _ _ _ _ _ s1) in Hw as (t & -> & Htt & Htu & Hb); [|apply put_set_at|done|done].
  exists (SetToken.set_token t s1). split; [by rewrite put_set_twice|]. split.
  - split; [by apply set_token_consistent'|]. split; [done|]. split; [done|].
    split; [unfold supply_of in *; cbn; rewrite Htt, Htok, HT; done|]. by repeat (split; [done|]).
  - intros b. cbn. by rewrite Hb, Htok.
Qed.

Lemma reading_common c (q : Z) : reading (_validateCommon (E := E) st c q).
Proof. unfold _validateCommon. reading. Qed.
#[local] Hint Resolve reading_common : reading.

(** A successful issuance: the hook; then, in the world [w1] it leaves, what the set
    and its balances become. *)
Lemma nav_issue_inv this sender c (q low : Z) to i w w' :
  this ≠ Controller.address0 → sender ≠ st → is_uint q →
  issue this sender st c q low to w = Ok (i, w') →
  ∃ e w1, guard_enter (env w) = Ok e ∧
    _callPreIssueHooks this st c q sender to (set_env e w) = Ok ((), w1) ∧
    ∀ s, sets w1 !! st = Some s → SetToken.consistent s → stored s →
      preFeeReserveQuantity i = q ∧ shared_out i ∧ fair_mint st c w1 s i ∧
      minSetTokenSupply (settings st w1) ≤ supply_of s ∧ low ≤ setTokenQuantity i ∧
      newSetTokenSupply i = supply_of s + setTokenQuantity i ∧ 0 ≤ PositionLib.real_unit s c ∧
      rescaled s (reserve_of s c + netFlowQuantity i) i ∧
      (0 < netFlowQuantity i → ∃ z, IERC20_balanceOf c st w1 = Ok z) ∧
      gained st c (netFlowQuantity i) w1 w' ∧
      ∃ s', sets w' !! st = Some s' ∧ left_with c i s s' ∧
        (∀ b, balanceOf (SetToken.token s') b =
          balanceOf (SetToken.token s) b + if decide (b = to) then setTokenQuantity i else 0) ∧
        ∃ w2, _transferCollateralAndHandleFees this sender st c i w1 = Ok ((), w2) ∧
          w' = set_env (guard_leave (env w2)) (put_set st s' w2).
Proof.
  intros Ht Hse Hq Hw. apply nonReentrant_ok in Hw as (e & w5 & He & Hw & ->). exists e.
  read_step Hw as u Hv. clear Hv u. read_step Hw as u Hpos. clear Hpos u.
  apply tx_bind_ok in Hw as ([] & w1 & Hh & Hw). exists w1. split; [done|]. split; [done|].
  intros s Es Hs Hst. apply tx_bind_ok in Hw as (i' & w2 & Hi & Hw).
  apply (createIssuanceInfo_ok _ _ _ _ _ _ _ s) in Hi as (-> & Hpre & Hsh & Hqw & HT & Hu & Hre & Hfair);
    [|done..].
  apply tx_bind_ok in Hw as (u & w2 & Hval & Hw). unfold _validateIssuanceInfo in Hval.
  apply tx_bind_ok in Hval as (x & w3 & Hx & Hval). apply asks_ok in Hx as [-> <-].
  apply tx_bind_ok in Hval as (x & w3 & Hmin & Hval). apply requires_ok in Hmin as [Hmin <-].
  apply requires_ok in Hval as [Hlow <-]. apply Z.leb_le in Hmin, Hlow.
  apply tx_bind_ok in Hw as ([] & w2 & Hd & Hw). apply tx_bind_ok in Hw as (y' & w3 & Hup & Hw).
  apply tx_ret_ok in Hw as [-> <-]. pose proof Hd as Hd0.
  apply deposit_raises in Hd0 as [[Hd1 Hd2] Hd3]; [|done..].
  destruct (Hd1 s Es) as (l & E1).
  apply (issue_updates_ok _ _ _ _ (reserve_of s c + netFlowQuantity i) _ _ _ (with_logs l s)) in Hup
    as (s' & -> & Hl & Hb); [|done..].
  repeat (split; [done || (rewrite (proj1 Hre) in Hmin; exact Hmin)|]). split.
  - intros c' z Hc' Ez. rewrite balance_leave, balance_put by done. by apply Hd2.
  - exists s'. split; [apply put_set_at|]. split; [done|]. split; [done|]. by exists w2.
Qed.

Lemma strict_shifts this c to (q : Z) (u : ()) w w' :
  is_uint q → (if 0 <? q then strictInvokeTransfer this st c to q else mret ()) w = Ok (u, w') →
  shifted st (only c (- q)) w w'.
Proof.
  intros Hq Hw. destruct (Z.ltb_spec 0 q); [by eapply strictInvokeTransfer_shifts|].
  apply tx_ret_ok in Hw as [_ <-]. apply shifted_refl. intros c' _. unfold only, is_uint in *.
  destruct (decide _); lia.
Qed.

Lemma payout_shifts this c to i (u u' : ()) w w1 w' :
  shared_out i → strictInvokeTransfer this st c to (netFlowQuantity i) w = Ok (u, w1) →
  _handleRedemptionFees this st c i w1 = Ok (u', w') →
  shifted st (only c (- preFeeReserveQuantity i)) w w'.
Proof.
  intros (Hn & Hp & Hm & Hsum) H1 Hw. apply (strictInvokeTransfer_shifts st) in H1; [|done].
  unfold _handleRedemptionFees in Hw. apply tx_bind_ok in Hw as (x & w2 & H2 & Hw).
  assert (shifted st (only c (- protocolFees i)) w1 w2) as H2'.
  { unfold payProtocolFeeFromSetToken in H2. destruct (0 <? protocolFees i) eqn:B.
    - read_step H2 as ctl Hc. eapply (strict_shifts this c _ (protocolFees i)); [done|]. rewrite B. exact H2.
    - eapply (strict_shifts this c to (protocolFees i)); [done|]. rewrite B. exact H2. }
  assert (shifted st (only c (- managerFee i)) w2 w') as H3.
  { destruct (0 <? managerFee i) eqn:B.
    - read_step Hw as a Ha. eapply (strict_shifts this c _ (managerFee i)); [done|]. rewrite B. exact Hw.
    - eapply (strict_shifts this c to (managerFee i)); [done|]. rewrite B. exact Hw. }
  eapply shifted_trans; [exact H1|eapply shifted_trans; [exact H2'|exact H3|done]|].
  intros c' _. unfold only. destruct (decide _); lia.
Qed.

Lemma nav_redeem_inv this sender c (q low : Z) to i w w' :
  this ≠ Controller.address0 → is_uint q → redeem this sender st c q low to w = Ok (i, w') →
  ∃ e w1, guard_enter (env w) = Ok e ∧
    _callPreRedeemHooks this st q sender to (set_env e w) = Ok ((), w1) ∧
    ∀ s, sets w1 !! st = Some s → SetToken.consistent s → stored s →
      setTokenQuantity i = q ∧ shared_out i ∧ fair_payout st c w1 i ∧
      minSetTokenSupply (settings st w1) ≤ newSetTokenSupply i ∧ low ≤ netFlowQuantity i ∧
      newSetTokenSupply i = supply_of s - q ∧ 0 ≤ PositionLib.real_unit s c ∧
      preFeeReserveQuantity i ≤ reserve_of s c ∧
      rescaled s (reserve_of s c - preFeeReserveQuantity i) i ∧
      gained st c (- preFeeReserveQuantity i) w1 w' ∧
      ∃ s', sets w' !! st = Some s' ∧ left_with c i s s' ∧
        (∀ b, balanceOf (SetToken.token s') b =
          balanceOf (SetToken.token s) b - if decide (b = sender) then q else 0) ∧
        ∃ t w2 w3, strictInvokeTransfer this st c to (netFlowQuantity i)
            (put_set st (SetToken.set_token t s) w1) = Ok ((), w2) ∧
          _handleRedemptionFees this st c i w2 = Ok ((), w3) ∧
          w' = set_env (guard_leave (env w3)) (put_set st s' w3).
Proof.
  intros Ht Hq Hw. apply nonReentrant_ok in Hw as (e & w5 & He & Hw & ->). exists e.
  read_step Hw as u Hv. clear Hv u. read_step Hw as u Hpos. clear Hpos u.
  apply tx_bind_ok in Hw as ([] & w1 & Hh & Hw). exists w1. split; [done|]. split; [done|].
  intros s Es Hs Hst. apply tx_bind_ok in Hw as (i' & w2 & Hi & Hw).
  apply (createRedemptionInfo_ok _ _ _ _ _ _ _ s) in Hi as (-> & Eq & Hsh & HT & Hu & Hle & Hre & Hfair);
    [|done..].
  apply tx_bind_ok in Hw as (u & w2 & Hval & Hw). unfold _validateRedemptionInfo in Hval.
  apply tx_bind_ok in Hval as (x & w3 & Hx & Hval). apply asks_ok in Hx as [-> <-].
  apply tx_bind_ok in Hval as (x & w3 & Hmin & Hval). apply requires_ok in Hmin as [Hmin <-].
  apply requires_ok in Hval as [Hlow <-]. apply Z.leb_le in Hmin, Hlow.
  apply tx_bind_ok in Hw as (y0 & w2 & Hb & Hw).
  apply (set_burn_ok _ _ _ _ _ _ _ s) in Hb as (t & -> & Htt & Htu & _ & Hb); [|done|done|apply Hs].
  apply tx_bind_ok in Hw as ([] & w2 & Hx1 & Hw). apply tx_bind_ok in Hw as ([] & w3 & Hx2 & Hw).
  pose proof (payout_shifts _ _ _ _ _ _ _ _ _ Hsh Hx1 Hx2) as [Hsh1 Hsh2].
  destruct (Hsh1 (SetToken.set_token t s) (put_set_at _ _ _)) as (l & E1).
  apply tx_bind_ok in Hw as (y2 & w4 & Hup & Hw). apply tx_ret_ok in Hw as [-> <-].
  pose proof Hre as (_ & _ & _ & _ & HM & _ & HU).
  apply (nav_updates_ok _ _ _ _ _ _ _ _ (with_logs l (SetToken.set_token t s))) in Hup
    as (s1 & -> & Hs1 & Hst1 & HM0 & Htok & Hmul & Hpos & Hvi & Hext); [|done || by apply set_token_consistent'..].
  repeat (split; [done|]). split.
  - intros c' z Hc' Ez. rewrite balance_leave, balance_put by done. eexists.
    split; [apply Hsh2; [done|by rewrite balance_put]|done].
  - exists s1. split; [apply put_set_at|]. split.
    + split; [done|]. split; [done|]. split; [done|]. split; [|by repeat (split; [done|])].
      unfold supply_of in *. rewrite Htok. cbn. lia.
    + split; [intros b; rewrite Htok; cbn; apply Hb|]. by exists t, w2, w3.
Qed.

(** ** Those a set deals with *)

(** What an issuance takes of its caller: the net flow, and fees that may come back. *)
Lemma deposit_dealt this a `{!Accounting E st a} c i (u : ()) w w' :
  a ≠ st → c ≠ st → shared_out i →
  _transferCollateralAndHandleFees this a st c i w = Ok (u, w') →
  dealt st a (only c (- preFeeReserveQuantity i)) (only c (- netFlowQuantity i)) w w'.
Proof.
  intros Ha Hc ([Hn _] & [Hp _] & [Hm _] & Hsum) Hw. unfold _transferCollateralAndHandleFees in Hw.
  assert (∀ to q (x : ()) v v', 0 ≤ q → transferFrom this c a to q v = Ok (x, v') →
    dealt st a (only c (- q)) (only c 0) v v') as Hfee.
  { intros to q x v v' Hq Hv. eapply dealt_weaken; [by eapply transferFrom_dealt|]. intros c'.
    pose proof (moved_bounds a c a to q c' Hq) as B. by rewrite !decide_True in B by done. }
  apply tx_bind_ok in Hw as (? & w1 & Hx1 & Hw). apply tx_bind_ok in Hw as (? & w2 & Hx2 & Hw).
  apply (transferFrom_dealt st a) in Hx1; [|done..].
  assert (dealt st a (only c (- protocolFees i)) (only c 0) w1 w2) as Hd2.
  { destruct (0 <? protocolFees i); [read_step Hx2 as ctl Hctl; by eapply Hfee|].
    apply tx_ret_ok in Hx2 as [_ <-]. apply dealt_same; [done|]. intros c'. unfold only.
    destruct (decide _); lia. }
  assert (dealt st a (only c (- managerFee i)) (only c 0) w2 w') as Hd3.
  { destruct (0 <? managerFee i); [read_step Hw as r Hr; by eapply Hfee|].
    apply tx_ret_ok in Hw as [_ <-]. apply dealt_same; [done|]. intros c'. unfold only.
    destruct (decide _); lia. }
  eapply dealt_weaken; [eapply dealt_trans; [exact Hx1|eapply dealt_trans; [exact Hd2|exact Hd3]]|].
  intros c'. unfold moved, only. rewrite (decide_False (P := a = st)), (decide_True (P := a = a)) by done.
  destruct (decide _); lia.
Qed.

(** What a redemption pays: the net flow, and fees if the account gets them too. *)
Lemma payout_dealt this a `{!Accounting E st a} c i (u u' : ()) w w1 w' :
  a ≠ st → c ≠ st → shared_out i →
  strictInvokeTransfer this st c a (netFlowQuantity i) w = Ok (u, w1) →
  _handleRedemptionFees this st c i w1 = Ok (u', w') →
  dealt st a (only c (netFlowQuantity i)) (only c (preFeeReserveQuantity i)) w w'.
Proof.
  intros Ha Hc ([Hn _] & [Hp _] & [Hm _] & Hsum) Hx1 Hw. unfold _handleRedemptionFees in Hw.
  apply tx_bind_ok in Hw as (x & w2 & Hx2 & Hw). apply (send_dealt st a) in Hx1; [|done..].
  apply (payProtocolFee_dealt st a) in Hx2; [|done..].
  assert (dealt st a (only c 0) (only c (managerFee i)) w2 w') as Hd3.
  { destruct (0 <? managerFee i).
    - read_step Hw as r Hr. apply (send_dealt st a) in Hw; [|done..]. eapply dealt_weaken; [exact Hw|].
      intros c'. pose proof (moved_bounds a c st r (managerFee i) c' Hm) as B.
      by rewrite !decide_False in B by done.
    - apply tx_ret_ok in Hw as [_ <-]. apply dealt_same; [done|]. intros c'. unfold only.
      destruct (decide _); lia. }
  eapply dealt_weaken; [eapply dealt_trans; [exact Hx1|eapply dealt_trans; [exact Hx2|exact Hd3]]|].
  intros c'. unfold moved, only. rewrite (decide_False (P := a = st)), (decide_True (P := a = a)) by done.
  destruct (decide _); lia.
Qed.

(** The end of an action: the positions are written and the guard left. *)
Lemma dealt_closed a `{!Accounting E st a} (lo hi : Address → Z) s w w' :
  dealt st a lo hi w w' → dealt st a lo hi w (set_env (guard_leave (env w')) (put_set st s w')).
Proof.
  intros Hd c z Hc Ez. destruct (Hd c z Hc Ez) as (z' & Ez' & Hz). exists z'. split; [|done].
  change (env w') with (env (put_set st s w')).
  by rewrite (account_leave (st := st)), (account_put (st := st)).
Qed.

(** ** Fairness *)

(** C5. An issuance at net asset value mints at least what its caller asks for, above
    the minimum supply; the caller pays no more than the quantity given and no less than
    the net flow, what is left of it after the fees, and the set's balance rises by at
    least that net flow; and at the valuation of the set the value of a token does not
    fall for its holders: the tokens minted are worth at most the net flow.  The caller
    is not the set, nor is the reserve asset the set's own token. *)
Theorem nav_issue_fair this sender `{!Accounting E st sender} c (q low : Z) to i w w'
    (Ht : this ≠ Controller.address0) (Hse : sender ≠ st) (Hc : c ≠ st) (Hq : is_uint q)
    (Hw : issue this sender st c q low to w = Ok (i, w')) :
  ∃ e w1, guard_enter (env w) = Ok e ∧
    _callPreIssueHooks this st c q sender to (set_env e w) = Ok ((), w1) ∧
    ∀ s, sets w1 !! st = Some s → SetToken.consistent s → stored s →
      let minted := setTokenQuantity i in
      low ≤ minted ∧ minSetTokenSupply (settings st w1) ≤ supply_of s ∧
      netFlowQuantity i + protocolFees i + managerFee i = q ∧
      (∀ z, IERC20_balanceOf c st w1 = Ok z →
        ∃ z', IERC20_balanceOf c st w' = Ok z' ∧ z + netFlowQuantity i ≤ z') ∧
      (∀ z, IERC20_balanceOf c sender w1 = Ok z →
        ∃ z', IERC20_balanceOf c sender w' = Ok z' ∧ z - q ≤ z' ≤ z - netFlowQuantity i) ∧
      (∃ s', sets w' !! st = Some s' ∧ supply_of s' = supply_of s + minted ∧
        ∀ b, balanceOf (SetToken.token s') b =
          balanceOf (SetToken.token s) b + if decide (b = to) then minted else 0) ∧
      ∃ V d, valued st c w1 V ∧ ERC20_decimals c w1 = Ok d ∧
        let value := supply_of s * V / 10 ^ 18 in
        let received := netFlowQuantity i * 10 ^ 18 / base_units d in
        value * (supply_of s + minted) ≤ (value + received) * supply_of s.
Proof.
  apply nav_issue_inv in Hw as (e & w1 & He & Hh & Hrest); [|done..]. exists e, w1.
  split; [done|]. split; [done|]. intros s Es Hs Hst.
  destruct (Hrest s Es Hs Hst) as (Hpre & Hsh & (V & d & HV & Hd & _ & Hf) & Hmin & Hlow &
    HT & _ & _ & _ & Hg & s' & E1 & (_ & _ & _ & Hsup & _) & Hb & w2 & Hx & ->).
  pose proof Hsh as (_ & _ & _ & Hsum).
  split; [done|]. split; [done|]. split; [lia|]. split.
  { intros z Ez. destruct (Hg c z Hc Ez) as (z' & Ez' & Hz'). exists z'. split; [done|].
    unfold only in Hz'. by rewrite decide_True in Hz'. }
  split.
  { apply (deposit_dealt this sender) in Hx; [|done..].
    intros z Ez. destruct (dealt_closed sender _ _ s' _ _ Hx c z Hc Ez) as (z' & Ez' & Hz').
    exists z'. split; [done|]. unfold only in Hz'. rewrite !decide_True in Hz' by done. lia. }
  split; [exists s'; split; [done|]; split; [lia|done]|].
  exists V, d. split; [done|]. split; [done|]. cbv zeta. lia.
Qed.

(** C6. A redemption at net asset value burns what is redeemed and leaves at least the
    minimum supply; the set's balance falls by what is taken, fees included, which is
    covered by the position of the reserve asset; of it the recipient gets the net flow,
    at least what the caller asks for; and what is taken is worth at most the tokens
    burned, so that the value of a token does not fall for the other holders.  The
    recipient is not the set, nor is the reserve asset the set's own token. *)
Theorem nav_redeem_fair this sender c (q low : Z) to `{!Accounting E st to} i w w'
    (Ht : this ≠ Controller.address0) (Hto : to ≠ st) (Hc : c ≠ st) (Hq : is_uint q)
    (Hw : redeem this sender st c q low to w = Ok (i, w')) :
  ∃ e w1, guard_enter (env w) = Ok e ∧
    _callPreRedeemHooks this st q sender to (set_env e w) = Ok ((), w1) ∧
    ∀ s, sets w1 !! st = Some s → SetToken.consistent s → stored s →
      let taken := netFlowQuantity i + protocolFees i + managerFee i in
      low ≤ netFlowQuantity i ∧ minSetTokenSupply (settings st w1) ≤ supply_of s - q ∧
      taken ≤ reserve_of s c ∧
      (∀ z, IERC20_balanceOf c st w1 = Ok z → IERC20_balanceOf c st w' = Ok (z - taken)) ∧
      (∀ z, IERC20_balanceOf c to w1 = Ok z →
        ∃ z', IERC20_balanceOf c to w' = Ok z' ∧ z + netFlowQuantity i ≤ z' ≤ z + taken) ∧
      (∃ s', sets w' !! st = Some s' ∧ supply_of s' = supply_of s - q ∧
        ∀ b, balanceOf (SetToken.token s') b =
          balanceOf (SetToken.token s) b - if decide (b = sender) then q else 0) ∧
      ∃ V d, valued st c w1 V ∧ ERC20_decimals c w1 = Ok d ∧
        V * base_units d * (supply_of s - q) ≤ V * base_units d * supply_of s - taken * 10 ^ 36.
Proof.
  apply nav_redeem_inv in Hw as (e & w1 & He & Hh & Hrest); [|done..]. exists e, w1.
  split; [done|]. split; [done|]. intros s Es Hs Hst.
  destruct (Hrest s Es Hs Hst) as (Eq & Hsh & (V & d & HV & Hd & Hf) & Hmin & Hlow & HT & _ & Hle & _ &
    _ & s' & E1 & (_ & _ & _ & Hsup & _) & Hb & t & w2 & w3 & Hx1 & Hx2 & ->).
  pose proof Hsh as (_ & _ & _ & Hsum).
  cbv zeta. rewrite Hsum. split; [done|]. split; [lia|]. split; [done|]. split.
  { intros z Ez. destruct (payout_shifts _ _ _ _ _ _ _ _ _ Hsh Hx1 Hx2) as [_ Hsh2].
    change (env w3) with (env (put_set st s' w3)). rewrite balance_leave, balance_put by done.
    rewrite (Hsh2 c z Hc) by (by rewrite balance_put). unfold only. by rewrite decide_True. }
  split.
  { pose proof (payout_dealt this to c i _ _ _ _ _ Hto Hc Hsh Hx1 Hx2) as Hd'.
    intros z Ez. rewrite <- (account_put (st := st) c (SetToken.set_token t s)) in Ez by done.
    destruct (dealt_closed to _ _ s' _ _ Hd' c z Hc Ez) as (z' & Ez' & Hz').
    exists z'. split; [done|]. unfold only in Hz'. rewrite !decide_True in Hz' by done. lia. }
  split; [exists s'; split; [done|]; split; [lia|done]|].
  exists V, d. split; [done|]. split; [done|]. rewrite Eq in Hf. lia.
Qed.

(** ** Backing *)

(** Hooks that, whatever else they do, leave the set backed. *)
Context (Hissue : ∀ this hook c q sender to w u w',
  nav_invokePreIssueHook this hook st c q sender to w = Ok (u, w') →
  fully_backed st w → fully_backed st w').
Context (Hredeem : ∀ this hook q sender to w u w',
  nav_invokePreRedeemHook this hook st q sender to w = Ok (u, w') →
  fully_backed st w → fully_backed st w').

Lemma fully_backed_enter (e : E) w :
  guard_enter (env w) = Ok e → fully_backed st w → fully_backed st (set_env e w).
Proof.
  intros He (s & Es & Hs & Hst & Hout & Hc). exists s. repeat (split; [done|]). intros c Hcs.
  rewrite (balance_enter _ _ _ He). by apply Hc.
Qed.

Lemma nav_issue_backed this sender c (q low : Z) to i w w' :
  this ≠ Controller.address0 → sender ≠ st → c ≠ st → is_uint q → fully_backed st w →
  issue this sender st c q low to w = Ok (i, w') → fully_backed st w'.
Proof.
  intros Ht Hse Hc Hq Hb Hw. apply nav_issue_inv in Hw as (e & w1 & He & Hh & Hrest); [|done..].
  assert (fully_backed st w1) as (s & Es & Hs & Hst & Hout & Hcov).
  { unfold _callPreIssueHooks in Hh. read_step Hh as hook Hx. clear Hx. destruct (negb _).
    - by eapply Hissue, fully_backed_enter.
    - apply tx_ret_ok in Hh as [_ <-]. by apply fully_backed_enter. }
  destruct (Hrest s Es Hs Hst) as (_ & _ & _ & _ & _ & _ & Hu & Hre & Hd & Hg & s' & E1 & Hl & _).
  destruct (settled_covered st c (netFlowQuantity i) i w1 w' s s') as [Hcov' Hout']; [done..|].
  exists s'. split; [done|]. split; [apply Hl|]. split; [apply Hl|]. by split.
Qed.

Lemma nav_redeem_backed this sender c (q low : Z) to i w w' :
  this ≠ Controller.address0 → c ≠ st → is_uint q → fully_backed st w →
  redeem this sender st c q low to w = Ok (i, w') → fully_backed st w'.
Proof.
  intros Ht Hc Hq Hb Hw. apply nav_redeem_inv in Hw as (e & w1 & He & Hh & Hrest); [|done..].
  assert (fully_backed st w1) as (s & Es & Hs & Hst & Hout & Hcov).
  { unfold _callPreRedeemHooks in Hh. read_step Hh as hook Hx. clear Hx. destruct (negb _).
    - by eapply Hredeem, fully_backed_enter.
    - apply tx_ret_ok in Hh as [_ <-]. by apply fully_backed_enter. }
  destruct (Hrest s Es Hs Hst) as (_ & (Hn & Hp & Hm & Hsum) & _ & _ & _ & _ & Hu & _ & Hre & Hg & s' & E1 & Hl & _).
  destruct (settled_covered st c (- preFeeReserveQuantity i) i w1 w' s s') as [Hcov' Hout']; [done..| |].
  { unfold is_uint in *. lia. }
  exists s'. split; [done|]. split; [apply Hl|]. split; [apply Hl|]. by split.
Qed.

(** An issuance or a redemption of the set at net asset value, by and for anyone but
    the set, in any reserve asset but the set. *)
Inductive nav_exchange this : World E → World E → Prop :=
| nav_exchange_issue sender c q low to i w w' :
    sender ≠ st → c ≠ st → is_uint q → issue this sender st c q low to w = Ok (i, w') →
    nav_exchange this w w'
| nav_exchange_redeem sender c q low to i w w' :
    c ≠ st → is_uint q → redeem this sender st c q low to w = Ok (i, w') → nav_exchange this w w'.

(** C4. Issuances and redemptions at net asset value, in any order and amount, keep
    a set backed: its balances go on covering the exact claims of its holders on
    every component, also on a reserve asset that becomes one, and thereby all they
    can redeem against components. *)
Theorem nav_exchanges_backed this w w' (Ht : this ≠ Controller.address0) (Hb : fully_backed st w)
    (Hsteps : rtc (nav_exchange this) w w') : fully_backed st w' ∧ collateralized st w'.
Proof.
  assert (fully_backed st w') as Hb'; [|by split; [|apply fully_backed_collateralized]].
  induction Hsteps as [|w w1 w' Hstep _ IH]; [done|]. apply IH. clear IH.
  destruct Hstep as [sender c q low to i w w1|sender c q low to i w w1].
  - by apply (nav_issue_backed this sender c q low to i w).
  - by apply (nav_redeem_backed this sender c q low to i w).
Qed.

(** ** What the views announce *)

Lemma nav_reading_fees this (q a b k : Z) : reading (_getFees (E := E) this st q a b k).
Proof. unfold _getFees. reading. Qed.
Lemma reading_mint c (net S : Z) : reading (_getSetTokenMintQuantity (E := E) st c net S).
Proof. unfold _getSetTokenMintQuantity, _getIssuePremium, _getSetValuer. reading. Qed.
Lemma reading_payout c (q : Z) : reading (_getRedeemReserveQuantity (E := E) st c q).
Proof. unfold _getRedeemReserveQuantity, _getRedeemPremium, _getSetValuer. reading. Qed.
Lemma reading_supply : reading (supply (E := E) st).
Proof. unfold supply. reading. Qed.
Lemma reading_unit c : reading (BasicIssuance.default_unit (E := E) st c).
Proof. apply BasicIssuance.reading_default_unit. Qed.
#[local] Hint Resolve reading_unit nav_reading_fees reading_mint reading_payout reading_supply : reading.

Lemma issue_announced this c (q : Z) i w w' :
  _createIssuanceInfo this st c q w = Ok (i, w') →
  w' = w ∧ getExpectedSetTokenIssueQuantity this st c q w = Ok (setTokenQuantity i, w) ∧
  supply st w = Ok (previousSetTokenSupply i, w).
Proof.
  intros Hw. unfold _createIssuanceInfo in Hw. read_step Hw as S HS. read_step Hw as f Hf.
  destruct f as [[p m] n]. read_step Hw as k Hk. read_step Hw as pm Hpm. clear Hpm.
  read_step Hw as TM HT. destruct TM as [T M]. read_step Hw as x Hx. clear Hx. read_step Hw as U HU.
  apply tx_ret_ok in Hw as [<- <-]. split; [done|]. split; [|done]. unfold getExpectedSetTokenIssueQuantity.
  rewrite (tx_bind_run _ _ _ _ _ Hf). cbv beta iota. by rewrite (tx_bind_run _ _ _ _ _ HS).
Qed.

(** What the view computes when each of its steps succeeds. *)
Lemma redeem_valid_run this c (q z p m n S x k : Z) w :
  is_reserve st c w = true → 0 < q → 0 ≤ minSetTokenSupply (settings st w) ≤ S - q → is_uint S →
  is_uint q → supply st w = Ok (S, w) → _getRedeemReserveQuantity st c q w = Ok (z, w) →
  _getFees this st z PROTOCOL_REDEEM_MANAGER_REVENUE_SHARE_FEE_INDEX
    PROTOCOL_REDEEM_DIRECT_FEE_INDEX MANAGER_REDEEM_FEE_INDEX w = Ok ((p, m, n), w) →
  BasicIssuance.default_unit st c w = Ok (x, w) → PreciseUnitMath.preciseMul_u x S = Ok k → n ≤ k →
  isRedeemValid this st c q w = Ok (true, w).
Proof.
  intros Hr Hpos Hmin HSw Hq HS Hz Hf Hx Hk Hnk. unfold isRedeemValid.
  rewrite (tx_bind_run _ _ _ _ _ HS). unfold asks at 1 2. unfold mbind at 1 2, tx_bind at 1 2.
  rewrite Hr. destruct (Z.eqb_spec q 0); [lia|]. cbn [negb orb].
  set (low := minSetTokenSupply (settings st w)) in *.
  assert (SafeMath.add low q = Ok (low + q)) as Hadd.
  { rewrite safe_add_spec by (unfold is_uint in *; lia). unfold fits. unfold is_uint in HSw.
    destruct (Z.leb_spec (low + q) UINT_MAX); [done|lia]. }
  rewrite (tx_bind_run _ _ w w (low + q)) by (by apply lift_ok).
  destruct (Z.ltb_spec S (low + q)); [lia|]. rewrite (tx_bind_run _ _ _ _ _ Hz), (tx_bind_run _ _ _ _ _ Hf).
  cbv beta iota. rewrite (tx_bind_run _ _ _ _ _ Hx), (tx_bind_run _ _ w w k) by (by apply lift_ok).
  apply tx_ret_ok. split; [by apply Z.leb_le|done].
Qed.

Lemma redeem_announced this c (q : Z) i w w' s :
  sets w !! st = Some s → SetToken.consistent s → is_uint q → is_reserve st c w = true → 0 < q →
  0 ≤ minSetTokenSupply (settings st w) ≤ newSetTokenSupply i →
  _createRedemptionInfo this st c q w = Ok (i, w') →
  w' = w ∧ getExpectedReserveRedeemQuantity this st c q w = Ok (netFlowQuantity i, w) ∧
  isRedeemValid this st c q w = Ok (true, w).
Proof.
  intros Es Hs Hq Hr Hpos Hmin Hw. pose proof Hs as (_ & _ & _ & _ & Hm & Hm0 & HSw). fold (supply_of s) in HSw.
  unfold _createRedemptionInfo in Hw. read_step Hw as z Hz. read_step Hw as f Hf. destruct f as [[p m] n].
  read_step Hw as S HS. pose proof (supply_ok _ _ _ _ s Es HS) as [_ ->].
  read_step Hw as pm Hpm. pose proof (multiplier_read _ _ _ _ s Es Hpm) as [_ ->].
  read_step Hw as TM HT. apply lift_ok in HT as [HT _]. destruct TM as [T M].
  read_step Hw as x Hx. pose proof (nav_default_unit_ok _ _ _ _ _ s Es Hs Hx) as (_ & Ex & Hxw).
  read_step Hw as U HU. apply lift_ok in HU as [HU _].
  apply tx_ret_ok in Hw as [<- <-]. cbn in Hmin |- *. split; [done|]. split.
  { unfold getExpectedReserveRedeemQuantity. by rewrite (tx_bind_run _ _ _ _ _ Hz), (tx_bind_run _ _ _ _ _ Hf). }
  apply redeem_multiplier in HT as (HTw & -> & _ & _); [|done..].
  pose proof (payout_ok _ _ _ _ _ _ s Es Hs Hq Hz) as (_ & Hzw & _).
  pose proof (fees_ok _ _ _ _ _ _ _ _ _ _ _ Hzw Hf) as (_ & Hp & Hmf & Hn & _).
  assert (∃ k, PreciseUnitMath.preciseMul_u x (supply_of s) = Ok k ∧ n ≤ k) as (k & Hk & Hnk).
  { unfold _getRedeemPositionUnit in HU. apply result_bind_ok in HU as (k & Hk & HU). exists k. split; [done|].
    apply result_bind_ok in HU as (y & Hy & HU). apply safe_add_inv in Hy as [-> Hy]; [|done..].
    apply result_bind_ok in HU as (o & Ho & HU). apply safe_add_inv in Ho as [-> Ho]; [|done..].
    apply result_bind_ok in HU as (? & Hle & _). apply require_ok, Z.leb_le in Hle. unfold is_uint in *. lia. }
  by apply (redeem_valid_run this c q z p m n (supply_of s) x k w).
Qed.

Lemma common_positive c (q : Z) (u : ()) w w' : _validateCommon st c q w = Ok (u, w') → 0 < q.
Proof. unfold _validateCommon. intros Hw. read_steps Hw. by apply Z.ltb_lt. Qed.

(** C29. Asked where the hook has left the world, [getExpectedSetTokenIssueQuantity]
    and [getExpectedReserveRedeemQuantity] announce exactly what an issuance mints
    and a redemption pays, and [isIssueValid] and [isRedeemValid] hold whenever the
    action succeeds and the hook has left the reserve asset allowed. *)
Theorem nav_views_predict this sender c (q low : Z) to i w w' (Hq : is_uint q) :
  (issue this sender st c q low to w = Ok (i, w') → ∃ e w1, guard_enter (env w) = Ok e ∧
     _callPreIssueHooks this st c q sender to (set_env e w) = Ok ((), w1) ∧
     getExpectedSetTokenIssueQuantity this st c q w1 = Ok (setTokenQuantity i, w1) ∧
     (is_reserve st c w1 = true → isIssueValid st c q w1 = Ok (true, w1))) ∧
  (redeem this sender st c q low to w = Ok (i, w') → ∃ e w1, guard_enter (env w) = Ok e ∧
     _callPreRedeemHooks this st q sender to (set_env e w) = Ok ((), w1) ∧
     ∀ s, sets w1 !! st = Some s → SetToken.consistent s →
       is_reserve st c w1 = true → 0 ≤ minSetTokenSupply (settings st w1) →
       getExpectedReserveRedeemQuantity this st c q w1 = Ok (netFlowQuantity i, w1) ∧
       isRedeemValid this st c q w1 = Ok (true, w1)).
Proof.
  split; intros Hw; apply nonReentrant_ok in Hw as (e & w5 & He & Hw & ->); exists e;
    read_step Hw as u Hv; clear Hv u; read_step Hw as u Hcom; apply common_positive in Hcom;
    apply tx_bind_ok in Hw as ([] & w1 & Hh & Hw); exists w1; (split; [done|]); (split; [done|]);
    apply tx_bind_ok in Hw as (i' & w2 & Hi & Hw).
  - pose proof (issue_announced _ _ _ _ _ _ Hi) as (-> & Hview & HS).
    apply tx_bind_ok in Hw as (u1 & w2 & Hval & Hw). do 2 (apply tx_bind_ok in Hw as (? & ? & _ & Hw)).
    apply tx_ret_ok in Hw as [-> _]. split; [done|]. intros Hr.
    unfold _validateIssuanceInfo in Hval. read_steps Hval. rename select ((_ <=? _) = true) into Hmin.
    unfold isIssueValid. rewrite (tx_bind_run _ _ _ _ _ HS). unfold asks, mbind, tx_bind, mret, tx_ret.
    rewrite Hr, Hmin. destruct (Z.eqb_spec q 0); [lia|done].
  - apply tx_bind_ok in Hw as (u1 & w3 & Hval & Hw). do 4 (apply tx_bind_ok in Hw as (? & ? & _ & Hw)).
    apply tx_ret_ok in Hw as [-> _]. intros s Es Hs Hr Hmin.
    assert (w2 = w1) as -> by (by apply (createRedemptionInfo_ok _ _ _ _ _ _ _ s) in Hi as (-> & _)).
    unfold _validateRedemptionInfo in Hval. read_steps Hval. rename select ((_ <=? _) = true) into Hm.
    apply Z.leb_le in Hm. by apply (redeem_announced _ _ _ _ _ _ s) in Hi as (_ & ? & ?).
Qed.
End Actions.
End NavTheorems.
