(* ===== verification/NavSettings.v ===== *)
(** * The settings of NAV issuance across transactions

    What every sequence of transactions keeps of the rates and of the reserve assets
    of NavIssuance.v, together with the states of the module on its sets. *)
From Stdlib Require Import String.
From S2P Require Import Prelude JsString BigNumber Constants MathUtils SolMath.
From S2P Require Import AddressArrayUtils Script AdapterUtils Controller NavUtils Erc20 SetToken.
From S2P Require Import IntegrationRegistry World Position Tokens PriceOracle SetValuer BasicIssuance.
From S2P Require Import NavIssuance.

Module NavSettings.
Import NavIssuance.

(** ** The invariant *)

(** Rates respect their maxima, which are below one. *)
Definition rates_valid (s : CustomOracleNAVIssuanceSettings) : Prop :=
  (managerFees s).1 ≤ maxManagerFee s ∧ (managerFees s).2 ≤ maxManagerFee s ∧
  maxManagerFee s < 10 ^ 18 ∧ premiumPercentage s ≤ maxPremiumPercentage s ∧
  maxPremiumPercentage s < 10 ^ 18.

Lemma no_settings_rates : rates_valid no_settings.
Proof. by repeat split. Qed.

(** ** The transactions *)
Section Transactions.
Context `{ERC20} `{SignedLib} {E : Type} `{!External E} `{!ReentrancyGuard E} `{!NavStorage E}
  `{!INAVIssuanceHook E} `{!ISetValuer E} `{!Decimals E} `{!Payable E}.
Context (weth this : Address).
Implicit Types (msg_sender _setToken st : Address) (w : World E).

Definition initialized st w : Prop :=
  ∃ s, sets w !! st = Some s ∧ SetToken.state_of_module s this = INITIALIZED.

(** Only sets on which the module is initialized have reserve assets. *)
Definition valid w : Prop := ∀ st,
  rates_valid (settings st w) ∧
  flags_agree st (reserveAssets (settings st w)) (isReserveAsset (env w)) ∧
  (reserveAssets (settings st w) ≠ [] → initialized st w).

Lemma nav_settings_put st (s : CustomOracleNAVIssuanceSettings) st' w :
  settings st' (set_env (put_navIssuanceSettings (<[st := s]> (navIssuanceSettings (env w))) (env w)) w)
  = if decide (st' = st) then s else settings st' w.
Proof.
  unfold settings. cbn. rewrite navIssuanceSettings_put. destruct (decide (st' = st)) as [->|Hne].
  - by rewrite lookup_insert_eq.
  - by rewrite lookup_insert_ne by congruence.
Qed.

(** The storage after the settings of a set are written. *)
Lemma put_settings_ok st (s : CustomOracleNAVIssuanceSettings) (u : ()) w w' :
  put_settings st s w = Ok (u, w') →
  (∀ st', settings st' w' = if decide (st' = st) then s else settings st' w) ∧
  isReserveAsset (env w') = isReserveAsset (env w) ∧ sets w' = sets w.
Proof.
  intros Hp. apply modify_ok in Hp as ->. split; [intros st'; apply nav_settings_put|].
  split; [|done]. cbn. apply isReserveAsset_settings.
Qed.

Lemma put_flag_ok st (a : Address) (b : bool) (u : ()) w w' :
  put_flag st a b w = Ok (u, w') →
  (∀ st', settings st' w' = settings st' w) ∧
  isReserveAsset (env w') = flagged (st, a) b (isReserveAsset (env w)) ∧ sets w' = sets w.
Proof.
  intros Hp. apply modify_ok in Hp as ->. split; [|split; [|done]]; cbn.
  - intros st'. unfold settings. cbn. by rewrite navIssuanceSettings_flags.
  - apply isReserveAsset_put.
Qed.

Lemma initialized_sets st w w' : sets w' = sets w → initialized st w → initialized st w'.
Proof. intros Es (s & E0 & Hi). exists s. by rewrite Es. Qed.

(** A change of the settings and flags of one set. *)
Lemma valid_change st w w' :
  valid w → (∀ st', st' ≠ st → settings st' w' = settings st' w) →
  (∀ st' a, st' ≠ st → (st', a) ∈ isReserveAsset (env w') ↔ (st', a) ∈ isReserveAsset (env w)) →
  sets w' = sets w → rates_valid (settings st w') →
  flags_agree st (reserveAssets (settings st w')) (isReserveAsset (env w')) →
  (reserveAssets (settings st w') ≠ [] → initialized st w) → valid w'.
Proof.
  intros Hv Hs Hf Hset Hr Ha Hi st'. destruct (decide (st' = st)) as [->|Hne].
  - split; [done|]. split; [done|]. intros Hn. by eapply initialized_sets, Hi.
  - destruct (Hv st') as (Hr' & Ha' & Hi'). rewrite Hs by done. split; [done|]. split.
    + eapply flags_frame; [|exact Ha']. intros a. by apply Hf.
    + intros Hn. by eapply initialized_sets, Hi'.
Qed.

(** Changes that keep the storage and leave the module where it is. *)
Lemma nav_valid_elsewhere w w' :
  navIssuanceSettings (env w') = navIssuanceSettings (env w) →
  isReserveAsset (env w') = isReserveAsset (env w) →
  (∀ st, initialized st w → initialized st w') → valid w → valid w'.
Proof.
  intros Es Ef Hi Hw st. destruct (Hw st) as (Hr & Ha & Hh). unfold settings in *.
  rewrite Es, Ef. auto.
Qed.

Lemma nav_initialized_put st (s s' : SetToken.State) w :
  sets w !! st = Some s →
  (SetToken.state_of_module s this = INITIALIZED → SetToken.state_of_module s' this = INITIALIZED) →
  ∀ st', initialized st' w → initialized st' (put_set st s' w).
Proof.
  intros Es Hs st' (s0 & E0 & Hi). destruct (decide (st' = st)) as [->|Hne].
  - rewrite Es in E0. injection E0 as <-. exists s'. split; [apply put_set_at|auto].
  - exists s0. split; [|done]. cbn. by rewrite lookup_insert_ne by congruence.
Qed.

Lemma nav_keeps_operation st (caller : Address) (o : SetToken.operation) :
  o ≠ SetToken.RemoveModule this →
  keeps valid (on_set st (λ ctl, SetToken.execute ctl caller o) : tx E ()).
Proof.
  intros Ho w u w' Hv Hw. split; [|done]. apply on_set_ok in Hw as (s & s' & Es & E1 & ->).
  apply (nav_valid_elsewhere w (put_set st s' w)); [done..| |done]. apply (nav_initialized_put st s); [done|].
  by eapply SetToken.execute_initialized.
Qed.

Lemma nav_keeps_guard {A} (body : tx E A) : keeps valid body → keeps valid (nonReentrant body).
Proof.
  intros Hb w a w' Hv Hw. split; [|done]. apply nonReentrant_ok in Hw as (e & w1 & He & Hw & ->).
  apply Hb in Hw as [Hw _].
  - apply (nav_valid_elsewhere w1); [apply nav_leave..|done|exact Hw].
  - apply (nav_valid_elsewhere w); [by apply nav_enter..|done|exact Hv].
Qed.

(** ** Management *)

(** New settings with the same reserve assets. *)
Lemma same_flags_agree st (s : CustomOracleNAVIssuanceSettings) (u : ()) w w' :
  valid w → rates_valid s → reserveAssets s = reserveAssets (settings st w) →
  put_settings st s w = Ok (u, w') → valid w'.
Proof.
  intros Hv Hr Ha Hp. apply put_settings_ok in Hp as (Hs & Hf & Hset).
  destruct (Hv st) as (_ & Has & Hi). apply (valid_change st w); [done| | |done|..].
  - intros st' Hne. by rewrite Hs, decide_False.
  - intros st' a _. by rewrite Hf.
  - by rewrite Hs, decide_True.
  - by rewrite Hs, decide_True, Hf, Ha by done.
  - rewrite Hs, decide_True, Ha by done. exact Hi.
Qed.

(** New settings and the flag of one asset. *)
Lemma other_flags_agree st (s : CustomOracleNAVIssuanceSettings) (a : Address) (b : bool) (u u' : ()) w w1 w' :
  valid w → rates_valid s → flags_agree st (reserveAssets s) (flagged (st, a) b (isReserveAsset (env w))) →
  (reserveAssets s ≠ [] → initialized st w) →
  put_settings st s w = Ok (u, w1) → put_flag st a b w1 = Ok (u', w') → valid w'.
Proof.
  intros Hv Hr Ha Hi Hp Hp'. apply put_settings_ok in Hp as (Hs & Hf & Hset).
  apply put_flag_ok in Hp' as (Hs' & Hf' & Hset'). rewrite Hf in Hf'.
  apply (valid_change st w); [done| | |by rewrite Hset'|..].
  - intros st' Hne. by rewrite Hs', Hs, decide_False.
  - intros st' x Hne. rewrite Hf'. apply flagged_other. congruence.
  - by rewrite Hs', Hs, decide_True.
  - by rewrite Hs', Hs, decide_True, Hf' by done.
  - by rewrite Hs', Hs, decide_True.
Qed.

(** What the guard of a manager's call establishes. *)
Lemma nav_initialized_guard msg_sender st (u : ()) w w' :
  _validateOnlyManagerAndValidSet this msg_sender st w = Ok (u, w') → initialized st w.
Proof.
  intros Hw. unfold _validateOnlyManagerAndValidSet, isSetManager, isSetValidAndInitialized in Hw.
  read_step Hw as m Hm. read_step Hw as x Hx. read_step Hw as v Hv. apply requires_ok in Hw as [-> _].
  read_step Hv as ctl Hc. destruct (bool_decide _); [|by apply tx_ret_ok in Hv as [? _]].
  apply read_set_ok in Hv as (s & Es & Hv & _). exists s. split; [done|].
  symmetry in Hv. by apply bool_decide_eq_true in Hv.
Qed.

Lemma nav_keeps_addReserveAsset msg_sender st c : keeps valid (addReserveAsset (E := E) this msg_sender st c).
Proof.
  intros w u w' Hv Hw. split; [|done]. unfold addReserveAsset in Hw. read_step Hw as g Hg.
  apply nav_initialized_guard in Hg. read_step Hw as r Hr. apply asks_ok in Hr as [-> _].
  read_step Hw as x Hx. apply requires_ok in Hx as [Hx _]. read_step Hw as s Hs. apply asks_ok in Hs as [-> _].
  apply tx_bind_ok in Hw as (y & w1 & Hp & Hp'). destruct (Hv st) as (Hr & Ha & _).
  unfold is_reserve in Hx. apply negb_true_iff, bool_decide_eq_false in Hx.
  eapply (other_flags_agree st _ c true y u w w1 w' Hv); [| | |exact Hp|exact Hp']; [done| |done].
  by apply flags_add.
Qed.

Lemma nav_keeps_removeReserveAsset msg_sender st c :
  keeps valid (removeReserveAsset (E := E) this msg_sender st c).
Proof.
  intros w u w' Hv Hw. split; [|done]. unfold removeReserveAsset in Hw. read_step Hw as g Hg.
  apply nav_initialized_guard in Hg. read_step Hw as r Hr. clear Hr. read_step Hw as x Hx. clear Hx.
  read_step Hw as s Hs. apply asks_ok in Hs as [-> _]. read_step Hw as l Hl. apply lift_ok in Hl as [Hl _].
  apply tx_bind_ok in Hw as (y & w1 & Hp & Hp'). destruct (Hv st) as (Hr & Ha & _).
  eapply (other_flags_agree st _ c false y u w w1 w' Hv); [| | |exact Hp|exact Hp']; [done| |done].
  by eapply flags_remove.
Qed.

Lemma nav_keeps_editPremium msg_sender st (z : Z) : keeps valid (editPremium (E := E) this msg_sender st z).
Proof.
  intros w u w' Hv Hw. split; [|done]. unfold editPremium in Hw. read_steps Hw.
  rename select ((_ <=? _) = true) into Hz. apply Z.leb_le in Hz.
  eapply same_flags_agree in Hw; [done|done| |done]. destruct (Hv st) as ((? & ? & ? & ? & ?) & _).
  by repeat split.
Qed.

Lemma put_fee_within (fees fees' : Z * Z) (i z bound : Z) :
  put_fee fees i z = Ok fees' → fees.1 ≤ bound → fees.2 ≤ bound → z ≤ bound →
  fees'.1 ≤ bound ∧ fees'.2 ≤ bound.
Proof.
  unfold put_fee. destruct (i =? 0); [by intros [= <-]|]. destruct (i =? 1); [by intros [= <-]|done].
Qed.

Lemma nav_keeps_editManagerFee msg_sender st (z k : Z) :
  keeps valid (editManagerFee (E := E) this msg_sender st z k).
Proof.
  intros w u w' Hv Hw. split; [|done]. unfold editManagerFee in Hw. read_steps Hw.
  rename select ((_ <=? _) = true) into Hz. apply Z.leb_le in Hz. rename select (put_fee _ _ _ = _) into Hp.
  eapply same_flags_agree in Hw; [done|done| |done]. destruct (Hv st) as ((? & ? & ? & ? & ?) & _).
  destruct (put_fee_within _ _ _ _ (maxManagerFee (settings st w)) Hp) as [? ?]; [done..|]. by repeat split.
Qed.

Lemma nav_keeps_editFeeRecipient msg_sender st (a : Address) :
  keeps valid (editFeeRecipient (E := E) this msg_sender st a).
Proof.
  intros w u w' Hv Hw. split; [|done]. unfold editFeeRecipient in Hw. read_steps Hw.
  eapply same_flags_agree in Hw; [done|done| |done]. by destruct (Hv st) as (? & _).
Qed.

(** ** Initialization and removal *)

Lemma flag_loop_ok st (l : list Address) (u : ()) w w' :
  flag_loop st l w = Ok (u, w') →
  (∀ st', settings st' w' = settings st' w) ∧ sets w' = sets w ∧ NoDup l ∧
  (∀ a, a ∈ l → (st, a) ∉ isReserveAsset (env w)) ∧
  ∀ x, x ∈ isReserveAsset (env w') ↔ x ∈ isReserveAsset (env w) ∨ (x.1 = st ∧ x.2 ∈ l).
Proof.
  revert w. induction l as [|a l IH]; intros w Hw; cbn [flag_loop] in Hw.
  { apply tx_ret_ok in Hw as [_ <-]. split; [done|]. split; [done|]. split; [constructor|].
    split; [set_solver|]. set_solver. }
  read_step Hw as r Hr. apply asks_ok in Hr as [-> _]. read_step Hw as x Hx. apply requires_ok in Hx as [Hx _].
  unfold is_reserve in Hx. apply negb_true_iff, bool_decide_eq_false in Hx.
  apply tx_bind_ok in Hw as (y & w1 & Hp & Hw). apply put_flag_ok in Hp as (Hs & Hf & Hset).
  apply IH in Hw as (Hs' & Hset' & Hn & Hnew & Hall). cbn [flagged] in Hf.
  split; [intros st'; by rewrite Hs', Hs|]. split; [by rewrite Hset'|]. split; [|split].
  - apply NoDup_cons. split; [|done]. intros Ha. apply (Hnew a Ha). rewrite Hf. set_solver.
  - intros b [->|Hb]%elem_of_cons; [done|]. specialize (Hnew b Hb). rewrite Hf in Hnew. set_solver.
  - intros [x1 x2]. rewrite Hall, Hf. cbn. rewrite elem_of_union, elem_of_singleton, elem_of_cons.
    naive_solver.
Qed.

Lemma unflag_loop_ok st (l : list Address) (u : ()) w w' :
  unflag_loop st l w = Ok (u, w') →
  (∀ st', settings st' w' = settings st' w) ∧ sets w' = sets w ∧
  ∀ x, x ∈ isReserveAsset (env w') ↔ x ∈ isReserveAsset (env w) ∧ ¬ (x.1 = st ∧ x.2 ∈ l).
Proof.
  revert w. induction l as [|a l IH]; intros w Hw; cbn [unflag_loop] in Hw.
  { apply tx_ret_ok in Hw as [_ <-]. split; [done|]. split; [done|]. set_solver. }
  apply tx_bind_ok in Hw as (y & w1 & Hp & Hw). apply put_flag_ok in Hp as (Hs & Hf & Hset).
  apply IH in Hw as (Hs' & Hset' & Hall). cbn [flagged] in Hf.
  split; [intros st'; by rewrite Hs', Hs|]. split; [by rewrite Hset'|].
  intros [x1 x2]. rewrite Hall, Hf. cbn. rewrite elem_of_difference, elem_of_singleton, elem_of_cons.
  naive_solver.
Qed.

(** A set that is pending has no reserve assets yet, so that none is lost. *)
Lemma nav_pending_none st (u : ()) w w' :
  valid w → _validateOnlyValidAndPendingSet this st w = Ok (u, w') → reserveAssets (settings st w) = [].
Proof.
  intros Hv Hw. unfold _validateOnlyValidAndPendingSet, isSetPendingInitialization in Hw.
  read_steps Hw. apply requires_ok in Hw as [-> _].
  rename select (read_set _ _ _ = _) into Hp. apply read_set_ok in Hp as (s & Es & Hp & _).
  symmetry in Hp. apply bool_decide_eq_true in Hp. destruct (Hv st) as (_ & _ & Hh).
  destruct (reserveAssets (settings st w)) as [|m l]; [done|].
  destruct Hh as (s' & Es' & Hi); [done|]. congruence.
Qed.

(** The module initializes the set after the storage is written. *)
Lemma initialize_state st (u : ()) w w' :
  on_set st (λ ctl, SetToken.execute ctl this SetToken.InitializeModule) w = Ok (u, w') → initialized st w'.
Proof.
  intros Hw. apply on_set_ok in Hw as (s & s' & Es & E1 & ->). exists s'. split; [apply put_set_at|].
  cbn in E1. unfold SetToken.initializeModule in E1. result_inv.
  unfold SetToken.state_of_module. cbn. by rewrite lookup_insert_eq.
Qed.

Lemma nav_keeps_initialize msg_sender st (s : CustomOracleNAVIssuanceSettings) :
  keeps valid (initialize (E := E) this msg_sender st s).
Proof.
  intros w u w' Hv Hw. split; [|done]. unfold initialize in Hw. cbv zeta in Hw.
  read_step Hw as x Hx. clear Hx x. read_step Hw as x Hp. apply nav_pending_none in Hp; [|done]. clear x.
  do 8 (read_step Hw as ? Hr; apply requires_ok in Hr as [Hr _]; revert Hr). intros _ _ Hprem H2 H1 Hmaxp Hmaxf _.
  apply Z.leb_le in Hprem, H1, H2. apply Z.ltb_lt in Hmaxp, Hmaxf.
  apply tx_bind_ok in Hw as (v & w1 & Hfl & Hw). apply flag_loop_ok in Hfl as (Hs & Hset & Hn & Hnew & Hall).
  apply tx_bind_ok in Hw as (v' & w2 & Hput & Hw). apply put_settings_ok in Hput as (Hs' & Hf' & Hset').
  pose proof (initialize_state _ _ _ _ Hw) as Hi. destruct (Hv st) as (_ & [_ Ha] & _). rewrite Hp in Ha.
  apply on_set_ok in Hw as (s0 & s0' & Es & E1 & ->). intros st'. unfold settings at 1 2 3. cbn.
  change (default no_settings (navIssuanceSettings (env w2) !! st')) with (settings st' w2).
  rewrite Hs', Hs, Hf'. destruct (decide (st' = st)) as [->|Hne].
  - split; [by repeat split|]. split; [|done]. split; [done|]. intros a. rewrite Hall, Ha. cbn.
    split; [intros [?%elem_of_nil|[_ ?]]; done|by right].
  - destruct (Hv st') as (Hr & Has & Hh). split; [done|]. split.
    + eapply flags_frame; [|exact Has]. intros a. rewrite Hall. cbn. naive_solver.
    + intros Hnil. destruct (Hh Hnil) as (s1 & E2 & Hi1). exists s1. split; [|done]. cbn.
      rewrite lookup_insert_ne, Hset', Hset by congruence. done.
Qed.

(** Called by anyone: the slot of the caller is cleared, and its flags with it. *)
Lemma nav_removeModule_clears st (u : ()) w w' :
  valid w → removeModule st w = Ok (u, w') →
  sets w' = sets w ∧ settings st w' = no_settings ∧ valid w'.
Proof.
  intros Hv Hw. unfold removeModule in Hw. read_step Hw as s Hs. apply asks_ok in Hs as [-> _].
  apply tx_bind_ok in Hw as (y & w1 & Hfl & Hw). apply unflag_loop_ok in Hfl as (Hs & Hset & Hall).
  apply put_settings_ok in Hw as (Hs' & Hf' & Hset'). destruct (Hv st) as (_ & [_ Ha] & _).
  split; [by rewrite Hset'|]. split; [by rewrite Hs', decide_True|].
  apply (valid_change st w); [done| | |by rewrite Hset'|..].
  - intros st' Hne. by rewrite Hs', decide_False, Hs by done.
  - intros st' a Hne. rewrite Hf', Hall. cbn. naive_solver.
  - rewrite Hs', decide_True by done. apply no_settings_rates.
  - rewrite Hs', decide_True, Hf' by done. split; [constructor|]. intros a. rewrite Hall, Ha. cbn. set_solver.
  - by rewrite Hs', decide_True.
Qed.

(** ** Issuance and redemption only read the storage *)

(** Whatever tokens and hooks do, they do by transactions that keep the invariant. *)
Context (Hcall : ∀ caller target v d, keeps valid (functionCallWithValue (E := E) caller target v d)).
Context (Htransfer : ∀ caller token from to q,
  keeps valid (safeTransferFrom (E := E) caller token from to q)).
Context (Hether : ∀ caller to q, keeps valid (address_transfer (E := E) caller to q)).
Context (Hpre : ∀ hook st c q sender to,
  keeps valid (nav_invokePreIssueHook (E := E) this hook st c q sender to)).
Context (Hred : ∀ hook st q sender to,
  keeps valid (nav_invokePreRedeemHook (E := E) this hook st q sender to)).

#[local] Hint Resolve Hcall Htransfer Hether Hpre Hred : keeps.

Lemma nav_keeps_this st (o : SetToken.operation) : o ≠ SetToken.RemoveModule this →
  keeps valid (on_set st (λ ctl, SetToken.execute ctl this o) : tx E ()).
Proof. apply nav_keeps_operation. Qed.
Lemma nav_keeps_mint st (a : Address) (q : Z) : keeps valid (BasicIssuance.mint (E := E) this st a q).
Proof. by apply nav_keeps_operation. Qed.
Lemma nav_keeps_burn st (a : Address) (q : Z) : keeps valid (BasicIssuance.burn (E := E) this st a q).
Proof. by apply nav_keeps_operation. Qed.
Lemma nav_keeps_multiplier st (z : Z) : keeps valid (editPositionMultiplier (E := E) this st z).
Proof. by apply nav_keeps_operation. Qed.
Lemma nav_keeps_log st (target : Address) (v : Z) (d : SetToken.call_data) (r : value) :
  keeps valid (on_set st (λ _, SetToken.invoke_effects target v d r) : tx E ()).
Proof. by apply (nav_keeps_operation st this (SetToken.Invoke target v d r)). Qed.

#[local] Hint Resolve nav_keeps_mint nav_keeps_burn nav_keeps_multiplier nav_keeps_log : keeps.
#[local] Hint Extern 1 (keeps valid (on_set _ _)) => (apply nav_keeps_this; discriminate) : keeps.

Lemma nav_keeps_position st c (u : Z) : keeps valid (PositionLib.editDefaultPosition (E := E) this st c u).
Proof.
  rewrite PositionLib.editDefaultPosition_eq. unfold PositionLib.relist, PositionLib.hasDefaultPosition.
  keeping; unfold PositionLib.addComponent, PositionLib.removeComponent; keeping.
Qed.

Lemma nav_keeps_strict st (c to : Address) (q : Z) :
  keeps valid (strictInvokeTransfer (E := E) this st c to q).
Proof. unfold strictInvokeTransfer, invokeTransfer, SetToken_invoke. keeping. Qed.

Lemma nav_keeps_transferFrom (c from to : Address) (q : Z) :
  keeps valid (transferFrom (E := E) this c from to q).
Proof. unfold transferFrom. keeping. Qed.

#[local] Hint Resolve nav_keeps_position nav_keeps_strict nav_keeps_transferFrom : keeps.

Lemma nav_reading_common st c (q : Z) : reading (_validateCommon (E := E) st c q).
Proof. unfold _validateCommon. reading. Qed.
Lemma nav_reading_issuance st c (q : Z) : reading (_createIssuanceInfo (E := E) this st c q).
Proof.
  unfold _createIssuanceInfo, supply, _getFees, _getSetTokenMintQuantity, _getIssuePremium, _getSetValuer.
  unfold BasicIssuance.default_unit. reading.
Qed.
Lemma nav_reading_redemption st c (q : Z) : reading (_createRedemptionInfo (E := E) this st c q).
Proof.
  unfold _createRedemptionInfo, supply, _getFees, _getRedeemReserveQuantity, _getRedeemPremium, _getSetValuer.
  unfold BasicIssuance.default_unit. reading.
Qed.
#[local] Hint Resolve nav_reading_common nav_reading_issuance nav_reading_redemption : reading.

Lemma nav_keeps_issue msg_sender st c (q low : Z) (to : Address) :
  keeps valid (issue (E := E) this msg_sender st c q low to).
Proof.
  apply nav_keeps_guard. unfold _callPreIssueHooks, _validateIssuanceInfo,
    _transferCollateralAndHandleFees, _handleIssueStateUpdates. keeping.
Qed.

Lemma nav_keeps_issueWithEther msg_sender (v : Z) st (low : Z) (to : Address) :
  keeps valid (issueWithEther (E := E) weth this msg_sender v st low to).
Proof.
  apply nav_keeps_guard. unfold _callPreIssueHooks, _validateIssuanceInfo,
    _transferWETHAndHandleFees, weth_transfer, _handleIssueStateUpdates. keeping.
Qed.

Lemma nav_keeps_redemptionFees st c (i : ActionInfo) :
  keeps valid (_handleRedemptionFees (E := E) this st c i).
Proof. unfold _handleRedemptionFees, payProtocolFeeFromSetToken. keeping. Qed.
#[local] Hint Resolve nav_keeps_redemptionFees : keeps.

Lemma nav_keeps_redeem msg_sender st c (q low : Z) (to : Address) :
  keeps valid (redeem (E := E) this msg_sender st c q low to).
Proof.
  apply nav_keeps_guard. unfold _callPreRedeemHooks, _validateRedemptionInfo, _handleRedeemStateUpdates.
  keeping.
Qed.

Lemma nav_keeps_redeemIntoEther msg_sender st (q low : Z) (to : Address) :
  keeps valid (redeemIntoEther (E := E) weth this msg_sender st q low to).
Proof.
  apply nav_keeps_guard. unfold _callPreRedeemHooks, _validateRedemptionInfo, _handleRedeemStateUpdates.
  keeping.
Qed.

(** ** Reachable states *)

Inductive operation :=
| Issue (_reserveAsset : Address) (_reserveAssetQuantity _minSetTokenReceiveQuantity : Z) (_to : Address)
| IssueWithEther (msg_value _minSetTokenReceiveQuantity : Z) (_to : Address)
| Redeem (_reserveAsset : Address) (_setTokenQuantity _minReserveReceiveQuantity : Z) (_to : Address)
| RedeemIntoEther (_setTokenQuantity _minReserveReceiveQuantity : Z) (_to : Address)
| AddReserveAsset (_reserveAsset : Address)
| RemoveReserveAsset (_reserveAsset : Address)
| EditPremium (_premiumPercentage : Z)
| EditManagerFee (_managerFeePercentage _managerFeeIndex : Z)
| EditFeeRecipient (_managerFeeRecipient : Address)
| Initialize (_navIssuanceSettings : CustomOracleNAVIssuanceSettings).

Definition execute msg_sender _setToken (o : operation) : tx E () :=
  match o with
  | Issue c q low to => issue this msg_sender _setToken c q low to;; mret ()
  | IssueWithEther v low to => issueWithEther weth this msg_sender v _setToken low to;; mret ()
  | Redeem c q low to => redeem this msg_sender _setToken c q low to;; mret ()
  | RedeemIntoEther q low to => redeemIntoEther weth this msg_sender _setToken q low to;; mret ()
  | AddReserveAsset c => addReserveAsset this msg_sender _setToken c
  | RemoveReserveAsset c => removeReserveAsset this msg_sender _setToken c
  | EditPremium z => editPremium this msg_sender _setToken z
  | EditManagerFee z k => editManagerFee this msg_sender _setToken z k
  | EditFeeRecipient a => editFeeRecipient this msg_sender _setToken a
  | Initialize s => initialize this msg_sender _setToken s
  end.

(** The function by which a set removes this module; of others nothing matters
    here. *)
Lemma nav_removeModule_sets st (u : ()) w w' : removeModule st w = Ok (u, w') → sets w' = sets w.
Proof.
  intros Hw. unfold removeModule in Hw. read_step Hw as s Hs.
  apply tx_bind_ok in Hw as (y & w1 & Hfl & Hw). apply unflag_loop_ok in Hfl as (_ & Hset & _).
  apply put_settings_ok in Hw as (_ & _ & Hset'). by rewrite Hset'.
Qed.

Definition nav_remove (m : Address) (_setToken : Address) : tx E () :=
  if decide (m = this) then removeModule _setToken else mret ().

Lemma nav_remove_sets m st w (u : ()) w' :
  nav_remove m st w = Ok (u, w') → sets_evolve (sets w) (sets w').
Proof.
  intros Hw. unfold nav_remove in Hw. destruct (decide (m = this)).
  - apply nav_removeModule_sets in Hw as ->. apply sets_evolve_refl.
  - apply tx_ret_ok in Hw as [_ <-]. apply sets_evolve_refl.
Qed.

#[local] Instance nav_removable : IModule E :=
  {| module_removeModule := nav_remove; removeModule_evolves := nav_remove_sets |}.

(** Transactions of the module; direct calls of [removeModule]; removals by a set;
    other transactions of sets - of a removal of another module its effects, what that
    module does being steps of their own - and anything that leaves the storage and
    the sets alone. *)
Inductive reachable : World E → Prop :=
| reachable_deployed w :
    navIssuanceSettings (env w) = ∅ → isReserveAsset (env w) = ∅ → reachable w
| reachable_call w w' msg_sender _setToken o :
    reachable w → execute msg_sender _setToken o w = Ok ((), w') → reachable w'
| reachable_direct w w' msg_sender :
    reachable w → removeModule msg_sender w = Ok ((), w') → reachable w'
| reachable_removed w w' msg_sender _setToken _module :
    reachable w → SetToken_removeModule msg_sender _setToken _module w = Ok ((), w') → reachable w'
| reachable_set w w' msg_sender _setToken o :
    reachable w → o ≠ SetToken.RemoveModule this →
    on_set _setToken (λ ctl, SetToken.execute ctl msg_sender o) w = Ok ((), w') → reachable w'
| reachable_elsewhere w w' :
    reachable w → navIssuanceSettings (env w') = navIssuanceSettings (env w) →
    isReserveAsset (env w') = isReserveAsset (env w) →
    (∀ st s, sets w !! st = Some s → sets w' !! st = Some s) → reachable w'.

Lemma nav_keeps_execute msg_sender st o : keeps valid (execute msg_sender st o).
Proof.
  assert (∀ t : tx E ActionInfo, keeps valid t → keeps valid (t;; mret ())) as Hret.
  { intros t Ht. apply keeps_bind; [done|]. intros _. apply keeps_reading. reading. }
  destruct o; cbn [execute].
  - apply Hret, nav_keeps_issue.
  - apply Hret, nav_keeps_issueWithEther.
  - apply Hret, nav_keeps_redeem.
  - apply Hret, nav_keeps_redeemIntoEther.
  - apply nav_keeps_addReserveAsset.
  - apply nav_keeps_removeReserveAsset.
  - apply nav_keeps_editPremium.
  - apply nav_keeps_editManagerFee.
  - apply nav_keeps_editFeeRecipient.
  - apply nav_keeps_initialize.
Qed.

(** The removal by the set: the module forgets the set, then the set the module. *)
Lemma nav_removal_valid msg_sender st m (u : ()) w w' :
  valid w → SetToken_removeModule msg_sender st m w = Ok (u, w') → valid w'.
Proof.
  intros Hv Hw. unfold SetToken_removeModule in Hw. read_step Hw as x Hx. clear Hx.
  apply tx_bind_ok in Hw as (y & w1 & Hm & Hw).
  apply on_set_ok in Hw as (s & s' & Es & E1 & ->). cbn in Hm. unfold nav_remove in Hm.
  unfold SetToken.removeModule_effects in E1. apply result_bind_ok in E1 as (l & _ & E1).
  injection E1 as <-. destruct (decide (m = this)) as [->|Hne].
  - apply nav_removeModule_clears in Hm as (_ & Hno & Hv1); [|done]. intros st'.
    destruct (Hv1 st') as (Hr & Ha & Hh). split; [exact Hr|]. split; [exact Ha|].
    intros Hn. destruct (Hh Hn) as (s0 & E0 & Hi). exists s0. split; [|done]. cbn.
    rewrite lookup_insert_ne; [done|]. intros ->. apply Hn.
    change (reserveAssets (settings st' w1) = []). by rewrite Hno.
  - apply tx_ret_ok in Hm as [_ <-]. eapply (nav_valid_elsewhere w); [done..| |done].
    apply (nav_initialized_put st s); [done|]. unfold SetToken.state_of_module. cbn.
    by rewrite lookup_insert_ne by congruence.
Qed.

Lemma nav_reachable_valid w : reachable w → valid w.
Proof.
  induction 1 as [w E1 E2|w w' a st o _ Hv Hw|w w' a _ Hv Hw|w w' a st m _ Hv Hw|w w' a st o _ Hv Ho Hw|
    w w' _ Hv He Hf Hs].
  - intros st. unfold settings. rewrite E1, E2, lookup_empty. split; [apply no_settings_rates|].
    split; [split; [constructor|set_solver]|done].
  - by apply nav_keeps_execute in Hw as [? _].
  - by eapply nav_removeModule_clears.
  - by eapply nav_removal_valid.
  - by apply nav_keeps_operation in Hw as [? _].
  - eapply (nav_valid_elsewhere w); [done..| |done]. intros st (s & Es & Hi). exists s. auto.
Qed.

(** C18. Whatever transactions the module and its sets go through, the manager's fees
    and the premium stay within their maxima, which stay below one, an asset is
    accepted exactly when the array of reserve assets lists it, which is once, and a
    set on which the module is not initialized has none. *)
Theorem nav_settings_valid w _setToken (Hw : reachable w) :
  let s := settings _setToken w in
  (managerFees s).1 ≤ maxManagerFee s < 10 ^ 18 ∧ (managerFees s).2 ≤ maxManagerFee s ∧
  premiumPercentage s ≤ maxPremiumPercentage s < 10 ^ 18 ∧ NoDup (getReserveAssets _setToken w) ∧
  (∀ c, is_reserve _setToken c w = contains (getReserveAssets _setToken w) c) ∧
  (getReserveAssets _setToken w ≠ [] → initialized _setToken w).
Proof.
  apply nav_reachable_valid in Hw. destruct (Hw _setToken) as ((? & ? & ? & ? & ?) & [Hn Ha] & Hi).
  cbv zeta. repeat (split; [done|]). split; [|done]. intros c. apply eq_iff_eq_true.
  unfold is_reserve. by rewrite bool_decide_eq_true, contains_true.
Qed.
End Transactions.
End NavSettings.
