(* ===== verification/NavSample.v ===== *)
(** * A concrete NAV issuance

    The interfaces of NavIssuance.v discharged by the set valuer, by a market and by a
    bank, and the instances of the theorems of NavTheorems.v and NavSettings.v. *)
From Stdlib Require Import String.
From S2P Require Import Prelude JsString BigNumber Constants MathUtils SolMath.
From S2P Require Import AddressArrayUtils Script AdapterUtils Controller NavUtils Erc20 SetToken.
From S2P Require Import IntegrationRegistry World Position Tokens Holdings PriceOracle SetValuer BasicIssuance.
From S2P Require Import NavIssuance NavTheorems NavSettings.

Module NavSample.
Import NavIssuance NavTheorems.

(** ** The valuer behind the interface *)
Section Deployed.
Context `{ERC20} `{SignedLib} {E : Type} `{!IPriceOracle E} `{!Decimals E}.

Definition deployed_valuation (valuer _setToken quote : Address) (w : World E) : result Z :=
  match SetValuer.calculateSetTokenValuation valuer _setToken quote w with
  | Ok (v, _) => Ok v
  | Throw e => Throw e
  end.

#[export] Instance DeployedValuer : ISetValuer E.
Proof.
  refine {| valuer_calculateSetTokenValuation := deployed_valuation |}.
  intros valuer st quote w v s Es Hs Hv. unfold deployed_valuation in Hv.
  destruct (SetValuer.calculateSetTokenValuation _ _ _ w) as [[v' w']|] eqn:E1; [|done].
  injection Hv as ->. apply (SetValuer.valuation_ok _ _ _ _ _ _ s) in E1 as (_ & Hv & _); [|done..].
  unfold is_uint, INT_MAX, UINT_MAX in *. lia.
Defined.
End Deployed.

(** ** The environment *)

Abbreviation nav_storage :=
  (gmap Address CustomOracleNAVIssuanceSettings * gset (Address * Address))%type.
Abbreviation nav_env := (SetValuer.market_env nav_storage).

#[export] Instance nav_env_storage : NavStorage nav_env.
Proof.
  refine {| navIssuanceSettings (e : nav_env) := e.1.1.1.1;
            put_navIssuanceSettings m (e : nav_env) := (m, e.1.1.1.2, e.1.1.2, e.1.2, e.2);
            isReserveAsset (e : nav_env) := e.1.1.1.2;
            put_isReserveAsset f (e : nav_env) := (e.1.1.1.1, f, e.1.1.2, e.1.2, e.2) |}; try done.
  intros e e'. cbn. destruct e.1.2; [done|]. by intros [= <-].
Defined.

(** A hook that limits the size of an issuance. *)
#[export] Instance nav_capped_hook `{ERC20} `{SignedLib} {E} : INAVIssuanceHook E := {|
  nav_invokePreIssueHook this hook _setToken reserve q sender to := BasicIssuance.capped q;
  nav_invokePreRedeemHook this hook _setToken q sender to := mret ();
  nav_invokePreIssueHook_evolves this hook _setToken reserve q sender to := evolves_requires _ _;
  nav_invokePreRedeemHook_evolves this hook _setToken q sender to := evolves_ret _;
|}.

(** Ether is a token of the bank. *)
Lemma ether_evolves `{ERC20} `{SignedLib} {S} (this to : Address) (q : Z) :
  evolves (bank_move (S := S) "ether"%string this to q).
Proof. apply evolves_same. intros w u w'. apply bank_move_sets. Qed.

#[export] Instance bank_payable `{ERC20} `{SignedLib} {S} : Payable (module_env S) := {|
  address_transfer this to q := bank_move "ether"%string this to q;
  address_transfer_evolves := ether_evolves;
|}.

Section Credit.
Context `{ERC20} `{SignedLib} {S : Type}.

(** A transfer takes nothing from an account that does not send it. *)
Lemma bank_credit (st this c from to : Address) (q : Z) (w : World (module_env S)) (u : ()) w' (z : Z) :
  safeTransferFrom this c from to q w = Ok (u, w') → 0 < q → from ≠ st →
  IERC20_balanceOf c st w = Ok z → ∃ z', IERC20_balanceOf c st w' = Ok z' ∧ z ≤ z'.
Proof.
  cbn. unfold bank_move, bank_balance. destruct (move c from to q (env w).2) as [b|] eqn:Em; [|done].
  intros [= _ <-] Hq Hf Ez. cbn. unfold move in Em. cbv zeta in Em.
  apply result_bind_ok in Em as (? & _ & Em). apply result_bind_ok in Em as (? & Hle & Em).
  apply require_ok, Z.leb_le in Hle. injection Em as <-.
  destruct ((0 <=? _) && _) eqn:B in Ez; [|done]. injection Ez as <-.
  apply andb_true_iff in B as [B1 B2]. apply Z.leb_le in B1, B2.
  rewrite !held_insert in *. destruct (decide (st = from)); [congruence|].
  destruct (decide (st = to)) as [<-|Hne].
  - rewrite decide_False in * by done. exists (held (env w).2 c st + q). split; [|lia].
    destruct (Z.leb_spec 0 (held (env w).2 c st + q)); [|lia].
    destruct (Z.leb_spec (held (env w).2 c st + q) UINT_MAX); [done|lia].
  - exists (held (env w).2 c st). split; [|lia]. apply Z.leb_le in B1, B2. by rewrite B1, B2.
Qed.
End Credit.

(** ** Deciding whether positions are stored *)
Section Decide.
Context `{ERC20} `{SignedLib}.

Definition nonzero_check (s : SetToken.State) : bool :=
  forallb (λ p, (SetToken.virtualUnit p.2 <=? 0)
                || (0 <? SetToken.virtualUnit p.2 * SetToken.positionMultiplier s / 10 ^ 18))
    (map_to_list (SetToken.componentPositions s)).

Lemma stored_check_ok (s : SetToken.State) :
  SetToken.consistent s → PositionLib.tracked s → nonzero_check s = true → stored s.
Proof.
  intros (_ & _ & _ & _ & _ & Hm & _) Htr Hn.
  assert (∀ c, 0 < virt s c → 0 < PositionLib.real_unit s c) as Hpos.
  { intros c Hv. unfold virt, PositionLib.real_unit, SetToken.position in *.
    destruct (SetToken.componentPositions s !! c) as [p|] eqn:Ep; [|done]. cbn [default] in *.
    unfold nonzero_check in Hn. rewrite forallb_forall in Hn.
    specialize (Hn (c, p)). cbn [snd] in Hn. destruct (Z.leb_spec (SetToken.virtualUnit p) 0); [cbn in Hv; lia|].
    apply Z.ltb_lt, Hn, list_elem_of_In. by apply elem_of_map_to_list. }
  intros c. split; [|apply Hpos]. rewrite (Htr c). split.
  - intros [Hr|?]; [left; by apply real_virt|by right].
  - intros [Hv|?]; [left; auto|by right].
Qed.
End Decide.

(** ** Concrete instances *)
#[local] Existing Instance SetValuer.market_oracle.
#[local] Existing Instance SetValuer.market_token.
#[local] Open Scope string_scope.

(** One percent for the protocol on both actions, and no share of the manager's fee. *)
Definition sample_controller : Controller.State :=
  SetValuer.run_all [Controller.AddFee "m1" 2 (10 ^ 16); Controller.AddFee "m1" 3 (10 ^ 16)]
    SetValuer.sample_controller.

Definition sample_settings (hook : Address) : CustomOracleNAVIssuanceSettings :=
  {| managerIssuanceHook := hook; managerRedemptionHook := Controller.address0;
     setValuer := Controller.address0; reserveAssets := ["usdc"]; nav_feeRecipient := "treasury";
     managerFees := (10 ^ 16, 10 ^ 16); maxManagerFee := 10 ^ 17; premiumPercentage := 5 * 10 ^ 15;
     maxPremiumPercentage := 10 ^ 17; minSetTokenSupply := 10 ^ 17 |}%Z.

Definition sample_storage (hook : Address) : nav_storage :=
  ({[ "set" := sample_settings hook ]}, {[ ("set", "usdc") ]}).

Definition sample_bank : bank :=
  {[ ("a", "set") := 10 ^ 18; ("b", "set") := 3; ("usdc", "issuer") := 10 ^ 10 ]}.

(** One token in circulation, worth 4800 dollars; dollars are the reserve asset. *)
Definition sample_world (hook : Address) : World nav_env :=
  {| controller := sample_controller; sets := {[ "set" := SetToken.sample_fee ]};
     registries := ∅; block_timestamp := 1000;
     env := (sample_storage hook, SetValuer.sample_market, false, sample_bank) |}.

Definition no_info : ActionInfo :=
  {| preFeeReserveQuantity := 0; protocolFees := 0; managerFee := 0; netFlowQuantity := 0;
     setTokenQuantity := 0; previousSetTokenSupply := 0; newSetTokenSupply := 0;
     newPositionMultiplier := 0; newReservePositionUnit := 0 |}.

Definition sample_issue (hook : Address) : result (ActionInfo * World nav_env) :=
  issue "m1" "issuer" "set" "usdc" (4800 * 10 ^ 6) (9 * 10 ^ 17) "holder" (sample_world hook).
Definition sample_issued (hook : Address) : World nav_env :=
  PositionLib.after (sample_world hook) (sample_issue hook).
Definition sample_redeem (hook : Address) : result (ActionInfo * World nav_env) :=
  redeem "m1" "holder" "set" "usdc" (5 * 10 ^ 17) (2000 * 10 ^ 6) "heir" (sample_issued hook).
Definition sample_redeemed (hook : Address) : World nav_env :=
  PositionLib.after (sample_issued hook) (sample_redeem hook).

Lemma nav_issue_ran (hook : Address) : is_ok (sample_issue hook) = true →
  issue "m1" "issuer" "set" "usdc" (4800 * 10 ^ 6) (9 * 10 ^ 17) "holder" (sample_world hook) =
  Ok (PositionLib.returned no_info (sample_issue hook), sample_issued hook).
Proof. exact (PositionLib.ran no_info (sample_world hook) (sample_issue hook)). Qed.

Lemma nav_redeem_ran (hook : Address) : is_ok (sample_redeem hook) = true →
  redeem "m1" "holder" "set" "usdc" (5 * 10 ^ 17) (2000 * 10 ^ 6) "heir" (sample_issued hook) =
  Ok (PositionLib.returned no_info (sample_redeem hook), sample_redeemed hook).
Proof. exact (PositionLib.ran no_info (sample_issued hook) (sample_redeem hook)). Qed.

(** 4704 dollars go to the set and 96 to the fees; nearly 0.98 tokens are minted. *)
Lemma sample_figures :
  let i := PositionLib.returned no_info (sample_issue "cap") in
  let r := PositionLib.returned no_info (sample_redeem "cap") in
  (netFlowQuantity i, setTokenQuantity i, netFlowQuantity r)
    = (4704000000, 970345307990844860, 2347304450)%Z.
Proof. vm_compute. reflexivity. Qed.

Lemma sample_stored : stored SetToken.sample_fee.
Proof.
  apply stored_check_ok;
    [apply SetToken.sample_fee_consistent|apply PositionLib.sample_fee_tracked|vm_compute; reflexivity].
Qed.

(** The balances cover the claims: the check of a list of components. *)
Lemma sample_covered (hook : Address) : covered "set" (sample_world hook) SetToken.sample_fee.
Proof.
  intros c Hc. assert (c = "a" ∨ c = "b") as [->| ->].
  { assert (SetToken.getComponents SetToken.sample_fee = ["a"; "b"]) as E1 by (vm_compute; reflexivity).
    rewrite E1 in Hc. rewrite elem_of_cons, list_elem_of_singleton in Hc. exact Hc. }
  - exists (10 ^ 18)%Z. split; vm_compute; [reflexivity|discriminate].
  - exists 3%Z. split; vm_compute; [reflexivity|discriminate].
Qed.

Lemma nav_sample_backed (hook : Address) : fully_backed "set" (sample_world hook).
Proof.
  exists SetToken.sample_fee. split; [reflexivity|]. split; [apply SetToken.sample_fee_consistent|].
  split; [apply sample_stored|]. split; [|apply sample_covered].
  rewrite <- contains_true. vm_compute. discriminate.
Qed.

Lemma nav_capped_harmless : ∀ (this hook c : Address) (q : Z) (sender to : Address)
    (w : World nav_env) (u : ()) (w' : World nav_env),
  nav_invokePreIssueHook this hook "set" c q sender to w = Ok (u, w') →
  fully_backed "set" w → fully_backed "set" w'.
Proof. intros this hook c q sender to w u w' Hw. by apply requires_ok in Hw as [_ <-]. Qed.

Lemma nav_idle_harmless : ∀ (this hook : Address) (q : Z) (sender to : Address)
    (w : World nav_env) (u : ()) (w' : World nav_env),
  nav_invokePreRedeemHook this hook "set" q sender to w = Ok (u, w') →
  fully_backed "set" w → fully_backed "set" w'.
Proof. intros this hook q sender to w u w' Hw. by apply tx_ret_ok in Hw as [_ <-]. Qed.

Lemma nav_exchanges_backed_witness :
  collateralized "set" (sample_redeemed "cap") ∧
  SetToken.getComponents <$> (sets (sample_redeemed "cap") !! "set") = Some ["a"; "b"; "usdc"] ∧
  held (env (sample_redeemed "cap")).2 "usdc" "heir" = 2347304450%Z.
Proof.
  split; [|split; vm_compute; reflexivity].
  assert (is_ok (sample_issue "cap") = true) as Hi by (vm_compute; reflexivity).
  assert (is_ok (sample_redeem "cap") = true) as Hr by (vm_compute; reflexivity).
  refine (proj2 (nav_exchanges_backed "set" (bank_credit "set") nav_capped_harmless nav_idle_harmless "m1"
    (sample_world "cap") (sample_redeemed "cap") ltac:(discriminate) (nav_sample_backed "cap") _)).
  eapply rtc_l; [|apply rtc_once].
  - refine (nav_exchange_issue "set" "m1" "issuer" "usdc" (4800 * 10 ^ 6) (9 * 10 ^ 17) "holder" _
      (sample_world "cap") (sample_issued "cap") ltac:(discriminate) ltac:(discriminate) ltac:(word)
      (nav_issue_ran "cap" Hi)).
  - refine (nav_exchange_redeem "set" "m1" "holder" "usdc" (5 * 10 ^ 17) (2000 * 10 ^ 6) "heir" _
      (sample_issued "cap") (sample_redeemed "cap") ltac:(discriminate) ltac:(word) (nav_redeem_ran "cap" Hr)).
Defined.

Lemma capped_reads (this st c : Address) (q : Z) (a b : Address) :
  reading (_callPreIssueHooks (E := nav_env) this st c q a b).
Proof. unfold _callPreIssueHooks, nav_invokePreIssueHook, nav_capped_hook, BasicIssuance.capped. reading. Qed.

Lemma idle_reads (this st : Address) (q : Z) (a b : Address) :
  reading (_callPreRedeemHooks (E := nav_env) this st q a b).
Proof. unfold _callPreRedeemHooks, nav_invokePreRedeemHook, nav_capped_hook. reading. Qed.

(** The environment while the module is entered. *)
Definition sample_entered : nav_env := (sample_storage "cap", SetValuer.sample_market, true, sample_bank).

Lemma sample_enter (e : nav_env) : guard_enter (env (sample_world "cap")) = Ok e → e = sample_entered.
Proof.
  generalize sample_entered as e', (eq_refl : guard_enter (env (sample_world "cap")) = Ok sample_entered).
  intros e' E1 E2. rewrite E1 in E2. by injection E2.
Qed.

(** At its valuation a token is worth no less after the issuance. *)
Lemma nav_issue_fair_witness :
  (9 * 10 ^ 17 ≤ setTokenQuantity (PositionLib.returned no_info (sample_issue "cap")))%Z ∧
  ∃ z, IERC20_balanceOf "usdc" "set" (sample_issued "cap") = Ok z ∧
    (netFlowQuantity (PositionLib.returned no_info (sample_issue "cap")) ≤ z)%Z.
Proof.
  assert (is_ok (sample_issue "cap") = true) as Hi by (vm_compute; reflexivity).
  destruct (nav_issue_fair "set" (bank_credit "set") "m1" "issuer" "usdc" (4800 * 10 ^ 6) (9 * 10 ^ 17)
    "holder" (PositionLib.returned no_info (sample_issue "cap")) (sample_world "cap")
    (sample_issued "cap") ltac:(discriminate) ltac:(discriminate) ltac:(discriminate)
    ltac:(word) (nav_issue_ran "cap" Hi)) as (e & w1 & He & Hh & Hrest).
  apply capped_reads in Hh as ->.
  assert (sets (set_env e (sample_world "cap")) !! ("set" : Address) = Some SetToken.sample_fee) as Es
    by reflexivity.
  destruct (Hrest _ Es SetToken.sample_fee_consistent sample_stored) as (Hlow & _ & _ & Hset & _).
  split; [exact Hlow|]. apply sample_enter in He as ->.
  destruct (Hset 0%Z ltac:(vm_compute; reflexivity)) as (z & Ez & Hz). exists z. split; [exact Ez|].
  rewrite Z.add_0_l in Hz. exact Hz.
Defined.

(** The set after the issuance, as the redemption finds it. *)
Lemma sample_issued_backed : fully_backed "set" (sample_issued "cap").
Proof.
  apply (nav_issue_backed "set" (bank_credit "set") nav_capped_harmless "m1" "issuer" "usdc"
    (4800 * 10 ^ 6) (9 * 10 ^ 17) "holder" (PositionLib.returned no_info (sample_issue "cap"))
    (sample_world "cap")); [discriminate|discriminate|discriminate|word|apply nav_sample_backed|].
  apply nav_issue_ran. vm_compute. reflexivity.
Qed.

(** What a redemption takes from the set. *)
Definition payout (i : ActionInfo) : Z := netFlowQuantity i + protocolFees i + managerFee i.

Lemma sets_set_env `{ERC20} {E} (e : E) (w : World E) : sets (set_env e w) = sets w.
Proof. done. Qed.

Lemma nav_redeem_fair_witness :
  ∃ s, sets (sample_issued "cap") !! ("set" : Address) = Some s ∧
    (payout (PositionLib.returned no_info (sample_redeem "cap")) ≤ reserve_of s "usdc")%Z ∧
    IERC20_balanceOf "usdc" "set" (sample_redeemed "cap") =
      Ok (held (env (sample_issued "cap")).2 "usdc" "set"
            - payout (PositionLib.returned no_info (sample_redeem "cap")))%Z.
Proof.
  assert (is_ok (sample_redeem "cap") = true) as Hr by (vm_compute; reflexivity).
  destruct sample_issued_backed as (s & Es & Hs & Hst & _). exists s. split; [exact Es|].
  destruct (nav_redeem_fair "set" "m1" "holder" "usdc" (5 * 10 ^ 17) (2000 * 10 ^ 6)
    "heir" (PositionLib.returned no_info (sample_redeem "cap")) (sample_issued "cap")
    (sample_redeemed "cap") ltac:(discriminate) ltac:(discriminate) ltac:(discriminate)
    ltac:(word) (nav_redeem_ran "cap" Hr)) as (e & w1 & He & Hh & Hrest).
  apply idle_reads in Hh as ->. assert (IERC20_balanceOf "usdc" "set" (set_env e (sample_issued "cap")) =
    Ok (held (env (sample_issued "cap")).2 "usdc" "set")) as Eb.
  { rewrite (balance_enter "usdc" _ _ He). vm_compute. reflexivity. }
  destruct (Hrest s ltac:(rewrite sets_set_env; exact Es) Hs Hst) as (_ & _ & Hle & Hset & _).
  split; [exact Hle|]. exact (Hset _ Eb).
Defined.

Lemma nav_views_predict_witness :
  getExpectedSetTokenIssueQuantity "m1" "set" "usdc" (4800 * 10 ^ 6)
    (set_env sample_entered (sample_world "cap"))
  = Ok (970345307990844860%Z, set_env sample_entered (sample_world "cap")).
Proof.
  assert (is_ok (sample_issue "cap") = true) as Hi by (vm_compute; reflexivity).
  destruct (nav_views_predict "set" "m1" "issuer" "usdc" (4800 * 10 ^ 6) (9 * 10 ^ 17) "holder" 
    (PositionLib.returned no_info (sample_issue "cap")) 
    (sample_world "cap") (sample_issued "cap") ltac:(word)) as [Hissue _].
  destruct (Hissue (nav_issue_ran "cap" Hi)) as (e & w1 & He & Hh & Hv & _).
  apply capped_reads in Hh as ->. apply sample_enter in He as ->.
  assert (setTokenQuantity (PositionLib.returned no_info (sample_issue "cap")) = 970345307990844860%Z) as Eq
    by (vm_compute; reflexivity).
  rewrite Eq in Hv. exact Hv.
Defined.

(** ** What the views and the real units do not see *)

(** [isRedeemValid] compares the position with what the redeemer receives, without
    the fees that are taken from it as well: here it holds and the redemption
    reverts. *)
Lemma valid_redemption_reverts :
  PositionLib.returned false (isRedeemValid "m1" "set" "usdc" (985 * 10 ^ 15) (sample_issued "cap")) = true ∧
  thrown (redeem "m1" "holder" "set" "usdc" (985 * 10 ^ 15) 0 "heir" (sample_issued "cap"))
    = Some (Revert "Must be greater than total available collateral").
Proof. split; vm_compute; reflexivity. Qed.

(** A set that holds what its positions claim after rounding, but not before: after an
    issuance at net asset value, which lowers the multiplier without another
    rounding, its balance of [b] is short. *)
Definition short_bank : bank :=
  {[ ("a", "set") := 10 ^ 18; ("b", "set") := 2; ("usdc", "issuer") := 10 ^ 10 ]}.
Definition short_world : World nav_env :=
  {| controller := sample_controller; sets := {[ "set" := SetToken.sample_fee ]};
     registries := ∅; block_timestamp := 1000;
     env := (sample_storage "cap", SetValuer.sample_market, false, short_bank) |}.
Definition short_issued : World nav_env :=
  PositionLib.after short_world
    (issue "m1" "issuer" "set" "usdc" (1600 * 10 ^ 6) 0 "holder" short_world).
Definition set_in (w : World nav_env) : SetToken.State := default SetToken.blank (sets w !! ("set" : Address)).

Lemma rounded_claims_short :
  (backed_check "set" short_world (set_in short_world) (supply_of (set_in short_world)),
   backed_check "set" short_issued (set_in short_issued) (supply_of (set_in short_issued))) = (true, false).
Proof. vm_compute. reflexivity. Qed.

(** ** Settings *)
Import NavSettings.

(** A set on which the module is pending, and no settings. *)
Definition pending_set : SetToken.State :=
  SetToken.play [("m1", SetToken.InitializeModule); ("manager", SetToken.AddModule "m2")]
    SetToken.sample_new.
Definition empty_storage : nav_storage := (∅, ∅).

Definition deployed_world : World nav_env :=
  {| controller := sample_controller; sets := {[ "set" := pending_set ]}; registries := ∅;
     block_timestamp := 1000; env := (empty_storage, SetValuer.sample_market, false, sample_bank) |}.

Definition sample_initialize : operation := Initialize (sample_settings "cap").
Definition sample_add : operation := AddReserveAsset "a".

Definition initialized_world : World nav_env :=
  PositionLib.after deployed_world (execute "weth" "m2" "manager" "set" sample_initialize deployed_world).
Definition added_world : World nav_env :=
  PositionLib.after initialized_world (execute "weth" "m2" "manager" "set" sample_add initialized_world).

Lemma nav_initialize_ran :
  is_ok (execute "weth" "m2" "manager" "set" sample_initialize deployed_world) = true.
Proof. vm_compute. reflexivity. Qed.

Lemma nav_add_ran : is_ok (execute "weth" "m2" "manager" "set" sample_add initialized_world) = true.
Proof. vm_compute. reflexivity. Qed.

Lemma added_reachable : reachable "weth" "m2" added_world.
Proof.
  refine (reachable_call "weth" "m2" initialized_world added_world "manager" "set" sample_add _
    (PositionLib.ran_unit _ _ nav_add_ran)).
  refine (reachable_call "weth" "m2" deployed_world initialized_world "manager" "set" sample_initialize _
    (PositionLib.ran_unit _ _ nav_initialize_ran)).
  apply reachable_deployed; reflexivity.
Qed.

(** The tokens and the hooks of the concrete environment keep the invariant. *)
Lemma nav_valid_bank : ∀ (w : World nav_env) (b : bank), valid "m2" w → valid "m2" (set_env ((env w).1, b) w).
Proof. intros w b Hw. exact Hw. Qed.

Lemma nav_valid_call (caller target : Address) (v : Z) (d : SetToken.call_data) :
  keeps (valid "m2") (functionCallWithValue (E := nav_env) caller target v d).
Proof. exact (keeps_bank_call (valid "m2") nav_valid_bank caller target v d). Qed.

Lemma nav_valid_transfer (caller token from to : Address) (q : Z) :
  keeps (valid "m2") (safeTransferFrom (E := nav_env) caller token from to q).
Proof. exact (keeps_bank_move (valid "m2") nav_valid_bank token from to q). Qed.

Lemma nav_valid_ether (caller to : Address) (q : Z) :
  keeps (valid "m2") (address_transfer (E := nav_env) caller to q).
Proof. exact (keeps_bank_move (valid "m2") nav_valid_bank "ether" caller to q). Qed.

Lemma nav_valid_capped (hook st c : Address) (q : Z) (sender to : Address) :
  keeps (valid "m2") (nav_invokePreIssueHook (E := nav_env) "m2" hook st c q sender to).
Proof. apply keeps_reading, reading_requires. Qed.

Lemma nav_valid_idle (hook st : Address) (q : Z) (sender to : Address) :
  keeps (valid "m2") (nav_invokePreRedeemHook (E := nav_env) "m2" hook st q sender to).
Proof. apply keeps_reading, reading_ret. Qed.

Lemma nav_settings_valid_witness :
  getReserveAssets "set" added_world = ["usdc"; "a"] ∧
  is_reserve "set" "a" added_world = true ∧ is_reserve "set" "b" added_world = false ∧
  thrown (execute "weth" "m2" "manager" "set" (EditPremium (2 * 10 ^ 17)) added_world) =
    Some (Revert "Premium must be less than maximum allowed").
Proof.
  assert (getReserveAssets "set" added_world = ["usdc"; "a"]) as Hh by (vm_compute; reflexivity).
  split; [exact Hh|].
  destruct (nav_settings_valid "weth" "m2" nav_valid_call nav_valid_transfer nav_valid_ether
    nav_valid_capped nav_valid_idle added_world "set" added_reachable) as (_ & _ & _ & _ & Hf & _).
  rewrite !Hf, Hh. split; [|split]; vm_compute; reflexivity.
Defined.
End NavSample.
