(* ===== verification/Trade.v ===== *)
(** * Trades

    [contracts/protocol/modules/v1/TradeModule.sol], with the adapters of exchanges by
    the interface [IExchangeAdapter]: a trade keeps a set covered, on the terms its
    manager asked for. *)
From Stdlib Require Import String.
From S2P Require Import Prelude JsString BigNumber Constants MathUtils SolMath.
From S2P Require Import AddressArrayUtils Script AdapterUtils Controller Erc20 SetToken.
From S2P Require Import IntegrationRegistry World Position Tokens Exchange.

(** [interfaces/IExchangeAdapter.sol], by the address of the adapter: the target, the
    value and the data of the call that trades. *)
Class IExchangeAdapter `{ERC20} (E : Type) := {
  getSpender : Address → World E → result Address;
  getTradeCalldata : Address → Address → Address → Address → Z → Z → Bytes → World E →
    result (Address * Z * SetToken.call_data);
}.

Module TradeModule.

Record TradeInfo := {
  setToken : Address;
  exchangeAdapter : Address;
  sendToken : Address;
  receiveToken : Address;
  setTotalSupply : Z;
  totalSendQuantity : Z;
  totalMinReceiveQuantity : Z;
  preTradeSendTokenBalance : Z;
  preTradeReceiveTokenBalance : Z;
}.

Definition TRADE_MODULE_PROTOCOL_FEE_INDEX : Z := 0.

Section TradeModule.
Context `{ERC20} `{SignedLib} `{Keccak} {E : Type} `{!External E} `{!ReentrancyGuard E}
  `{!IExchangeAdapter E}.
Implicit Types (this msg_sender _setToken _sendToken _receiveToken : Address) (_tradeInfo : TradeInfo).

Definition initialize this msg_sender _setToken : tx E () :=
  _validateOnlyValidAndPendingSet this _setToken;;
  _validateOnlySetManager _setToken msg_sender;;
  on_set _setToken (λ ctl, SetToken.execute ctl this SetToken.InitializeModule).

Definition _createTradeInfo this _setToken (_exchangeName : string) _sendToken _receiveToken
    (_sendQuantity _minReceiveQuantity : Z) : tx E TradeInfo :=
  adapter ← getAndValidateAdapter this _exchangeName;
  supply ← read_set _setToken (λ s, totalSupply (SetToken.token s));
  send ← lift (PositionLib.getDefaultTotalNotional supply _sendQuantity);
  min ← lift (PositionLib.getDefaultTotalNotional supply _minReceiveQuantity);
  preSend ← balance _sendToken _setToken;
  preReceive ← balance _receiveToken _setToken;
  mret {| setToken := _setToken; exchangeAdapter := adapter; sendToken := _sendToken;
          receiveToken := _receiveToken; setTotalSupply := supply; totalSendQuantity := send;
          totalMinReceiveQuantity := min; preTradeSendTokenBalance := preSend;
          preTradeReceiveTokenBalance := preReceive |}.

Definition _validatePreTradeData _tradeInfo (_sendQuantity : Z) : tx E () :=
  requires (0 <? totalSendQuantity _tradeInfo) "Token to sell must be nonzero";;
  b ← PositionLib.hasSufficientDefaultUnits (setToken _tradeInfo) (sendToken _tradeInfo) _sendQuantity;
  requires b "Unit cant be greater than existing".

Definition _executeTrade this _tradeInfo (_data : Bytes) : tx E () :=
  spender ← query (getSpender (exchangeAdapter _tradeInfo));
  invokeApprove this (setToken _tradeInfo) (sendToken _tradeInfo) spender
    (totalSendQuantity _tradeInfo);;
  '(targetExchange, callValue, methodData) ← query (getTradeCalldata (exchangeAdapter _tradeInfo)
    (sendToken _tradeInfo) (receiveToken _tradeInfo) (setToken _tradeInfo)
    (totalSendQuantity _tradeInfo) (totalMinReceiveQuantity _tradeInfo) _data);
  SetToken_invoke this (setToken _tradeInfo) targetExchange callValue methodData;;
  mret ().

Definition _validatePostTrade _tradeInfo : tx E Z :=
  b ← balance (receiveToken _tradeInfo) (setToken _tradeInfo);
  exchangedQuantity ← lift (SafeMath.sub b (preTradeReceiveTokenBalance _tradeInfo));
  requires (totalMinReceiveQuantity _tradeInfo <=? exchangedQuantity) "Slippage greater than allowed";;
  mret exchangedQuantity.

Definition _accrueProtocolFee this _tradeInfo (_exchangedQuantity : Z) : tx E Z :=
  protocolFeeTotal ← getModuleFee this TRADE_MODULE_PROTOCOL_FEE_INDEX _exchangedQuantity;
  payProtocolFeeFromSetToken this (setToken _tradeInfo) (receiveToken _tradeInfo) protocolFeeTotal;;
  mret protocolFeeTotal.

Definition _updateSetTokenPositions this _tradeInfo : tx E (Z * Z) :=
  '(currentSend, _, _) ← PositionLib.calculateAndEditDefaultPosition this (setToken _tradeInfo)
    (sendToken _tradeInfo) (setTotalSupply _tradeInfo) (preTradeSendTokenBalance _tradeInfo);
  '(currentReceive, _, _) ← PositionLib.calculateAndEditDefaultPosition this (setToken _tradeInfo)
    (receiveToken _tradeInfo) (setTotalSupply _tradeInfo) (preTradeReceiveTokenBalance _tradeInfo);
  sent ← lift (SafeMath.sub (preTradeSendTokenBalance _tradeInfo) currentSend);
  received ← lift (SafeMath.sub currentReceive (preTradeReceiveTokenBalance _tradeInfo));
  mret (sent, received).

(** Returns what its event says: the trade, the net amounts and the fee. *)
Definition trade this msg_sender _setToken (_exchangeName : string) _sendToken (_sendQuantity : Z)
    _receiveToken (_minReceiveQuantity : Z) (_data : Bytes) : tx E (TradeInfo * Z * Z * Z) :=
  nonReentrant (
    _validateOnlyManagerAndValidSet this msg_sender _setToken;;
    tradeInfo ← _createTradeInfo this _setToken _exchangeName _sendToken _receiveToken
      _sendQuantity _minReceiveQuantity;
    _validatePreTradeData tradeInfo _sendQuantity;;
    _executeTrade this tradeInfo _data;;
    exchangedQuantity ← _validatePostTrade tradeInfo;
    protocolFee ← _accrueProtocolFee this tradeInfo exchangedQuantity;
    '(netSendAmount, netReceiveAmount) ← _updateSetTokenPositions this tradeInfo;
    mret (tradeInfo, netSendAmount, netReceiveAmount, protocolFee)).

(** Nothing to check on removal. *)
Definition removeModule : tx E () := mret ().
End TradeModule.

(** ** What a trade does *)
Section Trades.
Context `{ERC20} `{SignedLib} `{Keccak} {E : Type} `{!External E} `{!ReentrancyGuard E}
  `{!IExchangeAdapter E}.
Implicit Types (this msg_sender st c : Address) (w : World E) (s : SetToken.State) (i : TradeInfo).

Lemma reading_createTradeInfo this st (name : string) send receive (q low : Z) :
  reading (_createTradeInfo (E := E) this st name send receive q low).
Proof. unfold _createTradeInfo. reading. Qed.

Lemma reading_sufficient st c (q : Z) : reading (PositionLib.hasSufficientDefaultUnits (E := E) st c q).
Proof. unfold PositionLib.hasSufficientDefaultUnits. reading. Qed.

Lemma reading_postTrade i : reading (_validatePostTrade (E := E) i).
Proof. unfold _validatePostTrade. reading. Qed.
#[local] Hint Resolve reading_createTradeInfo reading_sufficient reading_postTrade : reading.

(** What the record of a trade says of the world it is made in. *)
Definition trade_describes this st (name : string) send (q : Z) receive (low : Z) i w s : Prop :=
  setToken i = st ∧ sendToken i = send ∧ receiveToken i = receive ∧
  named_adapter this name (exchangeAdapter i) w ∧
  setTotalSupply i = totalSupply (SetToken.token s) ∧
  totalSendQuantity i = q * totalSupply (SetToken.token s) / 10 ^ 18 ∧
  totalMinReceiveQuantity i = low * totalSupply (SetToken.token s) / 10 ^ 18 ∧
  IERC20_balanceOf send st w = Ok (preTradeSendTokenBalance i) ∧
  IERC20_balanceOf receive st w = Ok (preTradeReceiveTokenBalance i).

Lemma trade_notional (supply q n : Z) : is_uint supply → is_uint q →
  PositionLib.getDefaultTotalNotional supply q = Ok n → n = q * supply / 10 ^ 18 ∧ is_uint n.
Proof.
  intros Hs Hq Hn. rewrite Z.mul_comm. by apply preciseMul_u_floor.
Qed.

Lemma createTradeInfo_ok this st (name : string) send (q : Z) receive (low : Z) i w w' s :
  sets w !! st = Some s → is_uint (totalSupply (SetToken.token s)) → is_uint q → is_uint low →
  _createTradeInfo this st name send receive q low w = Ok (i, w') →
  w' = w ∧ trade_describes this st name send q receive low i w s ∧
  is_uint (preTradeSendTokenBalance i) ∧ is_uint (preTradeReceiveTokenBalance i).
Proof.
  intros Es Hsu Hq Hl Hw. split; [by eapply reading_createTradeInfo|]. unfold _createTradeInfo in Hw.
  read_step Hw as a Ha. apply getAdapter_ok in Ha.
  read_step Hw as x Hx. apply read_set_ok in Hx as (s0 & E0 & -> & _). rewrite Es in E0. injection E0 as <-.
  read_step Hw as n Hn. apply lift_ok in Hn as [Hn _]. apply trade_notional in Hn as [-> _]; [|done..].
  read_step Hw as m Hm. apply lift_ok in Hm as [Hm _]. apply trade_notional in Hm as [-> _]; [|done..].
  read_step Hw as b1 Hb1. apply PositionLib.balance_ok in Hb1 as (_ & Hb1 & Hu1).
  read_step Hw as b2 Hb2. apply PositionLib.balance_ok in Hb2 as (_ & Hb2 & Hu2).
  apply tx_ret_ok in Hw as [<- _]. done.
Qed.

Lemma sufficient_ok st c (q : Z) w w' s :
  sets w !! st = Some s → SetToken.consistent s → is_uint q →
  PositionLib.hasSufficientDefaultUnits st c q w = Ok (true, w') → q ≤ PositionLib.real_unit s c.
Proof.
  intros Es Hs Hq Hw. unfold PositionLib.hasSufficientDefaultUnits in Hw.
  read_step Hw as u Hu. apply view_set_ok in Hu as (s0 & E0 & Hu & _). rewrite Es in E0. injection E0 as <-.
  apply PositionLib.getDefault_real in Hu as [-> _]; [|done].
  read_step Hw as v Hv. apply lift_ok in Hv as [Hv _]. apply toInt256_inv in Hv as (-> & _); [|done].
  apply tx_ret_ok in Hw as [Hw _]. by apply Z.leb_le.
Qed.

(** Something is sold only of a positive unit. *)
Lemma sold_unit this st (name : string) send (q : Z) receive (low : Z) i w s :
  trade_describes this st name send q receive low i w s → 0 < totalSendQuantity i → q ≠ 0.
Proof. intros (_ & _ & _ & _ & _ & -> & _) Hpos ->. by rewrite Z.mul_0_l, Z.div_0_l in Hpos by lia. Qed.

(** What a trade may sell: units that the set has of a component. *)
Lemma preTrade_ok (q : Z) (u : ()) i w w' s :
  sets w !! setToken i = Some s → SetToken.consistent s → is_uint q →
  _validatePreTradeData i q w = Ok (u, w') →
  w' = w ∧ 0 < totalSendQuantity i ∧ q ≤ PositionLib.real_unit s (sendToken i).
Proof.
  intros Es Hs Hq Hw. unfold _validatePreTradeData in Hw. read_step Hw as u1 Hu1.
  apply requires_ok in Hu1 as [Hu1 _]. apply Z.ltb_lt in Hu1. read_step Hw as b Hb.
  apply requires_ok in Hw as [-> <-]. repeat (split; [done|]). by eapply sufficient_ok.
Qed.

Context (st : Address) `{!Isolated E st} `{!Approving E st}.

(** What is asked of the exchanges: the call an adapter encodes leaves the set and its
    holdings of other tokens than the two alone. *)
Class Exchanging := exchange_spares adapter send receive q low data w target v d :
  getTradeCalldata adapter send receive st q low data w = Ok (target, v, d) →
  spares st [send; receive] (functionCallWithValue (E := E) st target v d).
Context `{!Exchanging}.

Lemma spares_executeTrade this i (data : Bytes) : setToken i = st →
  spares st [sendToken i; receiveToken i] (_executeTrade (E := E) this i data).
Proof.
  intros Ei. unfold _executeTrade. rewrite Ei.
  apply spares_bind; [apply spares_reading; reading|intros spender].
  apply spares_bind; [by apply spares_approve|intros _]. apply spares_encoded; [done|]. intros w target v d.
  apply exchange_spares.
Qed.

(** The rate of the protocol. *)
Definition fee_rate this w : Z :=
  Controller.getModuleFee (controller w) this TRADE_MODULE_PROTOCOL_FEE_INDEX.

Lemma spares_accrue this i (q : Z) : setToken i = st →
  spares st [receiveToken i] (_accrueProtocolFee (E := E) this i q).
Proof.
  intros Ei. unfold _accrueProtocolFee. rewrite Ei. apply spares_bind; [apply spares_reading; reading|].
  intros f. apply spares_bind; [by apply spares_payProtocolFee|intros _; apply spares_reading; reading].
Qed.

(** The fee, a share of what was exchanged, leaves the set. *)
Lemma accrueProtocolFee_ok this i (q fee : Z) w w' :
  setToken i = st → is_uint q → _accrueProtocolFee this i q w = Ok (fee, w') →
  shifted st (only (receiveToken i) (- fee)) w w' ∧
  (is_uint (fee_rate this w) → fee = q * fee_rate this w / 10 ^ 18).
Proof.
  intros Ei Hq Hw. unfold _accrueProtocolFee in Hw. rewrite Ei in Hw.
  read_step Hw as f Hf. unfold getModuleFee in Hf. read_step Hf as ctl Hctl.
  apply asks_ok in Hctl as [-> _]. fold (fee_rate this w) in Hf. apply lift_ok in Hf as [Hf _].
  apply tx_bind_ok in Hw as (u & w1 & Hpay & Hw). apply tx_ret_ok in Hw as [<- <-].
  pose proof (preciseMul_u_word _ _ _ Hf) as [Hf0 _]. split.
  - by apply (payProtocolFee_shifts st) in Hpay.
  - intros Hp. by apply preciseMul_u_floor in Hf as [-> _].
Qed.

(** Up to the edits of the positions. *)
Lemma covered_trade this i (data : Bytes) (q fee : Z) (u : ()) w w1 w2 w3 s :
  setToken i = st → covered_but st [] w s → _executeTrade this i data w = Ok (u, w1) →
  _validatePostTrade i w1 = Ok (q, w2) → _accrueProtocolFee this i q w2 = Ok (fee, w3) →
  ∃ l, covered_but st [sendToken i; receiveToken i] w3 (with_logs l s).
Proof.
  intros Ei Hc He Hp Hf. apply (covered_left_alone st _ w).
  - eapply left_alone_trans; [by eapply spares_executeTrade|]. rewrite (reading_postTrade _ _ _ _ Hp) in Hf.
    eapply left_alone_mono; [|by eapply spares_accrue]. set_solver.
  - eapply covered_weaken; [apply list_subseteq_nil|done].
Qed.

(** The edits, by the balances there are then. *)
Lemma updateSetTokenPositions_ok this i (sent received : Z) w w' s :
  this ≠ Controller.address0 → setToken i = st → sendToken i ≠ st → receiveToken i ≠ st →
  setTotalSupply i = totalSupply (SetToken.token s) →
  is_uint (preTradeSendTokenBalance i) → is_uint (preTradeReceiveTokenBalance i) →
  covered_but st [sendToken i; receiveToken i] w s →
  _updateSetTokenPositions this i w = Ok ((sent, received), w') →
  covered_set st w' ∧ (∃ s', w' = put_set st s' w ∧ SetToken.token s' = SetToken.token s) ∧
  IERC20_balanceOf (sendToken i) st w = Ok (preTradeSendTokenBalance i - sent) ∧
  IERC20_balanceOf (receiveToken i) st w = Ok (preTradeReceiveTokenBalance i + received) ∧
  0 ≤ sent ∧ 0 ≤ received.
Proof.
  intros Ht Ei Hs1 Hs2 Esu Hu1 Hu2 Hc Hw. unfold _updateSetTokenPositions in Hw. rewrite Ei in Hw.
  apply (covered_exchange st _ _ _ _ _ _ _ _ _ _ s) in Hw as (s' & -> & Hc' & Et & Hb1 & Hb2 & ?); [|done..].
  split; [by exists s'|]. split; [by exists s'|done].
Qed.

(** The steps of a successful trade of a covered set. *)
Lemma trade_steps this msg_sender (name : string) send (q : Z) receive (low : Z) (data : Bytes)
    i (sent received fee : Z) w w' s :
  this ≠ Controller.address0 → receive ≠ st → is_uint q → is_uint low →
  covered_but st [] w s →
  trade this msg_sender st name send q receive low data w = Ok ((i, sent, received, fee), w') →
  SetToken.manager s = msg_sender ∧ send ≠ st ∧
  ∃ e w1 w2 l x, guard_enter (env w) = Ok e ∧
    trade_describes this st name send q receive low i (set_env e w) s ∧
    0 < totalSendQuantity i ∧ q ≤ PositionLib.real_unit s send ∧
    _executeTrade this i data (set_env e w) = Ok ((), w1) ∧
    _validatePostTrade i w1 = Ok (x, w1) ∧ _accrueProtocolFee this i x w1 = Ok (fee, w2) ∧
    covered_but st [send; receive] w2 (with_logs l s) ∧
    covered_set st w' ∧ (∃ s', w' = set_env (guard_leave (env w2)) (put_set st s' w2) ∧
      SetToken.token s' = SetToken.token s) ∧
    IERC20_balanceOf send st w2 = Ok (preTradeSendTokenBalance i - sent) ∧
    IERC20_balanceOf receive st w2 = Ok (preTradeReceiveTokenBalance i + received) ∧
    0 ≤ sent ∧ 0 ≤ received.
Proof.
  intros Ht Hre Hq Hl Hc Hw. pose proof Hc as (Es & Hs & Htr & Hout & _).
  apply nonReentrant_ok in Hw as (e & w3 & He & Hw & ->).
  pose proof (covered_enter st [] e w s He Hc) as Hc0.
  read_step Hw as u Hg. apply (managed_by _ _ _ _ _ _ s) in Hg; [|done].
  apply tx_bind_ok in Hw as (i0 & w0 & Hi & Hw).
  apply (createTradeInfo_ok _ _ _ _ _ _ _ _ _ _ s) in Hi as (-> & Hd & Hu1 & Hu2); [|done|apply Hs|done..].
  pose proof Hd as (Ei & Esend & Erecv & _ & Esu & _).
  apply tx_bind_ok in Hw as (u1 & w0 & Hpre & Hw).
  apply (preTrade_ok _ _ _ _ _ s) in Hpre as (-> & Hpos & Hunit); [|by rewrite Ei|done..].
  apply tx_bind_ok in Hw as ([] & w1 & Hex & Hw).
  apply tx_bind_ok in Hw as (x & w1' & Hx & Hw). pose proof (reading_postTrade _ _ _ _ Hx) as ->.
  apply tx_bind_ok in Hw as (f & w2 & Hf & Hw).
  apply tx_bind_ok in Hw as ([sent' received'] & w4 & Hup & Hw). apply tx_ret_ok in Hw as [Hw <-].
  injection Hw as -> -> -> ->. split; [done|].
  assert (send ≠ st) as Hse.
  { intros ->. apply Hout, Htr. left. rewrite <- Esend. pose proof (sold_unit _ _ _ _ _ _ _ _ _ _ Hd Hpos).
    destruct Hq. lia. }
  split; [done|]. destruct (covered_trade this i data x fee () _ _ _ _ s Ei Hc0 Hex Hx Hf) as (l & Hc2).
  pose proof Hc2 as Hc3. rewrite Esend, Erecv in Hc3.
  apply (updateSetTokenPositions_ok _ _ _ _ _ _ (with_logs l s)) in Hup
    as (Hc4 & (s' & -> & Et) & Hb1 & Hb2 & Hsent & Hrecv); [|by rewrite ?Esend, ?Erecv..].
  rewrite Esend in Hb1. rewrite Erecv in Hb2. rewrite Esend in Hunit.
  exists e, w1, w2, l, x. repeat (split; [done|]). split; [destruct Hc4 as (s4 & Hc4); exists s4; by apply covered_leave|].
  split; [by exists s'|done].
Qed.

(** A trade of words, for another token than the set itself, by anyone. *)
Inductive traded this : World E → World E → Prop :=
| Traded msg_sender name send q receive low data r w w' :
    receive ≠ st → is_uint q → is_uint low →
    trade this msg_sender st name send q receive low data w = Ok (r, w') → traded this w w'.

(** C8. Trades, through any adapters and of any amounts, keep a set covered: whatever
    the exchanges give or take, its balances go on covering what its tokens claim of
    every component, those it did not have before included. *)
Theorem trades_covered this w w' (Ht : this ≠ Controller.address0) (Hc : covered_set st w)
    (Hsteps : rtc (traded this) w w') : covered_set st w' ∧ collateralized st w'.
Proof.
  assert (covered_set st w') as Hc'; [|by split; [|apply covered_set_collateralized]].
  induction Hsteps as [|w w1 w' Hstep _ IH]; [done|]. apply IH. clear IH.
  destruct Hstep as [sender name send q receive low data [[[i sent] received] fee] w w1 Hre Hq Hl Hw].
  destruct Hc as (s & Hc).
  destruct (trade_steps _ _ _ _ _ _ _ _ _ _ _ _ _ _ _ Ht Hre Hq Hl Hc Hw)
    as (_ & _ & e & w2 & w3 & l & x & _ & _ & _ & _ & _ & _ & _ & _ & Hc' & _). exact Hc'.
Qed.

(** What was exchanged, before the fee is taken out of it. *)
Lemma postTrade_ok i (x : Z) w w' :
  setToken i = st → is_uint (preTradeReceiveTokenBalance i) → _validatePostTrade i w = Ok (x, w') →
  is_uint x ∧ totalMinReceiveQuantity i ≤ x ∧
  IERC20_balanceOf (receiveToken i) st w = Ok (preTradeReceiveTokenBalance i + x).
Proof.
  intros Ei Hu Hw. unfold _validatePostTrade in Hw. rewrite Ei in Hw.
  read_step Hw as b Hb. apply PositionLib.balance_ok in Hb as (_ & Hb & Hbu).
  read_step Hw as d Hd. apply lift_ok in Hd as [Hd _]. apply safe_sub_inv in Hd as (-> & _ & Hd); [|done..].
  read_step Hw as u1 Hm. apply requires_ok in Hm as [Hm _]. apply Z.leb_le in Hm.
  apply tx_ret_ok in Hw as [<- _]. split; [done|]. split; [done|]. rewrite Hb. f_equal. lia.
Qed.

(** C21. A trade is the manager's, through the adapter registered under the name given;
    it sells units the set has, and the set receives, the fee of the protocol
    included, at least what the manager asked for; the amounts returned are those by
    which the balances have changed and the fee is the share of the controller. *)
Theorem trade_terms this msg_sender (name : string) send (q : Z) receive (low : Z) (data : Bytes)
    i (sent received fee : Z) w w' s
    (Ht : this ≠ Controller.address0) (Hre : receive ≠ st) (Hq : is_uint q) (Hl : is_uint low)
    (Hc : covered_but st [] w s)
    (Hw : trade this msg_sender st name send q receive low data w = Ok ((i, sent, received, fee), w')) :
  SetToken.manager s = msg_sender ∧ 0 < totalSendQuantity i ∧ q ≤ PositionLib.real_unit s send ∧
  low * totalSupply (SetToken.token s) / 10 ^ 18 ≤ received + fee ∧
  IERC20_balanceOf send st w' = Ok (preTradeSendTokenBalance i - sent) ∧
  IERC20_balanceOf receive st w' = Ok (preTradeReceiveTokenBalance i + received) ∧
  (∃ s', sets w' !! st = Some s' ∧ SetToken.token s' = SetToken.token s) ∧
  ∃ e w1, guard_enter (env w) = Ok e ∧
    trade_describes this st name send q receive low i (set_env e w) s ∧
    _executeTrade this i data (set_env e w) = Ok ((), w1) ∧
    (is_uint (fee_rate this w1) → fee = (received + fee) * fee_rate this w1 / 10 ^ 18).
Proof.
  destruct (trade_steps _ _ _ _ _ _ _ _ _ _ _ _ _ _ _ Ht Hre Hq Hl Hc Hw)
    as (Hm & Hse & e & w1 & w2 & l & x & He & Hd & Hpos & Hunit & Hex & Hx & Hf & _ & _ &
        (s' & -> & Et) & Hb1 & Hb2 & _).
  pose proof Hd as (Ei & _ & Er & _ & _ & _ & El & _ & Hpre).
  apply postTrade_ok in Hx as (Hxu & Hlow & Hx); [|done|by eapply balance_word].
  apply accrueProtocolFee_ok in Hf as [[_ Hshift] Hfee]; [|done..]. rewrite Er in Hx, Hshift.
  apply Hshift in Hx; [|done]. unfold only in Hx. rewrite decide_True in Hx by done.
  rewrite Hb2 in Hx. injection Hx as Hx. assert (x = received + fee) as -> by lia.
  rewrite El in Hlow. split; [done|]. split; [done|]. split; [done|]. split; [done|].
  change (env w2) with (env (put_set st s' w2)). rewrite !balance_leave, !balance_put by done.
  split; [done|]. split; [done|]. split; [exists s'; split; [apply put_set_at|done]|].
  exists e, w1. done.
Qed.
End Trades.

(** ** A concrete exchange *)
#[local] Open Scope string_scope.

(** It gives one unit in a thousand more than the least that is asked for. *)
#[export] Instance sample_exchange : IExchangeAdapter (module_env ()) := {|
  getSpender _ _ := Ok "dex";
  getTradeCalldata _ send receive _ q low _ _ :=
    Ok ("dex", 0, swap_data send q receive (low + low / 1000));
|}.

#[export] Instance Exchanging_sample st : Exchanging (E := module_env ()) st.
Proof.
  intros adapter send receive q low data w target v d Hd. injection Hd as <- <- <-. apply swap_spares.
Qed.

Definition sample_controller : Controller.State :=
  Controller.state_of (Controller.execute Controller.owner_only "owner" (Controller.AddFee "m1" 0 (10 ^ 15))
    PositionLib.sample_controller).

Definition sample_registry : IntegrationRegistry.State :=
  match IntegrationRegistry.addIntegration (λ _, Ok ()) sample_controller "owner" "m1"
          "DexAdapter" "adapter" IntegrationRegistry.new_registry with
  | Ok r => r
  | Throw _ => IntegrationRegistry.new_registry
  end.

(** A set of one token with two components, and an exchange with a third. *)
Definition sample_world : World (module_env ()) :=
  {| controller := sample_controller; sets := {[ "set" := SetToken.sample_fee ]};
     registries := {[ "r" := sample_registry ]}; block_timestamp := 0;
     env := ((), false, {[ ("a", "set") := 10 ^ 18; ("b", "set") := 3; ("c", "dex") := 10 ^ 18 ]}) |}.

(** A tenth of [a] for at least as much of [c]. *)
Definition sample_trade : result (TradeInfo * Z * Z * Z * World (module_env ())) :=
  trade "m1" "manager" "set" "DexAdapter" "a" (10 ^ 17) "c" (10 ^ 17) "" sample_world.

Lemma sample_trade_covered : covered_but "set" [] sample_world SetToken.sample_fee.
Proof.
  split; [reflexivity|]. split; [apply SetToken.sample_fee_consistent|].
  split; [apply PositionLib.sample_fee_tracked|]. split; [refine (proj1 (bool_decide_eq_false _) _); vm_compute; reflexivity|].
  intros c Hc _. revert c Hc. apply backed_check_ok. vm_compute. reflexivity.
Qed.

Definition no_trade : TradeInfo :=
  let a := Controller.address0 in Build_TradeInfo a a a a 0 0 0 0 0.

Lemma sample_trade_ran : sample_trade =
  Ok (PositionLib.returned (no_trade, 0, 0, 0) sample_trade, PositionLib.after sample_world sample_trade).
Proof. apply PositionLib.ran. vm_compute. reflexivity. Qed.

Lemma sample_traded : traded "set" "m1" sample_world (PositionLib.after sample_world sample_trade).
Proof.
  apply (Traded "set" "m1" "manager" "DexAdapter" "a" (10 ^ 17) "c" (10 ^ 17) ""
    (PositionLib.returned (no_trade, 0, 0, 0) sample_trade));
    [discriminate|word|word|apply sample_trade_ran].
Qed.

Lemma trades_covered_witness :
  (PositionLib.returned (no_trade, 0, 0, 0) sample_trade).2 = 1001 * 10 ^ 11 ∧
  covered_set "set" (PositionLib.after sample_world sample_trade).
Proof.
  split; [vm_compute; reflexivity|].
  apply (trades_covered "set" "m1" sample_world); [discriminate| |].
  - exists SetToken.sample_fee. apply sample_trade_covered.
  - apply rtc_once, sample_traded.
Defined.

Lemma trade_terms_witness :
  (PositionLib.returned (no_trade, 0, 0, 0) sample_trade).1.1.2 = 10 ^ 17 ∧
  (10 ^ 17 ≤ (PositionLib.returned (no_trade, 0, 0, 0) sample_trade).1.2 +
    (PositionLib.returned (no_trade, 0, 0, 0) sample_trade).2)%Z.
Proof.
  split; [vm_compute; reflexivity|].
  pose proof sample_trade_ran as Hran.
  destruct (PositionLib.returned (no_trade, 0, 0, 0) sample_trade) as [[[i sent] received] fee] eqn:Er.
  destruct (trade_terms "set" "m1" "manager" "DexAdapter" "a" (10 ^ 17) "c" (10 ^ 17) "" i sent received
    fee sample_world (PositionLib.after sample_world sample_trade) SetToken.sample_fee)
    as (_ & _ & _ & Hlow & _); [discriminate|discriminate|word|word|apply sample_trade_covered|exact Hran|].
  exact Hlow.
Defined.
End TradeModule.
