(* ===== verification/Airdrop.v ===== *)
(** * Absorbing airdrops

    [contracts/protocol/modules/v1/AirdropModule.sol]: what tokens sent to a set become
    once they are absorbed, and the settings of the module. *)
From Stdlib Require Import String.
From S2P Require Import Prelude JsString BigNumber Constants MathUtils SolMath.
From S2P Require Import AddressArrayUtils Script AdapterUtils Controller Erc20 SetToken.
From S2P Require Import IntegrationRegistry World Position Tokens Exchange.

(** The mappings of the module, next to the guard that shares the storage. *)
Class AirdropStorage (E : Type) `{!ReentrancyGuard E} := {
  airdropSettings : E → gmap Address AirdropSettings;
  put_airdropSettings : gmap Address AirdropSettings → E → E;
  isAirdrop : E → gset (Address * Address);
  put_isAirdrop : gset (Address * Address) → E → E;
  airdropSettings_put m e : airdropSettings (put_airdropSettings m e) = m;
  airdropSettings_flags f e : airdropSettings (put_isAirdrop f e) = airdropSettings e;
  isAirdrop_put f e : isAirdrop (put_isAirdrop f e) = f;
  isAirdrop_settings m e : isAirdrop (put_airdropSettings m e) = isAirdrop e;
  airdrop_enter e e' : guard_enter e = Ok e' →
    airdropSettings e' = airdropSettings e ∧ isAirdrop e' = isAirdrop e;
  airdrop_leave e : airdropSettings (guard_leave e) = airdropSettings e ∧
    isAirdrop (guard_leave e) = isAirdrop e;
}.

Module AirdropModule.

Definition AIRDROP_MODULE_PROTOCOL_FEE_INDEX : Z := 0.

Definition no_settings : AirdropSettings :=
  {| airdrops := []; airdrop_feeRecipient := Controller.address0; airdropFee := 0;
     anyoneAbsorb := false |}.

Section AirdropModule.
Context `{ERC20} `{SignedLib} `{Keccak} {E : Type} `{!External E} `{!ReentrancyGuard E}
  `{!AirdropStorage E}.
Implicit Types (this msg_sender _setToken _token _airdrop : Address).

Definition settings _setToken (w : World E) : AirdropSettings :=
  default no_settings (airdropSettings (env w) !! _setToken).
Definition isAirdropToken _setToken _token (w : World E) : bool :=
  bool_decide ((_setToken, _token) ∈ isAirdrop (env w)).
Definition getAirdrops _setToken (w : World E) : list Address := airdrops (settings _setToken w).

Definition put_settings _setToken (s : AirdropSettings) : tx E () :=
  modify (λ e, put_airdropSettings (<[_setToken := s]> (airdropSettings e)) e).
Definition put_flag _setToken _token (b : bool) : tx E () :=
  modify (λ e, put_isAirdrop
    (if b then {[ (_setToken, _token) ]} ∪ isAirdrop e else isAirdrop e ∖ {[ (_setToken, _token) ]}) e).

(** ** Absorption *)

Definition _isValidCaller msg_sender _setToken : tx E bool :=
  s ← asks (settings _setToken);
  if anyoneAbsorb s then mret true else isSetManager _setToken msg_sender.

Definition onlyValidCaller msg_sender _setToken : tx E () :=
  b ← _isValidCaller msg_sender _setToken; requires b "Must be valid caller".

Definition _getPostAirdropUnit _setToken (_totalComponentBalance _totalFeesPaid : Z) : tx E Z :=
  totalSupply ← read_set _setToken (λ s, totalSupply (SetToken.token s));
  net ← lift (SafeMath.sub _totalComponentBalance _totalFeesPaid);
  lift (PositionLib.getDefaultPositionUnit totalSupply net).

(** Returns the shares of the manager and of the protocol, and their sum. *)
Definition _handleFees this _setToken (_component : Address) (_amountAirdropped : Z)
    : tx E (Z * Z * Z) :=
  s ← asks (settings _setToken);
  if 0 <? airdropFee s then
    totalFees ← lift (PreciseUnitMath.preciseMul_u _amountAirdropped (airdropFee s));
    protocolTake ← getModuleFee this AIRDROP_MODULE_PROTOCOL_FEE_INDEX totalFees;
    netManagerTake ← lift (SafeMath.sub totalFees protocolTake);
    recipient ← asks (λ w, airdrop_feeRecipient (settings _setToken w));
    strictInvokeTransfer this _setToken _component recipient netManagerTake;;
    payProtocolFeeFromSetToken this _setToken _component protocolTake;;
    mret (netManagerTake, protocolTake, totalFees)
  else mret (0, 0, 0).

(** Returns what its event says, if there is one: the amount absorbed and the two
    shares. *)
Definition _handleAirdropPosition this _setToken _token : tx E (option (Z * Z * Z)) :=
  preFeeTokenBalance ← balance _token _setToken;
  tracked ← PositionLib.getDefaultTrackedBalance _setToken _token;
  amountAirdropped ← lift (SafeMath.sub preFeeTokenBalance tracked);
  if 0 <? amountAirdropped then
    '(managerTake, protocolTake, totalFees) ← _handleFees this _setToken _token amountAirdropped;
    newUnit ← _getPostAirdropUnit _setToken preFeeTokenBalance totalFees;
    PositionLib.editDefaultPosition this _setToken _token newUnit;;
    mret (Some (amountAirdropped, managerTake, protocolTake))
  else mret None.

Definition _absorb this _setToken _token : tx E (option (Z * Z * Z)) :=
  b ← asks (isAirdropToken _setToken _token);
  requires b "Must be approved token.";;
  _handleAirdropPosition this _setToken _token.

Fixpoint _batchAbsorb this _setToken (_tokens : list Address) : tx E () :=
  match _tokens with
  | [] => mret ()
  | _token :: l => _absorb this _setToken _token;; _batchAbsorb this _setToken l
  end.

Definition batchAbsorb this msg_sender _setToken (_tokens : list Address) : tx E () :=
  nonReentrant (
    onlyValidCaller msg_sender _setToken;;
    _validateOnlyValidAndInitializedSet this _setToken;;
    _batchAbsorb this _setToken _tokens).

Definition absorb this msg_sender _setToken _token : tx E (option (Z * Z * Z)) :=
  nonReentrant (
    onlyValidCaller msg_sender _setToken;;
    _validateOnlyValidAndInitializedSet this _setToken;;
    _absorb this _setToken _token).

(** ** Settings *)

Definition with_airdrops (l : list Address) (s : AirdropSettings) : AirdropSettings :=
  {| airdrops := l; airdrop_feeRecipient := airdrop_feeRecipient s; airdropFee := airdropFee s;
     anyoneAbsorb := anyoneAbsorb s |}.

Definition addAirdrop this msg_sender _setToken _airdrop : tx E () :=
  _validateOnlyManagerAndValidSet this msg_sender _setToken;;
  b ← asks (isAirdropToken _setToken _airdrop);
  requires (negb b) "Token already added.";;
  s ← asks (settings _setToken);
  put_settings _setToken (with_airdrops (airdrops s ++ [_airdrop]) s);;
  put_flag _setToken _airdrop true.

Definition removeAirdrop this msg_sender _setToken _airdrop : tx E () :=
  _validateOnlyManagerAndValidSet this msg_sender _setToken;;
  b ← asks (isAirdropToken _setToken _airdrop);
  requires b "Token not added.";;
  s ← asks (settings _setToken);
  l ← lift (removeStorage (airdrops s) _airdrop);
  put_settings _setToken (with_airdrops l s);;
  put_flag _setToken _airdrop false.

Definition updateAnyoneAbsorb this msg_sender _setToken (_anyoneAbsorb : bool) : tx E () :=
  _validateOnlyManagerAndValidSet this msg_sender _setToken;;
  s ← asks (settings _setToken);
  put_settings _setToken {| airdrops := airdrops s; airdrop_feeRecipient := airdrop_feeRecipient s;
                            airdropFee := airdropFee s; anyoneAbsorb := _anyoneAbsorb |}.

Definition updateFeeRecipient this msg_sender _setToken (_newFeeRecipient : Address) : tx E () :=
  _validateOnlyManagerAndValidSet this msg_sender _setToken;;
  requires (negb (bool_decide (_newFeeRecipient = Controller.address0)))
    "Passed address must be non-zero";;
  s ← asks (settings _setToken);
  put_settings _setToken {| airdrops := airdrops s; airdrop_feeRecipient := _newFeeRecipient;
                            airdropFee := airdropFee s; anyoneAbsorb := anyoneAbsorb s |}.

(** What is outstanding is absorbed at the old fee. *)
Definition updateAirdropFee this msg_sender _setToken (_newFee : Z) : tx E () :=
  _validateOnlySetManager _setToken msg_sender;;
  _validateOnlyValidAndInitializedSet this _setToken;;
  requires (_newFee <=? PreciseUnitMath.preciseUnit) "Airdrop fee can't exceed 100%";;
  tokens ← asks (getAirdrops _setToken);
  _batchAbsorb this _setToken tokens;;
  s ← asks (settings _setToken);
  put_settings _setToken {| airdrops := airdrops s; airdrop_feeRecipient := airdrop_feeRecipient s;
                            airdropFee := _newFee; anyoneAbsorb := anyoneAbsorb s |}.

Fixpoint flag_loop _setToken (b : bool) (l : list Address) : tx E () :=
  match l with
  | [] => mret ()
  | a :: l' => put_flag _setToken a b;; flag_loop _setToken b l'
  end.

Definition initialize this msg_sender _setToken (_airdropSettings : AirdropSettings) : tx E () :=
  _validateOnlySetManager _setToken msg_sender;;
  _validateOnlyValidAndPendingSet this _setToken;;
  requires (airdropFee _airdropSettings <=? PreciseUnitMath.preciseUnit) "Fee must be <= 100%.";;
  requires (negb (bool_decide (airdrop_feeRecipient _airdropSettings = Controller.address0)))
    "Zero fee address passed";;
  (if (0 <? length (airdrops _airdropSettings))%nat then
     d ← lift (hasDuplicate (airdrops _airdropSettings));
     requires (negb d) "Duplicate airdrop token passed"
   else mret ());;
  put_settings _setToken _airdropSettings;;
  flag_loop _setToken true (airdrops _airdropSettings);;
  on_set _setToken (λ ctl, SetToken.execute ctl this SetToken.InitializeModule).

(** Called by a set; nothing is absorbed. *)
Definition removeModule msg_sender : tx E () :=
  s ← asks (settings msg_sender);
  flag_loop msg_sender false (airdrops s);;
  put_settings msg_sender no_settings.
End AirdropModule.

(** ** What an absorption does *)
Section Absorptions.
Context `{ERC20} `{SignedLib} `{Keccak} {E : Type} `{!External E} `{!ReentrancyGuard E}
  `{!AirdropStorage E}.
Context (st : Address) `{!Isolated E st}.
Implicit Types (this msg_sender token : Address) (w : World E) (s : SetToken.State).

Lemma airdrop_settings_enter st' w e :
  guard_enter (env w) = Ok e → settings st' (set_env e w) = settings st' w.
Proof. intros He. unfold settings. cbn. by rewrite (proj1 (airdrop_enter _ _ He)). Qed.

(** The rate of the protocol. *)
Definition fee_rate this w : Z :=
  Controller.getModuleFee (controller w) this AIRDROP_MODULE_PROTOCOL_FEE_INDEX.

(** The fees leave the set, shared between the manager and the protocol. *)
Lemma handleFees_ok this token (a m p t : Z) w w' :
  is_uint a → _handleFees this st token a w = Ok ((m, p, t), w') →
  0 ≤ m ∧ 0 ≤ p ∧ t = m + p ∧ is_uint t ∧ shifted st (only token (- t)) w w' ∧
  let fee := airdropFee (settings st w) in
  (is_uint fee → t = a * fee / 10 ^ 18 ∧ (is_uint (fee_rate this w) → p = t * fee_rate this w / 10 ^ 18)).
Proof.
  intros Ha Hw. unfold _handleFees in Hw. read_step Hw as s Hs. apply asks_ok in Hs as [-> _].
  destruct (Z.ltb_spec 0 (airdropFee (settings st w))) as [Hpos|Hpos].
  - read_step Hw as t' Ht. apply lift_ok in Ht as [Ht _]. pose proof (preciseMul_u_word _ _ _ Ht) as Htu.
    read_step Hw as p' Hp. unfold getModuleFee in Hp. read_step Hp as ctl Hctl.
    apply asks_ok in Hctl as [-> _]. fold (fee_rate this w) in Hp. apply lift_ok in Hp as [Hp _].
    pose proof (preciseMul_u_word _ _ _ Hp) as Hpu.
    read_step Hw as m' Hm. apply lift_ok in Hm as [Hm _]. apply safe_sub_inv in Hm as (-> & ? & _); [|done..].
    read_step Hw as r Hr. apply tx_bind_ok in Hw as (u1 & w1 & Hs1 & Hw).
    apply tx_bind_ok in Hw as (u2 & w2 & Hs2 & Hw). apply tx_ret_ok in Hw as [Hw <-]. injection Hw as <- <- <-.
    apply (send_shifts st) in Hs1; [|lia]. apply (payProtocolFee_shifts st) in Hs2; [|apply Hpu].
    split; [lia|]. split; [apply Hpu|]. split; [lia|]. split; [done|]. split.
    + eapply shifted_trans; [exact Hs1|exact Hs2|]. intros c _. unfold only. destruct (decide _); lia.
    + intros Hf. split; [by apply preciseMul_u_floor in Ht as [-> _]|].
      intros Hr'. by apply preciseMul_u_floor in Hp as [-> _].
  - apply tx_ret_ok in Hw as [Hw <-]. injection Hw as <- <- <-. repeat (split; [done|]).
    split; [|split].
    + apply shifted_refl. intros c _. unfold only. by destruct (decide _).
    + unfold is_uint in *. replace (airdropFee (settings st w)) with 0 by lia. by rewrite Z.mul_0_r.
    + intros _. by rewrite Z.mul_0_l.
Qed.

Lemma trackedBalance_ok token (z : Z) w w' s :
  sets w !! st = Some s → SetToken.consistent s →
  PositionLib.getDefaultTrackedBalance st token w = Ok (z, w') →
  w' = w ∧ z = PositionLib.real_unit s token * totalSupply (SetToken.token s) / 10 ^ 18 ∧ is_uint z.
Proof.
  intros Es Hs Hw. unfold PositionLib.getDefaultTrackedBalance in Hw.
  read_step Hw as u Hu. apply view_set_ok in Hu as (s0 & E0 & Hu & _). rewrite Es in E0. injection E0 as <-.
  apply PositionLib.getDefault_real in Hu as [-> Hu]; [|done].
  read_step Hw as x Hx. apply read_set_ok in Hx as (s0 & E0 & -> & _). rewrite Es in E0. injection E0 as <-.
  read_step Hw as v Hv. apply lift_ok in Hv as [Hv _]. apply toUint256_inv in Hv as (-> & _ & Hv); [|done].
  apply lift_ok in Hw as [Hw <-]. split; [done|].
  rewrite Z.mul_comm. apply preciseMul_u_floor; [apply Hs|done|done].
Qed.

Lemma postAirdropUnit_ok (b t u : Z) w w' s :
  sets w !! st = Some s → is_uint (totalSupply (SetToken.token s)) → is_uint b → is_uint t →
  _getPostAirdropUnit st b t w = Ok (u, w') →
  w' = w ∧ is_uint u ∧ let supply := totalSupply (SetToken.token s) in
    u * supply ≤ (b - t) * 10 ^ 18 < (u + 1) * supply.
Proof.
  intros Es Hsu Hb Ht Hw. unfold _getPostAirdropUnit in Hw.
  read_step Hw as x Hx. apply read_set_ok in Hx as (s0 & E0 & -> & _). rewrite Es in E0. injection E0 as <-.
  read_step Hw as n Hn. apply lift_ok in Hn as [Hn _]. apply safe_sub_inv in Hn as (-> & ? & Hn); [|done..].
  apply lift_ok in Hw as [Hw <-]. apply preciseDiv_u_inv in Hw as (-> & Hpos & Hu); [|done..].
  split; [done|]. split; [done|]. cbv zeta. set (supply := totalSupply (SetToken.token s)) in *.
  rewrite quot_floor by lia. pose proof (Z.div_mod ((b - t) * 10 ^ 18) supply ltac:(lia)).
  pose proof (Z.mod_pos_bound ((b - t) * 10 ^ 18) supply Hpos). lia.
Qed.

(** What an absorption of [token] makes of a set: the record it returns, the balance
    and the position after it. *)
Definition absorbed this token (r : option (Z * Z * Z)) w w' s s' : Prop :=
  let supply := totalSupply (SetToken.token s) in
  ∃ b, IERC20_balanceOf token st w = Ok b ∧
    let outstanding := b - PositionLib.real_unit s token * supply / 10 ^ 18 in
    match r with
    | None => outstanding = 0 ∧ w' = w
    | Some (a, m, p) => a = outstanding ∧ 0 < a ∧ 0 ≤ m ∧ 0 ≤ p ∧
        IERC20_balanceOf token st w' = Ok (b - (m + p)) ∧
        (let fee := airdropFee (settings st w) in is_uint fee → m + p = a * fee / 10 ^ 18 ∧
          (is_uint (fee_rate this w) → p = (m + p) * fee_rate this w / 10 ^ 18)) ∧
        (b - (m + p)) * 10 ^ 36 < ((PositionLib.real_unit s' token + 2) * 10 ^ 18
          + SetToken.positionMultiplier s) * supply
    end.

Lemma handleAirdrop_ok this token r w w' s :
  this ≠ Controller.address0 → token ≠ st → covered_but st [] w s →
  _handleAirdropPosition this st token w = Ok (r, w') →
  ∃ s', covered_but st [] w' s' ∧ SetToken.token s' = SetToken.token s ∧ absorbed this token r w w' s s'.
Proof.
  intros Hthis Hne Hc Hw. pose proof Hc as (Es & Hs & _). assert (is_uint (totalSupply (SetToken.token s))) as Hsu by apply Hs.
  unfold _handleAirdropPosition in Hw. read_step Hw as b Hb. apply PositionLib.balance_ok in Hb as (_ & Hb & Hbu).
  apply tx_bind_ok in Hw as (z & w1 & Hz & Hw). apply (trackedBalance_ok _ _ _ _ s) in Hz as (-> & Hz & Hzu); [|done..].
  read_step Hw as a Ha. apply lift_ok in Ha as [Ha _]. apply safe_sub_inv in Ha as (-> & Hle & Hau); [|done..].
  destruct (Z.ltb_spec 0 (b - z)) as [Hpos|Hpos]; [|apply tx_ret_ok in Hw as [<- <-]; exists s;
    split; [done|]; split; [done|]; exists b; split; [done|]; split; [lia|done]].
  apply tx_bind_ok in Hw as ([[m p] t] & w1 & Hf & Hw).
  apply handleFees_ok in Hf as (Hm & Hp & -> & Htu & Hshift & Hfees); [|done].
  destruct (covered_left_alone st [token] w w1 s) as (l & Hc1);
    [by eapply shifted_left_alone|by eapply covered_weaken; [apply list_subseteq_nil|]|].
  pose proof Hc1 as (Es1 & Hs1 & Htr1 & _).
  apply tx_bind_ok in Hw as (u & w2 & Hu & Hw).
  apply (postAirdropUnit_ok _ _ _ _ _ (with_logs l s)) in Hu as (-> & Hu & Hlow & Hhigh); [|done..].
  cbn [with_logs SetToken.token] in Hlow, Hhigh. apply tx_bind_ok in Hw as (x & w2 & He & Hw).
  apply tx_ret_ok in Hw as [<- <-].
  apply (PositionLib.editDefaultPosition_ok _ _ _ _ _ _ _ (with_logs l s)) in He
    as (s' & -> & Hs' & Htr' & Et & Em & Hpos' & Hr & Hr'); [|done..].
  destruct Hshift as [_ Hshift]. apply Hshift in Hb as Hb1; [|done]. unfold only in Hb1.
  rewrite decide_True in Hb1 by done. destruct Hsu as [Hsu0 _].
  exists s'. split; [|split; [done|]].
  - apply (covered_edit st [] token (b + - (m + p)) w1 (with_logs l s) s'); [done..|].
    cbn [with_logs SetToken.token]. nia.
  - exists b. split; [done|]. cbv zeta. rewrite <- Hz. repeat (split; [done|]).
    rewrite balance_put by done. split; [rewrite Hb1; f_equal; lia|]. split; [done|].
    change (SetToken.positionMultiplier (with_logs l s)) with (SetToken.positionMultiplier s) in Hr'. nia.
Qed.

Lemma reading_validCaller msg_sender : reading (onlyValidCaller (E := E) msg_sender st).
Proof. unfold onlyValidCaller, _isValidCaller, isSetManager. reading. Qed.
#[local] Hint Resolve reading_validCaller : reading.

(** Who may absorb: the manager, or anyone if the manager says so. *)
Lemma validCaller_ok msg_sender (u : ()) w w' s :
  sets w !! st = Some s → onlyValidCaller msg_sender st w = Ok (u, w') →
  anyoneAbsorb (settings st w) = true ∨ SetToken.manager s = msg_sender.
Proof.
  intros Es Hw. unfold onlyValidCaller, _isValidCaller in Hw. apply tx_bind_ok in Hw as (b & w1 & Hb & Hw).
  apply requires_ok in Hw as [-> _]. read_step Hb as x Hx. apply asks_ok in Hx as [-> _].
  destruct (anyoneAbsorb (settings st w)); [by left|right]. unfold isSetManager in Hb.
  apply read_set_ok in Hb as (s0 & E0 & Hb & _). rewrite Es in E0. injection E0 as <-.
  symmetry in Hb. by apply bool_decide_eq_true in Hb.
Qed.

Lemma absorb_ok this token r w w' s :
  this ≠ Controller.address0 → token ≠ st → covered_but st [] w s →
  _absorb this st token w = Ok (r, w') →
  isAirdropToken st token w = true ∧ ∃ s', covered_but st [] w' s' ∧
    SetToken.token s' = SetToken.token s ∧ absorbed this token r w w' s s'.
Proof.
  intros Ht Hne Hc Hw. unfold _absorb in Hw. read_step Hw as b Hb. apply asks_ok in Hb as [-> _].
  read_step Hw as u Hu. apply requires_ok in Hu as [Hu _]. split; [done|]. by eapply handleAirdrop_ok.
Qed.

Lemma batchAbsorb_covered this (l : list Address) (u : ()) w w' :
  this ≠ Controller.address0 → st ∉ l → covered_set st w →
  _batchAbsorb this st l w = Ok (u, w') → covered_set st w'.
Proof.
  intros Ht. revert w. induction l as [|token l IH]; intros w Hl Hc Hw; cbn [_batchAbsorb] in Hw.
  { by apply tx_ret_ok in Hw as [_ <-]. }
  apply not_elem_of_cons in Hl as [Hne Hl]. destruct Hc as (s & Hc).
  apply tx_bind_ok in Hw as (r & w1 & Hr & Hw).
  apply (absorb_ok _ _ _ _ _ s) in Hr as (_ & s' & Hc' & _); [|done..].
  apply (IH w1); [done|by exists s'|done].
Qed.

(** What anyone does that absorbs tokens other than the set itself. *)
Inductive absorbing this : World E → World E → Prop :=
| Absorb sender token r w w' : token ≠ st →
    absorb this sender st token w = Ok (r, w') → absorbing this w w'
| BatchAbsorb sender tokens u w w' : st ∉ tokens →
    batchAbsorb this sender st tokens w = Ok (u, w') → absorbing this w w'
| UpdateAirdropFee sender fee u w w' : st ∉ getAirdrops st w →
    updateAirdropFee this sender st fee w = Ok (u, w') → absorbing this w w'.

(** C11. Absorptions keep a set covered, in any number and order and whatever fees they
    pay; so does a change of the fee, which absorbs what is outstanding. *)
Theorem absorptions_covered this w w' (Ht : this ≠ Controller.address0) (Hc : covered_set st w)
    (Hput : ∀ c m w, IERC20_balanceOf c st (set_env (put_airdropSettings m (env w)) w)
      = IERC20_balanceOf c st w)
    (Hsteps : rtc (absorbing this) w w') : covered_set st w' ∧ collateralized st w'.
Proof.
  assert (covered_set st w') as Hc'; [|by split; [|apply covered_set_collateralized]].
  induction Hsteps as [|w w1 w' Hstep _ IH]; [done|]. apply IH. clear IH.
  destruct Hstep as [sender token r w w1 Hne Hw|sender l u w w1 Hl Hw|sender fee u w w1 Hl Hw].
  - apply (guarded_covered _ _ _ _ _ Hc Hw). clear Hc Hw. intros v v' (s & Hv) Hw.
    read_step Hw as x Hx. read_step Hw as y Hy.
    apply (absorb_ok _ _ _ _ _ s) in Hw as (_ & s' & Hc' & _); [|done..]. by exists s'.
  - apply (guarded_covered _ _ _ _ _ Hc Hw). clear Hc Hw. intros v v' Hv Hw.
    read_step Hw as x Hx. read_step Hw as y Hy. by apply batchAbsorb_covered in Hw.
  - unfold updateAirdropFee in Hw. read_step Hw as x1 Hx1. read_step Hw as x2 Hx2. read_step Hw as x3 Hx3.
    read_step Hw as tokens Htk. apply asks_ok in Htk as [-> _]. apply tx_bind_ok in Hw as (u' & w2 & Hb & Hw).
    apply batchAbsorb_covered in Hb; [|done..]. read_step Hw as y Hy. apply modify_ok in Hw as ->.
    destruct Hb as (s & Hb). exists s. by apply covered_env.
Qed.

(** An absorption is for the manager, or for anyone if the manager allows it, and for
    the tokens the manager lists.  It takes what the set holds beyond its position;
    the fees are the shares of the manager and the protocol and leave the set; but for
    rounding the rest becomes part of the position.  With nothing outstanding it does
    nothing. *)
Theorem absorb_takes_all this msg_sender token r w w' s
    (Ht : this ≠ Controller.address0) (Hne : token ≠ st) (Hc : covered_but st [] w s)
    (Hw : absorb this msg_sender st token w = Ok (r, w')) :
  (anyoneAbsorb (settings st w) = true ∨ SetToken.manager s = msg_sender) ∧
  isAirdropToken st token w = true ∧
  ∃ e w1 s', guard_enter (env w) = Ok e ∧ w' = set_env (guard_leave (env w1)) w1 ∧
    covered_but st [] w' s' ∧ SetToken.token s' = SetToken.token s ∧
    absorbed this token r (set_env e w) w1 s s'.
Proof.
  apply nonReentrant_ok in Hw as (e & w1 & He & Hw & ->).
  pose proof (covered_enter st [] e w s He Hc) as Hc0.
  read_step Hw as x Hx. read_step Hw as y Hy.
  apply (validCaller_ok _ _ _ _ s) in Hx; [|apply Hc0]. rewrite (airdrop_settings_enter _ _ _ He) in Hx.
  apply (absorb_ok _ _ _ _ _ s) in Hw as (Hi & s' & Hc' & Et & Ha); [|done..].
  split; [done|]. split.
  { unfold isAirdropToken in *. cbn in Hi. by rewrite (proj2 (airdrop_enter _ _ He)) in Hi. }
  exists e, w1, s'. split; [done|]. split; [done|]. split; [by apply covered_leave|done].
Qed.
End Absorptions.

(** ** A concrete set *)
#[local] Open Scope string_scope.

Abbreviation airdrop_env := (module_env (gmap Address AirdropSettings * gset (Address * Address))).

#[export] Instance airdrop_storage : AirdropStorage airdrop_env.
Proof.
  refine {| airdropSettings (e : airdrop_env) := e.1.1.1;
    put_airdropSettings m (e : airdrop_env) := (m, e.1.1.2, e.1.2, e.2);
    isAirdrop (e : airdrop_env) := e.1.1.2;
    put_isAirdrop f (e : airdrop_env) := (e.1.1.1, f, e.1.2, e.2) |}; [done..| |done].
  intros e e'. cbn. destruct e.1.2; [done|]. by intros [= <-].
Defined.

(** A tenth of an airdrop goes to the treasurer. *)
Definition sample_settings : AirdropSettings :=
  {| airdrops := ["a"; "d"]; airdrop_feeRecipient := "treasurer"; airdropFee := 10 ^ 17;
     anyoneAbsorb := true |}.

(** A set of one token, with two components, was sent some of a third token. *)
Definition sample_world : World airdrop_env :=
  {| controller := PositionLib.sample_controller; sets := {[ "set" := SetToken.sample_fee ]};
     registries := ∅; block_timestamp := 0;
     env := (({[ "set" := sample_settings ]}, {[ ("set", "a"); ("set", "d") ]}), false,
             {[ ("a", "set") := 10 ^ 18; ("b", "set") := 3; ("d", "set") := 7 * 10 ^ 18 ]}) |}.

Definition sample_absorb : result (option (Z * Z * Z) * World airdrop_env) :=
  absorb "m1" "anyone" "set" "d" sample_world.

Lemma sample_airdrop_covered : covered_but "set" [] sample_world SetToken.sample_fee.
Proof.
  split; [reflexivity|]. split; [apply SetToken.sample_fee_consistent|].
  split; [apply PositionLib.sample_fee_tracked|].
  split; [refine (proj1 (bool_decide_eq_false _) _); vm_compute; reflexivity|].
  intros c Hc _. revert c Hc. apply backed_check_ok. vm_compute. reflexivity.
Qed.

Lemma sample_absorb_ran : sample_absorb =
  Ok (PositionLib.returned None sample_absorb, PositionLib.after sample_world sample_absorb).
Proof. apply PositionLib.ran. vm_compute. reflexivity. Qed.

Lemma absorptions_covered_witness :
  PositionLib.returned None sample_absorb = Some (7 * 10 ^ 18, 7 * 10 ^ 17, 0)%Z ∧
  covered_set "set" (PositionLib.after sample_world sample_absorb).
Proof.
  split; [vm_compute; reflexivity|].
  apply (absorptions_covered "set" "m1" sample_world); [discriminate| |reflexivity|].
  - exists SetToken.sample_fee. apply sample_airdrop_covered.
  - apply rtc_once. apply (Absorb "set" "m1" "anyone" "d" (PositionLib.returned None sample_absorb));
      [discriminate|apply sample_absorb_ran].
Defined.

Lemma absorb_takes_all_witness :
  anyoneAbsorb (settings "set" sample_world) = true ∧ isAirdropToken "set" "d" sample_world = true.
Proof.
  destruct (absorb_takes_all "set" "m1" "anyone" "d" (PositionLib.returned None sample_absorb)
    sample_world (PositionLib.after sample_world sample_absorb) SetToken.sample_fee)
    as (Hwho & Hwhat & _); [discriminate|discriminate|apply sample_airdrop_covered|apply sample_absorb_ran|].
  destruct Hwho as [Hwho|Hwho]; [by split|]. exfalso. by vm_compute in Hwho.
Defined.
End AirdropModule.
