(* ===== verification/Wrap.v ===== *)
(** * Wrapping components

    [contracts/protocol/modules/v1/WrapModuleV2.sol], with the adapters by the
    interface [IWrapV2Adapter]: wrapping and unwrapping keep a set covered. *)
From Stdlib Require Import String.
From S2P Require Import Prelude JsString BigNumber Constants MathUtils SolMath.
From S2P Require Import AddressArrayUtils Script AdapterUtils Controller Erc20 SetToken.
From S2P Require Import IntegrationRegistry World Position Tokens Exchange.

(** [interfaces/IWrapV2Adapter.sol], by the address of the adapter. *)
Class IWrapV2Adapter `{ERC20} (E : Type) := {
  ETH_TOKEN_ADDRESS : Address → World E → result Address;
  getWrapCallData : Address → Address → Address → Z → Address → Bytes → World E →
    result (Address * Z * SetToken.call_data);
  getUnwrapCallData : Address → Address → Address → Z → Address → Bytes → World E →
    result (Address * Z * SetToken.call_data);
  getSpenderAddress : Address → Address → Address → World E → result Address;
}.

(** The ether of an account. *)
Class Ether `{ERC20} (E : Type) := ether_balance : Address → World E → result Z.

Module WrapModuleV2.
Section WrapModuleV2.
Context `{ERC20} `{SignedLib} `{Keccak} {E : Type} `{!External E} `{!ReentrancyGuard E}
  `{!IWrapV2Adapter E} `{!Ether E}.
(** The token of ether, fixed by the constructor. *)
Context (weth : Address).
Implicit Types (this msg_sender _setToken _underlyingToken _wrappedToken _wrapAdapter : Address).

Definition initialize this msg_sender _setToken : tx E () :=
  _validateOnlySetManager _setToken msg_sender;;
  ctl ← asks controller;
  requires (bool_decide (_setToken ∈ Controller.isSet ctl)) "Must be controller-enabled SetToken";;
  p ← isSetPendingInitialization this _setToken;
  requires p "Must be pending initialization";;
  on_set _setToken (λ ctl, SetToken.execute ctl this SetToken.InitializeModule).

(** Nothing to check on removal. *)
Definition removeModule : tx E () := mret ().

Definition _validateInputs _setToken (_transactPosition : Address) (_transactPositionUnits : Z)
    : tx E () :=
  requires (0 <? _transactPositionUnits) "Target position units must be > 0";;
  d ← PositionLib.hasDefaultPosition _setToken _transactPosition;
  requires d "Target default position must be component";;
  b ← PositionLib.hasSufficientDefaultUnits _setToken _transactPosition _transactPositionUnits;
  requires b "Unit cant be greater than existing".

Definition _snapshotTargetAssetsBalance _setToken _underlyingToken _wrappedToken : tx E (Z * Z) :=
  u ← balance _underlyingToken _setToken;
  k ← balance _wrappedToken _setToken;
  mret (u, k).

Definition _createWrapDataAndInvoke this _setToken _wrapAdapter _underlyingToken _wrappedToken
    (_notionalUnderlying : Z) (_wrapData : Bytes) : tx E () :=
  '(callTarget, callValue, callByteData) ← query (getWrapCallData _wrapAdapter _underlyingToken
    _wrappedToken _notionalUnderlying _setToken _wrapData);
  SetToken_invoke this _setToken callTarget callValue callByteData;;
  mret ().

Definition _createUnwrapDataAndInvoke this _setToken _wrapAdapter _underlyingToken _wrappedToken
    (_notionalUnderlying : Z) (_unwrapData : Bytes) : tx E () :=
  '(callTarget, callValue, callByteData) ← query (getUnwrapCallData _wrapAdapter _underlyingToken
    _wrappedToken _notionalUnderlying _setToken _unwrapData);
  SetToken_invoke this _setToken callTarget callValue callByteData;;
  mret ().

Definition _updatePosition this _setToken (_token : Address)
    (_preActionTokenBalance _postActionTokenBalance : Z) : tx E () :=
  supply ← read_set _setToken (λ s, totalSupply (SetToken.token s));
  i ← view_set _setToken (λ s, SetToken.getDefaultPositionRealUnit s _token);
  unit ← lift (toUint256 i);
  newUnit ← lift (PositionLib.calculateDefaultEditPositionUnit supply _preActionTokenBalance
                    _postActionTokenBalance unit);
  PositionLib.editDefaultPosition this _setToken _token newUnit.

(** The quantities of the underlying and of the wrapped token. *)
Definition _validateWrapAndUpdate this (_integrationName : string) _setToken _underlyingToken
    _wrappedToken (_underlyingUnits : Z) (_wrapData : Bytes) (_usesEther : bool) : tx E (Z * Z) :=
  _validateInputs _setToken _underlyingToken _underlyingUnits;;
  '(preUnderlying, preWrap) ← _snapshotTargetAssetsBalance _setToken _underlyingToken _wrappedToken;
  supply ← read_set _setToken (λ s, totalSupply (SetToken.token s));
  notionalUnderlying ← lift (PositionLib.getDefaultTotalNotional supply _underlyingUnits);
  wrapAdapter ← getAndValidateAdapter this _integrationName;
  (if _usesEther then invokeUnwrapWETH this _setToken weth notionalUnderlying
   else spender ← query (getSpenderAddress wrapAdapter _underlyingToken _wrappedToken);
        invokeApprove this _setToken _underlyingToken spender notionalUnderlying);;
  token ← (if _usesEther then query (ETH_TOKEN_ADDRESS wrapAdapter) else mret _underlyingToken);
  _createWrapDataAndInvoke this _setToken wrapAdapter token _wrappedToken notionalUnderlying _wrapData;;
  '(postUnderlying, postWrap) ← _snapshotTargetAssetsBalance _setToken _underlyingToken _wrappedToken;
  _updatePosition this _setToken _underlyingToken preUnderlying postUnderlying;;
  _updatePosition this _setToken _wrappedToken preWrap postWrap;;
  u ← lift (SafeMath.sub preUnderlying postUnderlying);
  k ← lift (SafeMath.sub postWrap preWrap);
  mret (u, k).

Definition _validateUnwrapAndUpdate this (_integrationName : string) _setToken _underlyingToken
    _wrappedToken (_wrappedTokenUnits : Z) (_unwrapData : Bytes) (_usesEther : bool) : tx E (Z * Z) :=
  _validateInputs _setToken _wrappedToken _wrappedTokenUnits;;
  '(preUnderlying, preWrap) ← _snapshotTargetAssetsBalance _setToken _underlyingToken _wrappedToken;
  supply ← read_set _setToken (λ s, totalSupply (SetToken.token s));
  notionalWrappedToken ← lift (PositionLib.getDefaultTotalNotional supply _wrappedTokenUnits);
  wrapAdapter ← getAndValidateAdapter this _integrationName;
  spender ← query (getSpenderAddress wrapAdapter _underlyingToken _wrappedToken);
  invokeApprove this _setToken _wrappedToken spender notionalWrappedToken;;
  token ← (if _usesEther then query (ETH_TOKEN_ADDRESS wrapAdapter) else mret _underlyingToken);
  _createUnwrapDataAndInvoke this _setToken wrapAdapter token _wrappedToken notionalWrappedToken
    _unwrapData;;
  (if _usesEther then
     b ← query (ether_balance _setToken); invokeWrapWETH this _setToken weth b
   else mret ());;
  '(postUnderlying, postWrap) ← _snapshotTargetAssetsBalance _setToken _underlyingToken _wrappedToken;
  _updatePosition this _setToken _underlyingToken preUnderlying postUnderlying;;
  _updatePosition this _setToken _wrappedToken preWrap postWrap;;
  u ← lift (SafeMath.sub postUnderlying preUnderlying);
  k ← lift (SafeMath.sub preWrap postWrap);
  mret (u, k).

(** Each returns the quantities of its event. *)

Definition wrap this msg_sender _setToken _underlyingToken _wrappedToken (_underlyingUnits : Z)
    (_integrationName : string) (_wrapData : Bytes) : tx E (Z * Z) :=
  nonReentrant (
    _validateOnlyManagerAndValidSet this msg_sender _setToken;;
    _validateWrapAndUpdate this _integrationName _setToken _underlyingToken _wrappedToken
      _underlyingUnits _wrapData false).

Definition wrapWithEther this msg_sender _setToken _wrappedToken (_underlyingUnits : Z)
    (_integrationName : string) (_wrapData : Bytes) : tx E (Z * Z) :=
  nonReentrant (
    _validateOnlyManagerAndValidSet this msg_sender _setToken;;
    _validateWrapAndUpdate this _integrationName _setToken weth _wrappedToken _underlyingUnits
      _wrapData true).

Definition unwrap this msg_sender _setToken _underlyingToken _wrappedToken (_wrappedUnits : Z)
    (_integrationName : string) (_unwrapData : Bytes) : tx E (Z * Z) :=
  nonReentrant (
    _validateOnlyManagerAndValidSet this msg_sender _setToken;;
    _validateUnwrapAndUpdate this _integrationName _setToken _underlyingToken _wrappedToken
      _wrappedUnits _unwrapData false).

Definition unwrapWithEther this msg_sender _setToken _wrappedToken (_wrappedUnits : Z)
    (_integrationName : string) (_unwrapData : Bytes) : tx E (Z * Z) :=
  nonReentrant (
    _validateOnlyManagerAndValidSet this msg_sender _setToken;;
    _validateUnwrapAndUpdate this _integrationName _setToken weth _wrappedToken _wrappedUnits
      _unwrapData true).
End WrapModuleV2.

(** ** What wrapping does *)
Section Wrapping.
Context `{ERC20} `{SignedLib} `{Keccak} {E : Type} `{!External E} `{!ReentrancyGuard E}
  `{!IWrapV2Adapter E} `{!Ether E}.
Context (weth st : Address) `{!Isolated E st} `{!Approving E st}.
Implicit Types (this msg_sender token under wrapped : Address) (w : World E) (s : SetToken.State).

(** What is asked of the protocols that wrap and of the token of ether: the calls an
    adapter encodes touch the two tokens only, and the wrapped one only when it is
    ether that is wrapped; deposits and withdrawals touch the token of ether only. *)
Class Wrapping := {
  wrap_spares adapter under wrapped q data w target v d :
    getWrapCallData adapter under wrapped q st data w = Ok (target, v, d) →
    spares st [under; wrapped] (functionCallWithValue (E := E) st target v d);
  unwrap_spares adapter under wrapped q data w target v d :
    getUnwrapCallData adapter under wrapped q st data w = Ok (target, v, d) →
    spares st [under; wrapped] (functionCallWithValue (E := E) st target v d);
  wrap_ether_spares adapter eth wrapped q data w0 w target v d :
    ETH_TOKEN_ADDRESS adapter w0 = Ok eth →
    getWrapCallData adapter eth wrapped q st data w = Ok (target, v, d) →
    spares st [wrapped] (functionCallWithValue (E := E) st target v d);
  unwrap_ether_spares adapter eth wrapped q data w0 w target v d :
    ETH_TOKEN_ADDRESS adapter w0 = Ok eth →
    getUnwrapCallData adapter eth wrapped q st data w = Ok (target, v, d) →
    spares st [wrapped] (functionCallWithValue (E := E) st target v d);
  deposit_spares v :
    spares st [weth] (functionCallWithValue (E := E) st weth v (SetToken.encodeWithSignature "deposit()" []));
  withdraw_spares q : spares st [weth] (functionCallWithValue (E := E) st weth 0
    (SetToken.encodeWithSignature "withdraw(uint256)" [VNum q]));
}.
Context `{!Wrapping}.

Lemma snapshot_ok under wrapped (b k : Z) w w' :
  _snapshotTargetAssetsBalance st under wrapped w = Ok ((b, k), w') →
  w' = w ∧ IERC20_balanceOf under st w = Ok b ∧ is_uint b ∧
  IERC20_balanceOf wrapped st w = Ok k ∧ is_uint k.
Proof.
  intros Hw. unfold _snapshotTargetAssetsBalance in Hw.
  apply tx_bind_ok in Hw as (x & w1 & Hx & Hw). apply PositionLib.balance_ok in Hx as (-> & Hx & Hxu).
  apply tx_bind_ok in Hw as (y & w1 & Hy & Hw). apply PositionLib.balance_ok in Hy as (-> & Hy & Hyu).
  apply tx_ret_ok in Hw as [Hw <-]. by injection Hw as -> ->.
Qed.

(** An edit by the balance of the snapshot. *)
Lemma updatePosition_ok X this token (pre post : Z) (u : ()) w w' s :
  this ≠ Controller.address0 → token ≠ st → is_uint pre → is_uint post →
  covered_but st (token :: X) w s → IERC20_balanceOf token st w = Ok post →
  _updatePosition this st token pre post w = Ok (u, w') →
  ∃ s', w' = put_set st s' w ∧ covered_but st X w' s' ∧ SetToken.token s' = SetToken.token s.
Proof.
  intros Ht Hne Hp Hq Hc Hb Hw. pose proof Hc as (Es & Hs & Htr & _).
  assert (is_uint (totalSupply (SetToken.token s))) as Hsu by apply Hs.
  unfold _updatePosition in Hw.
  read_step Hw as x Hx. apply read_set_ok in Hx as (s0 & E0 & -> & _). rewrite Es in E0. injection E0 as <-.
  read_step Hw as i Hi. apply view_set_ok in Hi as (s0 & E0 & Hi & _). rewrite Es in E0. injection E0 as <-.
  apply PositionLib.getDefault_real in Hi as [-> Hi]; [|done].
  read_step Hw as o Ho. apply lift_ok in Ho as [Ho _]. apply toUint256_inv in Ho as (-> & _ & Ho); [|done].
  read_step Hw as n Hn. apply lift_ok in Hn as [Hn _].
  apply PositionLib.calculate_unit in Hn as (Hnu & Hair & Hn); [|done..].
  apply (PositionLib.editDefaultPosition_ok _ _ _ _ _ _ _ s) in Hw
    as (s' & -> & Hs' & Htr' & Et & Em & Hpos & Hr & _); [|done..].
  exists s'. split; [done|]. split; [|done]. eapply covered_edit; [done..|].
  destruct Hsu as [Hsu _]. nia.
Qed.

Lemma updatePositions_ok this under wrapped (b k b' k' : Z) (u1 u2 : ()) w w1 w2 s :
  this ≠ Controller.address0 → under ≠ st → wrapped ≠ st →
  is_uint b → is_uint k → is_uint b' → is_uint k' →
  covered_but st [under; wrapped] w s →
  IERC20_balanceOf under st w = Ok b' → IERC20_balanceOf wrapped st w = Ok k' →
  _updatePosition this st under b b' w = Ok (u1, w1) →
  _updatePosition this st wrapped k k' w1 = Ok (u2, w2) → covered_set st w2.
Proof.
  intros Ht Hu Hwr ? ? ? ? Hc Hb Hk H1' H2'.
  apply (updatePosition_ok [wrapped] _ _ _ _ _ _ _ s) in H1' as (s1 & -> & Hc1 & _); [|done..].
  apply (updatePosition_ok [] _ _ _ _ _ _ _ s1) in H2' as (s2 & -> & Hc2 & _);
    [by exists s2|done..|by rewrite balance_put].
Qed.

Lemma reading_inputs token (q : Z) : reading (_validateInputs (E := E) st token q).
Proof. unfold _validateInputs, PositionLib.hasDefaultPosition, PositionLib.hasSufficientDefaultUnits. reading. Qed.

Lemma reading_snapshot under wrapped : reading (_snapshotTargetAssetsBalance (E := E) st under wrapped).
Proof. unfold _snapshotTargetAssetsBalance. reading. Qed.
#[local] Hint Resolve reading_inputs reading_snapshot : reading.

(** What is wrapped or unwrapped is a component, and so not the set. *)
Lemma inputs_component token (q : Z) (u : ()) w w' s :
  covered_but st [] w s → _validateInputs st token q w = Ok (u, w') → token ≠ st.
Proof.
  intros (Es & Hs & Htr & Hout & _) Hw. unfold _validateInputs in Hw. read_step Hw as x Hx.
  apply tx_bind_ok in Hw as (d & w1 & Hd & Hw). apply (PositionLib.hasDefault_ok _ _ _ _ _ s) in Hd as [-> ->];
    [|done..].
  read_step Hw as y Hy. apply requires_ok in Hy as [Hy _]. intros ->. apply Hout, Htr. left. lia.
Qed.

Lemma spares_createWrap this adapter under wrapped (q : Z) (data : Bytes) :
  spares st [under; wrapped] (_createWrapDataAndInvoke (E := E) this st adapter under wrapped q data).
Proof. apply spares_encoded; [done|]. intros w target v d. apply wrap_spares. Qed.

Lemma spares_createUnwrap this adapter under wrapped (q : Z) (data : Bytes) :
  spares st [under; wrapped] (_createUnwrapDataAndInvoke (E := E) this st adapter under wrapped q data).
Proof. apply spares_encoded; [done|]. intros w target v d. apply unwrap_spares. Qed.

Lemma spares_createWrapEther this adapter eth wrapped (q : Z) (data : Bytes) w0 :
  ETH_TOKEN_ADDRESS adapter w0 = Ok eth →
  spares st [wrapped] (_createWrapDataAndInvoke (E := E) this st adapter eth wrapped q data).
Proof. intros He. apply spares_encoded; [done|]. intros w target v d. by apply (wrap_ether_spares _ _ _ _ _ w0). Qed.

Lemma spares_createUnwrapEther this adapter eth wrapped (q : Z) (data : Bytes) w0 :
  ETH_TOKEN_ADDRESS adapter w0 = Ok eth →
  spares st [wrapped] (_createUnwrapDataAndInvoke (E := E) this st adapter eth wrapped q data).
Proof. intros He. apply spares_encoded; [done|]. intros w target v d. by apply (unwrap_ether_spares _ _ _ _ _ w0). Qed.

Lemma spares_weth (b : bool) this (q : Z) wrapped :
  spares st [weth; wrapped]
    (if b then invokeUnwrapWETH (E := E) this st weth q else invokeWrapWETH (E := E) this st weth q).
Proof.
  unfold invokeUnwrapWETH, invokeWrapWETH.
  destruct b; (apply spares_bind; [apply spares_invoke; [done|]|intros r; apply spares_reading; reading]);
    (eapply spares_mono; [|apply withdraw_spares || apply deposit_spares]); set_solver.
Qed.

(** The calls that wrap, with ether or without. *)
Lemma spares_wrap this adapter (ether : bool) under wrapped (q : Z) (data : Bytes) :
  (ether = true → under = weth) →
  spares st [under; wrapped]
   ((if ether then invokeUnwrapWETH this st weth q
     else spender ← query (getSpenderAddress adapter under wrapped);
          invokeApprove this st under spender q);;
    token ← (if ether then query (ETH_TOKEN_ADDRESS adapter) else mret under);
    _createWrapDataAndInvoke (E := E) this st adapter token wrapped q data).
Proof.
  intros Hether. apply spares_bind; [|intros _; destruct ether].
  - destruct ether; [rewrite Hether by done; apply (spares_weth true)|].
    apply spares_bind; [apply spares_reading; reading|intros spender; by apply spares_approve].
  - intros w u w' Hw. apply tx_bind_ok in Hw as (eth & w1 & He & Hw). apply query_ok in He as [He <-].
    eapply left_alone_mono; [|by eapply spares_createWrapEther]. set_solver.
  - intros w u w' Hw. apply tx_bind_ok in Hw as (token & w1 & He & Hw). apply tx_ret_ok in He as [<- <-].
    by eapply spares_createWrap.
Qed.

Lemma spares_unwrap this adapter (ether : bool) under wrapped (q : Z) (data : Bytes) :
  (ether = true → under = weth) →
  spares st [under; wrapped]
   (spender ← query (getSpenderAddress adapter under wrapped);
    invokeApprove this st wrapped spender q;;
    token ← (if ether then query (ETH_TOKEN_ADDRESS adapter) else mret under);
    _createUnwrapDataAndInvoke (E := E) this st adapter token wrapped q data;;
    if ether then b ← query (ether_balance st); invokeWrapWETH this st weth b else mret ()).
Proof.
  intros Hether. apply spares_bind; [apply spares_reading; reading|intros spender].
  apply spares_bind; [by apply spares_approve|intros _]. destruct ether.
  - intros w u w' Hw. apply tx_bind_ok in Hw as (eth & w1 & He & Hw). apply query_ok in He as [He <-].
    apply tx_bind_ok in Hw as (u1 & w1 & Hc & Hw). apply tx_bind_ok in Hw as (b & w2 & Hq & Hw).
    apply query_ok in Hq as [_ <-]. rewrite Hether by done. eapply left_alone_trans.
    + eapply left_alone_mono; [|by eapply spares_createUnwrapEther]. set_solver.
    + by eapply (spares_weth false).
  - intros w u w' Hw. apply tx_bind_ok in Hw as (token & w1 & He & Hw). apply tx_ret_ok in He as [<- <-].
    apply tx_bind_ok in Hw as (u1 & w1 & Hc & Hw). apply tx_ret_ok in Hw as [_ <-].
    by eapply spares_createUnwrap.
Qed.

(** What both do around it. *)
Lemma validateWrap_covered this (name : string) under wrapped (q : Z) (data : Bytes) (ether : bool)
    (r : Z * Z) w w' :
  this ≠ Controller.address0 → wrapped ≠ st → (ether = true → under = weth) → covered_set st w →
  _validateWrapAndUpdate weth this name st under wrapped q data ether w = Ok (r, w') → covered_set st w'.
Proof.
  intros Ht Hwr Hether (s & Hc) Hw. unfold _validateWrapAndUpdate in Hw.
  read_step Hw as u Hu. apply (inputs_component _ _ _ _ _ s Hc) in Hu.
  apply tx_bind_ok in Hw as ([b k] & w1 & Hsn & Hw). apply snapshot_ok in Hsn as (-> & _ & Hbu & _ & Hku).
  read_step Hw as supply Hs. read_step Hw as n Hn. read_step Hw as adapter Ha.
  apply tx_bind_ok in Hw as (u1 & w1 & Hpre & Hw). apply tx_bind_ok in Hw as (token & w2 & Htk & Hw).
  apply tx_bind_ok in Hw as (u2 & w3 & Hcall & Hw).
  assert (left_alone st [under; wrapped] w w3) as Hleft.
  { apply (spares_wrap this adapter ether under wrapped n data Hether w u2).
    by rewrite (tx_bind_run _ _ _ _ _ Hpre), (tx_bind_run _ _ _ _ _ Htk). }
  apply (covered_left_alone st _ _ _ s) in Hleft as (l & Hc3); [|by eapply covered_weaken; [apply list_subseteq_nil|]].
  apply tx_bind_ok in Hw as ([b' k'] & w4 & Hsn & Hw). apply snapshot_ok in Hsn as (-> & Hb & Hbu' & Hk & Hku').
  apply tx_bind_ok in Hw as (u3 & w4 & H3 & Hw). apply tx_bind_ok in Hw as (u4 & w5 & H4 & Hw).
  read_step Hw as x Hx. read_step Hw as y Hy. apply tx_ret_ok in Hw as [_ <-].
  exact (updatePositions_ok this under wrapped b k b' k' u3 u4 w3 w4 w5 _ Ht Hu Hwr Hbu Hku Hbu' Hku' Hc3
    Hb Hk H3 H4).
Qed.

Lemma validateUnwrap_covered this (name : string) under wrapped (q : Z) (data : Bytes) (ether : bool)
    (r : Z * Z) w w' :
  this ≠ Controller.address0 → under ≠ st → (ether = true → under = weth) → covered_set st w →
  _validateUnwrapAndUpdate weth this name st under wrapped q data ether w = Ok (r, w') → covered_set st w'.
Proof.
  intros Ht Hun Hether (s & Hc) Hw. unfold _validateUnwrapAndUpdate in Hw.
  read_step Hw as u Hu. apply (inputs_component _ _ _ _ _ s Hc) in Hu.
  apply tx_bind_ok in Hw as ([b k] & w1 & Hsn & Hw). apply snapshot_ok in Hsn as (-> & _ & Hbu & _ & Hku).
  read_step Hw as supply Hs. read_step Hw as n Hn. read_step Hw as adapter Ha.
  apply tx_bind_ok in Hw as (sp & w1 & Hsp & Hw). apply tx_bind_ok in Hw as (u1 & w2 & Hpre & Hw).
  apply tx_bind_ok in Hw as (token & w3 & Htk & Hw). apply tx_bind_ok in Hw as (u2 & w4 & Hcall & Hw).
  apply tx_bind_ok in Hw as (u5 & w5 & Hdep & Hw).
  assert (left_alone st [under; wrapped] w w5) as Hleft.
  { apply (spares_unwrap this adapter ether under wrapped n data Hether w u5).
    by rewrite (tx_bind_run _ _ _ _ _ Hsp), (tx_bind_run _ _ _ _ _ Hpre), (tx_bind_run _ _ _ _ _ Htk),
      (tx_bind_run _ _ _ _ _ Hcall). }
  apply (covered_left_alone st _ _ _ s) in Hleft as (l & Hc3); [|by eapply covered_weaken; [apply list_subseteq_nil|]].
  apply tx_bind_ok in Hw as ([b' k'] & w6 & Hsn & Hw). apply snapshot_ok in Hsn as (-> & Hb & Hbu' & Hk & Hku').
  apply tx_bind_ok in Hw as (u3 & w6 & H3 & Hw). apply tx_bind_ok in Hw as (u4 & w7 & H4 & Hw).
  read_step Hw as x Hx. read_step Hw as y Hy. apply tx_ret_ok in Hw as [_ <-].
  exact (updatePositions_ok this under wrapped b k b' k' u3 u4 w5 w6 w7 _ Ht Hun Hu Hbu Hku Hbu' Hku' Hc3
    Hb Hk H3 H4).
Qed.

(** What anyone does with tokens other than the set itself. *)
Inductive wrapping this : World E → World E → Prop :=
| Wrap sender under wrapped q name data r w w' : wrapped ≠ st →
    wrap weth this sender st under wrapped q name data w = Ok (r, w') → wrapping this w w'
| WrapWithEther sender wrapped q name data r w w' : wrapped ≠ st →
    wrapWithEther weth this sender st wrapped q name data w = Ok (r, w') → wrapping this w w'
| Unwrap sender under wrapped q name data r w w' : under ≠ st →
    unwrap weth this sender st under wrapped q name data w = Ok (r, w') → wrapping this w w'
| UnwrapWithEther sender wrapped q name data r w w' : weth ≠ st →
    unwrapWithEther weth this sender st wrapped q name data w = Ok (r, w') → wrapping this w w'.

(** C10. Components may be wrapped and unwrapped, in ether or not, through any
    protocols, in any order and amount: the balances go on covering what the tokens
    of the set claim, whatever the protocols give for what they take. *)
Theorem wrappings_covered this w w' (Ht : this ≠ Controller.address0) (Hc : covered_set st w)
    (Hsteps : rtc (wrapping this) w w') : covered_set st w' ∧ collateralized st w'.
Proof.
  assert (covered_set st w') as Hc'; [|by split; [|apply covered_set_collateralized]].
  induction Hsteps as [|w w1 w' Hstep _ IH]; [done|]. apply IH. clear IH.
  destruct Hstep as [sender under wrapped q name data r w w1 Hne Hw|sender wrapped q name data r w w1 Hne Hw
    |sender under wrapped q name data r w w1 Hne Hw|sender wrapped q name data r w w1 Hne Hw];
    apply (guarded_covered _ _ _ _ _ Hc Hw); clear Hc Hw; intros v v' Hv Hw; read_step Hw as u Hu.
  - by apply validateWrap_covered in Hw.
  - by apply validateWrap_covered in Hw.
  - by apply validateUnwrap_covered in Hw.
  - by apply validateUnwrap_covered in Hw.
Qed.
End Wrapping.

(** ** A concrete vault *)
#[local] Open Scope string_scope.

(** It gives as much as it takes; ether has no balance of a token. *)
Definition vault_call (give : Address) (q : Z) (take : Address) : Address * Z * SetToken.call_data :=
  if decide (give = "eth") then ("vault", q, swap_data take 0 take q)
  else if decide (take = "eth") then ("vault", 0, swap_data give q give 0)
  else ("vault", 0, swap_data give q take q).

#[export] Instance sample_vault : IWrapV2Adapter (module_env ()) := {|
  ETH_TOKEN_ADDRESS _ _ := Ok "eth";
  getWrapCallData _ under wrapped q _ _ _ := Ok (vault_call under q wrapped);
  getUnwrapCallData _ under wrapped q _ _ _ := Ok (vault_call wrapped q under);
  getSpenderAddress _ _ _ _ := Ok "vault";
|}.

#[export] Instance sample_ether : Ether (module_env ()) := λ _ _, Ok 0.

Lemma vault_spares st X (give : Address) (q : Z) (take target : Address) (v : Z) d :
  (give ≠ "eth" → give ∈ X) → (take ≠ "eth" → take ∈ X) → (give = take → give ∈ X) →
  Ok (vault_call give q take) = Ok (target, v, d) →
  spares st X (functionCallWithValue (E := module_env ()) st target v d).
Proof.
  intros Hg Ht Hsame Hd. unfold vault_call in Hd.
  destruct (decide (give = "eth")) as [Eg|Eg]; [|destruct (decide (take = "eth")) as [Et|Et]];
    injection Hd as <- <- <-; (eapply spares_mono; [|apply swap_spares]).
  - destruct (decide (take = "eth")) as [Et|Et]; [|specialize (Ht Et); set_solver].
    assert (give ∈ X) by (apply Hsame; congruence). set_solver.
  - specialize (Hg Eg). set_solver.
  - specialize (Hg Eg). specialize (Ht Et). set_solver.
Qed.

#[export] Instance sample_wrapping weth st : Wrapping (E := module_env ()) weth st.
Proof.
  split.
  - intros adapter under wrapped q data w target v d Hd. eapply vault_spares; [..|exact Hd]; set_solver.
  - intros adapter under wrapped q data w target v d Hd. eapply vault_spares; [..|exact Hd]; set_solver.
  - intros adapter eth wrapped q data w0 w target v d [= <-] Hd.
    eapply vault_spares; [..|exact Hd]; [done|set_solver..].
  - intros adapter eth wrapped q data w0 w target v d [= <-] Hd.
    eapply vault_spares; [..|exact Hd]; [set_solver|done|set_solver].
  - intros v. apply bank_spares; [intros w r w'; apply bank_call_sets|]. intros w r w' c Hw _.
    cbn in Hw. by injection Hw as _ <-.
  - intros q. apply bank_spares; [intros w r w'; apply bank_call_sets|]. intros w r w' c Hw _.
    cbn in Hw. by injection Hw as _ <-.
Qed.

Definition sample_registry : IntegrationRegistry.State :=
  match IntegrationRegistry.addIntegration (λ _, Ok ()) PositionLib.sample_controller "owner" "m1"
          "VaultAdapter" "adapter" IntegrationRegistry.new_registry with
  | Ok r => r
  | Throw _ => IntegrationRegistry.new_registry
  end.

(** A set of one token with two components, and a vault with tokens of its own. *)
Definition sample_world : World (module_env ()) :=
  {| controller := PositionLib.sample_controller; sets := {[ "set" := SetToken.sample_fee ]};
     registries := {[ "r" := sample_registry ]}; block_timestamp := 0;
     env := ((), false, {[ ("a", "set") := 10 ^ 18; ("b", "set") := 3; ("va", "vault") := 10 ^ 18 ]}) |}.

(** Half of [a]. *)
Definition sample_wrap : result (Z * Z * World (module_env ())) :=
  wrap "weth" "m1" "manager" "set" "a" "va" (5 * 10 ^ 17) "VaultAdapter" "" sample_world.

Lemma sample_wrap_covered : covered_but "set" [] sample_world SetToken.sample_fee.
Proof.
  split; [reflexivity|]. split; [apply SetToken.sample_fee_consistent|].
  split; [apply PositionLib.sample_fee_tracked|].
  split; [refine (proj1 (bool_decide_eq_false _) _); vm_compute; reflexivity|].
  intros c Hc _. revert c Hc. apply backed_check_ok. vm_compute. reflexivity.
Qed.

Lemma sample_wrap_ran : sample_wrap =
  Ok (PositionLib.returned (0, 0) sample_wrap, PositionLib.after sample_world sample_wrap).
Proof. apply PositionLib.ran. vm_compute. reflexivity. Qed.

Lemma wrappings_covered_witness :
  PositionLib.returned (0, 0) sample_wrap = (5 * 10 ^ 17, 5 * 10 ^ 17)%Z ∧
  covered_set "set" (PositionLib.after sample_world sample_wrap).
Proof.
  split; [vm_compute; reflexivity|].
  apply (wrappings_covered "weth" "set" "m1" sample_world); [discriminate| |].
  - exists SetToken.sample_fee. apply sample_wrap_covered.
  - apply rtc_once. apply (Wrap "weth" "set" "m1" "manager" "a" "va" (5 * 10 ^ 17) "VaultAdapter" ""
      (PositionLib.returned (0, 0) sample_wrap)); [discriminate|apply sample_wrap_ran].
Defined.
End WrapModuleV2.
