(* ===== verification/GeneralIndex.v ===== *)
(** * The general index module

    [contracts/protocol/modules/v1/GeneralIndexModule.sol]: the storage of the module
    and every function of it, with the adapters of exchanges by the interface
    [IIndexExchangeAdapter]. *)
From Stdlib Require Import String.
From S2P Require Import Prelude JsString BigNumber Constants MathUtils SolMath.
From S2P Require Import AddressArrayUtils Script AdapterUtils Controller Erc20 SetToken.
From S2P Require Import IntegrationRegistry World Position Tokens.

(** [interfaces/IIndexExchangeAdapter.sol], by the address of the adapter: the target,
    the value and the data of the call that trades. *)
Class IIndexExchangeAdapter `{ERC20} (E : Type) := {
  getSpender : Address → World E → result Address;
  getTradeCalldata : Address → Address → Address → Address → bool → Z → Z → Bytes → World E →
    result (Address * Z * SetToken.call_data);
}.

Module GeneralIndex.

Record TradeExecutionParams := {
  targetUnit : Z;
  maxSize : Z;
  coolOffPeriod : Z;
  lastTradeTimestamp : Z;
  exchangeName : string;
  exchangeData : Bytes;
}.

Record TradePermissionInfo := {
  anyoneTrade : bool;
  tradersHistory : list Address;
  tradeAllowList : gset Address;
}.

Record RebalanceInfo := {
  positionMultiplier : Z;
  raiseTargetPercentage : Z;
  rebalanceComponents : list Address;
}.

Record TradeInfo := {
  setToken : Address;
  exchangeAdapter : Address;
  sendToken : Address;
  receiveToken : Address;
  isSendTokenFixed : bool;
  setTotalSupply : Z;
  totalFixedQuantity : Z;
  sendQuantity : Z;
  floatingQuantityLimit : Z;
  preTradeSendTokenBalance : Z;
  preTradeReceiveTokenBalance : Z;
  trade_exchangeData : Bytes;
}.

(** The three mappings. *)
Record Storage := {
  executionInfo : gmap (Address * Address) TradeExecutionParams;
  permissionInfo : gmap Address TradePermissionInfo;
  rebalanceInfo : gmap Address RebalanceInfo;
}.

(** Unwritten slots. *)
Definition no_params : TradeExecutionParams :=
  {| targetUnit := 0; maxSize := 0; coolOffPeriod := 0; lastTradeTimestamp := 0;
     exchangeName := EmptyString; exchangeData := EmptyString |}.
Definition no_permission : TradePermissionInfo :=
  {| anyoneTrade := false; tradersHistory := []; tradeAllowList := ∅ |}.
Definition no_rebalance : RebalanceInfo :=
  {| positionMultiplier := 0; raiseTargetPercentage := 0; rebalanceComponents := [] |}.
Definition no_storage : Storage :=
  {| executionInfo := ∅; permissionInfo := ∅; rebalanceInfo := ∅ |}.

(** Updates of one field. *)
Definition with_target (z : Z) (p : TradeExecutionParams) : TradeExecutionParams :=
  {| targetUnit := z; maxSize := maxSize p; coolOffPeriod := coolOffPeriod p;
     lastTradeTimestamp := lastTradeTimestamp p; exchangeName := exchangeName p;
     exchangeData := exchangeData p |}.
Definition with_maxSize (z : Z) (p : TradeExecutionParams) : TradeExecutionParams :=
  {| targetUnit := targetUnit p; maxSize := z; coolOffPeriod := coolOffPeriod p;
     lastTradeTimestamp := lastTradeTimestamp p; exchangeName := exchangeName p;
     exchangeData := exchangeData p |}.
Definition with_coolOff (z : Z) (p : TradeExecutionParams) : TradeExecutionParams :=
  {| targetUnit := targetUnit p; maxSize := maxSize p; coolOffPeriod := z;
     lastTradeTimestamp := lastTradeTimestamp p; exchangeName := exchangeName p;
     exchangeData := exchangeData p |}.
Definition with_lastTrade (z : Z) (p : TradeExecutionParams) : TradeExecutionParams :=
  {| targetUnit := targetUnit p; maxSize := maxSize p; coolOffPeriod := coolOffPeriod p;
     lastTradeTimestamp := z; exchangeName := exchangeName p; exchangeData := exchangeData p |}.
Definition with_exchange (n : string) (p : TradeExecutionParams) : TradeExecutionParams :=
  {| targetUnit := targetUnit p; maxSize := maxSize p; coolOffPeriod := coolOffPeriod p;
     lastTradeTimestamp := lastTradeTimestamp p; exchangeName := n; exchangeData := exchangeData p |}.
Definition with_data (d : Bytes) (p : TradeExecutionParams) : TradeExecutionParams :=
  {| targetUnit := targetUnit p; maxSize := maxSize p; coolOffPeriod := coolOffPeriod p;
     lastTradeTimestamp := lastTradeTimestamp p; exchangeName := exchangeName p; exchangeData := d |}.
Definition with_multiplier (z : Z) (r : RebalanceInfo) : RebalanceInfo :=
  {| positionMultiplier := z; raiseTargetPercentage := raiseTargetPercentage r;
     rebalanceComponents := rebalanceComponents r |}.
Definition with_raise (z : Z) (r : RebalanceInfo) : RebalanceInfo :=
  {| positionMultiplier := positionMultiplier r; raiseTargetPercentage := z;
     rebalanceComponents := rebalanceComponents r |}.
Definition with_components (l : list Address) (r : RebalanceInfo) : RebalanceInfo :=
  {| positionMultiplier := positionMultiplier r; raiseTargetPercentage := raiseTargetPercentage r;
     rebalanceComponents := l |}.
Definition with_anyone (b : bool) (p : TradePermissionInfo) : TradePermissionInfo :=
  {| anyoneTrade := b; tradersHistory := tradersHistory p; tradeAllowList := tradeAllowList p |}.
Definition with_history (l : list Address) (p : TradePermissionInfo) : TradePermissionInfo :=
  {| anyoneTrade := anyoneTrade p; tradersHistory := l; tradeAllowList := tradeAllowList p |}.
Definition with_allowed (s : gset Address) (p : TradePermissionInfo) : TradePermissionInfo :=
  {| anyoneTrade := anyoneTrade p; tradersHistory := tradersHistory p; tradeAllowList := s |}.

Definition put_params (st c : Address) (p : TradeExecutionParams) (s : Storage) : Storage :=
  {| executionInfo := <[(st, c) := p]> (executionInfo s); permissionInfo := permissionInfo s;
     rebalanceInfo := rebalanceInfo s |}.
Definition put_permission (st : Address) (p : TradePermissionInfo) (s : Storage) : Storage :=
  {| executionInfo := executionInfo s; permissionInfo := <[st := p]> (permissionInfo s);
     rebalanceInfo := rebalanceInfo s |}.
Definition put_rebalance (st : Address) (r : RebalanceInfo) (s : Storage) : Storage :=
  {| executionInfo := executionInfo s; permissionInfo := permissionInfo s;
     rebalanceInfo := <[st := r]> (rebalanceInfo s) |}.
End GeneralIndex.

(** The storage of the module in the environment, and the guard that shares it. *)
Class IndexStorage (E : Type) `{!ReentrancyGuard E} := {
  index : E → GeneralIndex.Storage;
  put_index : GeneralIndex.Storage → E → E;
  index_put s e : index (put_index s e) = s;
  index_enter e e' : guard_enter e = Ok e' → index e' = index e;
  index_leave e : index (guard_leave e) = index e;
}.

Module GeneralIndexModule.
Import GeneralIndex.

Section GeneralIndexModule.
Context `{ERC20} `{SignedLib} `{Keccak} {E : Type} `{!External E} `{!ReentrancyGuard E}
  `{!IIndexExchangeAdapter E} `{!IndexStorage E}.
(** The wrapper of ether the module is deployed with. *)
Context (weth : Address).
Implicit Types (this msg_sender tx_origin _setToken _component _trader : Address).

Definition GENERAL_INDEX_MODULE_PROTOCOL_FEE_INDEX : Z := 0.

(** ** Reading and writing the mappings *)

Definition params_of _setToken _component (w : World E) : TradeExecutionParams :=
  default no_params (executionInfo (index (env w)) !! (_setToken, _component)).
Definition permission_of _setToken (w : World E) : TradePermissionInfo :=
  default no_permission (permissionInfo (index (env w)) !! _setToken).
Definition rebalance_of _setToken (w : World E) : RebalanceInfo :=
  default no_rebalance (rebalanceInfo (index (env w)) !! _setToken).

Definition store (f : Storage → Storage) : tx E () :=
  modify (λ e, put_index (f (index e)) e).

(** The update of one slot of [executionInfo]. *)
Definition edit_params _setToken _component (f : TradeExecutionParams → TradeExecutionParams)
    : tx E () :=
  p ← asks (params_of _setToken _component); store (put_params _setToken _component (f p)).

(** ** Units and targets *)

Definition _getDefaultPositionRealUnit _setToken _component : tx E Z :=
  u ← view_set _setToken (λ s, SetToken.getDefaultPositionRealUnit s _component);
  lift (toUint256 u).

Definition _getNormalizedTargetUnit _setToken _component : tx E Z :=
  p ← asks (params_of _setToken _component);
  m ← read_set _setToken SetToken.positionMultiplier;
  m' ← lift (toUint256 m);
  t ← lift (SafeMath.mul (targetUnit p) m');
  rebalance ← asks (rebalance_of _setToken);
  lift (SafeMath.div t (positionMultiplier rebalance)).

Definition _getUnitsAndNotionalAmounts _setToken _component (_totalSupply : Z)
    : tx E (Z * Z * Z * Z) :=
  currentUnit ← _getDefaultPositionRealUnit _setToken _component;
  targetUnit ← _getNormalizedTargetUnit _setToken _component;
  currentNotional ← lift (PositionLib.getDefaultTotalNotional _totalSupply currentUnit);
  targetNotional ← lift (PreciseUnitMath.preciseMulCeil_u _totalSupply targetUnit);
  mret (currentUnit, targetUnit, currentNotional, targetNotional).

(** The direction and the size, from the maximum and the notional amounts. *)
Definition trade_size (componentMaxSize protocolFee currentNotional targetNotional : Z)
    : result (bool * Z) :=
  let isSendTokenFixed := targetNotional <? currentNotional in
  q ← (if isSendTokenFixed then SafeMath.sub currentNotional targetNotional
       else d ← SafeMath.sub targetNotional currentNotional;
            r ← SafeMath.sub PreciseUnitMath.preciseUnit protocolFee;
            PreciseUnitMath.preciseDiv_u d r);
  Ok (isSendTokenFixed, Z.min componentMaxSize q).

Definition _calculateTradeSizeAndDirection this _setToken _component (_totalSupply : Z)
    : tx E (bool * Z) :=
  ctl ← asks controller;
  let protocolFee := Controller.getModuleFee ctl this GENERAL_INDEX_MODULE_PROTOCOL_FEE_INDEX in
  p ← asks (params_of _setToken _component);
  '(currentUnit, targetUnit, currentNotional, targetNotional) ←
    _getUnitsAndNotionalAmounts _setToken _component _totalSupply;
  requires (negb (currentUnit =? targetUnit)) "Target already met";;
  lift (trade_size (maxSize p) protocolFee currentNotional targetNotional).

Definition _targetUnmet _setToken _component : tx E bool :=
  if bool_decide (_component = weth) then mret false
  else
    normalizedTargetUnit ← _getNormalizedTargetUnit _setToken _component;
    currentUnit ← _getDefaultPositionRealUnit _setToken _component;
    if 0 <? normalizedTargetUnit then
      b ← lift (PreciseUnitMath.approximatelyEquals normalizedTargetUnit currentUnit 1);
      mret (negb b)
    else mret (negb (normalizedTargetUnit =? currentUnit)).

(** The loop of [_allTargetsMet], which stops at the first unmet target. *)
Fixpoint targets_loop _setToken (components : list Address) : tx E bool :=
  match components with
  | [] => mret true
  | c :: cs => unmet ← _targetUnmet _setToken c;
               if (unmet : bool) then mret false else targets_loop _setToken cs
  end.

Definition _allTargetsMet _setToken : tx E bool :=
  rebalance ← asks (rebalance_of _setToken);
  targets_loop _setToken (rebalanceComponents rebalance).

Definition _canSell _setToken _component : tx E bool :=
  if bool_decide (_component = weth) then mret false
  else
    t ← _getNormalizedTargetUnit _setToken _component;
    u ← _getDefaultPositionRealUnit _setToken _component;
    mret (t <? u).

(** The loop of [_noTokensToSell], which stops at the first component to sell. *)
Fixpoint sell_loop _setToken (components : list Address) : tx E bool :=
  match components with
  | [] => mret true
  | c :: cs => can ← _canSell _setToken c;
               if (can : bool) then mret false else sell_loop _setToken cs
  end.

Definition _noTokensToSell _setToken : tx E bool :=
  rebalance ← asks (rebalance_of _setToken);
  sell_loop _setToken (rebalanceComponents rebalance).

(** ** Guards *)

Definition _isAllowedTrader _setToken _trader : tx E bool :=
  permissions ← asks (permission_of _setToken);
  mret (anyoneTrade permissions || bool_decide (_trader ∈ tradeAllowList permissions)).

Definition _validateOnlyAllowedTrader msg_sender _setToken : tx E () :=
  b ← _isAllowedTrader _setToken msg_sender;
  requires b "Address not permitted to trade".

Definition _validateOnlyEOAIfUnrestricted msg_sender tx_origin _setToken : tx E () :=
  permissions ← asks (permission_of _setToken);
  if anyoneTrade permissions then
    requires (bool_decide (msg_sender = tx_origin)) "Caller must be EOA Address"
  else mret ().

Definition _validateTradeParameters _setToken _component : tx E () :=
  requires (negb (bool_decide (_component = weth))) "Can not explicitly trade WETH";;
  rebalance ← asks (rebalance_of _setToken);
  requires (contains (rebalanceComponents rebalance) _component) "Component not part of rebalance";;
  componentInfo ← asks (params_of _setToken _component);
  next ← lift (SafeMath.add (lastTradeTimestamp componentInfo) (coolOffPeriod componentInfo));
  now ← asks block_timestamp;
  requires (next <=? now) "Component cool off in progress";;
  x ← PositionLib.hasExternalPosition _setToken _component;
  requires (negb x) "External positions not allowed".

Definition _validateComponentPositionUnit _setToken _component : tx E () :=
  currentUnit ← _getDefaultPositionRealUnit _setToken _component;
  targetUnit ← _getNormalizedTargetUnit _setToken _component;
  requires (currentUnit <=? targetUnit) "Can not exceed target unit".

(** ** The record of a trade *)

Definition _getExchangeAdapter this _setToken _component : tx E Address :=
  p ← asks (params_of _setToken _component); getAndValidateAdapter this (exchangeName p).

(** What both kinds of trade record; the quantity to send and the limit are zero. *)
Definition _getDefaultTradeInfo this _setToken _component (calculateTradeDirection : bool)
    : tx E TradeInfo :=
  supply ← read_set _setToken (λ s, totalSupply (SetToken.token s));
  adapter ← _getExchangeAdapter this _setToken _component;
  p ← asks (params_of _setToken _component);
  '(fixed, quantity) ←
    (if calculateTradeDirection then _calculateTradeSizeAndDirection this _setToken _component supply
     else mret (false, 0));
  let '(send, receive) := if (fixed : bool) then (_component, weth) else (weth, _component) in
  preSend ← balance send _setToken;
  preReceive ← balance receive _setToken;
  mret {| setToken := _setToken; exchangeAdapter := adapter; sendToken := send;
          receiveToken := receive; isSendTokenFixed := fixed; setTotalSupply := supply;
          totalFixedQuantity := quantity; sendQuantity := 0; floatingQuantityLimit := 0;
          preTradeSendTokenBalance := preSend; preTradeReceiveTokenBalance := preReceive;
          trade_exchangeData := exchangeData p |}.

Definition with_quantities (fixed : bool) (send limit : Z) (i : TradeInfo) : TradeInfo :=
  {| setToken := setToken i; exchangeAdapter := exchangeAdapter i; sendToken := sendToken i;
     receiveToken := receiveToken i; isSendTokenFixed := fixed; setTotalSupply := setTotalSupply i;
     totalFixedQuantity := totalFixedQuantity i; sendQuantity := send; floatingQuantityLimit := limit;
     preTradeSendTokenBalance := preTradeSendTokenBalance i;
     preTradeReceiveTokenBalance := preTradeReceiveTokenBalance i;
     trade_exchangeData := trade_exchangeData i |}.

Definition _createTradeInfo this _setToken _component (_ethQuantityLimit : Z) : tx E TradeInfo :=
  tradeInfo ← _getDefaultTradeInfo this _setToken _component true;
  mret (if isSendTokenFixed tradeInfo then
          with_quantities true (totalFixedQuantity tradeInfo) _ethQuantityLimit tradeInfo
        else
          with_quantities false (Z.min _ethQuantityLimit (preTradeSendTokenBalance tradeInfo))
            (totalFixedQuantity tradeInfo) tradeInfo).

Definition _createTradeRemainingInfo this _setToken _component (_minComponentReceived : Z)
    : tx E TradeInfo :=
  tradeInfo ← _getDefaultTradeInfo this _setToken _component false;
  '(_, _, currentNotional, targetNotional) ←
    _getUnitsAndNotionalAmounts _setToken weth (setTotalSupply tradeInfo);
  send ← lift (SafeMath.sub currentNotional targetNotional);
  mret (with_quantities true send _minComponentReceived tradeInfo).

(** ** Trades *)

Definition _executeTrade this (_tradeInfo : TradeInfo) : tx E () :=
  spender ← query (getSpender (exchangeAdapter _tradeInfo));
  invokeApprove this (setToken _tradeInfo) (sendToken _tradeInfo) spender (sendQuantity _tradeInfo);;
  '(targetExchange, callValue, methodData) ← query (getTradeCalldata (exchangeAdapter _tradeInfo)
    (sendToken _tradeInfo) (receiveToken _tradeInfo) (setToken _tradeInfo)
    (isSendTokenFixed _tradeInfo) (sendQuantity _tradeInfo) (floatingQuantityLimit _tradeInfo)
    (trade_exchangeData _tradeInfo));
  SetToken_invoke this (setToken _tradeInfo) targetExchange callValue methodData;;
  mret ().

Definition _accrueProtocolFee this (_tradeInfo : TradeInfo) : tx E Z :=
  b ← balance (receiveToken _tradeInfo) (setToken _tradeInfo);
  exchangedQuantity ← lift (SafeMath.sub b (preTradeReceiveTokenBalance _tradeInfo));
  protocolFee ← getModuleFee this GENERAL_INDEX_MODULE_PROTOCOL_FEE_INDEX exchangedQuantity;
  payProtocolFeeFromSetToken this (setToken _tradeInfo) (receiveToken _tradeInfo) protocolFee;;
  mret protocolFee.

Definition _updatePositionStateAndTimestamp this (_tradeInfo : TradeInfo) _component
    : tx E (Z * Z) :=
  '(postSend, _, _) ← PositionLib.calculateAndEditDefaultPosition this (setToken _tradeInfo)
    (sendToken _tradeInfo) (setTotalSupply _tradeInfo) (preTradeSendTokenBalance _tradeInfo);
  '(postReceive, _, _) ← PositionLib.calculateAndEditDefaultPosition this (setToken _tradeInfo)
    (receiveToken _tradeInfo) (setTotalSupply _tradeInfo) (preTradeReceiveTokenBalance _tradeInfo);
  netSendAmount ← lift (SafeMath.sub (preTradeSendTokenBalance _tradeInfo) postSend);
  netReceiveAmount ← lift (SafeMath.sub postReceive (preTradeReceiveTokenBalance _tradeInfo));
  now ← asks block_timestamp;
  edit_params (setToken _tradeInfo) _component (with_lastTrade now);;
  mret (netSendAmount, netReceiveAmount).

(** Returns what its event says: the trade, the net amounts and the fee. *)
Definition trade this msg_sender tx_origin _setToken _component (_ethQuantityLimit : Z)
    : tx E (TradeInfo * Z * Z * Z) :=
  nonReentrant (
    _validateOnlyAllowedTrader msg_sender _setToken;;
    _validateOnlyEOAIfUnrestricted msg_sender tx_origin _setToken;;
    _validateTradeParameters _setToken _component;;
    tradeInfo ← _createTradeInfo this _setToken _component _ethQuantityLimit;
    _executeTrade this tradeInfo;;
    protocolFee ← _accrueProtocolFee this tradeInfo;
    '(netSendAmount, netReceiveAmount) ← _updatePositionStateAndTimestamp this tradeInfo _component;
    mret (tradeInfo, netSendAmount, netReceiveAmount, protocolFee)).

(** The target of [weth] it compares with is the one of the mapping. *)
Definition tradeRemainingWETH this msg_sender tx_origin _setToken _component
    (_minComponentReceived : Z) : tx E (TradeInfo * Z * Z * Z) :=
  nonReentrant (
    _validateOnlyAllowedTrader msg_sender _setToken;;
    _validateOnlyEOAIfUnrestricted msg_sender tx_origin _setToken;;
    none ← _noTokensToSell _setToken;
    requires none "Sell other set components first";;
    p ← asks (params_of _setToken weth);
    u ← _getDefaultPositionRealUnit _setToken weth;
    requires (targetUnit p <? u) "WETH is below target unit";;
    _validateTradeParameters _setToken _component;;
    tradeInfo ← _createTradeRemainingInfo this _setToken _component _minComponentReceived;
    _executeTrade this tradeInfo;;
    protocolFee ← _accrueProtocolFee this tradeInfo;
    '(netSendAmount, netReceiveAmount) ← _updatePositionStateAndTimestamp this tradeInfo _component;
    gross ← lift (SafeMath.add netReceiveAmount protocolFee);
    p' ← asks (params_of _setToken _component);
    requires (gross <? maxSize p') "Trade amount > max trade size";;
    _validateComponentPositionUnit _setToken _component;;
    mret (tradeInfo, netSendAmount, netReceiveAmount, protocolFee)).

(** ** The manager and the traders *)

Definition _getAggregateComponentsAndUnits (_currentComponents _newComponents : list Address)
    (_newComponentsTargetUnits _oldComponentsTargetUnits : list Z)
    : result (list Address * list Z) :=
  require (length _newComponents =? length _newComponentsTargetUnits)%nat "Array length mismatch";;
  require (length _currentComponents =? length _oldComponentsTargetUnits)%nat
    "Old Components targets missing";;
  let aggregateComponents := extend _currentComponents _newComponents in
  let aggregateTargetUnits := _oldComponentsTargetUnits ++ _newComponentsTargetUnits in
  d ← hasDuplicate aggregateComponents;
  require (negb d) "Cannot duplicate components";;
  Ok (aggregateComponents, aggregateTargetUnits).

Fixpoint start_loop _setToken (components : list Address) (units : list Z) : tx E () :=
  match components, units with
  | c :: cs, u :: us =>
      x ← PositionLib.hasExternalPosition _setToken c;
      requires (negb x) "External positions not allowed";;
      edit_params _setToken c (with_target u);;
      start_loop _setToken cs us
  | _, _ => mret ()
  end.

Definition startRebalance this msg_sender _setToken (_newComponents : list Address)
    (_newComponentsTargetUnits _oldComponentsTargetUnits : list Z) (_positionMultiplier : Z)
    : tx E () :=
  _validateOnlyManagerAndValidSet this msg_sender _setToken;;
  currentComponents ← read_set _setToken SetToken.getComponents;
  '(aggregateComponents, aggregateTargetUnits) ← lift (_getAggregateComponentsAndUnits
    currentComponents _newComponents _newComponentsTargetUnits _oldComponentsTargetUnits);
  start_loop _setToken aggregateComponents aggregateTargetUnits;;
  rebalance ← asks (rebalance_of _setToken);
  store (put_rebalance _setToken
    (with_multiplier _positionMultiplier (with_components aggregateComponents rebalance))).

Definition raiseAssetTargets msg_sender _setToken : tx E Z :=
  _validateOnlyAllowedTrader msg_sender _setToken;;
  met ← _allTargetsMet _setToken;
  can ← (if (met : bool) then
           u ← _getDefaultPositionRealUnit _setToken weth;
           t ← _getNormalizedTargetUnit _setToken weth;
           mret (t <? u)
         else mret false);
  requires can "Targets not met or ETH =~ 0";;
  rebalance ← asks (rebalance_of _setToken);
  d ← lift (SafeMath.add PreciseUnitMath.preciseUnit (raiseTargetPercentage rebalance));
  m ← lift (PreciseUnitMath.preciseDiv_u (positionMultiplier rebalance) d);
  store (put_rebalance _setToken (with_multiplier m rebalance));;
  mret m.

(** The loops of the setters, over components and what each is given. *)
Fixpoint params_loop {A} _setToken (f : A → TradeExecutionParams → TradeExecutionParams)
    (_components : list Address) (l : list A) : tx E () :=
  match _components, l with
  | c :: cs, a :: l' => edit_params _setToken c (f a);; params_loop _setToken f cs l'
  | _, _ => mret ()
  end.

Definition setTradeMaximums this msg_sender _setToken (_components : list Address)
    (_tradeMaximums : list Z) : tx E () :=
  _validateOnlyManagerAndValidSet this msg_sender _setToken;;
  lift (validatePairsWithArray _components _tradeMaximums);;
  params_loop _setToken with_maxSize _components _tradeMaximums.

Definition registry : tx E IntegrationRegistry.State := λ w,
  match registries w !! getIntegrationRegistry (controller w) with
  | Some r => Ok (r, w)
  | None => Throw (Revert "function call to a non-contract account")
  end.

Fixpoint exchanges_loop this _setToken (_components : list Address) (_exchangeNames : list string)
    : tx E () :=
  match _components, _exchangeNames with
  | c :: cs, n :: ns =>
      (if negb (bool_decide (c = weth)) then
         r ← registry;
         requires (IntegrationRegistry.isValidIntegration r this n) "Unrecognized exchange name";;
         edit_params _setToken c (with_exchange n)
       else mret ());;
      exchanges_loop this _setToken cs ns
  | _, _ => mret ()
  end.

Definition setExchanges this msg_sender _setToken (_components : list Address)
    (_exchangeNames : list string) : tx E () :=
  _validateOnlyManagerAndValidSet this msg_sender _setToken;;
  lift (validatePairsWithArray _components _exchangeNames);;
  exchanges_loop this _setToken _components _exchangeNames.

Definition setCoolOffPeriods this msg_sender _setToken (_components : list Address)
    (_coolOffPeriods : list Z) : tx E () :=
  _validateOnlyManagerAndValidSet this msg_sender _setToken;;
  lift (validatePairsWithArray _components _coolOffPeriods);;
  params_loop _setToken with_coolOff _components _coolOffPeriods.

Definition setExchangeData this msg_sender _setToken (_components : list Address)
    (_exchangeData : list Bytes) : tx E () :=
  _validateOnlyManagerAndValidSet this msg_sender _setToken;;
  lift (validatePairsWithArray _components _exchangeData);;
  params_loop _setToken with_data _components _exchangeData.

Definition setRaiseTargetPercentage this msg_sender _setToken (_raiseTargetPercentage : Z)
    : tx E () :=
  _validateOnlyManagerAndValidSet this msg_sender _setToken;;
  requires (0 <? _raiseTargetPercentage) "Target percentage must be > 0";;
  rebalance ← asks (rebalance_of _setToken);
  store (put_rebalance _setToken (with_raise _raiseTargetPercentage rebalance)).

Definition _updateTradersHistory _setToken _trader (_status : bool) : tx E () :=
  p ← asks (permission_of _setToken);
  if _status && negb (contains (tradersHistory p) _trader) then
    store (put_permission _setToken (with_history (tradersHistory p ++ [_trader]) p))
  else if negb _status && contains (tradersHistory p) _trader then
    l ← lift (removeStorage (tradersHistory p) _trader);
    store (put_permission _setToken (with_history l p))
  else mret ().

Fixpoint trader_loop _setToken (_traders : list Address) (_statuses : list bool) : tx E () :=
  match _traders, _statuses with
  | t :: ts, s :: ss =>
      _updateTradersHistory _setToken t s;;
      p ← asks (permission_of _setToken);
      store (put_permission _setToken (with_allowed
        (if (s : bool) then {[ t ]} ∪ tradeAllowList p else tradeAllowList p ∖ {[ t ]}) p));;
      trader_loop _setToken ts ss
  | _, _ => mret ()
  end.

Definition setTraderStatus this msg_sender _setToken (_traders : list Address)
    (_statuses : list bool) : tx E () :=
  _validateOnlyManagerAndValidSet this msg_sender _setToken;;
  lift (validatePairsWithArray _traders _statuses);;
  trader_loop _setToken _traders _statuses.

Definition setAnyoneTrade this msg_sender _setToken (_status : bool) : tx E () :=
  _validateOnlyManagerAndValidSet this msg_sender _setToken;;
  p ← asks (permission_of _setToken);
  store (put_permission _setToken (with_anyone _status p)).

(** ** The module on a set *)

Fixpoint initialize_loop _setToken (positions : list Position) : tx E () :=
  match positions with
  | [] => mret ()
  | p :: ps =>
      requires (positionState p =? 0) "External positions not allowed";;
      u ← lift (toUint256 (unit_ p));
      edit_params _setToken (component p) (with_target u);;
      edit_params _setToken (component p) (with_lastTrade 0);;
      initialize_loop _setToken ps
  end.

Definition initialize this msg_sender _setToken : tx E () :=
  _validateOnlySetManager _setToken msg_sender;;
  _validateOnlyValidAndPendingSet this _setToken;;
  positions ← view_set _setToken SetToken.getPositions;
  initialize_loop _setToken positions;;
  m ← read_set _setToken SetToken.positionMultiplier;
  m' ← lift (toUint256 m);
  rebalance ← asks (rebalance_of _setToken);
  store (put_rebalance _setToken (with_multiplier m' rebalance));;
  on_set _setToken (λ ctl, SetToken.execute ctl this SetToken.InitializeModule).

(** Deleting a struct leaves its mapping: the loop clears the entries of the
    history. *)
Definition removeModule msg_sender : tx E () :=
  tokenPermissionInfo ← asks (permission_of msg_sender);
  let cleared :=
    tradeAllowList tokenPermissionInfo ∖ list_to_set (tradersHistory tokenPermissionInfo) in
  store (put_rebalance msg_sender no_rebalance);;
  store (put_permission msg_sender (with_allowed cleared no_permission)).

(** ** Views *)

Definition getRebalanceComponents this _setToken : tx E (list Address) :=
  _validateOnlyValidAndInitializedSet this _setToken;;
  rebalance ← asks (rebalance_of _setToken); mret (rebalanceComponents rebalance).

Definition getComponentTradeQuantityAndDirection this _setToken _component : tx E (bool * Z) :=
  _validateOnlyValidAndInitializedSet this _setToken;;
  rebalance ← asks (rebalance_of _setToken);
  requires (contains (rebalanceComponents rebalance) _component) "Component not recognized";;
  supply ← read_set _setToken (λ s, totalSupply (SetToken.token s));
  _calculateTradeSizeAndDirection this _setToken _component supply.

Definition getIsAllowedTrader this _setToken _trader : tx E bool :=
  _validateOnlyValidAndInitializedSet this _setToken;; _isAllowedTrader _setToken _trader.

Definition getAllowedTraders this _setToken : tx E (list Address) :=
  _validateOnlyValidAndInitializedSet this _setToken;;
  p ← asks (permission_of _setToken); mret (tradersHistory p).
End GeneralIndexModule.
End GeneralIndexModule.
