(* ===== verification/IndexTheorems.v ===== *)
(** * Properties of index trades

    Theorems on GeneralIndex.v: the size of a trade, what a trade and the spending of
    the remaining ether do to a set, who may trade what and when. *)
From Stdlib Require Import String.
From S2P Require Import Prelude JsString BigNumber Constants MathUtils SolMath.
From S2P Require Import AddressArrayUtils Script AdapterUtils Controller Erc20 SetToken.
From S2P Require Import IntegrationRegistry World Position Tokens AuctionPrice AuctionRebalance.
From S2P Require Import AuctionSample AuctionTheorems AuctionTargets Exchange GeneralIndex.

Module IndexTheorems.
Import GeneralIndex GeneralIndexModule.

(** ** The size of a trade *)

(** That of an auction, up to the maximum. *)
Lemma trade_size_auction (maximum fee current target : Z) :
  trade_size maximum fee current target =
  ('(sell, q) ← AuctionModule.auction_size fee current target; Ok (sell, Z.min maximum q)).
Proof.
  unfold trade_size, AuctionModule.auction_size. destruct (target <? current).
  - by destruct (SafeMath.sub current target).
  - destruct (SafeMath.sub target current) as [d|]; [|done].
    destruct (SafeMath.sub PreciseUnitMath.preciseUnit fee) as [r|]; [|done]. cbn.
    by destruct (PreciseUnitMath.preciseDiv_u d r).
Qed.

(** No more than the maximum, nor than what takes the tracked balance of the component
    to its target, the protocol's share of a purchase taken into account; exactly that
    if the maximum does not bind. *)
Definition sized (maximum fee current target : Z) (sell : bool) (q : Z) : Prop :=
  0 ≤ q ≤ maximum ∧
  if sell then target < current ∧ target ≤ current - q ∧ (q < maximum → current - q = target)
  else current ≤ target ∧ current + AuctionTheorems.net_of_fee fee q ≤ target ∧
       (q < maximum → current + AuctionTheorems.net_of_fee fee q = target).

Lemma trade_size_sized (maximum fee current target q : Z) (sell : bool) :
  is_uint maximum → is_uint fee → is_uint current → is_uint target →
  trade_size maximum fee current target = Ok (sell, q) → sized maximum fee current target sell q.
Proof.
  intros [Hx _] Hf Hc Ht E. rewrite trade_size_auction in E.
  apply result_bind_ok in E as ([sell' m] & Em & E). injection E as -> <-.
  apply AuctionTheorems.auction_size_inv in Em as (Hs & [Hm _] & Em); [|done..].
  destruct Hf as [Hf _]. split; [lia|]. destruct sell.
  - symmetry in Hs. apply Z.ltb_lt in Hs. lia.
  - destruct Em as (Hlt & Hle & ->). split; [done|]. split.
    + pose proof (AuctionTheorems.net_of_fee_le fee (target - current)
        (Z.min maximum (Z.quot ((target - current) * 10 ^ 18) (10 ^ 18 - fee)))). lia.
    + intros Hmin. rewrite Z.min_r by lia. rewrite AuctionTheorems.net_of_fee_full; lia.
Qed.

(** ** Functions of the module that only read *)
Section Readings.
Context `{ERC20} `{SignedLib} `{Keccak} {E : Type} `{!External E} `{!ReentrancyGuard E}
  `{!IndexStorage E}.
Context (weth : Address).
Implicit Types (this msg_sender tx_origin st c : Address).

Lemma reading_index_unit st c : reading (_getDefaultPositionRealUnit (E := E) st c).
Proof. unfold _getDefaultPositionRealUnit. reading. Qed.

Lemma reading_index_target st c : reading (_getNormalizedTargetUnit (E := E) st c).
Proof. unfold _getNormalizedTargetUnit. reading. Qed.

#[local] Hint Resolve reading_index_unit reading_index_target : reading.

Lemma reading_index_unmet st c : reading (_targetUnmet (E := E) weth st c).
Proof. unfold _targetUnmet. reading. Qed.

Lemma reading_index_sell st c : reading (_canSell (E := E) weth st c).
Proof. unfold _canSell. reading. Qed.

#[local] Hint Resolve reading_index_unmet reading_index_sell : reading.

Lemma reading_index_targets st (cs : list Address) : reading (targets_loop (E := E) weth st cs).
Proof. induction cs as [|c cs IH]; cbn [targets_loop]; reading. Qed.

Lemma reading_sell_loop st (cs : list Address) : reading (sell_loop (E := E) weth st cs).
Proof. induction cs as [|c cs IH]; cbn [sell_loop]; reading. Qed.

#[local] Hint Resolve reading_index_targets reading_sell_loop : reading.

Lemma reading_noTokens st : reading (_noTokensToSell (E := E) weth st).
Proof. unfold _noTokensToSell. reading. Qed.

Lemma reading_index_met st : reading (_allTargetsMet (E := E) weth st).
Proof. unfold _allTargetsMet. reading. Qed.

Lemma reading_trader msg_sender st : reading (_validateOnlyAllowedTrader (E := E) msg_sender st).
Proof. unfold _validateOnlyAllowedTrader, _isAllowedTrader. reading. Qed.

Lemma reading_origin msg_sender tx_origin st :
  reading (_validateOnlyEOAIfUnrestricted (E := E) msg_sender tx_origin st).
Proof. unfold _validateOnlyEOAIfUnrestricted. reading. Qed.

Lemma reading_tradeParameters st c : reading (_validateTradeParameters (E := E) weth st c).
Proof. unfold _validateTradeParameters. reading. Qed.

Lemma reading_componentUnit st c : reading (_validateComponentPositionUnit (E := E) st c).
Proof. unfold _validateComponentPositionUnit. reading. Qed.

Lemma reading_index_notional st c (supply : Z) :
  reading (_getUnitsAndNotionalAmounts (E := E) st c supply).
Proof. unfold _getUnitsAndNotionalAmounts. reading. Qed.

#[local] Hint Resolve reading_index_notional : reading.

Lemma reading_index_size this st c (supply : Z) :
  reading (_calculateTradeSizeAndDirection (E := E) this st c supply).
Proof. unfold _calculateTradeSizeAndDirection. reading. Qed.

Lemma reading_exchangeAdapter this st c : reading (_getExchangeAdapter (E := E) this st c).
Proof. unfold _getExchangeAdapter. reading. Qed.

#[local] Hint Resolve reading_index_size reading_exchangeAdapter : reading.

Lemma reading_defaultInfo this st c (b : bool) :
  reading (_getDefaultTradeInfo (E := E) weth this st c b).
Proof. unfold _getDefaultTradeInfo. reading. Qed.

#[local] Hint Resolve reading_defaultInfo : reading.

Lemma reading_index_info this st c (q : Z) : reading (_createTradeInfo (E := E) weth this st c q).
Proof. unfold _createTradeInfo. reading. Qed.

Lemma reading_remainingInfo this st c (q : Z) :
  reading (_createTradeRemainingInfo (E := E) weth this st c q).
Proof. unfold _createTradeRemainingInfo. reading. Qed.
End Readings.

#[export] Hint Resolve reading_index_unit reading_index_target reading_noTokens reading_index_met
  reading_trader reading_origin reading_tradeParameters reading_componentUnit reading_index_notional
  reading_index_size reading_exchangeAdapter reading_defaultInfo reading_index_info
  reading_remainingInfo : reading.

(** ** Units and targets *)
Section Units.
Context `{ERC20} `{SignedLib} `{Keccak} {E : Type} `{!External E} `{!ReentrancyGuard E}
  `{!IndexStorage E}.
Context (weth : Address).
Implicit Types (this msg_sender tx_origin st c : Address) (w : World E) (s : SetToken.State).

(** The words of the mappings. *)
Definition index_words st w : Prop :=
  (∀ c, is_uint (targetUnit (params_of st c w)) ∧ is_uint (maxSize (params_of st c w)) ∧
        is_uint (coolOffPeriod (params_of st c w)) ∧ is_uint (lastTradeTimestamp (params_of st c w))) ∧
  is_uint (positionMultiplier (rebalance_of st w)) ∧
  is_uint (raiseTargetPercentage (rebalance_of st w)) ∧ is_uint (block_timestamp w).

(** The target, for the multiplier the set has now. *)
Definition index_target st c w s : Z :=
  Z.quot (targetUnit (params_of st c w) * SetToken.positionMultiplier s)
    (positionMultiplier (rebalance_of st w)).

(** The amounts for the whole supply. *)
Definition notional_now s c : Z :=
  PositionLib.real_unit s c * totalSupply (SetToken.token s) / 10 ^ 18.
Definition notional_target st c w s : Z :=
  ceil_div (totalSupply (SetToken.token s) * index_target st c w s) (10 ^ 18).

Section At.
Context (st : Address) (w : World E) (s : SetToken.State).
Context (Es : sets w !! st = Some s) (Hs : SetToken.consistent s) (Hw : index_words st w).

Lemma index_target_ok c (t : Z) w' :
  _getNormalizedTargetUnit st c w = Ok (t, w') →
  t = index_target st c w s ∧ 0 < positionMultiplier (rebalance_of st w) ∧ is_uint t.
Proof.
  intros Ht. unfold _getNormalizedTargetUnit in Ht. destruct Hw as (Hp & Hm & _).
  destruct (Hp c) as (Htu & _). destruct Hs as (_ & _ & _ & _ & Hi & _).
  read_step Ht as p Hp1. apply asks_ok in Hp1 as [-> _].
  read_step Ht as m Hm1. apply read_set_ok in Hm1 as (s0 & E0 & -> & _).
  rewrite Es in E0. injection E0 as <-.
  read_step Ht as m' Hm2. apply lift_ok in Hm2 as [Hm2 _].
  apply toUint256_inv in Hm2 as (-> & _ & Hmu); [|done].
  read_step Ht as x Hx. apply lift_ok in Hx as [Hx _]. apply safe_mul_inv in Hx as [-> Hx]; [|done..].
  read_step Ht as r Hr. apply asks_ok in Hr as [-> _]. apply lift_ok in Ht as [Ht _].
  by apply safe_div_inv in Ht as (-> & ? & ?).
Qed.

Lemma index_unit_ok c (u : Z) w' :
  _getDefaultPositionRealUnit st c w = Ok (u, w') → u = PositionLib.real_unit s c ∧ is_uint u.
Proof.
  intros Hu. unfold _getDefaultPositionRealUnit in Hu.
  read_step Hu as i Hi. apply view_set_ok in Hi as (s0 & E0 & Hi & _). rewrite Es in E0.
  injection E0 as <-. apply PositionLib.getDefault_real in Hi as [-> Hi]; [|done].
  apply lift_ok in Hu as [Hu _]. by apply toUint256_inv in Hu as (-> & _ & ?).
Qed.

Lemma index_notional_ok c (u t n m : Z) w' :
  _getUnitsAndNotionalAmounts st c (totalSupply (SetToken.token s)) w = Ok ((u, t, n, m), w') →
  u = PositionLib.real_unit s c ∧ t = index_target st c w s ∧
  n = notional_now s c ∧ m = notional_target st c w s ∧ is_uint n ∧ is_uint m.
Proof.
  intros Hn. assert (is_uint (totalSupply (SetToken.token s))) as Hsu by apply Hs.
  unfold _getUnitsAndNotionalAmounts in Hn.
  read_step Hn as x Hx. apply index_unit_ok in Hx as [-> Hx].
  read_step Hn as y Hy. apply index_target_ok in Hy as (-> & _ & Hy).
  read_step Hn as a Ha. apply lift_ok in Ha as [Ha _].
  unfold PositionLib.getDefaultTotalNotional in Ha. apply preciseMul_u_floor in Ha as [-> Ha]; [|done..].
  read_step Hn as b Hb. apply lift_ok in Hb as [Hb _]. apply preciseMulCeil_u_inv in Hb as [-> Hb]; [|done..].
  apply tx_ret_ok in Hn as [Hn _]. injection Hn as <- <- <- <-. unfold notional_now.
  by rewrite (Z.mul_comm (PositionLib.real_unit s c)).
Qed.

(** The rate of the protocol. *)
Definition index_fee_rate this w : Z :=
  Controller.getModuleFee (controller w) this GENERAL_INDEX_MODULE_PROTOCOL_FEE_INDEX.

Lemma index_size_ok this c (sell : bool) (q : Z) w' :
  _calculateTradeSizeAndDirection this st c (totalSupply (SetToken.token s)) w = Ok ((sell, q), w') →
  PositionLib.real_unit s c ≠ index_target st c w s ∧
  is_uint (notional_now s c) ∧ is_uint (notional_target st c w s) ∧
  trade_size (maxSize (params_of st c w)) (index_fee_rate this w) (notional_now s c)
    (notional_target st c w s) = Ok (sell, q).
Proof.
  intros Hq. unfold _calculateTradeSizeAndDirection in Hq. read_step Hq as ctl Hctl.
  apply asks_ok in Hctl as [-> _]. cbv zeta in Hq. read_step Hq as p Hp. apply asks_ok in Hp as [-> _].
  read_step Hq as [[[u t] n] m] Hn. apply index_notional_ok in Hn as (-> & -> & -> & -> & Hn & Hm).
  read_step Hq as u1 Hne. apply requires_ok in Hne as [Hne _]. apply lift_ok in Hq as [Hq _].
  apply negb_true_iff, Z.eqb_neq in Hne. done.
Qed.

(** Nothing is left to sell. *)
Lemma sell_loop_ok (cs : list Address) w' :
  sell_loop weth st cs w = Ok (true, w') →
  ∀ c, c ∈ cs → c ≠ weth → PositionLib.real_unit s c ≤ index_target st c w s.
Proof.
  induction cs as [|c cs IH]; cbn [sell_loop]; intros Hl c' Hc Hne; [set_solver|].
  apply tx_bind_ok in Hl as (b & w1 & Hb & Hl). pose proof (reading_index_sell weth st c _ _ _ Hb) as ->.
  destruct b; [by apply tx_ret_ok in Hl as [? _]|].
  apply elem_of_cons in Hc as [->|Hc]; [|by apply IH]. unfold _canSell in Hb.
  rewrite bool_decide_eq_false_2 in Hb by done.
  read_step Hb as t Ht. apply index_target_ok in Ht as (-> & _).
  read_step Hb as u Hu. apply index_unit_ok in Hu as (-> & _).
  apply tx_ret_ok in Hb as [Hb _]. by apply Z.ltb_ge.
Qed.

Lemma noTokens_ok w' :
  _noTokensToSell weth st w = Ok (true, w') →
  ∀ c, c ∈ rebalanceComponents (rebalance_of st w) → c ≠ weth →
    PositionLib.real_unit s c ≤ index_target st c w s.
Proof.
  intros Hn. unfold _noTokensToSell in Hn. read_step Hn as r Hr. apply asks_ok in Hr as [-> _].
  by eapply sell_loop_ok.
Qed.

Lemma componentUnit_ok c (u : ()) w' :
  _validateComponentPositionUnit st c w = Ok (u, w') →
  PositionLib.real_unit s c ≤ index_target st c w s.
Proof.
  intros Hu. unfold _validateComponentPositionUnit in Hu.
  read_step Hu as x Hx. apply index_unit_ok in Hx as [-> _].
  read_step Hu as y Hy. apply index_target_ok in Hy as (-> & _).
  apply requires_ok in Hu as [Hu _]. by apply Z.leb_le.
Qed.
End At.

(** ** Who may trade what *)

Definition may_trade msg_sender tx_origin st w : Prop :=
  let p := permission_of st w in
  (anyoneTrade p = true ∨ msg_sender ∈ tradeAllowList p) ∧
  (anyoneTrade p = true → msg_sender = tx_origin).

Definition tradable st c w : Prop :=
  c ≠ weth ∧ c ∈ rebalanceComponents (rebalance_of st w) ∧
  lastTradeTimestamp (params_of st c w) + coolOffPeriod (params_of st c w) ≤ block_timestamp w.

Lemma trader_ok msg_sender tx_origin st (u v : ()) w w1 w' :
  _validateOnlyAllowedTrader msg_sender st w = Ok (u, w1) →
  _validateOnlyEOAIfUnrestricted msg_sender tx_origin st w = Ok (v, w') →
  may_trade msg_sender tx_origin st w.
Proof.
  intros Hu Hv. unfold _validateOnlyAllowedTrader, _isAllowedTrader in Hu. read_step Hu as b Hb.
  read_step Hb as p Hp. apply asks_ok in Hp as [-> _]. apply tx_ret_ok in Hb as [<- _].
  apply requires_ok in Hu as [Hu _]. unfold _validateOnlyEOAIfUnrestricted in Hv.
  read_step Hv as p Hp. apply asks_ok in Hp as [-> _]. unfold may_trade. cbv zeta.
  destruct (anyoneTrade (permission_of st w)).
  - apply requires_ok in Hv as [Hv _]. apply bool_decide_eq_true in Hv. split; [by left|done].
  - apply bool_decide_eq_true in Hu. split; [by right|done].
Qed.

Lemma tradable_ok st c (u : ()) w w' :
  index_words st w → _validateTradeParameters weth st c w = Ok (u, w') → tradable st c w.
Proof.
  intros (Hp & _) Hw. destruct (Hp c) as (_ & _ & Hcool & Hlast). unfold _validateTradeParameters in Hw.
  read_step Hw as u1 Hne. apply requires_ok in Hne as [Hne _]. apply negb_true_iff, bool_decide_eq_false in Hne.
  read_step Hw as r Hr. apply asks_ok in Hr as [-> _].
  read_step Hw as u2 Hin. apply requires_ok in Hin as [Hin _]. apply contains_true in Hin.
  read_step Hw as p Hp1. apply asks_ok in Hp1 as [-> _].
  read_step Hw as x Hx. apply lift_ok in Hx as [Hx _]. apply safe_add_inv in Hx as [-> _]; [|done..].
  read_step Hw as now Hnow. apply asks_ok in Hnow as [-> _].
  read_step Hw as u3 Hle. apply requires_ok in Hle as [Hle _]. apply Z.leb_le in Hle. done.
Qed.
End Units.

(** ** Trades *)
Section Trades.
Context `{ERC20} `{SignedLib} `{Keccak} {E : Type} `{!External E} `{!ReentrancyGuard E}
  `{!IIndexExchangeAdapter E} `{!IndexStorage E}.
Context (weth st : Address) `{!Isolated E st} `{!Approving E st}.
Implicit Types (this msg_sender tx_origin c : Address) (w : World E) (s : SetToken.State) (i : TradeInfo).

(** What is asked of the exchanges: the call an adapter encodes leaves the set and its
    holdings of other tokens than the two alone. *)
Class IndexExchanging := index_exchange_spares adapter send receive fixed q low data w target v d :
  getTradeCalldata adapter send receive st fixed q low data w = Ok (target, v, d) →
  spares st [send; receive] (functionCallWithValue (E := E) st target v d).

(** The tokens of the set are not kept in the storage of the module. *)
Class IndexApart := balance_index c (m : Storage) w :
  IERC20_balanceOf c st (set_env (put_index m (env w)) w) = IERC20_balanceOf c st w.
Context `{!IndexExchanging} `{!IndexApart}.

(** *** The record of a trade *)

Definition index_describes this c send receive w s i : Prop :=
  setToken i = st ∧ sendToken i = send ∧ receiveToken i = receive ∧
  named_adapter this (exchangeName (params_of st c w)) (exchangeAdapter i) w ∧
  trade_exchangeData i = exchangeData (params_of st c w) ∧
  setTotalSupply i = totalSupply (SetToken.token s) ∧
  IERC20_balanceOf send st w = Ok (preTradeSendTokenBalance i) ∧
  IERC20_balanceOf receive st w = Ok (preTradeReceiveTokenBalance i) ∧
  is_uint (preTradeSendTokenBalance i) ∧ is_uint (preTradeReceiveTokenBalance i).

Lemma exchangeAdapter_ok this c (a : Address) w w' :
  _getExchangeAdapter this st c w = Ok (a, w') →
  named_adapter this (exchangeName (params_of st c w)) a w.
Proof.
  unfold _getExchangeAdapter. intros Hw. read_step Hw as p Hp. apply asks_ok in Hp as [-> _].
  by apply getAdapter_ok in Hw.
Qed.

Lemma defaultInfo_ok this c (dir : bool) i w w' s :
  sets w !! st = Some s → _getDefaultTradeInfo weth this st c dir w = Ok (i, w') →
  index_describes this c (if isSendTokenFixed i then c else weth)
    (if isSendTokenFixed i then weth else c) w s i ∧
  if dir then _calculateTradeSizeAndDirection this st c (totalSupply (SetToken.token s)) w
                = Ok ((isSendTokenFixed i, totalFixedQuantity i), w)
  else isSendTokenFixed i = false.
Proof.
  intros Es Hw. unfold _getDefaultTradeInfo in Hw.
  read_step Hw as x Hx. apply read_set_ok in Hx as (s0 & E0 & -> & _). rewrite Es in E0. injection E0 as <-.
  read_step Hw as a Ha. apply exchangeAdapter_ok in Ha.
  read_step Hw as p Hp. apply asks_ok in Hp as [-> _].
  read_step Hw as [fixed q] Hq.
  destruct (if fixed then (c, weth) else (weth, c)) as [send receive] eqn:Et.
  read_step Hw as b1 Hb1. apply PositionLib.balance_ok in Hb1 as (_ & Hb1 & Hu1).
  read_step Hw as b2 Hb2. apply PositionLib.balance_ok in Hb2 as (_ & Hb2 & Hu2).
  apply tx_ret_ok in Hw as [<- _]. cbn [isSendTokenFixed totalFixedQuantity]. split.
  - by destruct fixed; injection Et as -> ->.
  - destruct dir; [done|]. apply tx_ret_ok in Hq as [Hq _]. by injection Hq as <- _.
Qed.

(** What a trade of a component asks for: the size and the direction of its target,
    ether within the limit. *)
Lemma tradeInfo_ok this c (limit : Z) i w w' s :
  sets w !! st = Some s → SetToken.consistent s → index_words st w → is_uint (index_fee_rate this w) →
  _createTradeInfo weth this st c limit w = Ok (i, w') →
  let sell := isSendTokenFixed i in
  index_describes this c (if sell then c else weth) (if sell then weth else c) w s i ∧
  PositionLib.real_unit s c ≠ index_target st c w s ∧
  sized (maxSize (params_of st c w)) (index_fee_rate this w) (notional_now s c)
    (notional_target st c w s) sell (if sell then sendQuantity i else floatingQuantityLimit i) ∧
  (if sell then floatingQuantityLimit i = limit
   else sendQuantity i = Z.min limit (preTradeSendTokenBalance i)).
Proof.
  intros Es Hs Hwd Hf Hw. unfold _createTradeInfo in Hw. read_step Hw as i0 Hi.
  apply (defaultInfo_ok _ _ _ _ _ _ s) in Hi as [Hd Hq]; [|done].
  apply (index_size_ok _ _ _ Es Hs Hwd) in Hq as (Hne & Hn & Hm & Hq).
  pose proof Hwd as (Hp & _). destruct (Hp c) as (_ & Hmax & _).
  apply trade_size_sized in Hq; [|done..].
  apply tx_ret_ok in Hw as [<- _]. by destruct (isSendTokenFixed i0) eqn:Ei; cbn.
Qed.

(** What the spending of the ether left asks for: all of it above its target. *)
Lemma remainingInfo_ok this c (low : Z) i w w' s :
  sets w !! st = Some s → SetToken.consistent s → index_words st w →
  _createTradeRemainingInfo weth this st c low w = Ok (i, w') →
  index_describes this c weth c w s i ∧ isSendTokenFixed i = true ∧
  sendQuantity i = notional_now s weth - notional_target st weth w s ∧ 0 ≤ sendQuantity i ∧
  floatingQuantityLimit i = low.
Proof.
  intros Es Hs Hwd Hw. unfold _createTradeRemainingInfo in Hw. read_step Hw as i0 Hi.
  apply (defaultInfo_ok _ _ _ _ _ _ s) in Hi as [Hd Hq]; [|done]. rewrite Hq in Hd.
  read_step Hw as [[[u t] n] m] Hn. pose proof Hd as (_ & _ & _ & _ & _ & Esu & _).
  rewrite Esu in Hn.
  apply (index_notional_ok _ _ _ Es Hs Hwd) in Hn as (_ & _ & -> & -> & Hn & Hm).
  read_step Hw as x Hx. apply lift_ok in Hx as [Hx _]. apply safe_sub_inv in Hx as (-> & Hle & _); [|done..].
  apply tx_ret_ok in Hw as [<- _]. cbn. repeat (split; [done|]). split; [lia|done].
Qed.

(** *** The exchange *)

Lemma spares_index_trade this i : setToken i = st →
  spares st [sendToken i; receiveToken i] (_executeTrade (E := E) this i).
Proof.
  intros Ei. unfold _executeTrade. rewrite Ei.
  apply spares_bind; [apply spares_reading; reading|intros spender].
  apply spares_bind; [by apply spares_approve|intros _]. apply spares_encoded; [done|].
  intros w target v d. apply index_exchange_spares.
Qed.

(** The fee, a share of what was exchanged, leaves the set. *)
Lemma index_fee_ok this i (fee : Z) w w' :
  setToken i = st → is_uint (preTradeReceiveTokenBalance i) →
  _accrueProtocolFee this i w = Ok (fee, w') →
  is_uint fee ∧ ∃ x, is_uint x ∧ IERC20_balanceOf (receiveToken i) st w = Ok (preTradeReceiveTokenBalance i + x) ∧
    shifted st (only (receiveToken i) (- fee)) w w' ∧
    (is_uint (index_fee_rate this w) → fee = x * index_fee_rate this w / 10 ^ 18).
Proof.
  intros Ei Hu Hw. unfold _accrueProtocolFee in Hw. rewrite Ei in Hw.
  read_step Hw as b Hb. apply PositionLib.balance_ok in Hb as (_ & Hb & Hbu).
  read_step Hw as d Hd. apply lift_ok in Hd as [Hd _]. apply safe_sub_inv in Hd as (-> & _ & Hd); [|done..].
  read_step Hw as f Hf. unfold getModuleFee in Hf. read_step Hf as ctl Hctl.
  apply asks_ok in Hctl as [-> _]. fold (index_fee_rate this w) in Hf. apply lift_ok in Hf as [Hf _].
  apply tx_bind_ok in Hw as (u & w1 & Hpay & Hw). apply tx_ret_ok in Hw as [<- <-].
  pose proof (preciseMul_u_word _ _ _ Hf) as Hfu. split; [done|]. destruct Hfu as [Hf0 _].
  exists (b - preTradeReceiveTokenBalance i). split; [done|].
  split; [rewrite Hb; f_equal; lia|]. split; [by apply (payProtocolFee_shifts st) in Hpay|].
  intros Hp. by apply preciseMul_u_floor in Hf as [-> _].
Qed.

(** The update of the positions, then of the time of the trade. *)
Lemma update_split this i c (sent received : Z) w w' :
  _updatePositionStateAndTimestamp this i c w = Ok ((sent, received), w') →
  ∃ w1, ('(current, _, _) ← PositionLib.calculateAndEditDefaultPosition this (setToken i) (sendToken i)
            (setTotalSupply i) (preTradeSendTokenBalance i);
         '(current', _, _) ← PositionLib.calculateAndEditDefaultPosition this (setToken i)
            (receiveToken i) (setTotalSupply i) (preTradeReceiveTokenBalance i);
         x ← lift (SafeMath.sub (preTradeSendTokenBalance i) current);
         y ← lift (SafeMath.sub current' (preTradeReceiveTokenBalance i));
         mret (x, y)) w = Ok ((sent, received), w1) ∧
    w' = set_env (put_index (put_params (setToken i) c (with_lastTrade (block_timestamp w1)
           (params_of (setToken i) c w1)) (index (env w1))) (env w1)) w1.
Proof.
  unfold _updatePositionStateAndTimestamp. intros Hw.
  apply tx_bind_ok in Hw as ([[b1 o1] n1] & w1 & He1 & Hw).
  apply tx_bind_ok in Hw as ([[b2 o2] n2] & w2 & He2 & Hw).
  apply tx_bind_ok in Hw as (x & w3 & Hx & Hw). apply tx_bind_ok in Hw as (y & w4 & Hy & Hw).
  read_step Hw as now Hnow. apply asks_ok in Hnow as [-> _].
  apply tx_bind_ok in Hw as (u & w5 & Hst & Hw). apply tx_ret_ok in Hw as [Hw <-]. injection Hw as -> ->.
  exists w4. split.
  - rewrite (tx_bind_run _ _ _ _ _ He1), (tx_bind_run _ _ _ _ _ He2), (tx_bind_run _ _ _ _ _ Hx).
    by rewrite (tx_bind_run _ _ _ _ _ Hy).
  - unfold edit_params in Hst. read_step Hst as p Hp. apply asks_ok in Hp as [-> _].
    by apply modify_ok in Hst.
Qed.

(** What a trade that succeeds leaves: a covered set of the same supply, balances that
    have changed by the amounts returned, the fee, and the time. *)
Definition index_traded this c (sent received fee : Z) w1 w' s i : Prop :=
  covered_set st w' ∧ (∃ s', sets w' !! st = Some s' ∧ SetToken.token s' = SetToken.token s) ∧
  IERC20_balanceOf (sendToken i) st w' = Ok (preTradeSendTokenBalance i - sent) ∧
  IERC20_balanceOf (receiveToken i) st w' = Ok (preTradeReceiveTokenBalance i + received) ∧
  0 ≤ sent ∧ is_uint received ∧ is_uint fee ∧
  (is_uint (index_fee_rate this w1) → fee = (received + fee) * index_fee_rate this w1 / 10 ^ 18) ∧
  lastTradeTimestamp (params_of st c w') = block_timestamp w'.

Lemma index_exchange_ok this c (fee sent received : Z) (u : ()) i w w1 w2 w' s :
  this ≠ Controller.address0 → setToken i = st → sendToken i ≠ st → receiveToken i ≠ st →
  setTotalSupply i = totalSupply (SetToken.token s) →
  is_uint (preTradeSendTokenBalance i) → is_uint (preTradeReceiveTokenBalance i) →
  covered_but st [] w s → _executeTrade this i w = Ok (u, w1) →
  _accrueProtocolFee this i w1 = Ok (fee, w2) →
  _updatePositionStateAndTimestamp this i c w2 = Ok ((sent, received), w') →
  index_traded this c sent received fee w1 w' s i.
Proof.
  intros Ht Ei Hs1 Hs2 Esu Hu1 Hu2 Hc Hex Hfee Hup.
  pose proof (spares_index_trade this i Ei w u w1 Hex) as Hl1.
  apply (covered_weaken st [] [sendToken i; receiveToken i]) in Hc; [|apply list_subseteq_nil].
  destruct (covered_left_alone st _ _ _ _ Hl1 Hc) as (l1 & Hc1).
  apply index_fee_ok in Hfee as (Hfu & x & Hxu & Hx & Hshift & Hrate); [|done..].
  assert (left_alone st [sendToken i; receiveToken i] w1 w2) as Hl2.
  { eapply left_alone_mono; [|by eapply shifted_left_alone]. set_solver. }
  destruct (covered_left_alone st _ _ _ _ Hl2 Hc1) as (l2 & Hc2).
  apply update_split in Hup as (w3 & Hup & ->). rewrite Ei in *.
  apply (covered_exchange st _ _ _ _ _ _ _ _ _ _ (with_logs l2 (with_logs l1 s))) in Hup
    as (s' & -> & Hc3 & Et & Hb1 & Hb2 & Hsent & Hrecv); [|done..].
  destruct Hshift as [_ Hshift]. pose proof (Hshift _ _ Hs2 Hx) as Hx2. unfold only in Hx2.
  rewrite decide_True, Hb2 in Hx2 by done. injection Hx2 as Hx2. assert (x = received + fee) as -> by lia.
  assert (is_uint received).
  { pose proof (balance_word _ _ _ _ Hb2) as [_ ?]. destruct Hu2. split; lia. }
  unfold index_traded. rewrite balance_index, balance_put, Hb1 by done. rewrite balance_index, balance_put, Hb2 by done.
  split; [exists s'; apply covered_env; [intros c'; apply balance_index|done]|].
  split; [exists s'; split; [apply put_set_at|done]|]. repeat (split; [done|]).
  unfold params_of, put_params. cbn. rewrite index_put. cbn. by rewrite lookup_insert_eq.
Qed.

(** *** The guard *)

Lemma params_enter c e w : guard_enter (env w) = Ok e → params_of st c (set_env e w) = params_of st c w.
Proof. intros He. unfold params_of. cbn. by rewrite (index_enter _ _ He). Qed.

Lemma rebalance_enter e w : guard_enter (env w) = Ok e → rebalance_of st (set_env e w) = rebalance_of st w.
Proof. intros He. unfold rebalance_of. cbn. by rewrite (index_enter _ _ He). Qed.

Lemma permission_enter e w :
  guard_enter (env w) = Ok e → permission_of st (set_env e w) = permission_of st w.
Proof. intros He. unfold permission_of. cbn. by rewrite (index_enter _ _ He). Qed.

Lemma words_enter e w : guard_enter (env w) = Ok e → index_words st w → index_words st (set_env e w).
Proof.
  intros He (Hp & ?). unfold index_words. rewrite rebalance_enter by done. split; [|done].
  intros c. rewrite params_enter by done. apply Hp.
Qed.

Lemma target_enter c e w s :
  guard_enter (env w) = Ok e → index_target st c (set_env e w) s = index_target st c w s.
Proof. intros He. unfold index_target. by rewrite params_enter, rebalance_enter. Qed.

Lemma describes_enter this c send receive e w s i :
  guard_enter (env w) = Ok e →
  index_describes this c send receive (set_env e w) s i ↔ index_describes this c send receive w s i.
Proof.
  intros He. unfold index_describes. rewrite params_enter, !(balance_enter _ _ _ He) by done. done.
Qed.

Lemma traded_leave this c (sent received fee : Z) w1 w' s i :
  index_traded this c sent received fee w1 w' s i →
  index_traded this c sent received fee w1 (set_env (guard_leave (env w')) w') s i.
Proof.
  intros ((s0 & Hc) & Hs & Hb1 & Hb2 & ? & ? & ? & ? & Hl). unfold index_traded. rewrite !balance_leave.
  split; [exists s0; by apply covered_leave|]. repeat (split; [done|]).
  unfold params_of in *. cbn. by rewrite index_leave.
Qed.

(** *** Both kinds of trade *)

(** The start of a trade that succeeds, up to the record of it. *)
Definition index_started msg_sender tx_origin c w : Prop :=
  may_trade msg_sender tx_origin st w ∧ (index_words st w → tradable weth st c w).

Lemma started_enter msg_sender tx_origin c (u1 u2 u3 : ()) e w w1 w2 w3 :
  guard_enter (env w) = Ok e → let w0 := set_env e w in
  _validateOnlyAllowedTrader msg_sender st w0 = Ok (u1, w1) →
  _validateOnlyEOAIfUnrestricted msg_sender tx_origin st w0 = Ok (u2, w2) →
  _validateTradeParameters weth st c w0 = Ok (u3, w3) →
  index_started msg_sender tx_origin c w.
Proof.
  intros He w0 H4 H5 H6. subst w0. pose proof (trader_ok _ _ _ _ _ _ _ _ H4 H5) as Hm. split.
  - unfold may_trade in *. by rewrite permission_enter in Hm.
  - intros Hwd. apply tradable_ok in H6; [|by apply words_enter]. unfold tradable in *.
    by rewrite rebalance_enter, params_enter in H6.
Qed.

Lemma tradeInfo_describes this c (limit : Z) i w w' s :
  sets w !! st = Some s → _createTradeInfo weth this st c limit w = Ok (i, w') →
  index_describes this c (if isSendTokenFixed i then c else weth)
    (if isSendTokenFixed i then weth else c) w s i.
Proof.
  intros Es Hw. unfold _createTradeInfo in Hw. read_step Hw as i0 Hi.
  apply (defaultInfo_ok _ _ _ _ _ _ s) in Hi as [Hd _]; [|done].
  apply tx_ret_ok in Hw as [<- _]. by destruct (isSendTokenFixed i0) eqn:Ei; cbn.
Qed.

Lemma remainingInfo_describes this c (low : Z) i w w' s :
  sets w !! st = Some s → _createTradeRemainingInfo weth this st c low w = Ok (i, w') →
  index_describes this c weth c w s i.
Proof.
  intros Es Hw. unfold _createTradeRemainingInfo in Hw. read_step Hw as i0 Hi.
  apply (defaultInfo_ok _ _ _ _ _ _ s) in Hi as [Hd Hq]; [|done]. rewrite Hq in Hd.
  read_step Hw as [[[u t] n] m] Hn. read_step Hw as x Hx. by apply tx_ret_ok in Hw as [<- _].
Qed.

Lemma describes_exchange this c send receive (fee sent received : Z) (u : ()) i w w1 w2 w' s :
  this ≠ Controller.address0 → send ≠ st → receive ≠ st →
  index_describes this c send receive w s i →
  covered_but st [] w s → _executeTrade this i w = Ok (u, w1) →
  _accrueProtocolFee this i w1 = Ok (fee, w2) →
  _updatePositionStateAndTimestamp this i c w2 = Ok ((sent, received), w') →
  index_traded this c sent received fee w1 w' s i.
Proof.
  intros Ht Hs1 Hs2 (Ei & E1 & E2 & _ & _ & Esu & _ & _ & Hu1 & Hu2) Hc Hex Hf Hup.
  eapply index_exchange_ok; try done; by rewrite ?E1, ?E2.
Qed.

Lemma trade_started this msg_sender tx_origin c (limit : Z) r w w' :
  trade weth this msg_sender tx_origin st c limit w = Ok (r, w') →
  index_started msg_sender tx_origin c w.
Proof.
  intros Hw. apply nonReentrant_ok in Hw as (e & w4 & He & Hw & _).
  read_step Hw as u1 Hu1. read_step Hw as u2 Hu2. read_step Hw as u3 Hu3. by eapply started_enter.
Qed.

Lemma remaining_started this msg_sender tx_origin c (low : Z) r w w' :
  tradeRemainingWETH weth this msg_sender tx_origin st c low w = Ok (r, w') →
  index_started msg_sender tx_origin c w.
Proof.
  intros Hw. apply nonReentrant_ok in Hw as (e & w4 & He & Hw & _).
  read_step Hw as u1 Hu1. read_step Hw as u2 Hu2. read_step Hw as b Hb. read_step Hw as u4 Hu4.
  read_step Hw as p Hp. read_step Hw as x0 Hx0. read_step Hw as u5 Hu5. read_step Hw as u3 Hu3.
  by eapply started_enter.
Qed.

Lemma trade_run this msg_sender tx_origin c (limit : Z) i (sent received fee : Z) w w' s :
  this ≠ Controller.address0 → weth ≠ st → c ≠ st → covered_but st [] w s →
  trade weth this msg_sender tx_origin st c limit w = Ok ((i, sent, received, fee), w') →
  ∃ e w1, guard_enter (env w) = Ok e ∧
    _createTradeInfo weth this st c limit (set_env e w) = Ok (i, set_env e w) ∧
    _executeTrade this i (set_env e w) = Ok ((), w1) ∧
    index_traded this c sent received fee w1 w' s i.
Proof.
  intros Ht Hwe Hce Hc Hw. apply nonReentrant_ok in Hw as (e & w4 & He & Hw & ->).
  pose proof (covered_enter st [] e w s He Hc) as Hc0. pose proof Hc0 as (Es & _).
  read_step Hw as u1 Hu1. read_step Hw as u2 Hu2. read_step Hw as u3 Hu3.
  read_step Hw as i0 Hi.
  apply tx_bind_ok in Hw as ([] & w1 & Hex & Hw). apply tx_bind_ok in Hw as (f & w2 & Hf & Hw).
  apply tx_bind_ok in Hw as ([x y] & w3 & Hup & Hw). apply tx_ret_ok in Hw as [Hw <-].
  injection Hw as -> -> -> ->. exists e, w1. repeat (split; [done|]). apply traded_leave.
  eapply describes_exchange; [done| | |by eapply tradeInfo_describes|done..]; by destruct (isSendTokenFixed i).
Qed.

Lemma remaining_run this msg_sender tx_origin c (low : Z) i (sent received fee : Z) w w' s :
  this ≠ Controller.address0 → weth ≠ st → c ≠ st → covered_but st [] w s →
  tradeRemainingWETH weth this msg_sender tx_origin st c low w = Ok ((i, sent, received, fee), w') →
  ∃ e w1 w2 (u : ()), guard_enter (env w) = Ok e ∧
    _noTokensToSell weth st (set_env e w) = Ok (true, set_env e w) ∧
    _createTradeRemainingInfo weth this st c low (set_env e w) = Ok (i, set_env e w) ∧
    _executeTrade this i (set_env e w) = Ok ((), w1) ∧
    index_traded this c sent received fee w1 w2 s i ∧ received + fee < maxSize (params_of st c w2) ∧
    _validateComponentPositionUnit st c w2 = Ok (u, w2) ∧ w' = set_env (guard_leave (env w2)) w2.
Proof.
  intros Ht Hwe Hce Hc Hw. apply nonReentrant_ok in Hw as (e & w4 & He & Hw & ->).
  pose proof (covered_enter st [] e w s He Hc) as Hc0. pose proof Hc0 as (Es & _).
  read_step Hw as u1 Hu1. read_step Hw as u2 Hu2. read_step Hw as b Hb.
  read_step Hw as u4 Hu4. apply requires_ok in Hu4 as [-> _]. read_step Hw as p Hp.
  read_step Hw as x0 Hx0. read_step Hw as u5 Hu5. read_step Hw as u3 Hu3.
  read_step Hw as i0 Hi.
  apply tx_bind_ok in Hw as ([] & w1 & Hex & Hw). apply tx_bind_ok in Hw as (f & w2 & Hf & Hw).
  apply tx_bind_ok in Hw as ([x y] & w3 & Hup & Hw). read_step Hw as g Hg. read_step Hw as p' Hp'.
  apply asks_ok in Hp' as [-> _]. read_step Hw as u6 Hg6. apply requires_ok in Hg6 as [Hg6 _].
  read_step Hw as u7 Hu7. apply tx_ret_ok in Hw as [Hw <-]. injection Hw as -> -> -> ->.
  assert (index_traded this c sent received fee w1 w3 s i) as Htr.
  { eapply describes_exchange; [done| | |by eapply remainingInfo_describes|done..]; done. }
  exists e, w1, w3, u7. pose proof Htr as (_ & _ & _ & _ & _ & Hru & Hfu & _).
  apply lift_ok in Hg as [Hg _]. apply safe_add_inv in Hg as [-> _]; [|done..]. apply Z.ltb_lt in Hg6.
  repeat (split; [done|]). done.
Qed.

(** ** Properties *)

(** A trade of a component, of either kind and by anyone. *)
Inductive trades_of this c : World E → World E → Prop :=
| Trades_component msg_sender tx_origin limit r w w' :
    trade weth this msg_sender tx_origin st c limit w = Ok (r, w') → trades_of this c w w'
| Trades_remaining msg_sender tx_origin low r w w' :
    tradeRemainingWETH weth this msg_sender tx_origin st c low w = Ok (r, w') → trades_of this c w w'.

(** Of any component but the set itself. *)
Definition index_step this w w' : Prop := ∃ c, c ≠ st ∧ trades_of this c w w'.

Lemma trades_of_ok this c w w' :
  this ≠ Controller.address0 → weth ≠ st → c ≠ st → covered_set st w → trades_of this c w w' →
  covered_set st w' ∧ lastTradeTimestamp (params_of st c w') = block_timestamp w'.
Proof.
  intros Ht Hwe Hce Hc Hstep. destruct Hc as (s & Hc).
  destruct Hstep as [sender origin limit [[[i x] y] f] w w' Hw|sender origin low [[[i x] y] f] w w' Hw].
  - apply (trade_run _ _ _ _ _ _ _ _ _ _ _ s) in Hw as (e & w3 & _ & _ & _ & Hd); [|done..].
    split; apply Hd.
  - apply (remaining_run _ _ _ _ _ _ _ _ _ _ _ s) in Hw
      as (e & w3 & w4 & u & _ & _ & _ & _ & Hd & _ & _ & ->); [|done..].
    apply traded_leave in Hd. split; apply Hd.
Qed.

(** C9. The trades of a rebalance, of both kinds and through any exchanges, keep a set
    covered: its balances go on covering what its tokens claim of every component. *)
Theorem index_trades_covered this w w' (Ht : this ≠ Controller.address0) (Hwe : weth ≠ st)
    (Hc : covered_set st w) (Hsteps : rtc (index_step this) w w') :
  covered_set st w' ∧ collateralized st w'.
Proof.
  assert (covered_set st w') as Hc'; [|by split; [|apply covered_set_collateralized]].
  induction Hsteps as [|w w1 w' (c & Hce & Hstep) _ IH]; [done|]. apply IH. by eapply trades_of_ok.
Qed.

(** C24. A trade of a component comes at least its cool-off after an earlier one, when
    what the earlier one left of its parameters, the time of the trade included, is
    still there: setCoolOffPeriods may change the cool-off in between, and a removal
    of the module with a new initialization clears the recorded time. *)
Theorem index_trades_spaced this c w w1 w2 w3 (Ht : this ≠ Controller.address0)
    (Hwe : weth ≠ st) (Hce : c ≠ st) (Hc : covered_set st w) (Hwd : index_words st w2)
    (Hfirst : trades_of this c w w1) (Hbetween : params_of st c w2 = params_of st c w1)
    (Hsecond : trades_of this c w2 w3) :
  block_timestamp w1 + coolOffPeriod (params_of st c w1) ≤ block_timestamp w2.
Proof.
  apply trades_of_ok in Hfirst as [_ Hlast]; [|done..].
  assert (∃ sender origin, index_started sender origin c w2) as (? & ? & _ & Hd).
  { destruct Hsecond as [sender origin ? ? ? ? Hw|sender origin ? ? ? ? Hw]; exists sender, origin;
      [by eapply trade_started|by eapply remaining_started]. }
  destruct (Hd Hwd) as (_ & _ & Hle). by rewrite Hbetween, Hlast in Hle.
Qed.

(** C22. A trade is by a trader of the set, or by an account without code when anyone
    may trade; of a component of the rebalance whose cool-off has passed, through the
    exchange registered for it; in the direction of its target, the size within the
    maximum; it sells the component for ether or buys it with at most the limit; the
    amounts returned are those by which the balances have changed, and the time is
    recorded. *)
Theorem index_trade_terms this msg_sender tx_origin c (limit : Z) i (sent received fee : Z) w w' s
    (Ht : this ≠ Controller.address0) (Hwe : weth ≠ st) (Hce : c ≠ st)
    (Hc : covered_but st [] w s) (Hwd : index_words st w) (Hfee : is_uint (index_fee_rate this w))
    (Hw : trade weth this msg_sender tx_origin st c limit w = Ok ((i, sent, received, fee), w')) :
  let sell := isSendTokenFixed i in
  may_trade msg_sender tx_origin st w ∧ tradable weth st c w ∧
  PositionLib.real_unit s c ≠ index_target st c w s ∧
  index_describes this c (if sell then c else weth) (if sell then weth else c) w s i ∧
  sized (maxSize (params_of st c w)) (index_fee_rate this w) (notional_now s c)
    (notional_target st c w s) sell (if sell then sendQuantity i else floatingQuantityLimit i) ∧
  (if sell then floatingQuantityLimit i = limit
   else sendQuantity i = Z.min limit (preTradeSendTokenBalance i)) ∧
  ∃ e w1, guard_enter (env w) = Ok e ∧ _executeTrade this i (set_env e w) = Ok ((), w1) ∧
    index_traded this c sent received fee w1 w' s i.
Proof.
  pose proof Hc as (Es & Hs & _). cbv zeta.
  pose proof (trade_started _ _ _ _ _ _ _ _ Hw) as [Hm Htr].
  apply (trade_run _ _ _ _ _ _ _ _ _ _ _ s) in Hw as (e & w1 & He & Hi & Hex & Hd); [|done..].
  split; [done|]. split; [by apply Htr|].
  apply (tradeInfo_ok _ _ _ _ _ _ s) in Hi as (Hdes & Hne & Hsize & Hq); [|done|done|by apply words_enter|done].
  rewrite target_enter in Hne by done. unfold notional_target in Hsize.
  rewrite params_enter, target_enter in Hsize by done. apply describes_enter in Hdes; [|done].
  repeat (split; [done|]). by exists e, w1.
Qed.

(** C23. The ether left is traded only when no component is above its target: exactly
    what there is of it above its own target is offered, less than the maximum of the
    component is received, and its unit stays within its target. *)
Theorem remaining_terms this msg_sender tx_origin c (low : Z) i (sent received fee : Z) w w' s
    (Ht : this ≠ Controller.address0) (Hwe : weth ≠ st) (Hce : c ≠ st)
    (Hc : covered_but st [] w s) (Hwd : index_words st w) (Hwd' : index_words st w')
    (Hw : tradeRemainingWETH weth this msg_sender tx_origin st c low w
            = Ok ((i, sent, received, fee), w')) :
  may_trade msg_sender tx_origin st w ∧ tradable weth st c w ∧
  (∀ c', c' ∈ rebalanceComponents (rebalance_of st w) → c' ≠ weth →
     PositionLib.real_unit s c' ≤ index_target st c' w s) ∧
  index_describes this c weth c w s i ∧
  sendQuantity i = notional_now s weth - notional_target st weth w s ∧ 0 ≤ sendQuantity i ∧
  received + fee < maxSize (params_of st c w') ∧
  ∃ s', sets w' !! st = Some s' ∧ SetToken.token s' = SetToken.token s ∧
    PositionLib.real_unit s' c ≤ index_target st c w' s'.
Proof.
  pose proof Hc as (Es & Hs & _).
  pose proof (remaining_started _ _ _ _ _ _ _ _ Hw) as [Hm Htr].
  apply (remaining_run _ _ _ _ _ _ _ _ _ _ _ s) in Hw
    as (e & w1 & w2 & u & He & Hno & Hi & Hex & Hd & Hmax & Hunit & ->); [|done..].
  split; [done|]. split; [by apply Htr|]. split.
  { intros c' Hin Hne. rewrite <- (target_enter c' e) by done. rewrite <- (rebalance_enter e) in Hin by done.
    by eapply noTokens_ok; [| |apply words_enter|..]. }
  apply (remainingInfo_ok _ _ _ _ _ _ s) in Hi as (Hdes & _ & Hq & Hpos & _); [|done..|by apply words_enter].
  unfold notional_target in Hq. rewrite target_enter in Hq by done. apply describes_enter in Hdes; [|done].
  repeat (split; [done|]).
  assert (∀ c', params_of st c' (set_env (guard_leave (env w2)) w2) = params_of st c' w2) as Hpl
    by (intros c'; unfold params_of; cbn; by rewrite index_leave).
  assert (rebalance_of st (set_env (guard_leave (env w2)) w2) = rebalance_of st w2) as Hrl
    by (unfold rebalance_of; cbn; by rewrite index_leave).
  rewrite Hpl. split; [done|]. destruct Hd as ((s2 & Es2 & Hs2 & _) & (s' & Es' & Et) & _).
  rewrite Es' in Es2. injection Es2 as <-. exists s'. repeat (split; [done|]).
  unfold index_target. rewrite Hpl, Hrl. eapply componentUnit_ok; [done..| |exact Hunit].
  destruct Hwd' as (Hp & Hr). split; [intros c'; rewrite <- Hpl; apply Hp|by rewrite <- Hrl].
Qed.
End Trades.
End IndexTheorems.
