(* ===== verification/IndexState.v ===== *)
(** * The storage of the index module across transactions

    What every sequence of transactions keeps of the permissions of traders and of the
    components of a rebalance, and how far apart in time the trades of a component
    are. *)
From Stdlib Require Import String.
From S2P Require Import Prelude JsString BigNumber Constants MathUtils SolMath.
From S2P Require Import AddressArrayUtils Script AdapterUtils Controller Erc20 SetToken.
From S2P Require Import IntegrationRegistry World Position Tokens Exchange GeneralIndex IndexTheorems.

Module IndexState.
Import GeneralIndex GeneralIndexModule IndexTheorems.

(** ** The invariant *)

(** The history lists the accounts with a permission, each once; a rebalance lists no
    component twice. *)
Definition storage_valid (m : Storage) : Prop :=
  (∀ st p, permissionInfo m !! st = Some p → recorded (tradersHistory p) (tradeAllowList p)) ∧
  (∀ st r, rebalanceInfo m !! st = Some r → NoDup (rebalanceComponents r)).

Lemma index_permission_valid (st : Address) (p : TradePermissionInfo) (m : Storage) :
  recorded (tradersHistory p) (tradeAllowList p) → storage_valid m → storage_valid (put_permission st p m).
Proof.
  intros Hp [Hm Hr]. split; [|done]. intros st' p'. cbn. rewrite lookup_insert_Some.
  intros [[_ <-]|[_ E]]; [done|by eapply Hm].
Qed.

Lemma index_rebalance_valid (st : Address) (r : RebalanceInfo) (m : Storage) :
  NoDup (rebalanceComponents r) → storage_valid m → storage_valid (put_rebalance st r m).
Proof.
  intros Hn [Hm Hr]. split; [done|]. intros st' r'. cbn. rewrite lookup_insert_Some.
  intros [[_ <-]|[_ E]]; [done|by eapply Hr].
Qed.

(** ** The transactions *)
Section Transactions.
Context `{ERC20} `{SignedLib} `{Keccak} {E : Type} `{!External E} `{!ReentrancyGuard E}
  `{!IIndexExchangeAdapter E} `{!IndexStorage E}.
Context (weth : Address).
Implicit Types (this msg_sender tx_origin st c : Address) (w : World E).

Definition valid w : Prop := storage_valid (index (env w)).

Lemma index_valid_env w w' : env w' = env w → valid w → valid w'.
Proof. unfold valid. by intros ->. Qed.

Lemma index_valid_enter w e : guard_enter (env w) = Ok e → valid w → valid (set_env e w).
Proof. intros He. unfold valid. cbn. by rewrite (index_enter _ _ He). Qed.

Lemma index_valid_leave w : valid w → valid (set_env (guard_leave (env w)) w).
Proof. unfold valid. cbn. by rewrite index_leave. Qed.

Lemma index_store_ok (f : Storage → Storage) (u : ()) w w' :
  store f w = Ok (u, w') → w' = set_env (put_index (f (index (env w))) (env w)) w.
Proof. unfold store. intros Hw. by apply modify_ok in Hw. Qed.

Lemma keeps_index_store (f : Storage → Storage) :
  (∀ m, storage_valid m → storage_valid (f m)) → keeps valid (store f).
Proof.
  intros Hf w u w' Hv Hw. split; [|done]. apply index_store_ok in Hw as ->. unfold valid. cbn.
  rewrite index_put. by apply Hf.
Qed.

Lemma keeps_edit_params st c (f : TradeExecutionParams → TradeExecutionParams) :
  keeps valid (edit_params st c f).
Proof. unfold edit_params. apply keeps_bind; [keeping|intros p]. by apply keeps_index_store. Qed.

Lemma keeps_index_set st (f : Controller.State → SetToken.State → result SetToken.State) :
  keeps valid (on_set st f).
Proof. apply untouched_on_set, index_valid_env. Qed.

Lemma permission_recorded st w :
  valid w → recorded (tradersHistory (permission_of st w)) (tradeAllowList (permission_of st w)).
Proof.
  intros [Hw _]. unfold permission_of. specialize (Hw st).
  destruct (permissionInfo (index (env w)) !! st) as [p|]; cbn; [by apply Hw|].
  split; [constructor|]. intros a. set_solver.
Qed.

Lemma components_distinct st w : valid w → NoDup (rebalanceComponents (rebalance_of st w)).
Proof.
  intros [_ Hw]. unfold rebalance_of. specialize (Hw st).
  destruct (rebalanceInfo (index (env w)) !! st) as [r|]; cbn; [by apply Hw|constructor].
Qed.

Lemma keeps_read_permission {A} st (f : TradePermissionInfo → tx E A) :
  (∀ p, recorded (tradersHistory p) (tradeAllowList p) → keeps valid (f p)) →
  keeps valid (p ← asks (permission_of st); f p).
Proof. apply gives_bind, gives_asks, permission_recorded. Qed.

Lemma keeps_read_rebalance {A} st (f : RebalanceInfo → tx E A) :
  (∀ r, NoDup (rebalanceComponents r) → keeps valid (f r)) →
  keeps valid (r ← asks (rebalance_of st); f r).
Proof. apply gives_bind, gives_asks, components_distinct. Qed.

Lemma keeps_write_rebalance st (r : RebalanceInfo) :
  NoDup (rebalanceComponents r) → keeps valid (store (put_rebalance st r)).
Proof. intros Hr. apply keeps_index_store. intros m. by apply index_rebalance_valid. Qed.

Lemma keeps_write_permission st (p : TradePermissionInfo) :
  recorded (tradersHistory p) (tradeAllowList p) → keeps valid (store (put_permission st p)).
Proof. intros Hp. apply keeps_index_store. intros m. by apply index_permission_valid. Qed.

Lemma keeps_index_manager this msg_sender st :
  keeps valid (_validateOnlyManagerAndValidSet (E := E) this msg_sender st).
Proof. apply keeps_reading, reading_manager. Qed.

#[local] Hint Resolve keeps_index_set keeps_edit_params keeps_write_rebalance keeps_write_permission
  keeps_index_manager : keeps.

(** *** Traders *)

Lemma traders_history_ok st (a : Address) (status : bool) (u : ()) w w' :
  valid w → _updateTradersHistory st a status w = Ok (u, w') →
  ∃ l, permission_of st w' = with_history l (permission_of st w) ∧
    toggled a status (tradersHistory (permission_of st w)) l ∧
    ∀ p, put_permission st p (index (env w')) = put_permission st p (index (env w)).
Proof.
  intros Hv Hw. pose proof (permission_recorded st w Hv) as [Hn _]. unfold _updateTradersHistory in Hw.
  read_step Hw as p Hp. apply asks_ok in Hp as [-> _]. set (p := permission_of st w) in *.
  assert (with_history (tradersHistory p) p = p) as Esame by (by destruct p).
  assert (∀ l w1, w1 = set_env (put_index (put_permission st (with_history l p) (index (env w))) (env w)) w →
    permission_of st w1 = with_history l p ∧
    ∀ q, put_permission st q (index (env w1)) = put_permission st q (index (env w))) as Hput.
  { intros l w1 ->. unfold permission_of, put_permission. cbn. rewrite index_put. cbn.
    rewrite lookup_insert_eq. split; [done|]. intros q. by rewrite insert_insert_eq. }
  destruct status, (contains (tradersHistory p) a) eqn:C; cbn in Hw.
  - apply tx_ret_ok in Hw as [_ <-]. exists (tradersHistory p). rewrite Esame.
    split; [done|]. split; [by apply toggled_same|done].
  - apply index_store_ok, Hput in Hw as [Hw1 Hw2]. exists (tradersHistory p ++ [a]).
    split; [done|]. split; [by apply toggled_add|done].
  - read_step Hw as l Hl. apply lift_ok in Hl as [Hl _]. apply index_store_ok, Hput in Hw as [Hw1 Hw2].
    exists l. split; [done|]. split; [by apply toggled_remove|done].
  - apply tx_ret_ok in Hw as [_ <-]. exists (tradersHistory p). rewrite Esame.
    split; [done|]. split; [by apply toggled_same|done].
Qed.

Lemma keeps_trader_loop st (ts : list Address) (ss : list bool) : keeps valid (trader_loop st ts ss).
Proof.
  revert ss. induction ts as [|t ts IH]; intros [|s ss]; cbn [trader_loop];
    try (apply keeps_reading; solve [reading]).
  intros w u w' Hv Hw. apply tx_bind_ok in Hw as (u1 & w1 & He1 & Hw).
  apply traders_history_ok in He1 as (l & Hp & Hl & Hput); [|done].
  apply tx_bind_ok in Hw as (p & w2 & He2 & Hw). apply asks_ok in He2 as [-> ->].
  apply tx_bind_ok in Hw as (u3 & w3 & He3 & Hw). apply index_store_ok in He3.
  refine (IH ss w3 u w' _ Hw). unfold valid. rewrite He3. cbn. rewrite index_put, Hput, Hp.
  apply index_permission_valid; [|done]. by eapply recorded_toggle; [apply permission_recorded|].
Qed.

#[local] Hint Resolve keeps_trader_loop : keeps.

(** *** Loops over components *)

Lemma keeps_params_loop {A} st (f : A → TradeExecutionParams → TradeExecutionParams)
    (cs : list Address) (l : list A) : keeps valid (params_loop st f cs l).
Proof. revert l. induction cs as [|c cs IH]; intros [|a l]; cbn [params_loop]; keeping. Qed.

Lemma reading_registry : reading (registry (E := E)).
Proof. intros w r w'. unfold registry. destruct (registries w !! _); [by intros [= _ <-]|done]. Qed.
#[local] Hint Resolve reading_registry : reading.

Lemma keeps_exchanges_loop this st (cs : list Address) (ns : list string) :
  keeps valid (exchanges_loop weth this st cs ns).
Proof. revert ns. induction cs as [|c cs IH]; intros [|n ns]; cbn [exchanges_loop]; keeping. Qed.

Lemma keeps_start_loop st (cs : list Address) (us : list Z) : keeps valid (start_loop (E := E) st cs us).
Proof. revert us. induction cs as [|c cs IH]; intros [|a us]; cbn [start_loop]; keeping. Qed.

Lemma keeps_index_initialize_loop st (ps : list Position) :
  keeps valid (initialize_loop (E := E) st ps).
Proof. induction ps as [|p ps IH]; cbn [initialize_loop]; keeping. Qed.

#[local] Hint Resolve keeps_params_loop keeps_exchanges_loop keeps_start_loop
  keeps_index_initialize_loop : keeps.

(** *** The functions *)

(** What a caller asks of the module for a set. *)
Inductive operation :=
| StartRebalance (_newComponents : list Address)
    (_newComponentsTargetUnits _oldComponentsTargetUnits : list Z) (_positionMultiplier : Z)
| Trade (_component : Address) (_ethQuantityLimit : Z)
| TradeRemainingWETH (_component : Address) (_minComponentReceived : Z)
| RaiseAssetTargets
| SetTradeMaximums (_components : list Address) (_tradeMaximums : list Z)
| SetExchanges (_components : list Address) (_exchangeNames : list string)
| SetCoolOffPeriods (_components : list Address) (_coolOffPeriods : list Z)
| SetExchangeData (_components : list Address) (_exchangeData : list Bytes)
| SetRaiseTargetPercentage (_raiseTargetPercentage : Z)
| SetTraderStatus (_traders : list Address) (_statuses : list bool)
| SetAnyoneTrade (_status : bool)
| Initialize.

Definition execute this msg_sender tx_origin st (o : operation) : tx E () :=
  match o with
  | StartRebalance cs nu ou m => startRebalance this msg_sender st cs nu ou m
  | Trade c q => trade weth this msg_sender tx_origin st c q;; mret ()
  | TradeRemainingWETH c q => tradeRemainingWETH weth this msg_sender tx_origin st c q;; mret ()
  | RaiseAssetTargets => raiseAssetTargets weth msg_sender st;; mret ()
  | SetTradeMaximums cs l => setTradeMaximums this msg_sender st cs l
  | SetExchanges cs l => setExchanges weth this msg_sender st cs l
  | SetCoolOffPeriods cs l => setCoolOffPeriods this msg_sender st cs l
  | SetExchangeData cs l => setExchangeData this msg_sender st cs l
  | SetRaiseTargetPercentage z => setRaiseTargetPercentage this msg_sender st z
  | SetTraderStatus ts ss => setTraderStatus this msg_sender st ts ss
  | SetAnyoneTrade b => setAnyoneTrade this msg_sender st b
  | Initialize => initialize this msg_sender st
  end.

(** The worlds the module can be in: after its deployment, after a call, after the
    set removed the module, after anything that does not touch its storage. *)
Inductive reachable this : World E → Prop :=
| reachable_deployed w : index (env w) = no_storage → reachable this w
| reachable_call w w' msg_sender tx_origin st (o : operation) :
    reachable this w → execute this msg_sender tx_origin st o w = Ok ((), w') → reachable this w'
| reachable_removed w w' st :
    reachable this w → removeModule st w = Ok ((), w') → reachable this w'
| reachable_elsewhere w w' :
    reachable this w → index (env w') = index (env w) → reachable this w'.

Lemma aggregate_distinct (cs ns all : list Address) (nu ou us : list Z) :
  _getAggregateComponentsAndUnits cs ns nu ou = Ok (all, us) →
  all = cs ++ ns ∧ us = ou ++ nu ∧ NoDup all ∧ length all = length us.
Proof.
  unfold _getAggregateComponentsAndUnits. intros Ha.
  apply result_bind_ok in Ha as (? & Hl1 & Ha). apply require_ok, Nat.eqb_eq in Hl1.
  apply result_bind_ok in Ha as (? & Hl2 & Ha). apply require_ok, Nat.eqb_eq in Hl2.
  cbv zeta in Ha. apply result_bind_ok in Ha as (d & Hd & Ha).
  apply result_bind_ok in Ha as (? & Hnd & Ha). apply require_ok, negb_true_iff in Hnd as ->.
  injection Ha as <- <-. unfold hasDuplicate in Hd. apply result_bind_ok in Hd as (? & _ & Hd).
  injection Hd as Hd. unfold extend in *. split; [done|]. split; [done|]. split.
  - destruct (decide (NoDup (cs ++ ns))) as [|Hn]; [done|]. apply hasDuplicate_loop_true in Hn. congruence.
  - rewrite !length_app. lia.
Qed.

Lemma keeps_index_start this msg_sender st (cs : list Address) (nu ou : list Z) (m : Z) :
  keeps valid (startRebalance this msg_sender st cs nu ou m).
Proof.
  unfold startRebalance. apply keeps_bind; [keeping|intros _]. apply keeps_bind; [keeping|intros cur].
  eapply (gives_bind _ _ _ (λ r, NoDup r.1)).
  { intros w [all us] w' Hv Hw. apply lift_ok in Hw as [Hw <-]. by apply aggregate_distinct in Hw as (_ & _ & ? & _). }
  intros [all us] Hall. apply keeps_bind; [keeping|intros _].
  apply keeps_read_rebalance. intros r _. by apply keeps_write_rebalance.
Qed.

Lemma keeps_index_raise msg_sender st : keeps valid (raiseAssetTargets (E := E) weth msg_sender st).
Proof.
  unfold raiseAssetTargets. do 4 (apply keeps_bind; [keeping|intros ?]).
  apply keeps_read_rebalance. intros r Hr. keeping.
Qed.

Lemma keeps_index_percentage this msg_sender st (z : Z) :
  keeps valid (setRaiseTargetPercentage (E := E) this msg_sender st z).
Proof.
  unfold setRaiseTargetPercentage. do 2 (apply keeps_bind; [keeping|intros ?]).
  apply keeps_read_rebalance. intros r Hr. keeping.
Qed.

Lemma keeps_index_anyone this msg_sender st (b : bool) :
  keeps valid (setAnyoneTrade (E := E) this msg_sender st b).
Proof.
  unfold setAnyoneTrade. apply keeps_bind; [keeping|intros _]. apply keeps_read_permission. intros p Hp. keeping.
Qed.

Lemma keeps_index_initialize this msg_sender st : keeps valid (initialize (E := E) this msg_sender st).
Proof.
  unfold initialize, _validateOnlySetManager, _validateOnlyValidAndPendingSet, isSetManager,
    isSetPendingInitialization.
  do 6 (apply keeps_bind; [keeping|intros ?]). apply keeps_read_rebalance. intros r Hr. keeping.
Qed.

(** The permissions that the loop of [removeModule] does not clear are none. *)
Lemma keeps_index_remove st : keeps valid (removeModule (E := E) st).
Proof.
  unfold removeModule. apply keeps_read_permission. intros p [_ Hp]. cbv zeta.
  apply keeps_bind; [apply keeps_write_rebalance; constructor|intros _].
  apply keeps_write_permission. split; [constructor|]. intros b. cbn. set_solver.
Qed.

(** The tokens and the exchanges leave the storage of the module as valid as they find
    it: what they change of it, they change by calling the module. *)
Context (Hcall : ∀ caller target v d,
  keeps valid (functionCallWithValue (E := E) caller target v d)).

Lemma keeps_index_position this st c (supply prev : Z) :
  keeps valid (PositionLib.calculateAndEditDefaultPosition (E := E) this st c supply prev).
Proof. apply untouched_calculateAndEdit, index_valid_env. Qed.

Lemma keeps_index_approve this st (token spender : Address) (q : Z) :
  keeps valid (invokeApprove (E := E) this st token spender q).
Proof. by apply untouched_approve; [apply index_valid_env|]. Qed.

Lemma keeps_index_invoke this st (target : Address) (v : Z) (d : SetToken.call_data) :
  keeps valid (SetToken_invoke (E := E) this st target v d).
Proof. by apply untouched_invoke; [apply index_valid_env|]. Qed.

Lemma keeps_index_strict this st (token to : Address) (q : Z) :
  keeps valid (strictInvokeTransfer (E := E) this st token to q).
Proof. by apply untouched_strict; [apply index_valid_env|]. Qed.

#[local] Hint Resolve keeps_index_position keeps_index_approve keeps_index_invoke keeps_index_strict : keeps.

Lemma keeps_index_execution this (i : TradeInfo) : keeps valid (_executeTrade (E := E) this i).
Proof. unfold _executeTrade. keeping. Qed.

Lemma keeps_index_fee this (i : TradeInfo) : keeps valid (_accrueProtocolFee (E := E) this i).
Proof. unfold _accrueProtocolFee, payProtocolFeeFromSetToken. keeping. Qed.

Lemma keeps_index_update this (i : TradeInfo) c :
  keeps valid (_updatePositionStateAndTimestamp (E := E) this i c).
Proof. unfold _updatePositionStateAndTimestamp. keeping. Qed.

#[local] Hint Resolve keeps_index_execution keeps_index_fee keeps_index_update : keeps.

Lemma keeps_index_trade this msg_sender tx_origin st c (q : Z) :
  keeps valid (trade weth this msg_sender tx_origin st c q).
Proof.
  apply untouched_guard; [apply index_valid_enter|apply index_valid_leave|]. keeping.
Qed.

Lemma keeps_index_remaining this msg_sender tx_origin st c (q : Z) :
  keeps valid (tradeRemainingWETH weth this msg_sender tx_origin st c q).
Proof.
  apply untouched_guard; [apply index_valid_enter|apply index_valid_leave|]. keeping.
Qed.

#[local] Hint Resolve keeps_index_start keeps_index_raise keeps_index_percentage keeps_index_anyone
  keeps_index_initialize keeps_index_trade keeps_index_remaining : keeps.

Lemma keeps_index_execute this msg_sender tx_origin st (o : operation) :
  keeps valid (execute this msg_sender tx_origin st o).
Proof.
  destruct o; cbn [execute]; unfold setTradeMaximums, setExchanges, setCoolOffPeriods, setExchangeData,
    setTraderStatus; keeping.
Qed.

Lemma index_reachable_valid this w : reachable this w → valid w.
Proof.
  induction 1 as [w E1|w w' sender origin st o _ Hv Hw|w w' st _ Hv Hw|w w' _ Hv E1].
  - unfold valid. by rewrite E1.
  - by apply keeps_index_execute in Hw as [? _].
  - by apply keeps_index_remove in Hw as [? _].
  - unfold valid. by rewrite E1.
Qed.

(** Whatever transactions the module executed, an account may trade for a set when
    everyone may or when [getAllowedTraders] lists it, which lists no account twice,
    also after the set removed the module and added it again; and no rebalance lists a
    component twice. *)
Lemma traders_recorded this w st (_trader : Address) :
  reachable this w →
  NoDup (tradersHistory (permission_of st w)) ∧
  _isAllowedTrader st _trader w =
    Ok (anyoneTrade (permission_of st w) || contains (tradersHistory (permission_of st w)) _trader, w) ∧
  NoDup (rebalanceComponents (rebalance_of st w)).
Proof.
  intros Hw. apply index_reachable_valid in Hw. pose proof (permission_recorded st _ Hw) as [Hn Ha].
  split; [done|]. split; [|by apply components_distinct].
  unfold _isAllowedTrader, mbind, tx_bind, asks, mret, tx_ret. do 3 f_equal.
  apply eq_iff_eq_true. by rewrite bool_decide_eq_true, contains_true.
Qed.
End Transactions.
End IndexState.
