(* ===== verification/IndexSample.v ===== *)
(** * A concrete index rebalance

    Instances of the interfaces of the index module, and worlds in which a set is being
    rebalanced: the inputs on which the theorems are applied. *)
From Stdlib Require Import String.
From S2P Require Import Prelude JsString BigNumber Constants MathUtils SolMath.
From S2P Require Import AddressArrayUtils Script AdapterUtils Controller Erc20 SetToken.
From S2P Require Import IntegrationRegistry World Position Tokens Exchange GeneralIndex IndexTheorems.

(** The storage of the module, its guard, and the balances of all accounts. *)
Abbreviation index_env := (module_env GeneralIndex.Storage).

#[export] Instance index_storage : IndexStorage index_env.
Proof.
  refine {| index (e : index_env) := e.1.1; put_index m (e : index_env) := (m, e.1.2, e.2) |};
    [done| |done].
  intros e e'. cbn. destruct e.1.2; [done|]. by intros [= <-].
Defined.

Module IndexSample.
Import GeneralIndex GeneralIndexModule IndexTheorems.
#[local] Open Scope string_scope.

(** It sells all of a fixed quantity for a thousandth more than the least asked for,
    and buys a fixed quantity for all that is offered. *)
#[export] Instance sample_dex : IIndexExchangeAdapter index_env := {|
  getSpender _ _ := Ok "dex";
  getTradeCalldata _ send receive _ fixed q low _ _ :=
    Ok ("dex", 0, swap_data send q receive (if (fixed : bool) then low + low / 1000 else low));
|}.

#[export] Instance sample_exchanging st : IndexExchanging (E := index_env) st.
Proof.
  intros adapter send receive fixed q low data w target v d Hd. injection Hd as <- <- <-. apply swap_spares.
Qed.

#[export] Instance sample_apart st : IndexApart (E := index_env) st.
Proof. done. Qed.

(** A protocol fee of a tenth of a percent. *)
Definition sample_controller : Controller.State :=
  Controller.state_of (Controller.execute Controller.owner_only "owner" (Controller.AddFee "m1" 0 (10 ^ 15))
    PositionLib.sample_controller).

Definition sample_registry : IntegrationRegistry.State :=
  match IntegrationRegistry.addIntegration (λ _, Ok ()) sample_controller "owner" "m1"
          "DexAdapter" "adapter" IntegrationRegistry.new_registry with
  | Ok r => r
  | Throw _ => IntegrationRegistry.new_registry
  end.

(** One set in circulation, with [a] and a little ether, [b]. *)
Definition sample_world : World index_env :=
  {| controller := sample_controller; sets := {[ "set" := SetToken.sample_fee ]};
     registries := {[ "r" := sample_registry ]}; block_timestamp := 1000;
     env := ((no_storage, false),
             {[ ("a", "set") := 10 ^ 18; ("b", "set") := 3; ("b", "dex") := 10 ^ 18;
                ("c", "dex") := 10 ^ 18 ]}) |}.

(** A rebalance towards the targets of [a], of the ether and of [c], for one trader. *)
Definition sample_setup (target_a target_b target_c m : Z) : tx index_env () :=
  startRebalance "m1" "manager" "set" ["c"] [target_c] [target_a; target_b] m;;
  setTradeMaximums "m1" "manager" "set" ["a"; "c"] [10 ^ 17; 10 ^ 18];;
  setExchanges "b" "m1" "manager" "set" ["a"; "c"] ["DexAdapter"; "DexAdapter"];;
  setCoolOffPeriods "m1" "manager" "set" ["a"; "c"] [60; 60];;
  setTraderStatus "m1" "manager" "set" ["trader"] [true].

(** The setup writes the storage of the module only. *)
Definition set_up (target_a target_b target_c m : Z) : World index_env :=
  set_env (env (PositionLib.after sample_world (sample_setup target_a target_b target_c m sample_world)))
    sample_world.

Definition at_time (t : Z) (w : World index_env) : World index_env :=
  {| controller := controller w; sets := sets w; registries := registries w; block_timestamp := t;
     env := env w |}.

(** [a] has to be sold. *)
Definition selling : World index_env := set_up (4 * 10 ^ 17) 2 (10 ^ 17) (9 * 10 ^ 17).

Definition sample_sale : result (TradeInfo * Z * Z * Z * World index_env) :=
  trade "b" "m1" "trader" "trader" "set" "a" (10 ^ 17) selling.

(** A minute later there is more to sell. *)
Definition later : World index_env := at_time 1060 (PositionLib.after selling sample_sale).

Definition second_sale : result (TradeInfo * Z * Z * Z * World index_env) :=
  trade "b" "m1" "trader" "trader" "set" "a" (10 ^ 17) later.

(** Only [c] is wanted, and no ether. *)
Definition spending : World index_env := set_up (9 * 10 ^ 17) 0 (10 ^ 17) (9 * 10 ^ 17).

Definition sample_spend : result (TradeInfo * Z * Z * Z * World index_env) :=
  tradeRemainingWETH "b" "m1" "trader" "trader" "set" "c" 5000 spending.

(** Fees have halved the multiplier since: the ether is twice its target. *)
Definition halved : World index_env := set_up (18 * 10 ^ 17) 2 (2 * 10 ^ 17) (18 * 10 ^ 17).

(** ** Words and covered sets, by evaluation *)

Definition word_check (z : Z) : bool := (0 <=? z)%Z && (z <=? UINT_MAX)%Z.

Lemma word_check_ok (z : Z) : word_check z = true → is_uint z.
Proof. unfold word_check, is_uint. intros [?%Z.leb_le ?%Z.leb_le]%andb_true_iff. lia. Qed.

Definition params_check (p : TradeExecutionParams) : bool :=
  word_check (targetUnit p) && word_check (maxSize p) && word_check (coolOffPeriod p)
  && word_check (lastTradeTimestamp p).

Definition words_check (w : World index_env) : bool :=
  forallb (λ e : (Address * Address) * TradeExecutionParams, params_check e.2)
    (map_to_list (executionInfo (index (env w)))) &&
  (word_check (positionMultiplier (rebalance_of "set" w)) &&
   word_check (raiseTargetPercentage (rebalance_of "set" w)) && word_check (block_timestamp w)).

Lemma index_words_check_ok w : words_check w = true → index_words "set" w.
Proof.
  unfold words_check. intros [Hp Hr]%andb_true_iff. apply andb_true_iff in Hr as [[Hm Hra]%andb_true_iff Hb].
  split; [|split; [|split]; by apply word_check_ok]. intros c. unfold params_of. cbn in Hp |- *.
  destruct (_ !! _) as [p|] eqn:E; [|cbn; split_and!; apply uint_0].
  apply elem_of_map_to_list, list_elem_of_In in E. rewrite forallb_forall in Hp. apply Hp in E.
  cbn in E |- *. unfold params_check in E. rewrite !andb_true_iff in E.
  destruct E as [[[? ?] ?] ?]. repeat split; by apply word_check_ok.
Qed.


(** The setup succeeds and leaves the set as covered as it is. *)
Lemma index_setup_covered (a b c m : Z) :
  backed_check "set" (set_up a b c m) SetToken.sample_fee (10 ^ 18) = true →
  covered_but "set" [] (set_up a b c m) SetToken.sample_fee.
Proof.
  intros Hb. split; [reflexivity|]. split; [apply SetToken.sample_fee_consistent|].
  split; [apply PositionLib.sample_fee_tracked|].
  split; [refine (proj1 (bool_decide_eq_false _) _); vm_compute; reflexivity|].
  intros c' Hc _. revert c' Hc. by apply backed_check_ok.
Qed.

Lemma selling_covered : covered_but "set" [] selling SetToken.sample_fee.
Proof. apply index_setup_covered. vm_compute. reflexivity. Qed.

Lemma spending_covered : covered_but "set" [] spending SetToken.sample_fee.
Proof. apply index_setup_covered. vm_compute. reflexivity. Qed.

Definition no_index_trade : TradeInfo :=
  let a := Controller.address0 in Build_TradeInfo a a a a false 0 0 0 0 0 0 "".

Definition sold : TradeInfo * Z * Z * Z := PositionLib.returned (no_index_trade, 0, 0, 0)%Z sample_sale.
Definition spent : TradeInfo * Z * Z * Z := PositionLib.returned (no_index_trade, 0, 0, 0)%Z sample_spend.

Lemma index_sale_ran : sample_sale = Ok (sold, PositionLib.after selling sample_sale).
Proof. apply PositionLib.ran. vm_compute. reflexivity. Qed.

Lemma second_sale_ran :
  second_sale = Ok (PositionLib.returned (no_index_trade, 0, 0, 0)%Z second_sale,
    PositionLib.after later second_sale).
Proof. apply PositionLib.ran. vm_compute. reflexivity. Qed.

Lemma index_spend_ran : sample_spend = Ok (spent, PositionLib.after spending sample_spend).
Proof. apply PositionLib.ran. vm_compute. reflexivity. Qed.

Lemma first_trade_of : trades_of "b" "set" "m1" "a" selling (PositionLib.after selling sample_sale).
Proof. apply (Trades_component "b" "set" "m1" "a" "trader" "trader" (10 ^ 17) sold), index_sale_ran. Qed.

Lemma second_trade_of : trades_of "b" "set" "m1" "a" later (PositionLib.after later second_sale).
Proof.
  apply (Trades_component "b" "set" "m1" "a" "trader" "trader" (10 ^ 17)
    (PositionLib.returned (no_index_trade, 0, 0, 0)%Z second_sale)), second_sale_ran.
Qed.

(** ** Witnesses *)

Lemma index_trades_covered_witness :
  sold.1.1.2 = (10 ^ 17)%Z ∧ collateralized "set" (PositionLib.after selling sample_sale).
Proof.
  split; [vm_compute; reflexivity|].
  apply (index_trades_covered "b" "set" "m1" selling); [discriminate|discriminate| |].
  - exists SetToken.sample_fee. apply selling_covered.
  - apply rtc_once. exists "a". split; [discriminate|]. apply first_trade_of.
Defined.

Lemma params_at_time (c : Address) (t : Z) w : params_of "set" c (at_time t w) = params_of "set" c w.
Proof. done. Qed.

Lemma index_trades_spaced_witness :
  block_timestamp later = 1060%Z ∧
  (block_timestamp (PositionLib.after selling sample_sale) +
   coolOffPeriod (params_of "set" "a" (PositionLib.after selling sample_sale)) ≤ block_timestamp later)%Z.
Proof.
  split; [reflexivity|].
  apply (index_trades_spaced "b" "set" "m1" "a" selling _ later (PositionLib.after later second_sale));
    [discriminate|discriminate|discriminate| | | | |].
  - exists SetToken.sample_fee. apply selling_covered.
  - apply index_words_check_ok. vm_compute. reflexivity.
  - apply first_trade_of.
  - apply params_at_time.
  - apply second_trade_of.
Defined.

Lemma index_trade_terms_witness :
  sold.2 = 100100000000000%Z ∧ isSendTokenFixed sold.1.1.1 = true ∧
  may_trade "trader" "trader" "set" selling ∧
  IERC20_balanceOf "b" "set" (PositionLib.after selling sample_sale) = Ok 99999900000000003%Z.
Proof.
  split; [vm_compute; reflexivity|]. split; [vm_compute; reflexivity|]. pose proof index_sale_ran as Hran.
  destruct sold as [[[i sent] received] fee] eqn:Es.
  destruct (index_trade_terms "b" "set" "m1" "trader" "trader" "a" (10 ^ 17) i sent received fee selling
    (PositionLib.after selling sample_sale) SetToken.sample_fee) as (Hm & _);
    [discriminate|discriminate|discriminate|apply selling_covered| | |exact Hran|].
  - apply index_words_check_ok. vm_compute. reflexivity.
  - apply word_check_ok. vm_compute. reflexivity.
  - split; [exact Hm|]. vm_compute. reflexivity.
Defined.

Lemma remaining_terms_witness :
  spent.1.1.2 = 2%Z ∧ spent.1.2 = 5000%Z ∧ tradable "b" "set" "c" spending ∧
  (spent.1.2 + spent.2 < 10 ^ 18)%Z.
Proof.
  split; [vm_compute; reflexivity|]. split; [vm_compute; reflexivity|]. pose proof index_spend_ran as Hran.
  destruct spent as [[[i sent] received] fee] eqn:Es.
  destruct (remaining_terms "b" "set" "m1" "trader" "trader" "c" 5000 i sent received fee spending
    (PositionLib.after spending sample_spend) SetToken.sample_fee)
    as (_ & Htr & _ & _ & _ & _ & Hmax & _);
    [discriminate|discriminate|discriminate|apply spending_covered| | |exact Hran|].
  - apply index_words_check_ok. vm_compute. reflexivity.
  - apply index_words_check_ok. vm_compute. reflexivity.
  - split; [exact Htr|].
    replace (maxSize (params_of "set" "c" (PositionLib.after spending sample_spend))) with (10 ^ 18)%Z in Hmax
      by (vm_compute; reflexivity).
    exact Hmax.
Defined.

(** ** The target of ether that is compared

    The spending of the ether left is refused, though the ether is above its target:
    the comparison is with the target as it was recorded, not for the multiplier the
    set has now. *)
Lemma recorded_target_refuses :
  index_target "set" "b" halved SetToken.sample_fee = 1%Z ∧
  PositionLib.real_unit SetToken.sample_fee "b" = 2%Z ∧
  match tradeRemainingWETH "b" "m1" "trader" "trader" "set" "c" 5000 halved with
  | Throw e => e = Revert "WETH is below target unit"
  | Ok _ => False
  end.
Proof. split; [vm_compute; reflexivity|]. split; [vm_compute; reflexivity|]. vm_compute. reflexivity. Qed.
End IndexSample.
